(* ===== verification/_CoqProject ===== *)
-Q . S2P
Prelude.v
Machine.v
Ethereum.v
VoteSignature.v
Keccak.v
Fixtures.v
GuestVoting.v
GuestDelegation.v
GuestExecution.v
GuestContext.v
GuestIO.v
VotingGuest.v
Signing.v
ExecutionGuest.v
Abi.v
AbiSpec.v
Seal.v
HostStrategies.v
Json.v
Simulation.v
Publisher.v
HostFixture.v
EndToEnd.v
ConfigJson.v
Server.v
CommandLine.v
Tooling.v
Bodies.v
Solidity.v
Steel.v
Sha256.v
JournalDecode.v
Plugin.v
PluginFixture.v
PluginCorrect.v
PluginViews.v
Ballots.v
ByteOrder.v
StructHash.v
Verifiers.v
Token.v
PluginSetup.v
Deploy.v
Interfaces.v
Governance.v
Delivery.v
Calldata.v
Integration.v
VerifierStack.v
Census.v
TallyBound.v
