(* ===== verification/Prelude.v ===== *)
(** * Verification of the zkVoting plugin

    The repository lets a DAO vote with zero-knowledge proofs.  A voter signs
    a vote; a host program (the publisher) reads the DAO's configuration from
    the chain, computes the voter's power in a preflight, has a guest program
    proved in a zkVM, and sends the guest's journal with the seal of the proof
    to a plugin contract, which has a verifier contract check the proof and
    counts the vote.  A second pair of programs proves that a tally makes a
    proposal executable, for the plugin to execute it.  A web server stores
    votes and starts the publisher.  This library models the Rust programs and
    the Solidity contracts and proves what they guarantee, each alone and
    together.

    ** Parts and files

    - [Prelude] (this file): results, panics, the state-passing monad, the
      [?] operator, and the list lemmas and tactics the components share.
    - [Machine]: bytes, byte arrays, addresses and 256-bit integers, with the
      wrap-around of the [ruint] crate written out.
    - [Ethereum]: the contract interfaces of the [sol!] blocks, the EVM
      environments of guest and host as records of view functions, and the
      configuration structs ([strategies/src/lib.rs]).
    - [VoteSignature]: [to_hex_string], [into_recovery_id], [ecrecover] and
      [hash_vote] of [methods/guest/src/bin/voting_protocol.rs].
    - [Keccak]: the Keccak-256 function of FIPS 202's permutation, an instance
      of the interface of [VoteSignature] that computes selectors.
    - [Fixtures]: a small example chain on which the examples evaluate.
    - [GuestVoting], [GuestDelegation], [GuestExecution]: the strategies of
      the crate [strategies]: [BalanceOf], [GetPastVotes], [SplitDelegation],
      [MajorityVoting].  Traits are type classes, trait objects are records
      that pack a type with its instance.
    - [GuestContext]: [strategies::Context], the registry of strategies.
    - [GuestIO]: the guest's input stream and journal.
    - [VotingGuest], [ExecutionGuest]: [main] of the two guest programs,
      [voting_protocol.rs] and [execution_protocol.rs].
    - [Signing]: [tests/src/lib.rs], the client that signs a vote.
    - [Abi]: the Solidity ABI of the two journal structs, a reference for the
      interfaces that encode and decode them.  [AbiSpec]: the types of the
      ABI, their names and the encoding that its specification prescribes.
    - [Seal]: [encode_seal] of [lib/risc0/lib.rs] and [groth16.rs].
    - [HostStrategies]: the crate [apps]: the host's strategies and
      [HostContext].  Preflight calls append to a record, which is the state.
    - [Json]: descriptions of the types that [serde] derives readers for,
      their compact JSON text, and the interface of [serde_json].
    - [Simulation]: the relation between a host computation and the guest
      computation it prepares, closed under sequencing, mapping and folding,
      and its instances for every strategy.
    - [Publisher]: [main] of [apps/src/bin/publisher.rs] and
      [execution_publisher.rs].
    - [HostFixture]: a node, a prover and a word encoding for the examples.
    - [EndToEnd]: theorems about publisher and guest together.
    - [ConfigJson]: the configuration structs of the two crates as such
      descriptions, and [script/RiscVotingProtocolConfig.txt].
    - [Server]: [server/src/main.rs] and its migration.
    - [CommandLine]: the command line between the two: [struct Args] of
      [publisher.rs] as declarations of a parser, and the publisher as a
      process with an exit status.
    - [Tooling]: the command lines of [test-sepolia.sh] and of the integration
      test, the start of the server, and [methods/build.rs].
    - [Bodies]: the JSON bodies of the server's requests, from a posted body to
      the transaction of the publisher.

    The contracts ([contracts/] and [lib/risc0/]):

    - [Solidity]: calls that return or revert, checked arithmetic, mappings
      and ABI words.
    - [Steel]: [lib/risc0/steel/Steel.sol], commitments on chain.
    - [Sha256]: the interface of the precompile, and the function of the
      standard as the instance that computes the digests the code fixes.
    - [JournalDecode]: [decodeJournal] of [RiscVotingProtocolPlugin.sol], on
      the journals the two guests encode.
    - [Plugin]: [MajorityVotingBase.sol] and [RiscVotingProtocolPlugin.sol]:
      the storage as records, one definition per function, the events as a
      log.  [PluginFixture] is an example deployment, [PluginCorrect] has the
      calls as a step relation and the theorems about reachable states,
      [PluginViews] the public getters, and [Ballots] relates the running tally
      to the ballots in the log.
    - [ByteOrder]: [Util.sol].  [StructHash]: [StructHash.sol] and the receipt
      libraries of [IRiscZeroVerifier.sol].
    - [Verifiers]: the mock verifier, [groth16/], the router and the emergency
      stop.
    - [Token]: [ERC20.sol].  [PluginSetup]: [RiscVotingProtocolPluginSetup.sol].
    - [Deploy]: [script/DeployCounter.s.sol], the settings it chooses and their
      ABI encoding, against the setup contract and the plugin.
    - [Interfaces]: the signatures that the [sol!] blocks and the contracts
      declare, the selectors and [supportsInterface].
    - [Governance]: guests and plugin together, through the verifier.
      [Delivery]: publisher, prover, guest and plugin together.
    - [Calldata]: calls of the plugin as bytes, from the publishers and the
      guests to the functions of [Plugin].
    - [Integration]: [tests/tests/integration_tests.rs], the settings it encodes
      and the plugin it looks for.
    - [VerifierStack]: the verifier contracts at addresses, calling each other,
      as the verifiers of the plugin.
    - [Census]: the voting power that a list of accounts holds in a block, and
      what the claims of votes can take of it.  [TallyBound]: runs of the
      plugin with the journals submitted, and the tally against the census.

    ** How the code is modelled

    A Rust panic ends a computation ([Panics]), an [anyhow] error is a value
    ([Err]); code that does both returns [outcome (result A)].  Code that
    reads input, records preflight calls or sends transactions passes that
    state explicitly.  [async] calls are sequential in these programs and are
    modelled so.  Console output is left out, except where evaluating its
    arguments can panic.  Crates that are not in the repository are type
    classes ([AlloyText], [KeccakV256], [K256], [Steel], [ZkvmSerde],
    [HexCrate], [SerdeConfig], [SerdeJson], [AddressText], the two journal
    encodings, [HostNode]); what a
    theorem needs of one is a separate class of laws: [ZkvmSerdeOk] (a value
    written at a type is read back), [ProverOk] (a receipt's journal is what
    the program committed), [SteelOk] (the guest's view answers the recorded
    calls as the node did), [SameConfig] (the two crates read one
    configuration text alike; [same_config_node] derives it from the structs),
    [ClapOk] and [CliTextOk] (arguments written [--name=value] are read back,
    and integers are in range), [ClapRequired] (a required argument that is
    missing is an error), [WalletOk] (the key of a wallet is recovered from its
    signatures), [HexOk], [SerdeJsonOk] (a printed value is read back,
    what is read has the type asked for, the empty text is no value) and
    [AddressTextOk].  [HostFixture], [EndToEnd], [CommandLine], [Tooling],
    [Signing], [Json] and [ConfigJson] show that the laws can hold together.

    A contract function takes the context of the call (sender, block) and the
    storage and returns the new storage or reverts, which leaves the old one:
    [Done] and [Reverts].  Arithmetic reverts on overflow and storage fields
    keep the width of their types.  [execute] hands control to the DAO in the
    middle; what it does before the hand-over is one step and what the DAO
    calls back are further steps, so that the invariants hold under
    re-entrance.  Aragon OSx is the class [Osx] with the laws [OsxOk] and the
    verifiers behind an address are [Verifiers] with [VerifiersOk]; the curve
    precompiles are [Bn254].  [VerifierSound] says that an accepted proof for
    an image identifier and a journal digest means that the program committed
    a journal with that digest, and [groth16_sound] says it of one seal and the
    Groth16 verifier with the repository's constants.  Collisions of the hash
    functions are not excluded but named in the conclusions, always of given
    bytes: the journal submitted, or the messages and claims compared.
    [GuestTyped] and [VotingAbiOk] are the typing of what a guest reads and
    the ABI of what it writes.  [ProofsOf] restricts the inputs that proofs
    are made for; [ProverComplete] and [BlockCommitted] say that accepted runs
    can be proved and that inputs are of the block asked for.  Foundry and the
    OSx factories are [Vm] and [Factories], its permissions [PermissionManager]
    with [PermissionManagerOk].  [PluginFixture], [PluginCorrect], [PluginSetup],
    [Governance], [Delivery], [VerifierStack], [Deploy] and [TallyBound]
    instantiate these.

    Recursion is structural, except that three loops count down:
    [push_actions] and [taggedList_loop], whose fuel is one more than the
    length of the list and enough by [push_actions_all] and
    [tagged_list_loop_spec], and [chunks_exact], which counts the length of
    its input.  Calls between verifiers nest up to [CALL_DEPTH], the limit of
    the EVM, beyond which a call reverts.

    ** What the theorems show

    - Guests: on every input stream, exactly when each program commits, and
      what ([voting_guest_correct], [execution_guest_correct]); which
      signatures are recovered and what a signed digest binds; a vote that the
      client signs is recovered as its wallet's ([signed_vote_recovered]).
    - Strategies: what [SplitDelegation] accepts, rejects and panics on, how
      far a share may be from the exact one, when the ratio of a share is zero
      ([split_delegation_share]), and that the shares of one delegator whose
      ratios do not wrap sum to at most twice its power; that [MajorityVoting]
      decides by quorum and majority while the counts do not overflow.
    - Host and guest: the preflight refines the guest's computation, a passed
      dry run means that the guest accepts, and what a publisher sends is the
      journal of a backed vote.
    - Configurations: guest and host read the shipped file alike, it gives a
      voter exactly their balance in the guest, and the publisher panics on the
      vote of one who delegated to nobody ([shipped_config_votes]).
    - Server: an invariant over all request sequences, the life and the text of
      a row, and that each publisher started for a posted body sends that
      body's vote or fails ([posted_request_published]).
    - Plugin: the life of a proposal over every sequence of calls
      ([proposal_lifecycle], [reachable_typed]); exactly when a proposal is
      created and executed, and with which effect; that the tally is the count
      of the ballots while voters keep their power ([tally_counts_ballots]).
    - Guest and plugin: an accepted vote is backed in the proposal's snapshot
      block ([accepted_vote_backed]), a journal the guest committed
      is decoded and counted ([committed_vote_counts],
      [decode_journal_roundtrip]), and why no vote can be proved for the
      configuration the plugin answers at the snapshot ([no_vote_provable]).
      The last one says that the premises of the others, which ask for a
      configuration at the snapshot block, do not hold for the plugin as it is
      deployed; they show what the other parts guarantee for a contract that
      does answer.
    - Bytes between the parts: the journals that the programs and the contract
      declare are encoded as [Abi] writes them ([voting_journal_spec],
      [execution_journal_spec]), and what the publishers and guests call reaches
      the function they mean with the arguments they gave
      ([calldata_delivers]).
    - Publisher and plugin: what becomes of a vote that passes the publisher's
      test run: the node's error, a refusal by the plugin because the block is
      not the proposal's snapshot (which, by [no_vote_provable], is what
      happens with the deployed plugin), or a counted vote
      ([dry_run_vote_counts]).
    - Tally and chain: over any run of the plugin, with proofs for honest inputs
      only and registries whose ratios do not wrap, a proposal's votes are at
      most twice the power that the accounts hold at the snapshot
      ([tally_bounded]); repeated claims multiply a power
      ([voting_claims_repeat], and on a chain [tally_exceeds_census]), and
      wrapping ratios give every delegate the whole of it
      ([split_delegation_wraps]).
    - Deployment: what the script deploys is accepted by the setup contract and
      the plugin, and the proposals created under its settings carry the
      shipped configuration for ever ([deployment_installs]); the settings that the integration test encodes are
      misread ([integration_settings_misread]).
    - Verifiers: the byte swaps are the reversal, the list hash is its
      recursive reference, claims bind the image and the journal, the public
      signals are in the field and determine the claim, one selector has one
      verifier for ever, and a stopped verifier stays stopped.  Behind a router
      and emergency stops the plugin's guarantee is that of the Groth16
      verifier at the end of the calls ([routed_vote_backed]), and a revoked
      selector is refused for ever ([revoked_seal_refused]).
    - Token and setup: supply and balances agree, and what an installation
      grants and a removal leaves.
    - Divergences: where the code does not do what it means to, a theorem
      states what it does instead (inflated, undelegated, repeated and wrapped shares,
      the unused signer, wrapping tallies, the block asked for past votes, the
      order and the journal type of the execution programs, the ignored exit
      status, the tally that [execute] ignores, votes outside the window or
      replaced at another power, the configuration read before it exists, the
      supply function the token lacks, the helpers of the setup, the settings
      of the integration test, the arguments of the test script).

    ** What is not modelled

    Logging, and the parsing of request paths by [actix-web].  The command line
    of the execution publisher: its tally is one argument that [clap] splits
    into three values, and the rules for such arguments are [clap]'s; its
    [main] is modelled from the parsed arguments.  What [supportsInterface]
    inherits.  Aragon OSx, OpenZeppelin, [clap], [serde], [alloy], the zkVM and
    the prover, which are not in the repository.  The parts of the integration
    test and of [test-sepolia.sh] that drive a node or print.  The Foundry test
    libraries ([RiscZeroCheats.sol], [Strings2.sol]), whose functions are
    foreign-function calls of the test runner, and the test modules inside the
    Rust crates. *)

From stdpp Require Import base gmap list strings.
From Stdlib Require Import ZArith Lia Strings.Byte.

(** ** Results and panics

    Rust code fails in two ways: by returning an [anyhow] error, which is a
    value the caller inspects, or by panicking, which ends the program.  The
    two are kept apart: [result] is the value, [outcome] the computation. *)

Inductive result (A : Type) : Type :=
| Ok (a : A)
| Err (msg : string).
Arguments Ok {A} a.
Arguments Err {A} msg.

(** The ways the code of the repository panics. *)
Inductive panic : Type :=
| PanicMsg (msg : string)      (* [panic!("...")] *)
| ExpectFailed (msg : string)  (* [.expect("...")] *)
| UnwrapFailed                 (* [.unwrap()] on [None] or [Err] *)
| AssertFailed                 (* [assert!(..)] *)
| IndexOutOfBounds             (* [v[i]], [&v[a..b]], [&s[a..]] *)
| DivisionByZero               (* [a / b] on integers *)
| CallFailed.                  (* an EVM view call that does not return, inside the guest *)

Inductive outcome (A : Type) : Type :=
| Ret (a : A)
| Panics (p : panic).
Arguments Ret {A} a.
Arguments Panics {A} p.

#[export] Instance panic_eq_dec : EqDecision panic.
Proof. solve_decision. Defined.
#[export] Instance outcome_eq_dec `{EqDecision A} : EqDecision (outcome A).
Proof. solve_decision. Defined.
#[export] Instance result_eq_dec `{EqDecision A} : EqDecision (result A).
Proof. solve_decision. Defined.

#[export] Instance outcome_ret : MRet outcome := λ A a, Ret a.
#[export] Instance outcome_bind : MBind outcome := λ A B f m,
  match m with Ret a => f a | Panics p => Panics p end.
#[export] Instance outcome_fmap : FMap outcome := λ A B f m,
  match m with Ret a => Ret (f a) | Panics p => Panics p end.

(** [option::unwrap], [option::expect], [Result::unwrap], [assert!], [v[i]]. *)
Definition unwrap {A} (o : option A) : outcome A :=
  match o with Some a => Ret a | None => Panics UnwrapFailed end.
Definition expect {A} (msg : string) (o : option A) : outcome A :=
  match o with Some a => Ret a | None => Panics (ExpectFailed msg) end.
Definition unwrap_result {A} (r : result A) : outcome A :=
  match r with Ok a => Ret a | Err _ => Panics UnwrapFailed end.
Definition rassert (b : bool) : outcome unit :=
  if b then Ret tt else Panics AssertFailed.
Definition index {A} (l : list A) (i : nat) : outcome A :=
  match l !! i with Some a => Ret a | None => Panics IndexOutOfBounds end.
(** [&v[a..b]] *)
Definition slice {A} (a b : nat) (l : list A) : outcome (list A) :=
  if decide (a ≤ b ∧ b ≤ length l) then Ret (take (b - a) (drop a l))
  else Panics IndexOutOfBounds.

Definition is_none {A} (o : option A) : bool :=
  match o with Some _ => false | None => true end.
Definition is_empty {A} (l : list A) : bool :=
  match l with [] => true | _ :: _ => false end.
Definition is_ret {A} (o : outcome A) : bool :=
  match o with Ret _ => true | Panics _ => false end.
Definition is_err {A} (r : result A) : bool :=
  match r with Ok _ => false | Err _ => true end.

(** ** Stateful computations that may panic

    A panic ends the computation; the effects made before it stay. *)

Definition stateful (S A : Type) : Type := S → outcome A * S.

#[export] Instance stateful_ret {S} : MRet (stateful S) := λ A a s, (Ret a, s).
#[export] Instance stateful_bind {S} : MBind (stateful S) := λ A B f m s,
  match m s with
  | (Ret a, s') => f a s'
  | (Panics p, s') => (Panics p, s')
  end.

(** An outcome that touches no state. *)
Definition lift {S A} (o : outcome A) : stateful S A := λ s, (o, s).

(** The [?] operator: leave the enclosing function with the error. *)
Definition try_ {S A B} (r : result A) (k : A → stateful S (result B)) :
    stateful S (result B) :=
  match r with Ok a => k a | Err e => mret (Err e) end.

Declare Scope zkgov_scope.
Delimit Scope zkgov_scope with zkgov.
Notation "x <-? c ; k" := (mbind (λ r, try_ r (λ x, k)) c)
  (at level 20, c at level 100, k at level 200, only parsing) : zkgov_scope.
Open Scope zkgov_scope.

(** ** Lemmas and automation on outcomes *)

Create HintDb zkgov.
Create Rewrite HintDb zkgov.

Lemma bind_Ret {A B} (f : A → outcome B) a : (Ret a ≫= f) = f a.
Proof. done. Qed.

Lemma bind_Ret_inv {A B} (m : outcome A) (f : A → outcome B) b :
  (m ≫= f) = Ret b ↔ ∃ a, m = Ret a ∧ f a = Ret b.
Proof. destruct m; simpl; naive_solver. Qed.

Lemma bind_assoc {A B C} (m : outcome A) (f : A → outcome B) (g : B → outcome C) :
  ((m ≫= f) ≫= g) = (m ≫= λ a, f a ≫= g).
Proof. by destruct m. Qed.

Lemma unwrap_Ret {A} (o : option A) a : unwrap o = Ret a ↔ o = Some a.
Proof. destruct o; simpl; naive_solver. Qed.
Lemma expect_Ret {A} msg (o : option A) a : expect msg o = Ret a ↔ o = Some a.
Proof. destruct o; simpl; naive_solver. Qed.
Lemma unwrap_result_Ret {A} (r : result A) a : unwrap_result r = Ret a ↔ r = Ok a.
Proof. destruct r; simpl; naive_solver. Qed.
Lemma rassert_Ret b u : rassert b = Ret u ↔ b = true.
Proof. destruct b, u; simpl; naive_solver. Qed.
Lemma index_Ret {A} (l : list A) i a : index l i = Ret a ↔ l !! i = Some a.
Proof. unfold index. case_match; naive_solver. Qed.
Lemma slice_Ret {A} a b (l r : list A) :
  slice a b l = Ret r ↔ (a ≤ b ∧ b ≤ length l) ∧ take (b - a) (drop a l) = r.
Proof. unfold slice. case_decide; naive_solver. Qed.

Lemma is_empty_true {A} (l : list A) : is_empty l = true ↔ l = [].
Proof. by destruct l. Qed.
Lemma is_empty_false {A} (l : list A) : is_empty l = false ↔ l ≠ [].
Proof. by destruct l. Qed.

(** Looking up by a key that no two elements share. *)
Lemma find_NoDup {A} `{EqDecision B} (key : A → B) (l : list A) (x : A) :
  NoDup (key <$> l) → x ∈ l → find (λ y, bool_decide (key y = key x)) l = Some x.
Proof.
  induction l as [|y l IH]; [by intros _ ?%not_elem_of_nil|].
  rewrite fmap_cons, NoDup_cons. intros [Hy Hl] [->|Hx]%elem_of_cons; simpl.
  - by rewrite bool_decide_eq_true_2.
  - rewrite bool_decide_eq_false_2; [by apply IH|]. intros He. destruct Hy. rewrite He.
    by apply list_elem_of_fmap_2.
Qed.

(** A finite choice: some element is of the first kind, or all of the second. *)
Lemma Exists_or_Forall {A} (P Q : A → Prop) l :
  (∀ x, x ∈ l → P x ∨ Q x) → (∃ x, x ∈ l ∧ P x) ∨ Forall Q l.
Proof.
  induction l as [|x l IH]; intros Hl; [by right|].
  destruct (Hl x ltac:(left)) as [?|Hx]; [left; exists x; by split; [left|]|].
  destruct IH as [(y & ? & ?)|?]; [intros; apply Hl; by right|left|right; by constructor].
  exists y. by split; [right|].
Qed.

(** Invert every successful bind, [unwrap], [expect] and [assert!] among the
    hypotheses. *)
Ltac outcome_inv :=
  repeat match goal with
  | H : (_ ≫= _) = Ret _ |- _ => apply bind_Ret_inv in H as (? & ? & H)
  | H : unwrap _ = Ret _ |- _ => apply unwrap_Ret in H
  | H : expect _ _ = Ret _ |- _ => apply expect_Ret in H
  | H : unwrap_result _ = Ret _ |- _ => apply unwrap_result_Ret in H
  | H : rassert _ = Ret _ |- _ => apply rassert_Ret in H
  | H : index _ _ = Ret _ |- _ => apply index_Ret in H
  | H : Ret _ = Ret _ |- _ => injection H as H
  | H : Panics _ = Ret _ |- _ => discriminate H
  end.

(** [iter().map(f).collect()] with a panicking [f] stops at the first panic. *)
Lemma mapM_Ret {A B} (f : A → outcome B) (l : list A) (k : list B) :
  mapM f l = Ret k ↔ Forall2 (λ a b, f a = Ret b) l k.
Proof.
  revert k. induction l as [|a l IH]; intros k; simpl.
  - split; [intros [= <-]; constructor | by inversion 1].
  - rewrite bind_Ret_inv. setoid_rewrite bind_Ret_inv. setoid_rewrite IH. split.
    + intros (b & Hb & k' & Hk & [= <-]). by constructor.
    + inversion 1; subst. eauto 6.
Qed.

Lemma mapM_ext {A B} (f g : A → outcome B) (l : list A) :
  (∀ a, a ∈ l → f a = g a) → mapM f l = mapM g l.
Proof.
  induction l as [|a l IH]; intros Hfg; [done|]. simpl.
  rewrite Hfg by left. rewrite IH; [done|]. intros; apply Hfg; by right.
Qed.

Lemma mapM_app {A B} (f : A → outcome B) (l l' : list A) :
  mapM f (l ++ l') = (k ← mapM f l; k' ← mapM f l'; Ret (k ++ k')).
Proof.
  induction l as [|a l IH]; simpl.
  - by destruct (mapM f l').
  - destruct (f a); [simpl|done]. rewrite IH.
    destruct (mapM f l); [simpl|done]. by destruct (mapM f l').
Qed.

(** [iter().fold(init, f)] with a panicking or effectful [f]. *)
Fixpoint foldM `{MBind M, MRet M} {A B} (f : B → A → M B) (acc : B) (l : list A) : M B :=
  match l with
  | [] => mret acc
  | a :: l => acc' ← f acc a; foldM f acc' l
  end.

(** A fold that first computes a part of each element, then combines. *)
Lemma foldM_Ret {A B C} (g : A → outcome C) (h : B → C → B) acc (l : list A) r :
  foldM (M:=outcome) (λ acc a, c ← g a; Ret (h acc c)) acc l = Ret r ↔
  ∃ cs, Forall2 (λ a c, g a = Ret c) l cs ∧ r = foldl h acc cs.
Proof.
  revert acc. induction l as [|a l IH]; intros acc; simpl.
  - split; [intros [= <-]; by exists []|]. intros (cs & Hcs & ->). by inversion Hcs.
  - rewrite bind_Ret_inv. setoid_rewrite IH. setoid_rewrite bind_Ret_inv. split.
    + intros (acc' & (c & Hc & [= <-]) & cs & Hcs & ->). exists (c :: cs). by split; [constructor|].
    + intros (cs & Hcs & ->). inversion Hcs as [|? c ? cs' Hc Hcs']; subst. eauto 8.
Qed.

Lemma foldM_ext {A B} (f g : B → A → outcome B) acc (l : list A) :
  (∀ b a, a ∈ l → f b a = g b a) → foldM f acc l = foldM g acc l.
Proof.
  revert acc. induction l as [|a l IH]; intros acc Hfg; simpl; [done|].
  rewrite Hfg by left. destruct (g acc a); simpl; [|done]. apply IH. intros. apply Hfg. by right.
Qed.

(** [into_iter().map(|d| d.unwrap()).collect()] once no element is [None]. *)
Lemma mapM_unwrap_Ret {A} (l : list (option A)) :
  existsb is_none l = false ↔ ∃ k, mapM unwrap l = Ret k.
Proof.
  induction l as [|[a|] l IH]; simpl; [naive_solver| |].
  - rewrite IH. split; [intros [k Hk]; rewrite Hk; by eexists|].
    intros [k Hk]. outcome_inv. eauto.
  - split; [done|]. by intros [k Hk].
Qed.

Lemma mapM_unwrap_fmap {A} (k : list A) : mapM unwrap (Some <$> k) = Ret k.
Proof. apply mapM_Ret. induction k; simpl; by constructor. Qed.

Lemma mapM_unwrap_inv {A} (l : list (option A)) k :
  mapM unwrap l = Ret k → l = Some <$> k.
Proof. rewrite mapM_Ret. induction 1; simpl; [done|]. outcome_inv. by subst. Qed.

#[export] Hint Rewrite @bind_Ret : zkgov.

(** ** [slice::chunks_exact]

    The complete chunks of [n] elements, in order; a shorter remainder is
    dropped.  The length of the list is enough fuel, since each chunk removes
    [n > 0] elements. *)
Fixpoint chunks_go {A} (fuel n : nat) (l : list A) : list (list A) :=
  match fuel with
  | O => []
  | S fuel =>
      if decide (length l < n) then []
      else take n l :: chunks_go fuel n (drop n l)
  end.
Definition chunks_exact {A} (n : nat) (l : list A) : list (list A) :=
  chunks_go (length l) n l.

Lemma chunks_go_concat {A} n (ls : list (list A)) fuel :
  0 < n → Forall (λ c, length c = n) ls → length (concat ls) ≤ fuel →
  chunks_go fuel n (concat ls) = ls.
Proof.
  intros Hn Hls. revert fuel. induction Hls as [|c ls Hc Hls IH]; intros fuel Hfuel; simpl.
  - destruct fuel; simpl; [done|]. by rewrite decide_True by lia.
  - simpl in Hfuel. rewrite length_app in Hfuel. destruct fuel as [|fuel]; [lia|]. simpl.
    rewrite decide_False by (rewrite length_app; lia).
    rewrite take_app_length', drop_app_length' by done. f_equal. apply IH. lia.
Qed.

Lemma chunks_exact_concat {A} n (ls : list (list A)) :
  0 < n → Forall (λ c, length c = n) ls → chunks_exact n (concat ls) = ls.
Proof. intros. by apply chunks_go_concat. Qed.

(** A list whose length is a multiple of [n] is the concatenation of its chunks. *)
Lemma chunks_exact_spec {A} n (l : list A) :
  0 < n → length l mod n = 0 →
  concat (chunks_exact n l) = l ∧ Forall (λ c, length c = n) (chunks_exact n l).
Proof.
  intros Hn Hmod.
  assert (∃ ls, l = concat ls ∧ Forall (λ c, length c = n) ls) as (ls & -> & Hls).
  { remember (length l / n) as q eqn:Hq.
    assert (length l = n * q) as Hlen by (rewrite (Nat.div_mod_eq (length l) n); lia).
    clear Hq Hmod. revert l Hlen. induction q as [|q IH]; intros l Hlen.
    - exists []. destruct l; simpl in *; [done|lia].
    - destruct (IH (drop n l)) as (ls & Hl & Hls); [rewrite length_drop; lia|].
      exists (take n l :: ls). simpl. rewrite <-Hl, take_drop. split; [done|].
      constructor; [rewrite length_take; lia|done]. }
  by rewrite chunks_exact_concat.
Qed.

(** ** Repetition *)

Lemma Forall2_concat_replicate {A B} (P : A → B → Prop) n l k :
  Forall2 P l k → Forall2 P (concat (replicate n l)) (concat (replicate n k)).
Proof. intros. induction n; simpl; [constructor|]. by apply Forall2_app. Qed.

Lemma concat_fmap_replicate {A B} (f : A → list B) n (l : list A) :
  concat (f <$> concat (replicate n l)) = concat (replicate n (concat (f <$> l))).
Proof. induction n as [|n IH]; simpl; [done|]. by rewrite fmap_app, concat_app, IH. Qed.

#[export] Hint Resolve Forall2_concat_replicate : zkgov.
