(* ===== verification/Machine.v ===== *)
(** * Machine data: bytes, fixed-width byte arrays and 256-bit integers

    Bytes are [Byte.byte]; [FixedBytes n] is a byte list whose length is [n]
    by construction ([alloy_primitives::FixedBytes<N>], and [Address] which
    wraps [FixedBytes<20>]).  A [U256] is a [Z] whose operators write out the
    documented behaviour of the Rust type: [+] and [sum] wrap modulo 2^256,
    [/] truncates and panics when the divisor is zero. *)

From stdpp Require Import base gmap list strings.
From Stdlib Require Import ZArith Lia Strings.Byte.
From S2P Require Import Prelude.
#[local] Open Scope Z_scope.

(** ** Bytes *)

#[export] Instance byte_eq_dec : EqDecision byte := Byte.byte_eq_dec.
#[export] Program Instance byte_countable : Countable byte :=
  inj_countable Byte.to_N Byte.of_N Byte.of_to_N.

Definition Z_of_byte (b : byte) : Z := Z.of_N (Byte.to_N b).
(** [z as u8] *)
Definition byte_of_Z (z : Z) : byte :=
  default x00 (Byte.of_N (Z.to_N (z mod 256))).

Lemma Z_of_byte_range b : 0 <= Z_of_byte b < 256.
Proof. unfold Z_of_byte. pose proof (Byte.to_N_bounded b). lia. Qed.

Lemma Z_of_byte_of_Z z : Z_of_byte (byte_of_Z z) = z mod 256.
Proof.
  unfold Z_of_byte, byte_of_Z.
  pose proof (Z.mod_pos_bound z 256 eq_refl) as Hz.
  destruct (Byte.of_N (Z.to_N (z mod 256))) as [b|] eqn:E; simpl.
  - apply Byte.to_of_N in E. rewrite E. lia.
  - apply Byte.of_N_None_iff in E. lia.
Qed.

Lemma byte_of_Z_of_byte b : byte_of_Z (Z_of_byte b) = b.
Proof.
  unfold byte_of_Z. rewrite Z.mod_small by apply Z_of_byte_range.
  unfold Z_of_byte. by rewrite N2Z.id, Byte.of_to_N.
Qed.

Lemma byte_of_Z_inj z z' :
  0 <= z < 256 → 0 <= z' < 256 → byte_of_Z z = byte_of_Z z' → z = z'.
Proof.
  intros ?? H. apply (f_equal Z_of_byte) in H.
  rewrite !Z_of_byte_of_Z, !Z.mod_small in H by lia. done.
Qed.

(** ** Big-endian encodings ([to_be_bytes], [to_be_bytes_vec]) *)

Fixpoint be_bytes (n : nat) (z : Z) : list byte :=
  match n with
  | O => []
  | S m => byte_of_Z (z / 256 ^ Z.of_nat m) :: be_bytes m z
  end.

Fixpoint be_value (l : list byte) : Z :=
  match l with
  | [] => 0
  | b :: l => Z_of_byte b * 256 ^ Z.of_nat (length l) + be_value l
  end.

Lemma length_be_bytes n z : length (be_bytes n z) = n.
Proof. induction n; simpl; congruence. Qed.

Lemma be_value_be_bytes n z : be_value (be_bytes n z) = z mod 256 ^ Z.of_nat n.
Proof.
  induction n as [|n IH]; cbn [be_bytes be_value]; [by rewrite Z.mod_1_r|].
  rewrite length_be_bytes, Z_of_byte_of_Z, IH.
  rewrite Nat2Z.inj_succ, Z.pow_succ_r by lia.
  rewrite (Z.mul_comm 256), Z.rem_mul_r by lia. lia.
Qed.

Lemma be_bytes_inj n z z' :
  0 <= z < 256 ^ Z.of_nat n → 0 <= z' < 256 ^ Z.of_nat n →
  be_bytes n z = be_bytes n z' → z = z'.
Proof.
  intros Hz Hz' H. apply (f_equal be_value) in H.
  by rewrite !be_value_be_bytes, !Z.mod_small in H.
Qed.

(** Concatenations whose first blocks have the same length split uniquely. *)
Lemma app_inj_length {A} (l1 l2 k1 k2 : list A) :
  length l1 = length k1 → l1 ++ l2 = k1 ++ k2 → l1 = k1 ∧ l2 = k2.
Proof. apply app_inj_1. Qed.

(** ** Fixed-width byte arrays *)

Definition FixedBytes (n : nat) : Type := dsig (λ l : list byte, length l = n).
Abbreviation Address := (FixedBytes 20).

#[export] Instance FixedBytes_eq_dec n : EqDecision (FixedBytes n) := _.
#[export] Instance FixedBytes_countable n : Countable (FixedBytes n) := _.

(** [as_slice], [to_vec], [as_bytes] *)
Definition fb_bytes {n} (a : FixedBytes n) : list byte := proj1_sig a.
Definition mk_fixed {n} (l : list byte) (H : length l = n) : FixedBytes n := dexist l H.

Lemma length_fb_bytes {n} (a : FixedBytes n) : length (fb_bytes a) = n.
Proof. exact (proj2_dsig a). Qed.
Lemma fb_bytes_inj {n} (a b : FixedBytes n) : fb_bytes a = fb_bytes b → a = b.
Proof. apply dsig_eq. Qed.
Lemma fb_bytes_mk {n} (l : list byte) (H : length l = n) : fb_bytes (mk_fixed l H) = l.
Proof. done. Qed.

(** [try_into::<[u8; n]>()]: succeeds exactly on slices of length [n]. *)
Definition fixed_try_from {n} (l : list byte) : option (FixedBytes n) :=
  match decide (length l = n) with left H => Some (mk_fixed l H) | right _ => None end.

Lemma fixed_try_from_Some {n} l (a : FixedBytes n) :
  fixed_try_from l = Some a ↔ fb_bytes a = l.
Proof.
  unfold fixed_try_from. split.
  - case_decide; [|done]. by intros [= <-].
  - intros <-. case_decide as H; [|by destruct H; apply length_fb_bytes].
    f_equal. by apply fb_bytes_inj.
Qed.

Lemma fixed_try_from_length {n} l :
  length l = n → ∃ a : FixedBytes n, fixed_try_from l = Some a ∧ fb_bytes a = l.
Proof. intros H. exists (mk_fixed l H). by rewrite fixed_try_from_Some. Qed.

(** [Address::from_slice] panics unless the slice has 20 bytes. *)
Definition address_from_slice (l : list byte) : outcome Address :=
  match fixed_try_from l with Some a => Ret a | None => Panics IndexOutOfBounds end.

Lemma address_from_slice_bytes (a : Address) : address_from_slice (fb_bytes a) = Ret a.
Proof. unfold address_from_slice. by rewrite (proj2 (fixed_try_from_Some _ a) eq_refl). Qed.

(** The [n]-byte array filled with byte [b], for examples. *)
Definition fixed_repeat (n : nat) (b : byte) : FixedBytes n :=
  mk_fixed (replicate n b) (length_replicate n b).

(** ** 256-bit unsigned integers *)

Abbreviation U256 := Z.
Definition U256_MOD : Z := 2 ^ 256.
Definition u256_wf (x : U256) : Prop := 0 <= x < U256_MOD.
Definition u64_wf (x : Z) : Prop := 0 <= x < 2 ^ 64.
Definition u8_wf (x : Z) : Prop := 0 <= x < 2 ^ 8.

#[export] Instance u256_wf_dec x : Decision (u256_wf x).
Proof. unfold u256_wf. apply _. Defined.

Definition u256_add (a b : U256) : U256 := (a + b) mod U256_MOD.
Definition u256_div (a b : U256) : outcome U256 :=
  if b =? 0 then Panics DivisionByZero else Ret (a / b).
(** [iter().sum::<U256>()] *)
Definition u256_sum (l : list U256) : U256 := foldl u256_add 0 l.

Definition zsum (l : list Z) : Z := foldr Z.add 0 l.

Lemma u256_mod_pos : 0 < U256_MOD.
Proof. done. Qed.

Lemma u256_add_wf a b : u256_wf (u256_add a b).
Proof. apply Z.mod_pos_bound, u256_mod_pos. Qed.

Lemma u256_add_small a b :
  0 <= a → 0 <= b → a + b < U256_MOD → u256_add a b = a + b.
Proof. intros. apply Z.mod_small. lia. Qed.

Lemma u256_add_comm a b : u256_add a b = u256_add b a.
Proof. unfold u256_add. by rewrite Z.add_comm. Qed.

Lemma u256_div_Ret a b q : u256_div a b = Ret q ↔ b ≠ 0 ∧ q = a / b.
Proof. unfold u256_div. destruct (Z.eqb_spec b 0); naive_solver. Qed.

Lemma u256_div_zero a : u256_div a 0 = Panics DivisionByZero.
Proof. done. Qed.

Lemma u256_div_wf a b q : u256_wf a → u256_wf b → u256_div a b = Ret q → u256_wf q.
Proof.
  unfold u256_wf. intros Ha Hb [Hb0 ->]%u256_div_Ret.
  split; [apply Z.div_pos; lia|]. pose proof (Z.div_le_upper_bound a b a). nia.
Qed.

Lemma u256_foldl_mod (l : list U256) acc :
  foldl u256_add acc l mod U256_MOD = (acc + zsum l) mod U256_MOD.
Proof.
  revert acc. induction l as [|x l IH]; intros acc; simpl; [f_equal; lia|].
  rewrite IH. unfold u256_add. rewrite Zplus_mod_idemp_l. f_equal. lia.
Qed.

Lemma u256_foldl_wf (l : list U256) acc : u256_wf acc → u256_wf (foldl u256_add acc l).
Proof.
  revert acc. induction l as [|x l IH]; intros acc Hacc; simpl; [done|].
  apply IH, u256_add_wf.
Qed.

(** The wrapping sum is the mathematical sum modulo 2^256. *)
Lemma u256_sum_spec (l : list U256) : u256_sum l = zsum l mod U256_MOD.
Proof.
  unfold u256_sum. rewrite <-(Z.mod_small (foldl _ _ _) U256_MOD).
  - by rewrite u256_foldl_mod.
  - apply u256_foldl_wf. unfold u256_wf. pose proof u256_mod_pos. lia.
Qed.

Lemma u256_sum_wf l : u256_wf (u256_sum l).
Proof. rewrite u256_sum_spec. apply Z.mod_pos_bound, u256_mod_pos. Qed.

Lemma zsum_nonneg l : Forall (λ x, 0 <= x) l → 0 <= zsum l.
Proof. induction 1; simpl; lia. Qed.

Lemma zsum_app l k : zsum (l ++ k) = zsum l + zsum k.
Proof. induction l; simpl; lia. Qed.

Lemma zsum_elem_le l x : Forall (λ x, 0 <= x) l → x ∈ l → x <= zsum l.
Proof.
  intros Hl. induction Hl as [|y l Hy Hl IH]; inversion 1; subst; simpl.
  - pose proof (zsum_nonneg l Hl). lia.
  - pose proof (IH ltac:(done)). lia.
Qed.

(** ** Text *)

Lemma list_ascii_of_string_app s t :
  String.list_ascii_of_string (s +:+ t) =
  String.list_ascii_of_string s ++ String.list_ascii_of_string t.
Proof. induction s as [|c s IH]; [done|]. exact (f_equal (cons c) IH). Qed.

Lemma list_byte_of_string_app s t :
  String.list_byte_of_string (s +:+ t) =
  String.list_byte_of_string s ++ String.list_byte_of_string t.
Proof.
  unfold String.list_byte_of_string. by rewrite list_ascii_of_string_app, map_app.
Qed.

(** ** Sums over lists of keys *)

Lemma zsum_le {A} (f g : A → Z) l :
  (∀ x, x ∈ l → f x <= g x) → zsum (f <$> l) <= zsum (g <$> l).
Proof.
  induction l as [|x l IH]; intros Hl; csimpl; [done|].
  pose proof (Hl x ltac:(left)). pose proof (IH ltac:(intros; apply Hl; by right)). lia.
Qed.

Lemma zsum_add {A} (f g : A → Z) l :
  zsum ((λ x, f x + g x) <$> l) = zsum (f <$> l) + zsum (g <$> l).
Proof. induction l; csimpl; lia. Qed.

Lemma zsum_mul {A} (f : A → Z) k l : zsum ((λ x, k * f x) <$> l) = k * zsum (f <$> l).
Proof. induction l; csimpl; lia. Qed.

Lemma zsum_zero {A} (l : list A) : zsum ((λ _, 0) <$> l) = 0.
Proof. by induction l. Qed.

Lemma zsum_swap {A B} (f : A → B → Z) l k :
  zsum ((λ x, zsum (f x <$> k)) <$> l) = zsum ((λ y, zsum ((λ x, f x y) <$> l)) <$> k).
Proof. induction l as [|x l IH]; csimpl; [by rewrite zsum_zero|]. by rewrite IH, zsum_add. Qed.

Lemma zsum_filter {A} (P : A → Prop) `{∀ x, Decision (P x)} (f : A → Z) l :
  zsum ((λ x, if decide (P x) then f x else 0) <$> l) = zsum (f <$> filter P l).
Proof.
  induction l as [|x l IH]; csimpl; [done|]. rewrite filter_cons.
  case_decide; csimpl; lia.
Qed.

Lemma zsum_Permutation l k : l ≡ₚ k → zsum l = zsum k.
Proof. induction 1; csimpl; lia. Qed.

(** A sum over some of the keys is a sum over all of them. *)
Lemma zsum_subset `{EqDecision A} (f : A → Z) l k :
  NoDup l → NoDup k → l ⊆ k →
  zsum (f <$> l) = zsum ((λ x, if decide (x ∈ l) then f x else 0) <$> k).
Proof.
  intros Hl Hk Hsub. rewrite zsum_filter. apply zsum_Permutation, fmap_Permutation.
  apply NoDup_Permutation; [done|by apply NoDup_filter|].
  intros x. rewrite list_elem_of_filter. set_solver.
Qed.

Lemma u256_sum_small l :
  Forall (λ x, 0 <= x) l → zsum l < U256_MOD → u256_sum l = zsum l.
Proof.
  intros. rewrite u256_sum_spec. apply Z.mod_small.
  split; [by apply zsum_nonneg|done].
Qed.

#[export] Hint Resolve u256_add_wf u256_sum_wf length_fb_bytes : zkgov.
#[export] Hint Rewrite length_be_bytes @length_fb_bytes @length_app : zkgov.
