(* ===== verification/Ethereum.v ===== *)
(** * The EVM as the Rust code sees it

    The contract interfaces the [sol!] blocks declare, the commitment of a
    Steel environment, the two EVM environments (guest and host) and the
    configuration types a DAO stores on chain.  The EVM itself and the text
    conversions of [alloy] are not part of the repository: an environment is a
    record of view functions, and [AlloyText] an interface. *)

From stdpp Require Import base gmap list strings.
From Stdlib Require Import ZArith Lia Strings.Byte.
From S2P Require Import Prelude Machine.
#[local] Open Scope Z_scope.

(** ** Contract interfaces *)

(** [interface IERC20] of the [BalanceOf] strategy. *)
Inductive IERC20Call : Type :=
| balanceOfCall (account : Address)
| getTotalSupplyCall.

(** [interface IERC20Votes] of the [GetPastVotes] strategy. *)
Inductive IERC20VotesCall : Type :=
| getPastVotesCall (account : Address) (blockNumber : U256)
| getPastTotalSupplyCall (timepoint : U256).

(** [interface DelegateRegistry]: the struct, the call and what it returns. *)
Record RegistryDelegation : Type := mk_reg {
  reg_delegate : FixedBytes 32;
  reg_ratio : U256
}.
Record getDelegationCall : Type := mk_getDelegation {
  gd_context : string;
  gd_account : Address
}.
Record getDelegationReturn : Type := mk_gdr {
  gdr_delegations : list RegistryDelegation;
  gdr_expirationTimestamp : U256
}.

(** [interface ConfigContract] *)
Record votingProtocolConfigCall : Type := mk_configCall {
  cc_proposal_id : U256
}.

(** Every view call the programs make, with the type it returns. *)
Inductive Call : Type :=
| CallERC20 (c : IERC20Call)
| CallVotes (c : IERC20VotesCall)
| CallRegistry (c : getDelegationCall)
| CallConfig (c : votingProtocolConfigCall).

Definition CallReturn (c : Call) : Type :=
  match c with
  | CallERC20 _ => U256
  | CallVotes _ => U256
  | CallRegistry _ => getDelegationReturn
  | CallConfig _ => string
  end.

#[export] Instance IERC20Call_eq_dec : EqDecision IERC20Call.
Proof. solve_decision. Defined.
#[export] Instance IERC20VotesCall_eq_dec : EqDecision IERC20VotesCall.
Proof. solve_decision. Defined.
#[export] Instance getDelegationCall_eq_dec : EqDecision getDelegationCall.
Proof. solve_decision. Defined.
#[export] Instance votingProtocolConfigCall_eq_dec : EqDecision votingProtocolConfigCall.
Proof. solve_decision. Defined.
#[export] Instance Call_eq_dec : EqDecision Call.
Proof. solve_decision. Defined.

#[export] Instance RegistryDelegation_eq_dec : EqDecision RegistryDelegation.
Proof. solve_decision. Defined.
#[export] Instance getDelegationReturn_eq_dec : EqDecision getDelegationReturn.
Proof. solve_decision. Defined.
#[export] Instance CallReturn_eq_dec c : EqDecision (CallReturn c).
Proof. destruct c; simpl; apply _. Defined.

(** ** Environments *)

(** [Steel.Commitment] *)
Record Commitment : Type := mk_commitment {
  com_id : U256;
  com_digest : FixedBytes 32;
  com_configID : FixedBytes 32
}.

(** A view of the chain at one block: [None] is a call that reverts or whose
    return data does not decode. *)
Definition EvmView : Type := Address → ∀ c : Call, option (CallReturn c).

(** [EvmEnv<StateDb, EthBlockHeader, Commitment>], read-only in the guest. *)
Record GuestEvmEnv : Type := mk_genv {
  genv_view : EvmView;
  genv_number : Z;               (* [header().number] *)
  genv_commitment : Commitment   (* [commitment()] *)
}.

(** [Contract::new(addr, env).call_builder(&c).call()] *)
Definition guest_call (env : GuestEvmEnv) (addr : Address) (c : Call) :
    outcome (CallReturn c) :=
  match genv_view env addr c with
  | Some r => Ret r
  | None => Panics CallFailed
  end.

(** [EthEvmEnv<ProofDb<..>, HostCommit<..>>]: the view and the header are
    fixed, the preflight log ([ProofDb]) grows with every call. *)
Record HostEvmEnv : Type := mk_henv {
  henv_view : EvmView;
  henv_number : Z;               (* [header().number] *)
  henv_parent_number : Z         (* [header().parent_num_hash().number] *)
}.

Definition access : Type := Address * Call.

Lemma guest_call_Ret env addr c r :
  guest_call env addr c = Ret r ↔ genv_view env addr c = Some r.
Proof. unfold guest_call. case_match; naive_solver. Qed.

Lemma guest_call_erc20 env addr c (r : U256) :
  guest_call env addr (CallERC20 c) = Ret r ↔ genv_view env addr (CallERC20 c) = Some r.
Proof. apply (guest_call_Ret env addr (CallERC20 c)). Qed.
Lemma guest_call_votes env addr c (r : U256) :
  guest_call env addr (CallVotes c) = Ret r ↔ genv_view env addr (CallVotes c) = Some r.
Proof. apply (guest_call_Ret env addr (CallVotes c)). Qed.
Lemma guest_call_registry env addr c (r : getDelegationReturn) :
  guest_call env addr (CallRegistry c) = Ret r ↔ genv_view env addr (CallRegistry c) = Some r.
Proof. apply (guest_call_Ret env addr (CallRegistry c)). Qed.
Lemma guest_call_config env addr c (r : string) :
  guest_call env addr (CallConfig c) = Ret r ↔ genv_view env addr (CallConfig c) = Some r.
Proof. apply (guest_call_Ret env addr (CallConfig c)). Qed.

(** Every integer a call returns fits its width. *)
Definition return_wf (c : Call) : CallReturn c → Prop :=
  match c with
  | CallERC20 _ => λ r, u256_wf r
  | CallVotes _ => λ r, u256_wf r
  | CallRegistry _ => λ r, Forall (λ d, u256_wf (reg_ratio d)) (gdr_delegations r)
                           ∧ u256_wf (gdr_expirationTimestamp r)
  | CallConfig _ => λ _, True
  end.
Definition view_wf (v : EvmView) : Prop :=
  ∀ addr c r, v addr c = Some r → return_wf c r.

(** ** Configuration of a DAO (guest side, crate [strategies]) *)

Record DelegationObject : Type := mk_delegation_object {
  do_contract : Address;
  do_strategy : string
}.
Record Asset : Type := mk_asset {
  asset_contract : Address;
  asset_chain_id : Z;
  asset_voting_power_strategy : string;
  asset_delegation : DelegationObject
}.
Record RiscVotingProtocolConfig : Type := mk_config {
  cfg_voting_protocol_version : string;
  cfg_assets : list Asset;
  cfg_execution_strategy : string
}.

#[export] Instance DelegationObject_eq_dec : EqDecision DelegationObject.
Proof. solve_decision. Defined.
#[export] Instance Asset_eq_dec : EqDecision Asset.
Proof. solve_decision. Defined.

(** A vote share in the power of [delegate]: one part in [ratio]. *)
Record Delegation : Type := mk_delegation {
  delegate : Address;
  ratio : U256
}.

(** ** Text conversions of the [alloy] crates

    [Address]'s [Display] and [Bytes]'s [FromStr]; interfaces, because the
    crates are not part of the repository. *)
Class AlloyText : Type := {
  address_to_string : Address → string;
  bytes_from_str : string → option (list byte)
}.

Lemma view_wf_u256_erc20 v addr c r :
  view_wf v → v addr (CallERC20 c) = Some r → u256_wf r.
Proof. intros Hv Hr. exact (Hv _ _ _ Hr). Qed.
Lemma view_wf_u256_votes v addr c r :
  view_wf v → v addr (CallVotes c) = Some r → u256_wf r.
Proof. intros Hv Hr. exact (Hv _ _ _ Hr). Qed.
Lemma view_wf_registry v addr c r :
  view_wf v → v addr (CallRegistry c) = Some r →
  Forall (λ d, u256_wf (reg_ratio d)) (gdr_delegations r).
Proof. intros Hv Hr. exact (proj1 (Hv _ _ _ Hr)). Qed.
#[export] Hint Resolve view_wf_u256_erc20 view_wf_u256_votes view_wf_registry : zkgov.
