(* ===== verification/VoteSignature.v ===== *)
(** * Signed votes (guest program [voting_protocol], lines 44 to 114)

    The digest a voter signs and the recovery of the signer.  Keccak-256 and
    the secp256k1 operations come from the crates [tiny_keccak] and [k256]:
    they are interfaces here, with nothing assumed about them. *)

From stdpp Require Import base gmap list strings.
From Stdlib Require Import ZArith Lia Strings.Byte.
From S2P Require Import Prelude Machine Ethereum.
#[local] Open Scope Z_scope.

(** [Keccak::v256()], [update], [finalize]: 32 bytes. *)
Class KeccakV256 : Type := { keccak_v256 : list byte → FixedBytes 32 }.

Class K256 : Type := {
  RecoveryId : Type;
  Signature : Type;
  PublicKey : Type;
  recovery_id_from_byte : Z → option RecoveryId;
  signature_from_slice : list byte → option Signature;
  recover_from_prehash : list byte → Signature → RecoveryId → option PublicKey;
  encoded_point : PublicKey → list byte   (* uncompressed SEC1 *)
}.

(** ** [to_hex_string] *)

Definition hex_digit (n : Z) : Ascii.ascii :=
  Ascii.ascii_of_N (Z.to_N (if n <? 10 then 48 + n else 87 + n)).

(** [format!("{:02x}", byte)] *)
Definition format_02x (b : byte) : string :=
  String (hex_digit (Z_of_byte b / 16)) (String (hex_digit (Z_of_byte b mod 16)) "").

Definition to_hex_string (bytes : list byte) : string :=
  foldr (λ b s, (format_02x b +:+ s)%string) "" bytes.

(** ** [into_recovery_id] *)

Section Signature.
Context {keccak : KeccakV256} {k256 : K256}.

Definition keccak256 (bytes : list byte) : FixedBytes 32 := keccak_v256 bytes.

Definition into_recovery_id (v : Z) : option RecoveryId :=
  (if v =? 0 then Some 0
   else if v =? 1 then Some 1
   else if v =? 27 then Some 0
   else if v =? 28 then Some 1
   else if 35 <=? v then Some ((v - 1) mod 2)
   else None) ≫= recovery_id_from_byte.

Definition ecrecover (v : Z) (rs : FixedBytes 64) (digest : FixedBytes 32) : outcome Address :=
  recovery_id ← expect "value for v is invalid" (into_recovery_id v);
  signature ← expect "signature encoding is invalid" (signature_from_slice (fb_bytes rs));
  recovered_pk ← expect "signature is invalid"
    (recover_from_prehash (fb_bytes digest) signature recovery_id);
  let encoded_pk := encoded_point recovered_pk in
  tail ← slice 1 (length encoded_pk) encoded_pk;
  last20 ← slice 12 32 (fb_bytes (keccak256 tail));
  unwrap (fixed_try_from last20).

(** ** [hash_vote] *)

Definition PREFIX : list byte :=
  x19 :: String.list_byte_of_string "Ethereum Signed Message:" ++ x0a :: String.list_byte_of_string "32".

(** The bytes whose hash is signed, before the Ethereum prefix. *)
Definition vote_message (chain_id : Z) (dao : Address) (proposal_id : U256)
    (direction : Z) (balance : U256) : list byte :=
  concat [be_bytes 8 chain_id; fb_bytes dao; be_bytes 32 proposal_id;
          [byte_of_Z direction]; be_bytes 32 balance].

Definition hash_vote (chain_id : Z) (dao : Address) (proposal_id : U256)
    (direction : Z) (balance : U256) : FixedBytes 32 :=
  let message_hash := keccak256 (vote_message chain_id dao proposal_id direction balance) in
  let prefixed_message := PREFIX ++ fb_bytes message_hash in
  keccak256 prefixed_message.

(** ** Lemmas *)

Lemma length_vote_message c dao p d b : length (vote_message c dao p d b) = 93%nat.
Proof.
  unfold vote_message. rewrite !concat_cons, concat_nil.
  by rewrite !length_app, !length_be_bytes, length_fb_bytes.
Qed.

(** The message determines every field of the vote. *)
Lemma vote_message_inj c dao p d b c' dao' p' d' b' :
  u64_wf c → u256_wf p → u8_wf d → u256_wf b →
  u64_wf c' → u256_wf p' → u8_wf d' → u256_wf b' →
  vote_message c dao p d b = vote_message c' dao' p' d' b' →
  c = c' ∧ dao = dao' ∧ p = p' ∧ d = d' ∧ b = b'.
Proof.
  unfold u64_wf, u256_wf, u8_wf, U256_MOD, vote_message. rewrite !concat_cons, concat_nil.
  intros ???????? Heq.
  apply app_inj_length in Heq as [Hc Heq]; [|by rewrite !length_be_bytes].
  apply app_inj_length in Heq as [Hdao Heq]; [|by rewrite !length_fb_bytes].
  apply app_inj_length in Heq as [Hp Heq]; [|by rewrite !length_be_bytes].
  apply app_inj_length in Heq as [[= Hd] Heq]; [|done]. rewrite !app_nil_r in Heq.
  apply be_bytes_inj in Hc; [|done..]. apply be_bytes_inj in Hp; [|done..].
  apply be_bytes_inj in Heq; [|done..]. apply byte_of_Z_inj in Hd; [|done..].
  apply fb_bytes_inj in Hdao. done.
Qed.

(** When a signer is recovered, and who it is. *)
Lemma ecrecover_Ret v rs digest a :
  ecrecover v rs digest = Ret a ↔
  ∃ recovery_id sig pk, into_recovery_id v = Some recovery_id ∧
    signature_from_slice (fb_bytes rs) = Some sig ∧
    recover_from_prehash (fb_bytes digest) sig recovery_id = Some pk ∧
    encoded_point pk ≠ [] ∧
    fb_bytes a = drop 12 (fb_bytes (keccak256 (drop 1 (encoded_point pk)))).
Proof.
  assert (∀ h : FixedBytes 32, take 20 (drop 12 (fb_bytes h)) = drop 12 (fb_bytes h)) as Htake.
  { intros h. apply take_ge. rewrite length_drop, length_fb_bytes. lia. }
  assert (∀ l : list byte, take (length l - 1) (drop 1 l) = drop 1 l) as Hdrop.
  { intros l. apply take_ge. rewrite length_drop. lia. }
  unfold ecrecover. split.
  - intros Hr. apply bind_Ret_inv in Hr as (rid & Hrid%expect_Ret & Hr).
    apply bind_Ret_inv in Hr as (sig & Hsig%expect_Ret & Hr).
    apply bind_Ret_inv in Hr as (pk & Hpk%expect_Ret & Hr).
    apply bind_Ret_inv in Hr as (tl & [[Hlen _] <-]%slice_Ret & Hr). rewrite Hdrop in Hr.
    apply bind_Ret_inv in Hr as (last & [_ <-]%slice_Ret & Ha%unwrap_Ret%fixed_try_from_Some).
    exists rid, sig, pk. rewrite Htake in Ha. split_and!; try done.
    intros Hnil. rewrite Hnil in Hlen. simpl in Hlen. lia.
  - intros (rid & sig & pk & Hrid & Hsig & Hpk & Hne & Ha).
    rewrite Hrid. simpl. rewrite Hsig. simpl. rewrite Hpk. simpl.
    assert (1 ≤ length (encoded_point pk))%nat by (destruct (encoded_point pk); simpl; [done|lia]).
    rewrite (proj2 (slice_Ret _ _ _ _) (conj (conj H (le_n _)) (Hdrop _))). simpl.
    unfold slice at 1. rewrite decide_True by (rewrite length_fb_bytes; lia). simpl.
    rewrite Htake. apply unwrap_Ret, fixed_try_from_Some. done.
Qed.

(** [x] and [y] are different byte strings with the same Keccak-256 digest. *)
Definition keccak_collides (x y : list byte) : Prop := x ≠ y ∧ keccak256 x = keccak256 y.

Lemma keccak_eq x y : keccak256 x = keccak256 y → x = y ∨ keccak_collides x y.
Proof. intros. destruct (decide (x = y)); [by left|by right]. Qed.
End Signature.

(** ** Hexadecimal text

    [unhex] is the reference reading of a hexadecimal string: two digits per
    byte, either case, no prefix. *)

Definition hex_value (c : Ascii.ascii) : option Z :=
  let n := Z.of_N (Ascii.N_of_ascii c) in
  if (48 <=? n) && (n <=? 57) then Some (n - 48)
  else if (97 <=? n) && (n <=? 102) then Some (n - 87)
  else if (65 <=? n) && (n <=? 70) then Some (n - 55)
  else None.

Fixpoint unhex (s : string) : option (list byte) :=
  match s with
  | "" => Some []
  | String _ "" => None
  | String c (String c' s) =>
      h ← hex_value c; l ← hex_value c'; bs ← unhex s;
      Some (byte_of_Z (16 * h + l) :: bs)
  end%string.

Lemma hex_digits_value b :
  hex_value (hex_digit (Z_of_byte b / 16)) = Some (Z_of_byte b / 16) ∧
  hex_value (hex_digit (Z_of_byte b mod 16)) = Some (Z_of_byte b mod 16).
Proof. destruct b; split; reflexivity. Qed.

Lemma format_02x_unhex b s :
  unhex (format_02x b +:+ s)%string = (bs ← unhex s; Some (b :: bs)).
Proof.
  destruct (hex_digits_value b) as [Hh Hl]. unfold format_02x.
  revert Hh Hl. generalize (hex_digit (Z_of_byte b / 16)) (hex_digit (Z_of_byte b mod 16)).
  intros c c' Hh Hl. change (unhex (String c (String c' "") +:+ s)) with
    (h ← hex_value c; l ← hex_value c'; bs ← unhex s; Some (byte_of_Z (16 * h + l) :: bs)).
  rewrite Hh, Hl. unfold mbind, option_bind. destruct (unhex s); [|done]. do 2 f_equal.
  by rewrite <-Z_div_mod_eq_full, byte_of_Z_of_byte.
Qed.

Lemma unhex_to_hex_string bs : unhex (to_hex_string bs) = Some bs.
Proof.
  induction bs as [|b bs IH]; [done|]. cbn [to_hex_string foldr].
  rewrite format_02x_unhex. fold (to_hex_string bs). by rewrite IH.
Qed.

(** ** Properties *)

(** [to_hex_string] writes two digits per byte, and reading them back
    gives the bytes. *)
Theorem to_hex_string_roundtrip bs :
  unhex (to_hex_string bs) = Some bs ∧ String.length (to_hex_string bs) = (2 * length bs)%nat.
Proof.
  split; [apply unhex_to_hex_string|].
  induction bs as [|b bs IH]; [done|].
  change (S (S (String.length (to_hex_string bs))) = (2 * S (length bs))%nat). lia.
Qed.

(** C20: the digest a voter signs binds the whole vote: two votes with the
    same [hash_vote] agree on chain, DAO, proposal, direction and balance, or
    Keccak-256 collides on the messages of these two votes, or on the two
    prefixed hashes of these messages. *)
Theorem hash_vote_binding {keccak : KeccakV256} c dao p d b c' dao' p' d' b' :
  u64_wf c → u256_wf p → u8_wf d → u256_wf b →
  u64_wf c' → u256_wf p' → u8_wf d' → u256_wf b' →
  hash_vote c dao p d b = hash_vote c' dao' p' d' b' →
  let message := vote_message c dao p d b in
  let message' := vote_message c' dao' p' d' b' in
  (c = c' ∧ dao = dao' ∧ p = p' ∧ d = d' ∧ b = b') ∨
  keccak_collides message message' ∨
  keccak_collides (PREFIX ++ fb_bytes (keccak256 message)) (PREFIX ++ fb_bytes (keccak256 message')).
Proof.
  intros ???????? [Hpre|?]%keccak_eq; cbv zeta; [|by right; right].
  apply app_inj_length in Hpre as [_ Hmsg%fb_bytes_inj]; [|done].
  apply keccak_eq in Hmsg as [Hmsg|?]; [left|by right; left].
  by eapply vote_message_inj.
Qed.

(** A concrete digest, for the examples: the message length, then zeros. *)
Definition example_keccak : KeccakV256 :=
  {| keccak_v256 l := mk_fixed (byte_of_Z (Z.of_nat (length l)) :: replicate 31 x00) eq_refl |}.

Lemma hash_vote_binding_witness :
  let message := vote_message 1 (fixed_repeat 20 x01) 7 2 5 in
  (1 = 1 ∧ fixed_repeat 20 x01 = fixed_repeat 20 x01 ∧ 7 = 7 ∧ 2 = 2 ∧ 5 = 5) ∨
  keccak_collides (keccak:=example_keccak) message message ∨
  keccak_collides (keccak:=example_keccak)
    (PREFIX ++ fb_bytes (keccak256 (keccak:=example_keccak) message))
    (PREFIX ++ fb_bytes (keccak256 (keccak:=example_keccak) message)).
Proof.
  intros message. apply (@hash_vote_binding example_keccak); try (split; [lia|reflexivity]).
  reflexivity.
Defined.

(** [into_recovery_id] maps the raw, the legacy (27 and 28) and the
    EIP-155 encodings of a recovery bit to that bit, and rejects every other
    byte. *)
Theorem into_recovery_id_spec {k256 : K256} (v : Z) :
  u8_wf v →
  (∀ r, (r = 0 ∨ r = 1) →
     v = r ∨ v = 27 + r ∨ (∃ chain, 0 <= chain ∧ v = 35 + 2 * chain + r) →
     into_recovery_id v = recovery_id_from_byte r) ∧
  (1 < v < 27 ∨ 28 < v < 35 → into_recovery_id v = None).
Proof.
  intros Hv. unfold into_recovery_id. split.
  - intros r Hr [->|[->|(chain & Hc & ->)]]; [destruct Hr as [->| ->]; done..|].
    rewrite !(proj2 (Z.eqb_neq _ _)), (proj2 (Z.leb_le _ _)) by lia. simpl. f_equal.
    replace (35 + 2 * chain + r - 1) with (r + (17 + chain) * 2) by lia.
    rewrite Z_mod_plus_full, Z.mod_small by lia. done.
  - intros Hcases. rewrite !(proj2 (Z.eqb_neq _ _)) by lia. by rewrite (proj2 (Z.leb_gt _ _)) by lia.
Qed.

(** A concrete curve interface, for the examples: every signature is valid and
    the key is the digest followed by the bit. *)
Definition example_k256 : K256 := {|
  RecoveryId := Z; Signature := list byte; PublicKey := list byte;
  recovery_id_from_byte b := if b <=? 3 then Some b else None;
  signature_from_slice l := Some l;
  recover_from_prehash d s r := Some (d ++ [byte_of_Z r]);
  encoded_point pk := x04 :: pk
|}.

Lemma into_recovery_id_spec_witness :
  u8_wf 38 ∧ into_recovery_id (k256:=example_k256) 38 = Some 1.
Proof.
  assert (u8_wf 38) as Hwf by (split; [lia|reflexivity]). split; [exact Hwf|].
  refine (proj1 (@into_recovery_id_spec example_k256 38 Hwf) 1 (or_intror eq_refl) _).
  right. right. exists 1. lia.
Defined.
