(* ===== verification/Keccak.v ===== *)
(** * Keccak-256

    The hash of the EVM and of the crate [tiny_keccak], after FIPS 202 with
    the original padding: the function behind [KeccakV256], with which the
    selectors, topics and identifiers that the programs compare can be
    computed.  A lane is a 64-bit integer; the state has 25 of them. *)

From stdpp Require Import base gmap list strings.
From Stdlib Require Import ZArith Lia Strings.Byte.
From S2P Require Import Prelude Machine VoteSignature.
#[local] Open Scope Z_scope.

Module Fips202.
Definition rotl (x n : Z) : Z :=
  Z.lor (Z.land (Z.shiftl x n) 0xffffffffffffffff) (Z.shiftr x (64 - n)).

Definition lane (s : list Z) (x y : nat) : Z := nth (x mod 5 + 5 * (y mod 5))%nat s 0.
(** The state with the lane [f x y] at each position. *)
Definition tabulate (f : nat → nat → Z) : list Z :=
  (λ i, f (i mod 5)%nat (i / 5)%nat) <$> seq 0 25.

(** The rotation of each lane: a walk over the positions but the first. *)
Fixpoint walk (t : nat) (n x y : nat) (offsets : list Z) : list Z :=
  match t with
  | O => offsets
  | S t => walk t (S n) y ((2 * x + 3 * y) mod 5)
             (<[(x + 5 * y)%nat := Z.of_nat ((n + 1) * (n + 2) / 2 mod 64)]> offsets)
  end.
Definition ROTATIONS : list Z := Eval vm_compute in walk 24 0 1 0 (replicate 25 0).

(** The round constants: bits of a linear feedback shift register. *)
Fixpoint lfsr (t : nat) (r : Z) : Z :=
  match t with
  | O => Z.land r 1
  | S t => let r := Z.shiftl r 1 in lfsr t (if Z.testbit r 8 then Z.lxor r 0x171 else r)
  end.
Definition round_constant (i : nat) : Z :=
  foldr (λ j acc, Z.lor (Z.shiftl (lfsr (j + 7 * i) 1) (2 ^ Z.of_nat j - 1)) acc) 0 (seq 0 7).
Definition ROUND_CONSTANTS : list Z := Eval vm_compute in round_constant <$> seq 0 24.

(** ** The permutation *)

Definition theta (s : list Z) : list Z :=
  let c := (λ x, foldr Z.lxor 0 ((λ y, lane s x y) <$> seq 0 5)) <$> seq 0 5 in
  let d := (λ x, Z.lxor (nth ((x + 4) mod 5) c 0) (rotl (nth ((x + 1) mod 5) c 0) 1)) <$> seq 0 5 in
  tabulate (λ x y, Z.lxor (lane s x y) (nth x d 0)).
Definition rho_pi (s : list Z) : list Z :=
  let rotated := zip_with rotl s ROTATIONS in
  tabulate (λ x y, lane rotated (x + 3 * y) x).
Definition chi (s : list Z) : list Z :=
  tabulate (λ x y, Z.lxor (lane s x y)
    (Z.land (Z.lxor (lane s (x + 1) y) 0xffffffffffffffff) (lane s (x + 2) y))).
Definition iota (rc : Z) (s : list Z) : list Z :=
  match s with a :: s => Z.lxor a rc :: s | [] => [] end.
Definition keccak_f (s : list Z) : list Z :=
  foldl (λ s rc, iota rc (chi (rho_pi (theta s)))) s ROUND_CONSTANTS.

(** ** The sponge *)

Definition RATE : nat := 136.

(** A one bit, zeros and a one bit, to a multiple of the rate. *)
Definition pad (l : list byte) : list byte :=
  match (RATE - length l mod RATE)%nat with
  | 1%nat => l ++ [x81]
  | n => l ++ x01 :: replicate (n - 2) x00 ++ [x80]
  end.

Fixpoint lanes (n : nat) (l : list byte) : list Z :=
  match n with
  | O => []
  | S n => be_value (rev (take 8 l)) :: lanes n (drop 8 l)
  end.
Definition absorb (s : list Z) (block : list byte) : list Z :=
  keccak_f (zip_with Z.lxor s (lanes 17 block ++ replicate 8 0)).

Definition hash (l : list byte) : list byte :=
  let s := foldl absorb (replicate 25 0) (chunks_exact RATE (pad l)) in
  concat ((λ i, rev (be_bytes 8 (nth i s 0))) <$> seq 0 4).

Lemma length_keccak l : length (hash l) = 32%nat.
Proof.
  unfold hash. set (s := foldl _ _ _). clearbody s. cbn [seq fmap list_fmap].
  rewrite !concat_cons, concat_nil, !length_app, !length_rev, !length_be_bytes. done.
Qed.

(** The padded message is a whole number of blocks: no byte is left out. *)
Lemma length_pad l : (length (pad l) mod RATE = 0)%nat.
Proof.
  unfold pad, RATE. set (n := length l).
  pose proof (Nat.mod_upper_bound n 136 ltac:(lia)). pose proof (Nat.div_mod_eq n 136).
  assert (∀ k, k = n + (136 - n mod 136) → k mod 136 = 0)%nat as Hk.
  { intros k ->. replace (n + (136 - n mod 136))%nat with ((n / 136 + 1) * 136)%nat by lia.
    by apply Nat.Div0.mod_mul. }
  destruct (136 - n mod 136)%nat as [|[|m]] eqn:Hm; apply Hk; rewrite length_app; fold n; [lia|done|].
  cbn [length]. rewrite length_app, length_replicate. simpl. lia.
Qed.
End Fips202.

Definition fips_keccak : KeccakV256 :=
  {| keccak_v256 l := mk_fixed (Fips202.hash l) (Fips202.length_keccak l) |}.

(** Known digests: of the empty string and of a text, and a known selector. *)
Example keccak_empty : be_value (Fips202.hash []) =
  0xc5d2460186f7233c927e7db2dcc703c0e500b653ca82273b7bfad8045d85a470.
Proof. vm_compute. reflexivity. Qed.
Example keccak_abc : be_value (Fips202.hash (String.list_byte_of_string "abc")) =
  0x4e03657aea45a94fc7d47ba826c8d667c0d1e6e33a64a036ec44f58fa12d6c45.
Proof. vm_compute. reflexivity. Qed.
Example keccak_transfer :
  be_value (take 4 (Fips202.hash (String.list_byte_of_string "transfer(address,uint256)"))) =
  0xa9059cbb.
Proof. vm_compute. reflexivity. Qed.
