(* ===== verification/Fixtures.v ===== *)
(** * Concrete instances of the interfaces

    One small chain, used by the witnesses of the theorems: a token, a
    delegate registry and a plugin contract, five accounts, and concrete
    functions for the interfaces that stand for third-party crates.  No
    theorem depends on these choices. *)

From stdpp Require Import base gmap list strings.
From Stdlib Require Import ZArith Lia Strings.Byte Strings.Ascii.
From S2P Require Import Prelude Machine Ethereum VoteSignature.
#[local] Open Scope Z_scope.

Module Fixture.
(** ** Addresses *)
Definition token : Address := fixed_repeat 20 x11.
Definition registry : Address := fixed_repeat 20 x22.
Definition plugin : Address := fixed_repeat 20 x33.
Definition dao : Address := fixed_repeat 20 x44.
Definition alice : Address := fixed_repeat 20 xa1.
Definition bob : Address := fixed_repeat 20 xb0.
Definition carol : Address := fixed_repeat 20 xca.
Definition dave : Address := fixed_repeat 20 xda.
Definition erin : Address := fixed_repeat 20 xe1.

(** ** Text of the [alloy] crates: hexadecimal, with an optional prefix when parsed. *)
Definition strip_0x (s : string) : string :=
  match s with
  | String "0"%char (String "x"%char s') => s'
  | _ => s
  end.
Definition alloy : AlloyText := {|
  address_to_string a := ("0x" +:+ to_hex_string (fb_bytes a))%string;
  bytes_from_str s := unhex (strip_0x s)
|}.

(** ** The chain: alice and carol delegated to nobody, bob to carol and dave
    in equal parts, erin two parts to carol and three to dave. *)
Definition balance (a : Address) : U256 :=
  if bool_decide (a = alice) then 100
  else if bool_decide (a = bob) then 50
  else if bool_decide (a = carol) then 10
  else if bool_decide (a = erin) then 60
  else 0.

Lemma length_pad32 (a : Address) : length (replicate 12 x00 ++ fb_bytes a) = 32%nat.
Proof. by rewrite length_app, length_fb_bytes. Qed.
Definition pad32 (a : Address) : FixedBytes 32 :=
  mk_fixed (replicate 12 x00 ++ fb_bytes a) (length_pad32 a).

Definition entries (a : Address) : list RegistryDelegation :=
  if bool_decide (a = bob) then [mk_reg (pad32 carol) 1; mk_reg (pad32 dave) 1]
  else if bool_decide (a = erin) then [mk_reg (pad32 carol) 2; mk_reg (pad32 dave) 3]
  else [].

Definition config_text : string := "config".

(** The block is number 7; as in an ERC-5805 token, lookups of votes at or
    after the current block revert. *)
Definition block_number : Z := 7.
Definition view : EvmView := λ addr c,
  match c with
  | CallERC20 (balanceOfCall a) =>
      if bool_decide (addr = token) then Some (balance a) else None
  | CallERC20 getTotalSupplyCall => if bool_decide (addr = token) then Some 220 else None
  | CallVotes (getPastVotesCall a n) =>
      if bool_decide (addr = token) && (n <? block_number) then Some (balance a) else None
  | CallVotes (getPastTotalSupplyCall n) =>
      if bool_decide (addr = token) && (n <? block_number) then Some 220 else None
  | CallRegistry c =>
      if bool_decide (addr = registry) then Some (mk_gdr (entries (gd_account c)) 0) else None
  | CallConfig _ => if bool_decide (addr = plugin) then Some config_text else None
  end.

Definition commitment : Commitment := {|
  com_id := block_number;
  com_digest := fixed_repeat 32 x77;
  com_configID := fixed_repeat 32 x78
|}.
Definition genv : GuestEvmEnv := {|
  genv_view := view; genv_number := block_number; genv_commitment := commitment
|}.

Definition asset_with (strategy : string) : Asset := {|
  asset_contract := token;
  asset_chain_id := 11155111;
  asset_voting_power_strategy := strategy;
  asset_delegation := {| do_contract := registry; do_strategy := "SplitDelegation" |}
|}.
Definition asset : Asset := asset_with "BalanceOf".
Definition config : RiscVotingProtocolConfig := {|
  cfg_voting_protocol_version := "1";
  cfg_assets := [asset];
  cfg_execution_strategy := "MajorityVoting"
|}.

Lemma view_wf_holds : view_wf view.
Proof.
  assert (∀ a, u256_wf (balance a)) as Hb.
  { intros a. unfold balance. repeat case_bool_decide; split; lia || reflexivity. }
  intros addr [[]|[]|c|c] r; simpl; intros Hr; repeat case_match; simplify_eq; simpl;
    try done; try apply Hb; try (split; [lia|reflexivity]).
  split; [|split; [lia|reflexivity]]. unfold entries.
  repeat case_bool_decide; repeat constructor; unfold u256_wf; simpl; lia || done.
Qed.
End Fixture.
