(* ===== verification/GuestVoting.v ===== *)
(** * Guest voting power strategies (crate [strategies], [voting_strategies])

    The trait [VotingPowerStrategy] is a class, its implementations
    [BalanceOf] and [GetPastVotes] are instances, and [Box<dyn ..>] packs a
    type with its instance. *)

From stdpp Require Import base gmap list strings.
From Stdlib Require Import ZArith Lia Strings.Byte.
From S2P Require Import Prelude Machine Ethereum.
#[local] Open Scope Z_scope.

Class VotingPowerStrategy (T : Type) : Type := {
  vp_process : T → GuestEvmEnv → Address → Asset → outcome U256;
  vp_get_supply : T → GuestEvmEnv → Asset → outcome U256
}.

(** [Box<dyn VotingPowerStrategy>] *)
Record BoxVotingPower : Type := box_vp {
  bvp_type : Type;
  bvp_inst : VotingPowerStrategy bvp_type;
  bvp_self : bvp_type
}.
Arguments box_vp {_ _} _.

Definition dyn_vp_process (b : BoxVotingPower) :=
  @vp_process (bvp_type b) (bvp_inst b) (bvp_self b).
Definition dyn_vp_get_supply (b : BoxVotingPower) :=
  @vp_get_supply (bvp_type b) (bvp_inst b) (bvp_self b).

(** ** [BalanceOf] *)

Inductive BalanceOf : Type := BalanceOf_.

Definition balance_of_process (env : GuestEvmEnv) (account : Address) (asset : Asset) :
    outcome U256 :=
  guest_call env (asset_contract asset) (CallERC20 (balanceOfCall account)).

Definition balance_of_get_supply (env : GuestEvmEnv) (asset : Asset) : outcome U256 :=
  guest_call env (asset_contract asset) (CallERC20 getTotalSupplyCall).

#[export] Instance BalanceOf_strategy : VotingPowerStrategy BalanceOf := {|
  vp_process _ := balance_of_process;
  vp_get_supply _ := balance_of_get_supply
|}.

(** ** [GetPastVotes] *)

Inductive GetPastVotes : Type := GetPastVotes_.

Definition get_past_votes_process (env : GuestEvmEnv) (account : Address) (asset : Asset) :
    outcome U256 :=
  let block_number := genv_number env in
  guest_call env (asset_contract asset) (CallVotes (getPastVotesCall account block_number)).

Definition get_past_votes_get_supply (env : GuestEvmEnv) (asset : Asset) : outcome U256 :=
  let block_number := genv_number env in
  guest_call env (asset_contract asset) (CallVotes (getPastTotalSupplyCall block_number)).

#[export] Instance GetPastVotes_strategy : VotingPowerStrategy GetPastVotes := {|
  vp_process _ := get_past_votes_process;
  vp_get_supply _ := get_past_votes_get_supply
|}.

(** ** What every strategy promises to its caller

    On a well-formed chain view the power and the supply are 256-bit values.
    The clients below are proved against this interface. *)
Class VotingPowerOk (T : Type) `{VotingPowerStrategy T} : Prop := {
  vp_process_wf self env account asset p :
    view_wf (genv_view env) → vp_process self env account asset = Ret p → u256_wf p;
  vp_get_supply_wf self env asset s :
    view_wf (genv_view env) → vp_get_supply self env asset = Ret s → u256_wf s
}.

#[export] Instance BalanceOf_ok : VotingPowerOk BalanceOf.
Proof.
  split; intros *; simpl; unfold balance_of_process, balance_of_get_supply;
    intros Hwf ?%guest_call_erc20; eauto with zkgov.
Qed.

#[export] Instance GetPastVotes_ok : VotingPowerOk GetPastVotes.
Proof.
  split; intros *; simpl; unfold get_past_votes_process, get_past_votes_get_supply;
    intros Hwf ?%guest_call_votes; eauto with zkgov.
Qed.
