(* ===== verification/GuestDelegation.v ===== *)
(** * Guest delegation strategies (crate [strategies], [delegation_strategies])

    [SplitDelegation] turns the bytes a voter supplies into the list of
    accounts whose power the voter claims, each with the ratio by which that
    account's power is divided. *)

From stdpp Require Import base gmap list strings.
From Stdlib Require Import ZArith Lia Strings.Byte.
From S2P Require Import Prelude Machine Ethereum Fixtures.
#[local] Open Scope Z_scope.

Class DelegationStrategy (T : Type) : Type := {
  ds_process : T → GuestEvmEnv → Address → Asset → list byte →
               outcome (result (list Delegation))
}.

(** [Box<dyn DelegationStrategy>] *)
Record BoxDelegation : Type := box_ds {
  bds_type : Type;
  bds_inst : DelegationStrategy bds_type;
  bds_self : bds_type
}.
Arguments box_ds {_ _} _.

Definition dyn_ds_process (b : BoxDelegation) :=
  @ds_process (bds_type b) (bds_inst b) (bds_self b).

(** [impl FromIterator<(Address, U256)> for Delegation] *)
Definition delegation_from_iter (iter : list (Address * U256)) : outcome Delegation :=
  match iter with
  | (d, r) :: _ => Ret {| delegate := d; ratio := r |}
  | [] => Panics (PanicMsg "Iterator is empty, cannot create MyStruct")
  end.

(** ** [SplitDelegation] *)

Inductive SplitDelegation : Type := SplitDelegation_.

Definition ERR_LENGTH : string := "Input byte vector is not a valid length for Address conversion".
Definition ERR_INVALID : string := "One or more delegations are invalid".

(** [&bytes[12..] == address] *)
Definition compare_bytes32_to_address (bytes32 : FixedBytes 32) (address : Address) : bool :=
  bool_decide (drop 12 (fb_bytes bytes32) = fb_bytes address).

(** [iter().fold(U256::from(0), |acc, d| acc + d.ratio)] *)
Definition total_ratios (ds : list RegistryDelegation) : U256 :=
  foldl (λ acc d, u256_add acc (reg_ratio d)) 0 ds.

Section SplitDelegation.
Context {alloy : AlloyText}.

(** The closure mapped over the potential delegates. *)
Definition potential_delegate_delegation (env : GuestEvmEnv) (account : Address)
    (asset : Asset) (potential_delegate : Address) : outcome (option Delegation) :=
  r ← guest_call env (do_contract (asset_delegation asset))
        (CallRegistry {| gd_context := address_to_string (asset_contract asset);
                         gd_account := potential_delegate |});
  let ds := gdr_delegations r in
  if is_empty ds then Ret (Some {| delegate := potential_delegate; ratio := 1 |})
  else
    let total := total_ratios ds in
    match List.find (λ d, compare_bytes32_to_address (reg_delegate d) account) ds with
    | None => Ret None
    | Some d =>
        q ← u256_div total (reg_ratio d);
        Ret (Some {| delegate := potential_delegate; ratio := q |})
    end.

Definition split_delegation_process (env : GuestEvmEnv) (account : Address)
    (asset : Asset) (additional_data : list byte) : outcome (result (list Delegation)) :=
  if decide (length additional_data mod 20 ≠ 0)%nat then Ret (Err ERR_LENGTH)
  else
    delegations ← mapM address_from_slice (chunks_exact 20 additional_data);
    account_delegates ← mapM (potential_delegate_delegation env account asset) delegations;
    if existsb is_none account_delegates
    then Ret (Err ERR_INVALID)
    else ds ← mapM unwrap account_delegates; Ret (Ok ds).

#[export] Instance SplitDelegation_strategy : DelegationStrategy SplitDelegation := {|
  ds_process _ := split_delegation_process
|}.
End SplitDelegation.

(** ** Specification

    [delegates_to v account asset pd d]: on the chain view [v], the registry
    lets [account] claim the power of [pd] as [d].  Either [pd] has delegated
    to nobody, or the first entry of [pd] that names [account] fixes the
    ratio: the rounded-down quotient of the sum of all ratios by its own. *)

(** The last 20 bytes of the entry's [bytes32] are the account. *)
Definition names (account : Address) (e : RegistryDelegation) : Prop :=
  drop 12 (fb_bytes (reg_delegate e)) = fb_bytes account.

#[export] Instance names_dec a e : Decision (names a e).
Proof. unfold names. apply _. Defined.

Lemma compare_names d account :
  compare_bytes32_to_address (reg_delegate d) account = bool_decide (names account d).
Proof. done. Qed.

Section Spec.
Context {alloy : AlloyText}.

Definition registry_of (v : EvmView) (asset : Asset) (pd : Address) :
    option getDelegationReturn :=
  v (do_contract (asset_delegation asset))
    (CallRegistry {| gd_context := address_to_string (asset_contract asset);
                     gd_account := pd |}).

(** [d] is the first entry of [ds] that names [account]. *)
Definition first_entry (account : Address) (ds : list RegistryDelegation)
    (d : RegistryDelegation) : Prop :=
  ∃ pre post, ds = pre ++ d :: post ∧
    names account d ∧
    Forall (λ e, ¬ names account e) pre.

Inductive delegates_to (v : EvmView) (account : Address) (asset : Asset) (pd : Address) :
    Delegation → Prop :=
| delegates_none r :
    registry_of v asset pd = Some r → gdr_delegations r = [] →
    delegates_to v account asset pd {| delegate := pd; ratio := 1 |}
| delegates_split r d :
    registry_of v asset pd = Some r →
    first_entry account (gdr_delegations r) d → reg_ratio d ≠ 0 →
    delegates_to v account asset pd
      {| delegate := pd;
         ratio := (zsum (map reg_ratio (gdr_delegations r)) mod U256_MOD) / reg_ratio d |}.

(** [pd] has delegated, but no entry names [account]. *)
Definition refuses (v : EvmView) (account : Address) (asset : Asset) (pd : Address) : Prop :=
  ∃ r, registry_of v asset pd = Some r ∧ gdr_delegations r ≠ [] ∧
    Forall (λ e, ¬ names account e) (gdr_delegations r).

(** The registry call for [pd] returns and no division by zero follows. *)
Definition answers (v : EvmView) (account : Address) (asset : Asset) (pd : Address) : Prop :=
  (∃ d, delegates_to v account asset pd d) ∨ refuses v account asset pd.
End Spec.

Lemma total_ratios_spec ds : total_ratios ds = zsum (map reg_ratio ds) mod U256_MOD.
Proof.
  unfold total_ratios. rewrite <-u256_sum_spec. unfold u256_sum. generalize 0.
  induction ds as [|d ds IH]; intros acc; simpl; [done|]. apply IH.
Qed.

Lemma find_first_entry account ds d :
  List.find (λ d, compare_bytes32_to_address (reg_delegate d) account) ds = Some d ↔
  first_entry account ds d.
Proof.
  split.
  - induction ds as [|e ds IH]; simpl; [done|]. rewrite compare_names. case_bool_decide as He.
    + intros [= <-]. by exists [], ds.
    + intros (pre & post & -> & Hd & Hpre)%IH. exists (e :: pre), post. auto.
  - intros (pre & post & -> & Hd & Hpre).
    induction Hpre as [|e pre He Hpre IH]; simpl; rewrite compare_names.
    + by rewrite bool_decide_true.
    + by rewrite bool_decide_false.
Qed.

Lemma find_no_entry account ds :
  List.find (λ d, compare_bytes32_to_address (reg_delegate d) account) ds = None ↔
  Forall (λ e, ¬ names account e) ds.
Proof.
  split.
  - intros Hf. apply Forall_forall. intros e He%list_elem_of_In.
    pose proof (find_none _ _ Hf _ He) as Hn. simpl in Hn. rewrite compare_names in Hn.
    by apply bool_decide_eq_false in Hn.
  - induction 1; simpl; [done|]. rewrite compare_names. by rewrite bool_decide_false.
Qed.

Lemma first_entry_elem account ds d : first_entry account ds d → d ∈ ds.
Proof. intros (pre & post & -> & _). set_solver. Qed.

Section SplitDelegationSpec.
Context {alloy : AlloyText}.
Implicit Types (env : GuestEvmEnv) (account pd : Address) (asset : Asset).

(** The call made for one potential delegate, by what the registry answers. *)
Lemma potential_delegate_cases env account asset pd o :
  potential_delegate_delegation env account asset pd = Ret o ↔
  ∃ r, registry_of (genv_view env) asset pd = Some r ∧
    ((gdr_delegations r = [] ∧ o = Some {| delegate := pd; ratio := 1 |}) ∨
     (gdr_delegations r ≠ [] ∧ o = None ∧
      Forall (λ e, ¬ names account e) (gdr_delegations r)) ∨
     (∃ d, first_entry account (gdr_delegations r) d ∧ reg_ratio d ≠ 0 ∧
        o = Some {| delegate := pd;
          ratio := (zsum (map reg_ratio (gdr_delegations r)) mod U256_MOD) / reg_ratio d |})).
Proof.
  unfold potential_delegate_delegation. rewrite bind_Ret_inv. simpl. f_equiv. intros r.
  rewrite (guest_call_registry env). fold (registry_of (genv_view env) asset pd).
  apply and_iff_compat_l. destruct (is_empty (gdr_delegations r)) eqn:He.
  { apply is_empty_true in He. rewrite He. split; [naive_solver|].
    intros [[_ ->]|[[? _]|(d & (pre&?&Hd&_) & _)]]; [done..|by destruct pre]. }
  apply is_empty_false in He. case_match eqn:Hf.
  - pose proof (proj1 (find_first_entry _ _ _) Hf) as Hfe.
    rewrite bind_Ret_inv. setoid_rewrite u256_div_Ret. rewrite total_ratios_spec. split.
    + intros (q & [Hnz ->] & [= <-]). eauto 8.
    + intros [[? _]|[(_ & _ & Hno%find_no_entry)|(d & Hd%find_first_entry & Hnz & ->)]];
        [done|congruence|].
      rewrite Hf in Hd. injection Hd as ->. eauto.
  - pose proof (proj1 (find_no_entry _ _) Hf). split; [intros [= <-]; eauto|].
    intros [[? _]|[(_ & -> & _)|(d & Hd%find_first_entry & _)]]; [done|done|congruence].
Qed.

Lemma potential_delegate_Some env account asset pd d :
  potential_delegate_delegation env account asset pd = Ret (Some d) ↔
  delegates_to (genv_view env) account asset pd d.
Proof.
  rewrite potential_delegate_cases. split.
  - intros (r & Hr & [[? [= ->]]|[(_ & ? & _)|(e & He & Hnz & [= ->])]]); [|done|].
    + by eapply delegates_none.
    + by eapply delegates_split.
  - intros [r Hr Hds|r e Hr He Hnz]; exists r; split_and!; eauto 8.
Qed.

Lemma potential_delegate_None env account asset pd :
  potential_delegate_delegation env account asset pd = Ret None ↔
  refuses (genv_view env) account asset pd.
Proof. rewrite potential_delegate_cases. unfold refuses. naive_solver. Qed.

Lemma potential_delegate_returns env account asset pd :
  (∃ o, potential_delegate_delegation env account asset pd = Ret o) ↔
  answers (genv_view env) account asset pd.
Proof.
  unfold answers. rewrite <-potential_delegate_None. setoid_rewrite <-potential_delegate_Some.
  split; [intros [[d|] ?]; eauto|intros [[d ?]|?]; eauto].
Qed.

(** The only panics are a registry call that does not return and a
    matching entry whose ratio is zero. *)
Lemma potential_delegate_panic env account asset pd p :
  potential_delegate_delegation env account asset pd = Panics p →
  (p = CallFailed ∧ registry_of (genv_view env) asset pd = None) ∨
  (p = DivisionByZero ∧ ∃ r d, registry_of (genv_view env) asset pd = Some r ∧
     first_entry account (gdr_delegations r) d ∧ reg_ratio d = 0).
Proof.
  unfold potential_delegate_delegation, guest_call, registry_of.
  destruct (genv_view env _ _) as [r|]; simpl; [|intros [= <-]; by left].
  case_match; [done|]. case_match eqn:Hf; [|done].
  unfold u256_div. destruct (Z.eqb_spec (reg_ratio r0) 0); [|done].
  intros [= <-]. right. split; [done|]. apply find_first_entry in Hf. eauto.
Qed.

(** The chunks of valid data are its addresses, and [from_slice] never panics. *)
Lemma chunks_addresses data :
  (length data mod 20 = 0)%nat →
  ∃ addrs : list Address, mapM address_from_slice (chunks_exact 20 data) = Ret addrs
    ∧ data = concat (fb_bytes <$> addrs).
Proof.
  intros [Hc Hl]%chunks_exact_spec; [|lia].
  enough (∃ addrs : list Address, mapM address_from_slice (chunks_exact 20 data) = Ret addrs
    ∧ concat (chunks_exact 20 data) = concat (fb_bytes <$> addrs)) by (by rewrite Hc in *).
  clear Hc. induction Hl as [|c cs Hlen Hl (addrs & Haddrs & Hcs)]; [by exists []|].
  destruct (fixed_try_from_length c Hlen) as (a & Ha & <-).
  exists (a :: addrs). simpl. rewrite address_from_slice_bytes. simpl.
  by rewrite Haddrs, Hcs.
Qed.

Lemma length_addresses (addrs : list Address) :
  (length (concat (fb_bytes <$> addrs)) mod 20 = 0)%nat.
Proof.
  induction addrs as [|a addrs IH]; [done|].
  rewrite fmap_cons, concat_cons, length_app, length_fb_bytes.
  by rewrite Nat.Div0.add_mod, IH.
Qed.

(** Encoding addresses into the voter's data and decoding it is the identity. *)
Lemma addresses_chunks (addrs : list Address) :
  mapM address_from_slice (chunks_exact 20 (concat (fb_bytes <$> addrs))) = Ret addrs.
Proof.
  rewrite chunks_exact_concat; [|lia|].
  - apply mapM_Ret, Forall2_fmap_l, Forall_Forall2_diag, Forall_true.
    apply address_from_slice_bytes.
  - apply Forall_fmap, Forall_true. apply length_fb_bytes.
Qed.

Lemma addresses_inj (addrs addrs' : list Address) :
  concat (fb_bytes <$> addrs) = concat (fb_bytes <$> addrs') → addrs = addrs'.
Proof.
  intros Heq. pose proof (addresses_chunks addrs) as H1.
  rewrite Heq, addresses_chunks in H1. by injection H1.
Qed.

(** On the data of [addrs], the strategy is the check of every address. *)
Lemma split_delegation_addresses env account asset addrs :
  split_delegation_process env account asset (concat (fb_bytes <$> addrs)) =
  (os ← mapM (potential_delegate_delegation env account asset) addrs;
   if existsb is_none os then Ret (Err ERR_INVALID)
   else ds ← mapM unwrap os; Ret (Ok ds)).
Proof.
  unfold split_delegation_process. rewrite decide_False by (intros Hn; apply Hn, length_addresses).
  by rewrite addresses_chunks.
Qed.

Lemma split_delegation_Ok env account asset data ds :
  split_delegation_process env account asset data = Ret (Ok ds) ↔
  ∃ addrs, data = concat (fb_bytes <$> addrs) ∧
    Forall2 (delegates_to (genv_view env) account asset) addrs ds.
Proof.
  split.
  - intros Hp. unfold split_delegation_process in Hp. case_decide as Hlen; [discriminate|].
    destruct (chunks_addresses data) as (addrs & Ha & Hdata); [lia|].
    exists addrs. split; [done|]. rewrite Ha in Hp. simpl in Hp.
    apply bind_Ret_inv in Hp as (os & Hos & Hp). case_match; [discriminate|].
    outcome_inv. subst. apply mapM_Ret in Hos.
    match goal with Hu : mapM unwrap _ = Ret _ |- _ => apply mapM_unwrap_inv in Hu as -> end.
    apply Forall2_fmap_r in Hos. eapply Forall2_impl; [exact Hos|].
    intros pd d Hd. by apply potential_delegate_Some.
  - intros (addrs & -> & Hall). rewrite split_delegation_addresses.
    rewrite (proj2 (mapM_Ret _ _ (Some <$> ds))).
    2:{ apply Forall2_fmap_r. eapply Forall2_impl; [exact Hall|].
        intros pd d Hd. by apply potential_delegate_Some. }
    simpl. rewrite (proj2 (mapM_unwrap_Ret _)) by (eexists; apply mapM_unwrap_fmap).
    by rewrite mapM_unwrap_fmap.
Qed.

Lemma mapM_potential_returns env account asset addrs :
  Forall (answers (genv_view env) account asset) addrs ↔
  ∃ os, mapM (potential_delegate_delegation env account asset) addrs = Ret os.
Proof.
  setoid_rewrite mapM_Ret. rewrite <-Forall_exists_Forall2_l.
  apply Forall_iff. intros pd. by rewrite potential_delegate_returns.
Qed.

Lemma mapM_potential_refused env account asset addrs os :
  mapM (potential_delegate_delegation env account asset) addrs = Ret os →
  existsb is_none os = true ↔ Exists (refuses (genv_view env) account asset) addrs.
Proof.
  rewrite mapM_Ret. induction 1 as [|pd o addrs os Ho Hall IH]; simpl.
  - by rewrite Exists_nil.
  - rewrite orb_true_iff, IH, Exists_cons, <-potential_delegate_None, Ho.
    destruct o; naive_solver.
Qed.

Lemma split_delegation_Err env account asset data e :
  split_delegation_process env account asset data = Ret (Err e) ↔
  ((length data mod 20 ≠ 0)%nat ∧ e = ERR_LENGTH) ∨
  (∃ addrs, data = concat (fb_bytes <$> addrs) ∧ e = ERR_INVALID ∧
     Forall (answers (genv_view env) account asset) addrs ∧
     Exists (refuses (genv_view env) account asset) addrs).
Proof.
  destruct (decide (length data mod 20 = 0)%nat) as [Hlen|Hlen].
  - destruct (chunks_addresses data Hlen) as (addrs & _ & ->).
    rewrite split_delegation_addresses, bind_Ret_inv. split.
    + intros (os & Hos & Hp). destruct (existsb is_none os) eqn:Hn.
      * injection Hp as <-. right. exists addrs. rewrite <-mapM_potential_refused by done.
        rewrite mapM_potential_returns. eauto.
      * by apply bind_Ret_inv in Hp as (? & _ & ?).
    + intros [[]|(addrs' & <-%addresses_inj & -> & [os Hos]%mapM_potential_returns & Hr)]; [done|].
      exists os. split; [done|]. by rewrite (proj2 (mapM_potential_refused _ _ _ _ _ Hos) Hr).
  - unfold split_delegation_process. rewrite decide_True by done. split.
    + intros [= <-]. by left.
    + intros [[_ ->]|(addrs & -> & _)]; [done|]. by destruct Hlen; apply length_addresses.
Qed.

Lemma split_delegation_returns env account asset data :
  (∃ r, split_delegation_process env account asset data = Ret r) ↔
  (length data mod 20 ≠ 0)%nat ∨
  ∃ addrs, data = concat (fb_bytes <$> addrs) ∧
    Forall (answers (genv_view env) account asset) addrs.
Proof.
  destruct (decide (length data mod 20 = 0)%nat) as [Hlen|Hlen].
  - destruct (chunks_addresses data Hlen) as (addrs & _ & ->).
    rewrite split_delegation_addresses. split.
    + intros [r Hr]. apply bind_Ret_inv in Hr as (os & Hos & _).
      right. exists addrs. rewrite mapM_potential_returns. eauto.
    + intros [?|(addrs' & <-%addresses_inj & [os Hos]%mapM_potential_returns)]; [done|].
      rewrite Hos. simpl. destruct (existsb is_none os) eqn:Hn; [eauto|].
      apply mapM_unwrap_Ret in Hn as [ds ->]. simpl. eauto.
  - unfold split_delegation_process. rewrite decide_True by done. split; eauto.
Qed.
End SplitDelegationSpec.

(** ** Shares and their sums *)

(** With ratios [r] of a total [T], the power [p] of the delegator is divided
    by the rounded-down [T / r]: never less than the exact share [p * r / T],
    never more than twice it, and exact when [r] divides [T]. *)
Lemma share_bounds T r p :
  0 < r → r <= T → 0 <= p →
  1 <= T / r ∧ p * r / T <= p / (T / r) ∧ p / (T / r) <= p ∧
  p / (T / r) * T <= 2 * p * r ∧ ((r | T) → p / (T / r) * T <= p * r).
Proof.
  intros Hr HrT Hp.
  assert (1 <= T / r) as Hq by (apply Z.div_le_lower_bound; lia).
  pose proof (Z.mul_div_le T r Hr) as Hle. pose proof (Z.mul_succ_div_gt T r Hr) as Hgt.
  set (q := T / r) in *. assert (q * (p / q) <= p) as Hs by (apply Z.mul_div_le; lia).
  assert (0 <= p / q) as Hs0 by (apply Z.div_pos; lia). split_and!.
  - done.
  - apply Z.div_le_lower_bound; [lia|].
    enough (p * r / T * q <= p) by lia. pose proof (Z.mul_div_le (p * r) T). nia.
  - apply Z.div_le_upper_bound; nia.
  - transitivity (p / q * (2 * q * r)); nia.
  - intros [k Hk]. assert (q = k) by (unfold q; rewrite Hk; apply Z.div_mul; lia). nia.
Qed.

Lemma names_unique a a' e : names a e → names a' e → a = a'.
Proof. unfold names. intros H1 H2. apply fb_bytes_inj. congruence. Qed.

Lemma first_entry_cons a x ds e :
  first_entry a (x :: ds) e ↔ (names a x ∧ e = x) ∨ (¬ names a x ∧ first_entry a ds e).
Proof.
  unfold first_entry, names. split.
  - intros ([|y pre] & post & [= -> ->] & Hn & Hpre); [by left|].
    apply Forall_cons in Hpre as [? ?]. right. eauto 6.
  - intros [[? ->]|[? (pre & post & -> & ? & ?)]]; [by exists [], ds|].
    exists (x :: pre), post. auto.
Qed.

Lemma first_entries_tail x ds accounts es :
  Forall (λ a, ¬ names a x) accounts →
  Forall2 (λ a e, first_entry a (x :: ds) e) accounts es →
  Forall2 (λ a e, first_entry a ds e) accounts es.
Proof.
  intros Hn. induction 1 as [|a e accounts es He Hes IH]; [constructor|].
  apply Forall_cons in Hn as [Hna Hn].
  apply first_entry_cons in He as [[? _]|[_ He]]; [done|]. constructor; auto.
Qed.

(** Distinct accounts are named by distinct entries, so their ratios sum to at
    most the total. *)
Lemma sum_first_entries ds accounts es :
  Forall (λ d, 0 <= reg_ratio d) ds → NoDup accounts →
  Forall2 (λ a e, first_entry a ds e) accounts es →
  zsum (map reg_ratio es) <= zsum (map reg_ratio ds).
Proof.
  intros Hpos. revert accounts es. induction Hpos as [|x ds Hx Hpos IH]; intros accounts es Hnd Hes.
  { destruct Hes as [|a e ? ? (pre & ? & Hd & _)]; [done|]. by destruct pre. }
  destruct (decide (Exists (λ a, names a x) accounts)) as [Hex|Hno].
  - apply Exists_exists in Hex as (a0 & Hin & Ha0).
    apply list_elem_of_split in Hin as (l1 & l2 & ->).
    apply Forall2_app_inv_l in Hes as (e1 & es' & He1 & Hes' & ->).
    apply Forall2_cons_inv_l in Hes' as (e0 & e2 & He0 & He2 & ->).
    apply first_entry_cons in He0 as [[_ ->]|[? _]]; [|done].
    apply NoDup_app in Hnd as (Hnd1 & Hdisj & [Hna0 Hnd2]%NoDup_cons).
    assert (∀ a, a ∈ l1 ++ l2 → ¬ names a x) as Hother.
    { intros a Ha Hn. pose proof (names_unique _ _ _ Hn Ha0) as ->. set_solver. }
    assert (zsum (map reg_ratio (e1 ++ e2)) <= zsum (map reg_ratio ds)) as Hle.
    { apply (IH (l1 ++ l2)).
      - apply NoDup_app. set_solver.
      - apply Forall2_app; eapply first_entries_tail; try done;
          apply Forall_forall; set_solver. }
    rewrite map_app, zsum_app in *. simpl. lia.
  - apply Forall_Exists_neg in Hno.
    apply first_entries_tail in Hes; [|done]. pose proof (IH _ _ Hnd Hes). simpl. lia.
Qed.

(** The ratios of a delegator, as integers: the code adds them modulo 2^256. *)
Definition ratio_sum (r : getDelegationReturn) : Z := zsum (map reg_ratio (gdr_delegations r)).

(** The sum does not wrap.  The registry is not part of the repository and the
    code does not check it; [split_delegation_wraps] shows what happens
    otherwise. *)
Definition registry_ok (r : getDelegationReturn) : Prop :=
  Forall (λ d, 0 <= reg_ratio d) (gdr_delegations r) ∧ ratio_sum r < U256_MOD.

Section Shares.
Context {alloy : AlloyText}.

(** A single delegator in the voter's data. *)
Lemma split_delegation_single env account asset (pd : Address) d :
  split_delegation_process env account asset (fb_bytes pd) = Ret (Ok [d]) ↔
  delegates_to (genv_view env) account asset pd d.
Proof.
  rewrite split_delegation_Ok. split.
  - intros (addrs & Hb & Hall). rewrite <-(app_nil_r (fb_bytes pd)) in Hb.
    apply (addresses_inj [pd]) in Hb as <-. by inversion Hall.
  - intros Hd. exists [pd]. simpl. by rewrite app_nil_r; repeat constructor.
Qed.

Lemma view_wf_ratios v asset pd r :
  view_wf v → registry_of v asset pd = Some r →
  Forall (λ d, 0 <= reg_ratio d) (gdr_delegations r).
Proof.
  intros Hwf Hr. eapply Forall_impl; [by eapply view_wf_registry|]. intros d Hd. apply Hd.
Qed.

Lemma view_wf_registry_ok v asset pd r :
  view_wf v → registry_of v asset pd = Some r → ratio_sum r < U256_MOD → registry_ok r.
Proof. intros Hwf Hr Hsum. split; [by eapply view_wf_ratios|done]. Qed.

Lemma delegates_to_ratio v account asset pd r d :
  registry_of v asset pd = Some r → gdr_delegations r ≠ [] → registry_ok r →
  delegates_to v account asset pd d →
  ∃ e, first_entry account (gdr_delegations r) e ∧ 0 < reg_ratio e ∧
    reg_ratio e <= zsum (map reg_ratio (gdr_delegations r)) ∧
    ratio d = zsum (map reg_ratio (gdr_delegations r)) / reg_ratio e.
Proof.
  intros Hr Hne [Hpos Hsum] [r' Hr' Hnil|r' e Hr' He Hnz]; rewrite Hr in Hr';
    injection Hr' as <-; [done|]. unfold ratio_sum in Hsum.
  pose proof (first_entry_elem _ _ _ He) as Hin.
  rewrite Forall_forall in Hpos. pose proof (Hpos _ Hin).
  assert (Forall (λ x, 0 <= x) (map reg_ratio (gdr_delegations r))) as Hpos'.
  { apply Forall_fmap, Forall_forall. done. }
  assert (reg_ratio e <= zsum (map reg_ratio (gdr_delegations r))) as Hle.
  { apply zsum_elem_le; [done|]. apply list_elem_of_fmap_2. done. }
  exists e. split_and!; [done|lia|done|]. simpl. rewrite Z.mod_small; [done|lia].
Qed.

(** The shares of distinct accounts in one delegator's power [p]. *)
Lemma shares_sum env asset pd r p accounts ds k :
  registry_of (genv_view env) asset pd = Some r → gdr_delegations r ≠ [] → registry_ok r →
  0 <= p → 0 <= k → NoDup accounts →
  Forall2 (λ a d, delegates_to (genv_view env) a asset pd d) accounts ds →
  (∀ e, e ∈ gdr_delegations r → 0 < reg_ratio e →
     reg_ratio e <= zsum (map reg_ratio (gdr_delegations r)) →
     p / (zsum (map reg_ratio (gdr_delegations r)) / reg_ratio e)
       * zsum (map reg_ratio (gdr_delegations r)) <= k * p * reg_ratio e) →
  zsum (map (λ d, p / ratio d) ds) <= k * p.
Proof.
  intros Hr Hne Hok Hp Hk Hnd Hds Hbound. set (T := zsum (map reg_ratio (gdr_delegations r))) in *.
  assert (∃ es, Forall2 (λ a e, first_entry a (gdr_delegations r) e) accounts es ∧
    zsum (map (λ d, p / ratio d) ds) * T <= k * p * zsum (map reg_ratio es)) as (es & Hes & Hle).
  { clear Hnd. induction Hds as [|a d accounts ds Hd Hds (es & Hes & Hle)].
    { exists []. split; [constructor|simpl; lia]. }
    destruct (delegates_to_ratio _ _ _ _ _ _ Hr Hne Hok Hd) as (e & He & He0 & HeT & Hq).
    fold T in HeT, Hq. exists (e :: es). split; [by constructor|]. simpl. rewrite Hq.
    pose proof (Hbound e (first_entry_elem _ _ _ He) He0 HeT). lia. }
  apply sum_first_entries in Hes as HT; [|apply Hok|done]. fold T in HT.
  destruct Hes as [|a e accounts es He Hes]; [simpl in *|].
  { inversion Hds. subst. simpl. lia. }
  inversion Hds as [|? d ? ds' Hd Hds']; subst.
  destruct (delegates_to_ratio _ _ _ _ _ _ Hr Hne Hok Hd) as (e' & _ & He0 & HeT & _).
  fold T in HeT. apply (Z.mul_le_mono_pos_r _ _ T); [lia|].
  etransitivity; [exact Hle|]. rewrite <-!Z.mul_assoc.
  apply Z.mul_le_mono_nonneg_l; [lia|]. apply Z.mul_le_mono_nonneg_l; [lia|]. exact HT.
Qed.

(** They sum to at most twice that power. *)
Lemma shares_twice env asset pd r p accounts ds :
  registry_of (genv_view env) asset pd = Some r → gdr_delegations r ≠ [] → registry_ok r →
  0 <= p → NoDup accounts →
  Forall2 (λ a d, delegates_to (genv_view env) a asset pd d) accounts ds →
  zsum (map (λ d, p / ratio d) ds) <= 2 * p.
Proof.
  intros Hr Hne Hok Hp Hnd Hds. eapply (shares_sum _ _ _ _ _ _ _ 2); try done.
  intros e _ He0 HeT. by destruct (share_bounds _ _ p He0 HeT Hp) as (_ & _ & _ & ? & _).
Qed.
End Shares.

(** Closes a claim of the example chain: [e] is the entry that names the
    account, after [pre] and before [post]. *)
Ltac fixture_claim r e pre post :=
  apply split_delegation_single;
  refine (@delegates_split Fixture.alloy _ _ _ _ r e _ _ _);
    [reflexivity
    |exists pre, post; split_and!; [reflexivity|reflexivity|repeat constructor; discriminate]
    |discriminate].

(** ** Properties *)

(** C12: [SplitDelegation::process] accepts exactly the data that is the
    concatenation of 20-byte addresses each of which lets the account claim
    its power in the registry, and returns the claims in the order of the
    data. *)
Theorem split_delegation_accepts {alloy : AlloyText} env account asset data ds :
  split_delegation_process env account asset data = Ret (Ok ds) ↔
  ∃ addrs : list Address, data = concat (fb_bytes <$> addrs) ∧
    Forall2 (delegates_to (genv_view env) account asset) addrs ds.
Proof. apply split_delegation_Ok. Qed.

(** The errors of [SplitDelegation::process]: data whose length is not a
    multiple of 20, and data in which some delegator delegated to others only;
    it panics only where a registry call does not return or a matching ratio
    is zero. *)
Theorem split_delegation_rejects {alloy : AlloyText} env account asset data :
  (∀ e, split_delegation_process env account asset data = Ret (Err e) ↔
    ((length data mod 20 ≠ 0)%nat ∧ e = ERR_LENGTH) ∨
    (∃ addrs : list Address, data = concat (fb_bytes <$> addrs) ∧ e = ERR_INVALID ∧
       Forall (answers (genv_view env) account asset) addrs ∧
       Exists (refuses (genv_view env) account asset) addrs)) ∧
  ((∃ r, split_delegation_process env account asset data = Ret r) ↔
    (length data mod 20 ≠ 0)%nat ∨
    ∃ addrs : list Address, data = concat (fb_bytes <$> addrs) ∧
      Forall (answers (genv_view env) account asset) addrs).
Proof. split; [intros e; apply split_delegation_Err|apply split_delegation_returns]. Qed.

(** C17: the worth of a claim on a delegator that split its power, on a chain
    whose answers fit their ABI types.  The claim's ratio is the sum of the
    delegator's ratios, taken modulo 2^256, divided by the ratio of the first
    entry that names the account; dividing a power by it panics exactly when the wrapped sum is below that entry's ratio.
    If the sum does not wrap, no claim divides by zero, and it is worth at
    least the exact share and at most twice it, never more than the
    delegator's whole power, and the exact share when the ratio divides the
    sum. *)
Theorem split_delegation_share {alloy : AlloyText} env account asset (pd : Address) r d p :
  registry_of (genv_view env) asset pd = Some r → gdr_delegations r ≠ [] →
  view_wf (genv_view env) →
  split_delegation_process env account asset (fb_bytes pd) = Ret (Ok [d]) → 0 <= p →
  let T := ratio_sum r in
  ∃ e, first_entry account (gdr_delegations r) e ∧ 0 < reg_ratio e ∧
    ratio d = T mod U256_MOD / reg_ratio e ∧
    (u256_div p (ratio d) = Panics DivisionByZero ↔ T mod U256_MOD < reg_ratio e) ∧
    (T < U256_MOD →
      u256_div p (ratio d) = Ret (p / ratio d) ∧
      p * reg_ratio e / T <= p / ratio d ∧ p / ratio d <= p ∧
      p / ratio d * T <= 2 * p * reg_ratio e ∧
      ((reg_ratio e | T) → p / ratio d = p * reg_ratio e / T)).
Proof.
  intros Hr Hne Hwf Hd%split_delegation_single Hp T.
  assert (Forall (λ d, 0 <= reg_ratio d) (gdr_delegations r)) as Hpos
    by (by eapply view_wf_ratios).
  pose proof Hd as Hd'. destruct Hd as [r' Hr' Hnil|r' e Hr' He Hnz]; rewrite Hr in Hr';
    injection Hr' as <-; [done|].
  assert (0 < reg_ratio e) as He0.
  { rewrite Forall_forall in Hpos. pose proof (Hpos e (first_entry_elem _ _ _ He)). lia. }
  exists e. cbn [ratio]. change (zsum (map reg_ratio (gdr_delegations r))) with T.
  split_and!; try done.
  - unfold u256_div. pose proof (Z.mod_pos_bound T U256_MOD u256_mod_pos).
    destruct (Z.eqb_spec (T mod U256_MOD / reg_ratio e) 0) as [Hz|Hz].
    + split; [intros _|done]. by apply Z.div_small_iff in Hz as [?|?]; lia.
    + split; [done|]. intros Hlt. destruct Hz. apply Z.div_small. lia.
  - intros HT. destruct (delegates_to_ratio _ _ _ _ _ _ Hr Hne (conj Hpos HT) Hd')
      as (e' & He' & _ & HeT & Hq).
    assert (e' = e) as ->.
    { apply find_first_entry in He, He'. congruence. }
    change (reg_ratio e <= T) in HeT. change (T mod U256_MOD / reg_ratio e = T / reg_ratio e) in Hq.
    rewrite Hq.
    destruct (share_bounds T (reg_ratio e) p) as (H1 & H2 & H3 & H4 & H5); [done..|].
    split_and!; try done.
    + apply u256_div_Ret. split; [lia|done].
    + intros Hdiv. apply Z.le_antisymm; [|done]. apply Z.div_le_lower_bound; [lia|].
      specialize (H5 Hdiv). lia.
Qed.

Lemma split_delegation_share_witness :
  ∃ e, first_entry Fixture.carol (Fixture.entries Fixture.bob) e ∧ 50 / 2 = 50 * reg_ratio e / 2.
Proof.
  destruct (@split_delegation_share Fixture.alloy Fixture.genv Fixture.carol Fixture.asset
    Fixture.bob (mk_gdr (Fixture.entries Fixture.bob) 0) (mk_delegation Fixture.bob 2) 50)
    as (e & He & _ & _ & _ & Hfit).
  - reflexivity.
  - discriminate.
  - apply Fixture.view_wf_holds.
  - fixture_claim (mk_gdr (Fixture.entries Fixture.bob) 0) (mk_reg (Fixture.pad32 Fixture.carol) 1)
      (@nil RegistryDelegation) [mk_reg (Fixture.pad32 Fixture.dave) 1].
  - discriminate.
  - exists e. split; [exact He|]. apply Hfit; [reflexivity|].
    assert (reg_ratio e = 1) as ->.
    { apply first_entry_elem in He. vm_compute in He. set_solver. }
    exists 2. reflexivity.
Defined.

(** The claims of distinct accounts on one delegator that split its power
    sum to at most twice that power, and to at most that power when every
    ratio divides the total. *)
Theorem split_delegation_conservation {alloy : AlloyText} env asset (pd : Address) r p accounts ds :
  registry_of (genv_view env) asset pd = Some r → gdr_delegations r ≠ [] → registry_ok r →
  0 <= p → NoDup accounts →
  Forall2 (λ account d, split_delegation_process env account asset (fb_bytes pd) = Ret (Ok [d]))
    accounts ds →
  zsum (map (λ d, p / ratio d) ds) <= 2 * p ∧
  ((∀ e, e ∈ gdr_delegations r → 0 < reg_ratio e →
      (reg_ratio e | zsum (map reg_ratio (gdr_delegations r)))) →
   zsum (map (λ d, p / ratio d) ds) <= p).
Proof.
  intros Hr Hne Hok Hp Hnd Hds.
  assert (Forall2 (λ a d, delegates_to (genv_view env) a asset pd d) accounts ds) as Hds'.
  { eapply Forall2_impl; [exact Hds|]. intros a d. by rewrite split_delegation_single. }
  split.
  - by eapply shares_twice.
  - intros Hdiv. enough (zsum (map (λ d, p / ratio d) ds) <= 1 * p) by lia.
    eapply (shares_sum _ _ _ _ _ _ _ 1); try done. intros e Hin He0 HeT.
    destruct (share_bounds _ _ p He0 HeT Hp) as (_ & _ & _ & _ & Hd).
    specialize (Hd (Hdiv e Hin He0)). lia.
Qed.

Lemma split_delegation_conservation_witness :
  zsum (map (λ d, 50 / ratio d) [mk_delegation Fixture.bob 2; mk_delegation Fixture.bob 2]) <= 50.
Proof.
  refine (proj2 (@split_delegation_conservation Fixture.alloy Fixture.genv Fixture.asset Fixture.bob
    (mk_gdr (Fixture.entries Fixture.bob) 0) 50 [Fixture.carol; Fixture.dave] _ _ _ _ _ _ _) _).
  - reflexivity.
  - discriminate.
  - split; [repeat constructor; discriminate|reflexivity].
  - discriminate.
  - apply NoDup_cons; split; [|apply NoDup_singleton].
    intros Hin%list_elem_of_singleton%(f_equal fb_bytes). discriminate.
  - repeat constructor.
    + fixture_claim (mk_gdr (Fixture.entries Fixture.bob) 0) (mk_reg (Fixture.pad32 Fixture.carol) 1)
        (@nil RegistryDelegation) [mk_reg (Fixture.pad32 Fixture.dave) 1].
    + fixture_claim (mk_gdr (Fixture.entries Fixture.bob) 0) (mk_reg (Fixture.pad32 Fixture.dave) 1)
        [mk_reg (Fixture.pad32 Fixture.carol) 1] (@nil RegistryDelegation).
  - intros e He _. assert (reg_ratio e = 1) as -> by (vm_compute in He; set_solver).
    exists 2. reflexivity.
Defined.

(** The rounding of the ratio inflates: a delegator with 60 votes who gave
    two parts to one account and three to another is claimed for 30 and for 60
    votes, 90 in all, where the exact shares are 24 and 36. *)
Theorem split_delegation_inflates :
  ∃ ds, Forall2 (λ account d,
      @split_delegation_process Fixture.alloy Fixture.genv account Fixture.asset
        (fb_bytes Fixture.erin) = Ret (Ok [d])) [Fixture.carol; Fixture.dave] ds ∧
    map (λ d, Fixture.balance Fixture.erin / ratio d) ds = [30; 60] ∧
    Fixture.balance Fixture.erin = 60.
Proof.
  exists [mk_delegation Fixture.erin 2; mk_delegation Fixture.erin 1]. split; [|done].
  repeat constructor.
  - fixture_claim (mk_gdr (Fixture.entries Fixture.erin) 0) (mk_reg (Fixture.pad32 Fixture.carol) 2)
      (@nil RegistryDelegation) [mk_reg (Fixture.pad32 Fixture.dave) 3].
  - fixture_claim (mk_gdr (Fixture.entries Fixture.erin) 0) (mk_reg (Fixture.pad32 Fixture.dave) 3)
      [mk_reg (Fixture.pad32 Fixture.carol) 2] (@nil RegistryDelegation).
Qed.

(** An account that delegated to nobody can be claimed in full by every
    account, not only by itself. *)
Theorem split_delegation_undelegated {alloy : AlloyText} env asset (pd : Address) r :
  registry_of (genv_view env) asset pd = Some r → gdr_delegations r = [] →
  ∀ account, split_delegation_process env account asset (fb_bytes pd) =
    Ret (Ok [{| delegate := pd; ratio := 1 |}]).
Proof. intros Hr Hnil account. apply split_delegation_single. by eapply delegates_none. Qed.

Lemma split_delegation_undelegated_witness :
  @split_delegation_process Fixture.alloy Fixture.genv Fixture.dave Fixture.asset
    (fb_bytes Fixture.alice) = Ret (Ok [{| delegate := Fixture.alice; ratio := 1 |}]).
Proof.
  apply (@split_delegation_undelegated Fixture.alloy Fixture.genv Fixture.asset Fixture.alice
    (mk_gdr [] 0)); reflexivity.
Defined.

(** The sum of the ratios wraps.  When an odd number of accounts each have the
    ratio 2^255, every one of them claims the delegator's whole power: the
    claims of three accounts are three times the power, of five accounts five
    times. *)
Theorem split_delegation_wraps {alloy : AlloyText} env asset (pd : Address) r accounts :
  registry_of (genv_view env) asset pd = Some r →
  Forall2 (λ account d, names account d ∧ reg_ratio d = 2 ^ 255) accounts (gdr_delegations r) →
  Nat.Odd (length accounts) →
  ∀ account, account ∈ accounts →
    split_delegation_process env account asset (fb_bytes pd) =
      Ret (Ok [{| delegate := pd; ratio := 1 |}]).
Proof.
  intros Hr Hall [k Hk] account Hin. apply split_delegation_single.
  assert (zsum (map reg_ratio (gdr_delegations r)) = Z.of_nat (length accounts) * 2 ^ 255) as Hsum.
  { clear -Hall. induction Hall as [|a d l ds [_ Hd] Hall IH]; [done|].
    cbn [map zsum foldr length]. fold (zsum (map reg_ratio ds)). rewrite Hd, IH. lia. }
  destruct (List.find (λ d, compare_bytes32_to_address (reg_delegate d) account)
    (gdr_delegations r)) as [e|] eqn:Hf; cycle 1.
  { apply list_elem_of_lookup in Hin as (i & Hi).
    destruct (Forall2_lookup_l _ _ _ _ _ Hall Hi) as (d & Hd & Hn & _). apply find_no_entry in Hf.
    rewrite Forall_forall in Hf. by destruct (Hf d (list_elem_of_lookup_2 _ _ _ Hd)). }
  apply find_first_entry in Hf as He.
  assert (reg_ratio e = 2 ^ 255) as Hratio.
  { apply first_entry_elem, list_elem_of_lookup in He as (i & Hi).
    by destruct (Forall2_lookup_r _ _ _ _ _ Hall Hi) as (a & _ & _ & ?). }
  pose proof (delegates_split _ account _ _ _ _ Hr He) as Hd. rewrite Hratio, Hsum in Hd.
  replace (Z.of_nat (length accounts) * 2 ^ 255) with (2 ^ 255 + Z.of_nat k * U256_MOD) in Hd
    by (unfold U256_MOD; lia).
  rewrite Z_mod_plus_full, Z.mod_small, Z.div_same in Hd by done. by apply Hd.
Qed.

(** Three accounts with the ratio 2^255 each. *)
Definition wrapping_env : GuestEvmEnv := {|
  genv_view _ c :=
    match c with
    | CallRegistry _ =>
        Some (mk_gdr ((λ a, mk_reg (Fixture.pad32 a) (2 ^ 255)) <$>
                [Fixture.alice; Fixture.bob; Fixture.carol]) 0)
    | _ => None
    end;
  genv_number := Fixture.block_number;
  genv_commitment := Fixture.commitment
|}.

Lemma split_delegation_wraps_witness :
  @split_delegation_process Fixture.alloy wrapping_env Fixture.bob Fixture.asset
    (fb_bytes Fixture.erin) = Ret (Ok [{| delegate := Fixture.erin; ratio := 1 |}]).
Proof.
  eapply (@split_delegation_wraps Fixture.alloy wrapping_env Fixture.asset Fixture.erin _
    [Fixture.alice; Fixture.bob; Fixture.carol]).
  - reflexivity.
  - repeat constructor.
  - exists 1%nat. reflexivity.
  - right. left.
Defined.

(** Claims are not deduplicated: data made of two accepted parts is
    accepted with the claims of both, whatever they share; in particular a
    part repeated [n] times is accepted with its claims repeated [n] times. *)
Theorem split_delegation_repeats {alloy : AlloyText} env account asset data ds n :
  split_delegation_process env account asset data = Ret (Ok ds) →
  split_delegation_process env account asset (concat (replicate n data)) =
    Ret (Ok (concat (replicate n ds))).
Proof.
  rewrite !split_delegation_Ok. intros (addrs & -> & Hall).
  exists (concat (replicate n addrs)). rewrite concat_fmap_replicate. auto with zkgov.
Qed.

Lemma split_delegation_repeats_witness :
  @split_delegation_process Fixture.alloy Fixture.genv Fixture.carol Fixture.asset
    (concat (replicate 3 (fb_bytes Fixture.carol))) =
  Ret (Ok (replicate 3 {| delegate := Fixture.carol; ratio := 1 |})).
Proof.
  apply (@split_delegation_repeats Fixture.alloy Fixture.genv Fixture.carol Fixture.asset
    (fb_bytes Fixture.carol) [{| delegate := Fixture.carol; ratio := 1 |}] 3).
  apply split_delegation_single. by apply (@delegates_none Fixture.alloy _ _ _ _ (mk_gdr [] 0)).
Defined.
