(* ===== verification/GuestExecution.v ===== *)
(** * Guest execution strategies (crate [strategies], [execution_strategies])

    [MajorityVoting] decides whether a tally lets a proposal be executed. *)

From stdpp Require Import base gmap list strings.
From Stdlib Require Import ZArith Lia Strings.Byte.
From S2P Require Import Prelude Machine Ethereum Fixtures.
#[local] Open Scope Z_scope.

(** [[U256; 3]] *)
Record array3 : Type := mk_array3 { tally_0 : U256; tally_1 : U256; tally_2 : U256 }.

#[export] Instance array3_eq_dec : EqDecision array3.
Proof. solve_decision. Defined.

(** [tally.to_vec()] and [Vec::try_into::<[U256; 3]>()] *)
Definition array3_to_vec (t : array3) : list U256 := [tally_0 t; tally_1 t; tally_2 t].
Definition array3_try_from (l : list U256) : option array3 :=
  match l with [a; b; c] => Some (mk_array3 a b c) | _ => None end.

Definition array3_wf (t : array3) : Prop :=
  u256_wf (tally_0 t) ∧ u256_wf (tally_1 t) ∧ u256_wf (tally_2 t).

Lemma array3_try_from_to_vec t : array3_try_from (array3_to_vec t) = Some t.
Proof. by destruct t. Qed.

Class ProtocolExecutionStrategy (T : Type) : Type := {
  es_proof_execution : T → GuestEvmEnv → U256 → array3 → bool
}.

(** [Box<dyn ProtocolExecutionStrategy>] *)
Record BoxExecution : Type := box_es {
  bes_type : Type;
  bes_inst : ProtocolExecutionStrategy bes_type;
  bes_self : bes_type
}.
Arguments box_es {_ _} _.

Definition dyn_es_proof_execution (b : BoxExecution) :=
  @es_proof_execution (bes_type b) (bes_inst b) (bes_self b).

Inductive MajorityVoting : Type := MajorityVoting_.

Definition majority_proof_execution (_env : GuestEvmEnv) (total_supply : U256)
    (tally : array3) : bool :=
  let yes_votes := tally_0 tally in
  let no_votes := tally_1 tally in
  let abstain_votes := tally_2 tally in
  let total_votes := u256_add (u256_add yes_votes no_votes) abstain_votes in
  if total_votes <=? total_supply / 2 then false
  else
    let non_abstain_votes := u256_add yes_votes no_votes in
    let threshold := non_abstain_votes / 2 in
    yes_votes >? threshold.

#[export] Instance MajorityVoting_strategy : ProtocolExecutionStrategy MajorityVoting := {|
  es_proof_execution _ := majority_proof_execution
|}.

(** ** What the strategy decides *)

Lemma half_lt a b : a / 2 < b ↔ a < 2 * b.
Proof. pose proof (Z.div_mod a 2). pose proof (Z.mod_pos_bound a 2). lia. Qed.

(** The decision, with the wrap-around of the 256-bit additions written out. *)
Lemma majority_wrapped env supply t :
  majority_proof_execution env supply t = true ↔
  supply < 2 * ((tally_0 t + tally_1 t + tally_2 t) mod U256_MOD) ∧
  (tally_0 t + tally_1 t) mod U256_MOD < 2 * tally_0 t.
Proof.
  unfold majority_proof_execution, u256_add. rewrite Zplus_mod_idemp_l, <-!half_lt.
  destruct (Z.leb_spec ((tally_0 t + tally_1 t + tally_2 t) mod U256_MOD) (supply / 2)).
  - split; [done|lia].
  - rewrite Z.gtb_lt. lia.
Qed.

(** The specification: more than half of the supply voted, and yes beats no. *)
Definition passes (supply : Z) (t : array3) : Prop :=
  supply < 2 * (tally_0 t + tally_1 t + tally_2 t) ∧ tally_1 t < tally_0 t.

Lemma majority_exact env supply t :
  array3_wf t → tally_0 t + tally_1 t + tally_2 t < U256_MOD →
  majority_proof_execution env supply t = true ↔ passes supply t.
Proof.
  intros (Hy & Hn & Ha) Hsum. unfold u256_wf in *. unfold passes.
  rewrite majority_wrapped, !Z.mod_small by lia. lia.
Qed.

(** Abstentions only help the quorum and yes votes help both conditions. *)
Definition tally_supports (t t' : array3) : Prop :=
  tally_0 t <= tally_0 t' ∧ tally_1 t' <= tally_1 t ∧
  tally_0 t + tally_1 t + tally_2 t <= tally_0 t' + tally_1 t' + tally_2 t'.

Lemma passes_supported supply t t' :
  tally_supports t t' → passes supply t → passes supply t'.
Proof. unfold tally_supports, passes. lia. Qed.

(** ** Properties *)

(** C15: while the votes fit in 256 bits, [MajorityVoting] passes a tally
    exactly when more than half of the supply voted and yes votes outnumber no
    votes; more yes votes, more abstentions or fewer no votes at no loss of
    turnout never turn a pass into a failure. *)
Theorem majority_voting_decides env supply t :
  array3_wf t → tally_0 t + tally_1 t + tally_2 t < U256_MOD →
  (majority_proof_execution env supply t = true ↔
     supply < 2 * (tally_0 t + tally_1 t + tally_2 t) ∧ tally_1 t < tally_0 t) ∧
  (∀ t', array3_wf t' → tally_0 t' + tally_1 t' + tally_2 t' < U256_MOD →
     tally_supports t t' → majority_proof_execution env supply t = true →
     majority_proof_execution env supply t' = true).
Proof.
  intros Hwf Hsum. split; [by apply majority_exact|].
  intros t' Hwf' Hsum' Hle. rewrite !majority_exact by done. by apply passes_supported.
Qed.

Lemma majority_voting_decides_witness :
  majority_proof_execution Fixture.genv 220 (mk_array3 60 40 20) = true ∧
  220 < 2 * (60 + 40 + 20) ∧ 40 < 60.
Proof.
  assert (majority_proof_execution Fixture.genv 220 (mk_array3 60 40 20) = true) as Hp
    by reflexivity.
  split; [exact Hp|].
  apply (proj1 (majority_voting_decides Fixture.genv 220 (mk_array3 60 40 20)
    ltac:(repeat split; (discriminate || reflexivity)) ltac:(reflexivity))). exact Hp.
Defined.

(** The vote counts are added with wrap-around and the guest does not bound
    them: a tally of one yes vote against 2^256 - 1 no votes passes. *)
Theorem majority_voting_wraps env supply :
  0 <= supply < U256_MOD →
  ∃ t, array3_wf t ∧ tally_0 t = 1 ∧ tally_1 t = U256_MOD - 1 ∧
    majority_proof_execution env supply t = true.
Proof.
  intros Hs. exists (mk_array3 1 (U256_MOD - 1) (Z.max supply 1)).
  unfold array3_wf, u256_wf. simpl. pose proof u256_mod_pos.
  assert (2 < U256_MOD) by reflexivity.
  split_and!; try lia. rewrite majority_wrapped. simpl tally_0. simpl tally_1. simpl tally_2.
  replace (1 + (U256_MOD - 1)) with U256_MOD by lia.
  rewrite Z_mod_same_full, Zplus_mod, Z_mod_same_full, Z.add_0_l, Zmod_mod.
  rewrite Z.mod_small by lia. lia.
Qed.

Lemma majority_voting_wraps_witness :
  ∃ t, array3_wf t ∧ tally_0 t = 1 ∧ tally_1 t = U256_MOD - 1 ∧
    majority_proof_execution Fixture.genv 220 t = true.
Proof. apply (majority_voting_wraps Fixture.genv 220). split; [discriminate|reflexivity]. Defined.
