(* ===== verification/GuestContext.v ===== *)
(** * The strategy registry of the guest ([strategies::Context])

    Three maps from strategy names to boxed strategies, and the dispatch the
    guest programs use. *)

From stdpp Require Import base gmap list strings.
From Stdlib Require Import ZArith Lia Strings.Byte.
From S2P Require Import Prelude Machine Ethereum Fixtures GuestVoting GuestDelegation.
From S2P Require Import GuestExecution.
#[local] Open Scope Z_scope.

Record Context : Type := mk_context {
  ctx_voting_power_strategies : gmap string BoxVotingPower;
  ctx_delegation_strategies : gmap string BoxDelegation;
  ctx_execution_strategies : gmap string BoxExecution;
  ctx_env : GuestEvmEnv
}.

Definition not_found (name : string) : string := ("Strategy not found: " +:+ name)%string.

(** [Context::new] *)
Definition context_new (env : GuestEvmEnv) : Context := {|
  ctx_voting_power_strategies := ∅;
  ctx_delegation_strategies := ∅;
  ctx_execution_strategies := ∅;
  ctx_env := env
|}.

(** [Context::add_strategy] *)
Definition add_strategy (ctx : Context) (name : string) (s : BoxVotingPower) : Context := {|
  ctx_voting_power_strategies := <[name := s]> (ctx_voting_power_strategies ctx);
  ctx_delegation_strategies := ctx_delegation_strategies ctx;
  ctx_execution_strategies := ctx_execution_strategies ctx;
  ctx_env := ctx_env ctx
|}.

(** [Context::process_voting_strategy] *)
Definition process_voting_strategy (ctx : Context) (name : string) (account : Address)
    (asset : Asset) : outcome U256 :=
  match ctx_voting_power_strategies ctx !! name with
  | Some s => dyn_vp_process s (ctx_env ctx) account asset
  | None => Panics (PanicMsg (not_found name))
  end.

(** [Context::process_total_supply] *)
Definition process_total_supply (ctx : Context) (asset : Asset) : outcome U256 :=
  match ctx_voting_power_strategies ctx !! asset_voting_power_strategy asset with
  | Some s => dyn_vp_get_supply s (ctx_env ctx) asset
  | None => Panics (PanicMsg (not_found (asset_voting_power_strategy asset)))
  end.

(** [Context::process_delegation_strategy]: an unknown name is an error here,
    not a panic. *)
Definition process_delegation_strategy (ctx : Context) (account : Address) (asset : Asset)
    (additional_data : list byte) : outcome (result (list Delegation)) :=
  match ctx_delegation_strategies ctx !! do_strategy (asset_delegation asset) with
  | Some s => dyn_ds_process s (ctx_env ctx) account asset additional_data
  | None => Ret (Err (not_found (do_strategy (asset_delegation asset))))
  end.

(** [Context::process_execution_strategy] *)
Definition process_execution_strategy (ctx : Context) (name : string) (total_supply : U256)
    (tally : array3) : outcome bool :=
  match ctx_execution_strategies ctx !! name with
  | Some s => Ret (dyn_es_proof_execution s (ctx_env ctx) total_supply tally)
  | None => Panics (PanicMsg (not_found name))
  end.

(** [Context::block_commitment] *)
Definition block_commitment (ctx : Context) : Commitment := genv_commitment (ctx_env ctx).

Section Default.
Context {alloy : AlloyText}.

(** [Context::default] *)
Definition context_default (env : GuestEvmEnv) : Context := {|
  ctx_voting_power_strategies :=
    <["GetPastVotes" := box_vp GetPastVotes_]> (<["BalanceOf" := box_vp BalanceOf_]> ∅);
  ctx_delegation_strategies := <["SplitDelegation" := box_ds SplitDelegation_]> ∅;
  ctx_execution_strategies := <["MajorityVoting" := box_es MajorityVoting_]> ∅;
  ctx_env := env
|}.

(** ** Dispatch of the default context *)

Lemma default_voting env name account asset :
  process_voting_strategy (context_default env) name account asset =
  if decide (name = "GetPastVotes") then get_past_votes_process env account asset
  else if decide (name = "BalanceOf") then balance_of_process env account asset
  else Panics (PanicMsg (not_found name)).
Proof.
  unfold process_voting_strategy. simpl. rewrite !lookup_insert, lookup_empty.
  repeat case_decide; by subst.
Qed.

Lemma default_supply env asset :
  process_total_supply (context_default env) asset =
  let name := asset_voting_power_strategy asset in
  if decide (name = "GetPastVotes") then get_past_votes_get_supply env asset
  else if decide (name = "BalanceOf") then balance_of_get_supply env asset
  else Panics (PanicMsg (not_found name)).
Proof.
  unfold process_total_supply. simpl. rewrite !lookup_insert, lookup_empty.
  repeat case_decide; by subst.
Qed.

Lemma default_delegation env account asset data :
  process_delegation_strategy (context_default env) account asset data =
  let name := do_strategy (asset_delegation asset) in
  if decide (name = "SplitDelegation") then split_delegation_process env account asset data
  else Ret (Err (not_found name)).
Proof.
  unfold process_delegation_strategy. simpl. rewrite !lookup_insert, lookup_empty.
  repeat case_decide; by subst.
Qed.

Lemma default_execution env name supply t :
  process_execution_strategy (context_default env) name supply t =
  if decide (name = "MajorityVoting") then Ret (majority_proof_execution env supply t)
  else Panics (PanicMsg (not_found name)).
Proof.
  unfold process_execution_strategy. simpl. rewrite !lookup_insert, lookup_empty.
  repeat case_decide; by subst.
Qed.
End Default.

(** ** Well-formed contexts

    Every registered voting power strategy keeps the promise of
    [VotingPowerOk]; the clients of a context are proved against this. *)

Definition context_ok (ctx : Context) : Prop :=
  map_Forall (λ _ b, @VotingPowerOk (bvp_type b) (bvp_inst b)) (ctx_voting_power_strategies ctx).

Lemma context_new_ok env : context_ok (context_new env).
Proof. apply map_Forall_empty. Qed.

Lemma add_strategy_ok ctx name T `{VotingPowerOk T} (s : T) :
  context_ok ctx → context_ok (add_strategy ctx name (box_vp s)).
Proof. intros. by apply map_Forall_insert_2. Qed.

Lemma context_default_ok {alloy : AlloyText} env : context_ok (context_default env).
Proof.
  repeat apply map_Forall_insert_2; [apply GetPastVotes_ok|apply BalanceOf_ok|].
  apply map_Forall_empty.
Qed.

Lemma process_voting_wf ctx name account asset p :
  context_ok ctx → view_wf (genv_view (ctx_env ctx)) →
  process_voting_strategy ctx name account asset = Ret p → u256_wf p.
Proof.
  intros Hok Hwf. unfold process_voting_strategy. case_match eqn:Hs; [|done].
  apply Hok in Hs as [Hp _]. by apply Hp.
Qed.

Lemma process_supply_wf ctx asset s :
  context_ok ctx → view_wf (genv_view (ctx_env ctx)) →
  process_total_supply ctx asset = Ret s → u256_wf s.
Proof.
  intros Hok Hwf. unfold process_total_supply. case_match eqn:Hs; [|done].
  apply Hok in Hs as [_ Hp]. by apply Hp.
Qed.

(** A strategy added under a fresh name changes no other dispatch. *)
Lemma add_strategy_lookup ctx name name' s account asset :
  process_voting_strategy (add_strategy ctx name s) name' account asset =
  if decide (name = name') then dyn_vp_process s (ctx_env ctx) account asset
  else process_voting_strategy ctx name' account asset.
Proof.
  unfold process_voting_strategy. simpl. rewrite lookup_insert. by case_decide.
Qed.

#[export] Hint Resolve context_new_ok add_strategy_ok context_default_ok
  process_voting_wf process_supply_wf : zkgov.

(** ** Extending a context *)

Definition extend (ctx : Context) (l : list (string * BoxVotingPower)) : Context :=
  foldl (λ ctx '(name, s), add_strategy ctx name s) ctx l.

Definition box_ok (b : BoxVotingPower) : Prop := @VotingPowerOk (bvp_type b) (bvp_inst b).

Lemma extend_ok ctx l : context_ok ctx → Forall (λ ns, box_ok ns.2) l → context_ok (extend ctx l).
Proof.
  intros Hctx Hl. revert ctx Hctx. induction Hl as [|[name s] l Hs Hl IH]; intros ctx Hctx; [done|].
  apply IH. by apply map_Forall_insert_2.
Qed.

Lemma extend_env ctx l : ctx_env (extend ctx l) = ctx_env ctx.
Proof. revert ctx. induction l as [|[name s] l IH]; intros ctx; [done|]. apply (IH (add_strategy _ _ _)). Qed.

Lemma extend_other ctx l name account asset :
  name ∉ l.*1 →
  process_voting_strategy (extend ctx l) name account asset =
  process_voting_strategy ctx name account asset.
Proof.
  revert ctx. induction l as [|[name' s] l IH]; intros ctx Hn; [done|].
  rewrite fmap_cons, not_elem_of_cons in Hn. destruct Hn as [Hne Hn].
  transitivity (process_voting_strategy (add_strategy ctx name' s) name account asset); [by apply IH|].
  rewrite add_strategy_lookup. case_decide; [by destruct Hne|done].
Qed.

(** ** Properties *)

(** However the default context is extended with strategies that return
    256-bit powers on a well-formed chain, every power and every supply it
    computes fits 256 bits, and a strategy that was not overridden computes
    what it did. *)
Theorem context_extension {alloy : AlloyText} env l account asset :
  view_wf (genv_view env) → Forall (λ ns, box_ok ns.2) l →
  let ctx := extend (context_default env) l in
  (∀ name p, process_voting_strategy ctx name account asset = Ret p → u256_wf p) ∧
  (∀ s, process_total_supply ctx asset = Ret s → u256_wf s) ∧
  (∀ name, name ∉ l.*1 → process_voting_strategy ctx name account asset =
     process_voting_strategy (context_default env) name account asset).
Proof.
  intros Hv Hl ctx. assert (context_ok ctx) by (apply extend_ok; auto with zkgov).
  assert (view_wf (genv_view (ctx_env ctx))) by (unfold ctx; by rewrite extend_env).
  split_and!; [eauto with zkgov..|]. intros name. apply extend_other.
Qed.

(** [BalanceOf] registered under a second name. *)
Lemma context_extension_witness :
  let ctx := extend (@context_default Fixture.alloy Fixture.genv) [("Balance", box_vp BalanceOf_)] in
  (∀ p, process_voting_strategy ctx "Balance" Fixture.bob Fixture.asset = Ret p → u256_wf p) ∧
  process_voting_strategy ctx "BalanceOf" Fixture.bob Fixture.asset = Ret 50.
Proof.
  destruct (@context_extension Fixture.alloy Fixture.genv [("Balance"%string, box_vp BalanceOf_)]
    Fixture.bob Fixture.asset Fixture.view_wf_holds) as (Hp & _ & Hother).
  { constructor; [apply BalanceOf_ok|constructor]. }
  split; [apply Hp|]. etransitivity; [apply Hother; set_solver|reflexivity].
Defined.
