(* ===== verification/GuestIO.v ===== *)
(** * The guest's side of the zkVM

    A guest program reads typed values from its input stream ([env::read]) and
    appends bytes to its journal ([env::commit_slice]).  The word encoding of
    the stream ([risc0_zkvm::serde]) and the authenticated EVM input of Steel
    are interfaces; [ZkvmSerdeOk] states the documented law of the encoding:
    what was written at a type is read back at the same type. *)

From stdpp Require Import base gmap list strings.
From Stdlib Require Import ZArith Lia Strings.Byte.
From S2P Require Import Prelude Machine Ethereum GuestExecution.
#[local] Open Scope Z_scope.

(** Steel: the input a host builds, its verification into a guest environment
    under the Sepolia chain specification (which panics when the state does
    not match the header), and the chain id of that specification. *)
Class Steel : Type := {
  EvmInput : Type;
  into_env : EvmInput → outcome GuestEvmEnv;
  sepolia_chain_id : Z
}.

(** The types that cross the host-guest boundary. *)
Inductive SerTy : Type := SerEvmInput | SerString | SerAddress | SerU256 | SerU8 | SerTally.

Definition SerRep {steel : Steel} (t : SerTy) : Type :=
  match t with
  | SerEvmInput => EvmInput
  | SerString => string
  | SerAddress => Address
  | SerU256 => U256
  | SerU8 => Z
  | SerTally => array3
  end.

Definition SerWf {steel : Steel} (t : SerTy) : SerRep t → Prop :=
  match t with
  | SerU256 => u256_wf
  | SerU8 => u8_wf
  | SerTally => array3_wf
  | _ => λ _, True
  end.

Class ZkvmSerde {steel : Steel} : Type := {
  ser t : SerRep t → list Z;
  de t : list Z → option (SerRep t * list Z)
}.

Class ZkvmSerdeOk {steel : Steel} (serde : ZkvmSerde) : Prop :=
  de_ser t (x : SerRep t) rest : SerWf t x → de t (ser t x ++ rest) = Some (x, rest).

(** The input still to be read and the journal written so far. *)
Record GuestIO : Type := mk_io { io_stdin : list Z; io_journal : list byte }.

Section IO.
Context {steel : Steel} {serde : ZkvmSerde}.

(** [env::read::<T>()] *)
Definition env_read (t : SerTy) : stateful GuestIO (SerRep t) := λ io,
  match de t (io_stdin io) with
  | Some (x, rest) => (Ret x, {| io_stdin := rest; io_journal := io_journal io |})
  | None => (Panics UnwrapFailed, io)
  end.

(** [env::commit_slice] *)
Definition env_commit_slice (bytes : list byte) : stateful GuestIO unit := λ io,
  (Ret tt, {| io_stdin := io_stdin io; io_journal := io_journal io ++ bytes |}).

(** The journal of a run from the given input; a panic leaves no receipt. *)
Definition run_guest (main : stateful GuestIO unit) (stdin : list Z) : outcome (list byte) :=
  match main {| io_stdin := stdin; io_journal := [] |} with
  | (Ret _, io) => Ret (io_journal io)
  | (Panics p, _) => Panics p
  end.

Lemma env_read_ser {ok : ZkvmSerdeOk serde} t (x : SerRep t) rest j :
  SerWf t x →
  env_read t {| io_stdin := ser t x ++ rest; io_journal := j |} =
  (Ret x, {| io_stdin := rest; io_journal := j |}).
Proof. intros Hx. unfold env_read. simpl. by rewrite de_ser. Qed.

Lemma env_read_journal t io x io' :
  env_read t io = (Ret x, io') → io_journal io' = io_journal io.
Proof. unfold env_read. destruct (de t _) as [[??]|]; naive_solver. Qed.

Lemma bind_stateful_Ret {S A B} (m : stateful S A) (f : A → stateful S B) s a s' :
  m s = (Ret a, s') → (m ≫= f) s = f a s'.
Proof. intros Hm. unfold mbind, stateful_bind. by rewrite Hm. Qed.

Lemma bind_stateful_inv {S A B} (m : stateful S A) (f : A → stateful S B) s b s'' :
  (m ≫= f) s = (Ret b, s'') ↔ ∃ a s', m s = (Ret a, s') ∧ f a s' = (Ret b, s'').
Proof. unfold mbind, stateful_bind. destruct (m s) as [[]]; naive_solver. Qed.

Lemma env_read_bind {ok : ZkvmSerdeOk serde} {B} t (x : SerRep t) rest j
    (f : SerRep t → stateful GuestIO B) :
  SerWf t x →
  (env_read t ≫= f) {| io_stdin := ser t x ++ rest; io_journal := j |} =
  f x {| io_stdin := rest; io_journal := j |}.
Proof. intros Hx. by apply bind_stateful_Ret, env_read_ser. Qed.

(** The shape both programs have: read, compute or panic, commit. *)
Lemma guest_run {I J} (rd : stateful GuestIO I) (f : I → outcome J) (enc : J → list byte)
    stdin jb :
  run_guest (i ← rd; j ← lift (f i); env_commit_slice (enc j)) stdin = Ret jb ↔
  ∃ i j io, rd {| io_stdin := stdin; io_journal := [] |} = (Ret i, io) ∧
    f i = Ret j ∧ jb = io_journal io ++ enc j.
Proof.
  unfold run_guest, mbind, stateful_bind, lift, env_commit_slice.
  destruct (rd _) as [[i|p] io].
  - split.
    + destruct (f i) as [j|p] eqn:Hj; [|done]. intros [= <-]. by exists i, j, io.
    + intros (? & j & ? & [= <- <-] & -> & ->). done.
  - split; [done|]. by intros (? & ? & ? & ? & _).
Qed.
End IO.

(** Walk through the reads of a run [Hr], keeping that none touches the journal. *)
Ltac guest_reads Hr :=
  repeat match type of Hr with
  | (env_read ?t ≫= _) _ = _ =>
      let Hread := fresh "Hread" in
      apply bind_stateful_inv in Hr as (? & ? & Hread & Hr);
      apply (env_read_journal t) in Hread
  end.

(** Read back a value that was written at the same type. *)
Ltac read_written :=
  match goal with
  | |- (env_read ?t ≫= _) _ = _ =>
      etransitivity; [apply (env_read_bind t); done|]; cbv beta
  end.
