(* ===== verification/VotingGuest.v ===== *)
(** * The guest program [voting_protocol]

    It checks that a vote of a given balance is backed by the voting power the
    voter holds, own and delegated, in every asset of the DAO's configuration
    at one block, and commits the vote to its journal. *)

From stdpp Require Import base gmap list strings.
From Stdlib Require Import ZArith Lia Strings.Byte.
From S2P Require Import Prelude Machine Ethereum GuestVoting GuestDelegation GuestExecution.
From S2P Require Import GuestContext VoteSignature GuestIO Fixtures.
#[local] Open Scope Z_scope.

(** [hex::FromHex for Vec<u8>] *)
Class HexCrate : Type := { vec_from_hex : string → option (list byte) }.

(** [serde_json::from_str::<strategies::RiscVotingProtocolConfig>] *)
Class SerdeConfig : Type := { config_from_str : string → option RiscVotingProtocolConfig }.

(** [struct Journal] of the [sol!] block. *)
Record VotingJournal : Type := mk_voting_journal {
  vj_commitment : Commitment;
  vj_config_contract : Address;
  vj_proposal_id : U256;
  vj_voter : Address;
  vj_balance : U256;
  vj_direction : Z
}.

(** [SolValue::abi_encode] of the journal. *)
Class VotingJournalAbi : Type := { voting_journal_abi_encode : VotingJournal → list byte }.

(** The values [main] reads, in the order it reads them. *)
Record VotingInput {steel : Steel} : Type := mk_voting_input {
  vi_input : EvmInput;
  vi_signature : string;
  vi_voter : Address;
  vi_dao : Address;
  vi_proposal_id : U256;
  vi_direction : Z;
  vi_balance : U256;
  vi_config_contract : Address;
  vi_additional_delegation_data : string
}.

Section VotingProtocol.
Context {alloy : AlloyText} {keccak : KeccakV256} {k256 : K256} {steel : Steel}
  {serde : ZkvmSerde} {hex : HexCrate} {json : SerdeConfig} {abi : VotingJournalAbi}.

(** Lines 119 to 127: the reads. *)
Definition read_voting_input : stateful GuestIO VotingInput :=
  input ← env_read SerEvmInput;
  signature ← env_read SerString;
  voter ← env_read SerAddress;
  dao ← env_read SerAddress;
  proposal_id ← env_read SerU256;
  direction ← env_read SerU8;
  balance ← env_read SerU256;
  config_contract ← env_read SerAddress;
  additional_delegation_data ← env_read SerString;
  mret (mk_voting_input steel input signature voter dao proposal_id direction balance
          config_contract additional_delegation_data).

(** Lines 129 to 141: the digest and the address that signed it. *)
Definition signature_address (i : VotingInput) : outcome Address :=
  let digest := hash_vote sepolia_chain_id (vi_dao i) (vi_proposal_id i)
                  (vi_direction i) (vi_balance i) in
  byte_signature ← expect "Invalid hex string" (vec_from_hex (vi_signature i));
  v ← index byte_signature 64;
  rs64 ← slice 0 64 byte_signature;
  rs ← unwrap (fixed_try_from rs64);
  ecrecover (Z_of_byte v) rs digest.

(** Lines 147 to 156: the configuration stored for the proposal. *)
Definition read_config (env : GuestEvmEnv) (config_contract : Address) (proposal_id : U256) :
    outcome RiscVotingProtocolConfig :=
  config_returns ← guest_call env config_contract
    (CallConfig {| cc_proposal_id := proposal_id |});
  unwrap (config_from_str config_returns).

(** Lines 164 to 188: the closure that values one asset. *)
Definition asset_voting_power (ctx : Context) (voter : Address) (additional_data : string)
    (asset : Asset) : outcome U256 :=
  data ← unwrap (bytes_from_str additional_data);
  delegations ← process_delegation_strategy ctx voter asset data;
  _ ← rassert (negb (is_err delegations));
  ds ← unwrap_result delegations;
  foldM (λ acc delegation,
           share ← (p ← process_voting_strategy ctx (asset_voting_power_strategy asset)
                          (delegate delegation) asset;
                    u256_div p (ratio delegation));
           Ret (u256_add share acc)) 0 ds.

(** Lines 161 to 189. *)
Definition total_voting_power (ctx : Context) (voter : Address) (additional_data : string)
    (assets : list Asset) : outcome U256 :=
  powers ← mapM (asset_voting_power ctx voter additional_data) assets;
  Ret (u256_sum powers).

(** Lines 129 to 213: everything between the reads and the commit. *)
Definition voting_statement (i : VotingInput) : outcome VotingJournal :=
  _ ← signature_address i;
  env ← into_env (vi_input i);
  config ← read_config env (vi_config_contract i) (vi_proposal_id i);
  let strategies_context := context_default env in
  total ← total_voting_power strategies_context (vi_voter i)
            (vi_additional_delegation_data i) (cfg_assets config);
  _ ← rassert ((vi_direction i =? 1) || (vi_direction i =? 2) || (vi_direction i =? 3));
  _ ← rassert (vi_balance i >? 0);
  _ ← rassert (vi_balance i =? total);
  Ret {| vj_commitment := block_commitment strategies_context;
         vj_config_contract := vi_config_contract i;
         vj_proposal_id := vi_proposal_id i;
         vj_voter := vi_voter i;
         vj_balance := vi_balance i;
         vj_direction := vi_direction i |}.

Definition voting_main : stateful GuestIO unit :=
  i ← read_voting_input;
  journal ← lift (voting_statement i);
  env_commit_slice (voting_journal_abi_encode journal).
End VotingProtocol.

(** ** Specification

    What it means for a vote to be backed, stated on the chain view and
    without reference to the program's context. *)

Section VotingSpec.
Context {alloy : AlloyText}.

(** The power of [account] in [asset], by the asset's named strategy. *)
Inductive power_at (env : GuestEvmEnv) (asset : Asset) (account : Address) : U256 → Prop :=
| power_balance_of p :
    asset_voting_power_strategy asset = "BalanceOf" →
    genv_view env (asset_contract asset) (CallERC20 (balanceOfCall account)) = Some p →
    power_at env asset account p
| power_get_past_votes p :
    asset_voting_power_strategy asset = "GetPastVotes" →
    genv_view env (asset_contract asset)
      (CallVotes (getPastVotesCall account (genv_number env))) = Some p →
    power_at env asset account p.

(** The share [d] gives in the power of its delegate. *)
Definition share_of (env : GuestEvmEnv) (asset : Asset) (d : Delegation) (s : Z) : Prop :=
  ∃ p, power_at env asset (delegate d) p ∧ ratio d ≠ 0 ∧ s = p / ratio d.

(** [shares] are the shares [voter] claims in [asset] with the given data. *)
Definition backs (env : GuestEvmEnv) (voter : Address) (additional_data : string)
    (asset : Asset) (shares : list Z) : Prop :=
  do_strategy (asset_delegation asset) = "SplitDelegation" ∧
  ∃ addrs ds,
    bytes_from_str additional_data = Some (concat (fb_bytes <$> addrs)) ∧
    Forall2 (delegates_to (genv_view env) voter asset) addrs ds ∧
    Forall2 (share_of env asset) ds shares.
End VotingSpec.

Section VotingCorrect.
Context {alloy : AlloyText} {keccak : KeccakV256} {k256 : K256} {steel : Steel}
  {serde : ZkvmSerde} {hex : HexCrate} {json : SerdeConfig} {abi : VotingJournalAbi}.

Lemma default_voting_power env asset account p :
  process_voting_strategy (context_default env) (asset_voting_power_strategy asset)
    account asset = Ret p ↔ power_at env asset account p.
Proof.
  rewrite default_voting. split.
  - repeat case_decide; [..|done]; unfold get_past_votes_process, balance_of_process.
    + intros ?%guest_call_votes. by apply power_get_past_votes.
    + intros ?%guest_call_erc20. by apply power_balance_of.
  - intros [? Hn Hv|? Hn Hv]; rewrite Hn.
    + rewrite decide_False, decide_True by done. by apply guest_call_erc20.
    + rewrite decide_True by done. by apply guest_call_votes.
Qed.

Lemma share_computed env asset d s :
  (p ← process_voting_strategy (context_default env) (asset_voting_power_strategy asset)
         (delegate d) asset;
   u256_div p (ratio d)) = Ret s ↔ share_of env asset d s.
Proof.
  rewrite bind_Ret_inv. unfold share_of.
  setoid_rewrite default_voting_power. setoid_rewrite u256_div_Ret. naive_solver.
Qed.

Lemma foldl_u256_add_flip acc l :
  foldl (λ acc s, u256_add s acc) acc l = foldl u256_add acc l.
Proof.
  revert acc. induction l as [|x l IH]; intros acc; simpl; [done|].
  by rewrite IH, u256_add_comm.
Qed.

Lemma asset_voting_power_Ret env voter additional asset n :
  asset_voting_power (context_default env) voter additional asset = Ret n ↔
  ∃ shares, backs env voter additional asset shares ∧ n = zsum shares mod U256_MOD.
Proof.
  unfold asset_voting_power, backs. split.
  - intros Hn. apply bind_Ret_inv in Hn as (data & Hdata%unwrap_Ret & Hn).
    rewrite default_delegation in Hn. simpl in Hn. case_decide as Hs; [|done].
    apply bind_Ret_inv in Hn as (r & Hr & Hn). outcome_inv. subst.
    apply foldM_Ret in Hn as (shares & Hshares & ->).
    apply split_delegation_Ok in Hr as (addrs & -> & Hds).
    exists shares. split.
    + split; [done|]. exists addrs. eexists. split_and!; [done..|].
      eapply Forall2_impl; [exact Hshares|]. intros. by apply share_computed.
    + by rewrite foldl_u256_add_flip, <-u256_sum_spec.
  - intros (shares & (Hs & addrs & ds & Hdata & Hds & Hshares) & ->).
    rewrite Hdata. simpl. rewrite default_delegation. simpl. rewrite decide_True by done.
    rewrite (proj2 (split_delegation_Ok env voter asset _ ds)) by eauto. simpl.
    apply foldM_Ret. exists shares. split.
    + eapply Forall2_impl; [exact Hshares|]. intros. by apply share_computed.
    + by rewrite foldl_u256_add_flip, <-u256_sum_spec.
Qed.

Lemma zsum_concat (ls : list (list Z)) : zsum (concat ls) = zsum (zsum <$> ls).
Proof. induction ls as [|l ls IH]; simpl; [done|]. by rewrite zsum_app, IH. Qed.

Lemma zsum_replicate (l : list Z) n : zsum (concat (replicate n l)) = Z.of_nat n * zsum l.
Proof. induction n as [|n IH]; [done|]. rewrite replicate_S, concat_cons, zsum_app, IH. lia. Qed.

Lemma zsum_mod (l k : list Z) :
  Forall2 (λ s n, n = s mod U256_MOD) l k → zsum k mod U256_MOD = zsum l mod U256_MOD.
Proof.
  induction 1 as [|s n l k -> H IH]; simpl; [done|].
  by rewrite Z.add_mod, IH, <-Z.add_mod, Zplus_mod_idemp_l.
Qed.

(** The total is the sum of all shares in all assets, modulo 2^256. *)
Lemma total_voting_power_Ret env voter additional assets n :
  total_voting_power (context_default env) voter additional assets = Ret n ↔
  ∃ sharess, Forall2 (backs env voter additional) assets sharess ∧
    n = zsum (concat sharess) mod U256_MOD.
Proof.
  unfold total_voting_power. rewrite bind_Ret_inv. setoid_rewrite mapM_Ret. split.
  - intros (powers & Hp & [= <-]).
    assert (∃ sharess, Forall2 (backs env voter additional) assets sharess ∧
      Forall2 (λ s n, n = s mod U256_MOD) (zsum <$> sharess) powers) as (ss & Hss & Hn).
    { induction Hp as [|a n assets powers Ha Hp (ss & Hss & Hn)]; [by exists []|].
      apply asset_voting_power_Ret in Ha as (shares & Hb & ->).
      exists (shares :: ss). simpl. by split; constructor. }
    exists ss. split; [done|]. by rewrite u256_sum_spec, zsum_concat, (zsum_mod _ _ Hn).
  - intros (ss & Hss & ->). exists ((λ l, zsum l mod U256_MOD) <$> ss). split.
    + apply Forall2_fmap_r. eapply Forall2_impl; [exact Hss|].
      intros a shares Hb. apply asset_voting_power_Ret. eauto.
    + rewrite u256_sum_spec, zsum_concat. f_equal. apply zsum_mod.
      apply Forall2_fmap_2, Forall_Forall2_diag, Forall_true. done.
Qed.

Lemma direction_ok d :
  (d =? 1) || (d =? 2) || (d =? 3) = true ↔ 1 <= d <= 3.
Proof. lia. Qed.

Lemma read_config_Ret env cc pid cfg :
  read_config env cc pid = Ret cfg ↔
  ∃ s, genv_view env cc (CallConfig {| cc_proposal_id := pid |}) = Some s ∧
    config_from_str s = Some cfg.
Proof.
  unfold read_config. rewrite bind_Ret_inv. f_equiv. intros s.
  by rewrite (guest_call_config env), unwrap_Ret.
Qed.

(** When the program accepts, and what it commits to. *)
Definition vote_backed (i : VotingInput) (env : GuestEvmEnv) (cfg : RiscVotingProtocolConfig)
    (sharess : list (list Z)) : Prop :=
  into_env (vi_input i) = Ret env ∧
  (∃ s, genv_view env (vi_config_contract i)
          (CallConfig {| cc_proposal_id := vi_proposal_id i |}) = Some s ∧
        config_from_str s = Some cfg) ∧
  Forall2 (backs env (vi_voter i) (vi_additional_delegation_data i)) (cfg_assets cfg) sharess ∧
  1 <= vi_direction i <= 3 ∧ 0 < vi_balance i ∧
  vi_balance i = zsum (concat sharess) mod U256_MOD.

Lemma voting_statement_Ret i j :
  voting_statement i = Ret j ↔
  (∃ signer, signature_address i = Ret signer) ∧
  ∃ env cfg sharess, vote_backed i env cfg sharess ∧
    j = mk_voting_journal (genv_commitment env) (vi_config_contract i) (vi_proposal_id i)
          (vi_voter i) (vi_balance i) (vi_direction i).
Proof.
  unfold voting_statement, vote_backed. split.
  - intros Hj. apply bind_Ret_inv in Hj as (signer & Hs & Hj). split; [eauto|].
    apply bind_Ret_inv in Hj as (env & Henv & Hj).
    apply bind_Ret_inv in Hj as (cfg & Hcfg%read_config_Ret & Hj).
    apply bind_Ret_inv in Hj as (total & (ss & Hss & ->)%total_voting_power_Ret & Hj).
    outcome_inv. subst j. exists env, cfg, ss. rewrite direction_ok in *.
    split_and!; try done; lia.
  - intros ((signer & Hs) & env & cfg & ss & (Henv & Hcfg & Hss & Hdir & Hpos & Hbal) & ->).
    rewrite Hs, Henv. simpl. rewrite (proj2 (read_config_Ret _ _ _ cfg) Hcfg). simpl.
    rewrite (proj2 (total_voting_power_Ret env _ _ _ (vi_balance i))) by eauto. simpl.
    rewrite (proj2 (direction_ok _) Hdir), (proj2 (Z.gtb_lt _ _) Hpos), Z.eqb_refl. done.
Qed.

(** A run from any input stream is a run of the statement on what it reads. *)
Lemma voting_main_run stdin jb :
  run_guest voting_main stdin = Ret jb ↔
  ∃ i j io, read_voting_input {| io_stdin := stdin; io_journal := [] |} = (Ret i, io) ∧
    voting_statement i = Ret j ∧ jb = io_journal io ++ voting_journal_abi_encode j.
Proof. apply guest_run. Qed.

Lemma read_voting_input_journal io i io' :
  read_voting_input io = (Ret i, io') → io_journal io' = io_journal io.
Proof.
  unfold read_voting_input. intros Hr.
  guest_reads Hr. unfold mret, stateful_ret in Hr. injection Hr as _ <-. congruence.
Qed.
End VotingCorrect.

(** ** Concrete instances *)

Module VotingFixture.
(** One verified input: the example chain. *)
Definition steel : Steel := {|
  EvmInput := Z;
  into_env n := if n =? 0 then Ret Fixture.genv else Panics CallFailed;
  sepolia_chain_id := 11155111
|}.
Definition hex : HexCrate := {| vec_from_hex := unhex |}.
Definition json : SerdeConfig := {|
  config_from_str s := if bool_decide (s = Fixture.config_text) then Some Fixture.config else None
|}.
(** A signature of 65 bytes with recovery byte 27. *)
Definition signature (b : byte) : string := to_hex_string (replicate 64 b ++ [x1b]).

(** Carol claims her own 10 votes and her half of bob's 50. *)
Definition input_signed (s : string) (direction balance : Z) : @VotingInput steel := {|
  vi_input := 0 : @EvmInput steel;
  vi_signature := s;
  vi_voter := Fixture.carol;
  vi_dao := Fixture.dao;
  vi_proposal_id := 4;
  vi_direction := direction;
  vi_balance := balance;
  vi_config_contract := Fixture.plugin;
  vi_additional_delegation_data :=
    to_hex_string (fb_bytes Fixture.carol ++ fb_bytes Fixture.bob)
|}.

Definition statement (i : @VotingInput steel) : outcome VotingJournal :=
  @voting_statement Fixture.alloy example_keccak example_k256 steel hex json i.

(** The program accepts 35 votes in each direction and no other balance. *)
Example accepts_35 :
  (λ d, is_ret (statement (input_signed (signature x01) d 35))) <$> [0; 1; 2; 3; 4] =
  [false; true; true; true; false].
Proof. vm_compute. reflexivity. Qed.
Example rejects_36 :
  statement (input_signed (signature x01) 2 36) = Panics AssertFailed.
Proof. vm_compute. reflexivity. Qed.
Example rejects_short_signature :
  statement (input_signed (to_hex_string (replicate 64 x01)) 2 35) = Panics IndexOutOfBounds.
Proof. vm_compute. reflexivity. Qed.
End VotingFixture.

(** ** Properties *)

(** C1: on any input stream, the program commits a journal exactly when the
    values it reads carry a recoverable signature, the environment verifies,
    the direction is 1, 2 or 3, and the positive balance is the sum (modulo
    2^256) of the shares that the voter's delegation data backs in every
    configured asset; the journal is the encoding of that vote and of the
    block commitment. *)
Theorem voting_guest_correct {alloy : AlloyText} {keccak : KeccakV256} {k256 : K256}
    {steel : Steel} {serde : ZkvmSerde} {hex : HexCrate} {json : SerdeConfig}
    {abi : VotingJournalAbi} stdin jb :
  run_guest voting_main stdin = Ret jb ↔
  ∃ i io, read_voting_input {| io_stdin := stdin; io_journal := [] |} = (Ret i, io) ∧
    (∃ signer, signature_address i = Ret signer) ∧
    ∃ env cfg sharess, vote_backed i env cfg sharess ∧
      jb = voting_journal_abi_encode
             (mk_voting_journal (genv_commitment env) (vi_config_contract i) (vi_proposal_id i)
                (vi_voter i) (vi_balance i) (vi_direction i)).
Proof.
  rewrite voting_main_run. split.
  - intros (i & j & io & Hr & (Hs & env & cfg & ss & Hb & ->)%voting_statement_Ret & ->).
    exists i, io. split_and!; [done..|]. exists env, cfg, ss. split; [done|].
    by rewrite (read_voting_input_journal _ _ _ Hr).
  - intros (i & io & Hr & Hs & env & cfg & ss & Hb & ->).
    eexists i, _, io. split_and!; [done|apply voting_statement_Ret; eauto 8|].
    by rewrite (read_voting_input_journal _ _ _ Hr).
Qed.

(** C29: a signer is recovered exactly when the signature is hexadecimal text of
    at least 65 bytes whose byte 64 is a valid recovery byte and whose first
    64 bytes the curve accepts for the digest of this very vote; the signer is
    the last 20 bytes of the hash of the key without its tag, and bytes after
    the first 65 are ignored. *)
Theorem signature_address_spec {keccak : KeccakV256} {k256 : K256} {steel : Steel}
    {hex : HexCrate} i a :
  signature_address i = Ret a ↔
  ∃ bytes v recovery_id sig pk, vec_from_hex (vi_signature i) = Some bytes ∧
    bytes !! 64%nat = Some v ∧ into_recovery_id (Z_of_byte v) = Some recovery_id ∧
    signature_from_slice (take 64 bytes) = Some sig ∧
    recover_from_prehash (fb_bytes (hash_vote sepolia_chain_id (vi_dao i) (vi_proposal_id i)
      (vi_direction i) (vi_balance i))) sig recovery_id = Some pk ∧
    encoded_point pk ≠ [] ∧
    fb_bytes a = drop 12 (fb_bytes (keccak256 (drop 1 (encoded_point pk)))).
Proof.
  unfold signature_address. rewrite bind_Ret_inv. split.
  - intros (bytes & Hhex%expect_Ret & Hr). apply bind_Ret_inv in Hr as (v & Hv%index_Ret & Hr).
    apply bind_Ret_inv in Hr as (rs64 & [_ <-]%slice_Ret & Hr).
    apply bind_Ret_inv in Hr as (rs & Hrs%unwrap_Ret%fixed_try_from_Some & Hr).
    apply ecrecover_Ret in Hr as (rid & sig & pk & Hrid & Hsig & Hpk & Hne & Ha).
    rewrite Hrs in Hsig. exists bytes, v, rid, sig, pk. done.
  - intros (bytes & v & rid & sig & pk & Hhex & Hv & Hrid & Hsig & Hpk & Hne & Ha).
    exists bytes. split; [by apply expect_Ret|]. rewrite (proj2 (index_Ret _ _ _) Hv). simpl.
    pose proof (lookup_lt_Some _ _ _ Hv) as Hlen.
    rewrite (proj2 (slice_Ret 0 64 bytes (take 64 bytes))) by (split; [lia|done]). simpl.
    destruct (fixed_try_from_length (n:=64) (take 64 bytes)) as (rs & Hrs & Hbytes);
      [rewrite length_take; lia|]. rewrite Hrs. simpl.
    apply ecrecover_Ret. exists rid, sig, pk. by rewrite Hbytes.
Qed.

Definition with_signature {steel : Steel} (i : VotingInput) (s : string) : VotingInput :=
  mk_voting_input steel (vi_input i) s (vi_voter i) (vi_dao i) (vi_proposal_id i)
    (vi_direction i) (vi_balance i) (vi_config_contract i) (vi_additional_delegation_data i).

(** C38: the signature is only checked to be recoverable: replacing it by any
    other recoverable signature, by whatever signer, changes nothing. *)
Theorem voting_signature_unbound {alloy : AlloyText} {keccak : KeccakV256} {k256 : K256}
    {steel : Steel} {hex : HexCrate} {json : SerdeConfig} i s signer signer' :
  signature_address i = Ret signer → signature_address (with_signature i s) = Ret signer' →
  voting_statement (with_signature i s) = voting_statement i.
Proof. intros Hs Hs'. unfold voting_statement. by rewrite Hs, Hs'. Qed.

Lemma voting_signature_unbound_witness :
  VotingFixture.statement
    (with_signature (VotingFixture.input_signed (VotingFixture.signature x01) 2 35)
       (VotingFixture.signature x02)) =
  VotingFixture.statement (VotingFixture.input_signed (VotingFixture.signature x01) 2 35).
Proof.
  eapply (@voting_signature_unbound Fixture.alloy example_keccak example_k256
    VotingFixture.steel VotingFixture.hex VotingFixture.json); reflexivity.
Defined.

(** C39: the whole of a delegator's claimed power counts once per mention:
    repeating the delegation data [n] times multiplies the power the program
    computes for the voter by [n], modulo 2^256. *)
Theorem voting_claims_repeat {alloy : AlloyText} env voter additional additional' asset data p n :
  asset_voting_power (context_default env) voter additional asset = Ret p →
  bytes_from_str additional = Some data →
  bytes_from_str additional' = Some (concat (replicate n data)) →
  asset_voting_power (context_default env) voter additional' asset =
    Ret (Z.of_nat n * p mod U256_MOD).
Proof.
  intros (shares & (Hs & addrs & ds & Hdata & Hds & Hshares) & ->)%asset_voting_power_Ret Hdata' Hrep.
  rewrite Hdata' in Hdata. injection Hdata as ->.
  apply asset_voting_power_Ret. exists (concat (replicate n shares)). split.
  - split; [done|]. exists (concat (replicate n addrs)), (concat (replicate n ds)).
    rewrite concat_fmap_replicate. split_and!; auto with zkgov.
  - by rewrite Zmult_mod_idemp_r, zsum_replicate.
Qed.

(** A voter with 10 votes, mentioned three times. *)
Lemma voting_claims_repeat_witness :
  @asset_voting_power Fixture.alloy (@context_default Fixture.alloy Fixture.genv) Fixture.carol
    (to_hex_string (concat (replicate 3 (fb_bytes Fixture.carol)))) Fixture.asset = Ret 30.
Proof.
  apply (@voting_claims_repeat Fixture.alloy Fixture.genv Fixture.carol
    (to_hex_string (fb_bytes Fixture.carol))
    (to_hex_string (concat (replicate 3 (fb_bytes Fixture.carol)))) Fixture.asset
    (fb_bytes Fixture.carol) 10 3); vm_compute; reflexivity.
Defined.

(** What ERC-5805 asks of a votes token: asking for the current block, or a
    later one, reverts. *)
Definition erc5805 (env : GuestEvmEnv) (token : Address) : Prop :=
  ∀ account n, genv_number env <= n →
    genv_view env token (CallVotes (getPastVotesCall account n)) = None.

(** The guest asks [getPastVotes] for the block it executes on, so a DAO
    whose configuration has one ERC-5805 token under [GetPastVotes] can never
    have a vote proved, whatever the voter submits. *)
Theorem get_past_votes_never_votes {alloy : AlloyText} {keccak : KeccakV256} {k256 : K256}
    {steel : Steel} {hex : HexCrate} {json : SerdeConfig} i env cfg asset j :
  into_env (vi_input i) = Ret env →
  read_config env (vi_config_contract i) (vi_proposal_id i) = Ret cfg →
  asset ∈ cfg_assets cfg → asset_voting_power_strategy asset = "GetPastVotes" →
  erc5805 env (asset_contract asset) →
  voting_statement i ≠ Ret j.
Proof.
  intros Henv Hcfg Hin Hs Herc (_ & env' & cfg' & ss & Hb & _)%voting_statement_Ret.
  destruct Hb as (Henv' & Hcfg'%read_config_Ret & Hss & _ & Hpos & Hbal).
  rewrite Henv in Henv'. injection Henv' as <-. rewrite Hcfg in Hcfg'. injection Hcfg' as <-.
  assert (bytes_from_str (vi_additional_delegation_data i) = Some []) as Hnone.
  { apply list_elem_of_lookup in Hin as (k & Hk). eapply Forall2_lookup_l in Hk as (sh & _ & Hb); [|done].
    destruct Hb as (_ & addrs & ds & -> & Hds & Hsh).
    destruct Hsh as [|d s ds sh (p & Hp & _)]; [by inversion Hds; subst|].
    destruct Hp as [? Hn _|? _ Hv]; [congruence|]. by rewrite Herc in Hv. }
  enough (zsum (concat ss) = 0) as Hz by (rewrite Hz in Hbal; by rewrite Hbal in Hpos).
  clear Hbal Hin Hcfg. induction Hss as [|a sh assets ss (_ & addrs & ds & Hd & Hds & Hsh) Hss IH];
    [done|]. rewrite Hnone in Hd. injection Hd as Hd. apply (addresses_inj []) in Hd as <-.
  inversion Hds; subst. inversion Hsh; subst. by apply IH.
Qed.

Lemma get_past_votes_never_votes_witness :
  let json := {| config_from_str _ := Some (mk_config "1" [Fixture.asset_with "GetPastVotes"]
                   "MajorityVoting") |} in
  @voting_statement Fixture.alloy example_keccak example_k256 VotingFixture.steel
    VotingFixture.hex json (VotingFixture.input_signed (VotingFixture.signature x01) 2 35) ≠
  Ret (mk_voting_journal Fixture.commitment Fixture.plugin 4 Fixture.carol 35 2).
Proof.
  intros json. eapply (@get_past_votes_never_votes Fixture.alloy example_keccak example_k256
    VotingFixture.steel VotingFixture.hex json _ Fixture.genv _ (Fixture.asset_with "GetPastVotes"));
    [reflexivity|reflexivity|by left|reflexivity|]. intros account n Hn. simpl in *.
  by rewrite (proj2 (Z.ltb_ge n _) Hn).
Defined.
