(* ===== verification/Signing.v ===== *)
(** * Signing a vote (crate [tests])

    [get_user_vote_signature] of [tests/src/lib.rs] is the voter's side of the
    signature that the guest program [voting_protocol] recovers: its own copy
    of [hash_vote], and a wallet of the [alloy] crates that signs the digest.
    The wallet is an interface; its law is what ECDSA over secp256k1 promises
    to the crate [k256] on the other side. *)

From stdpp Require Import base gmap list strings.
From Stdlib Require Import ZArith Lia Strings.Byte.
From S2P Require Import Prelude Machine Ethereum VoteSignature Keccak GuestVoting GuestContext GuestIO.
From S2P Require Import Fixtures VotingGuest.
#[local] Open Scope Z_scope.

(** ** The wallet *)

(** [PrivateKeySigner]: [with_chain_id], [sign_hash], and [Signature::as_bytes]. *)
Class PrivateKeySigner : Type := {
  Wallet : Type;
  AlloySignature : Type;
  wallet_address : Wallet → Address;
  with_chain_id : option Z → Wallet → Wallet;
  sign_hash : Wallet → FixedBytes 32 → option AlloySignature;
  as_bytes : AlloySignature → FixedBytes 65
}.

(** A signature is [r], [s] and the recovery bit, raw or as 27 and 28; the key
    that the curve recovers from it with the digest is the wallet's, whose
    address is the end of its hash; the chain id is not part of the key. *)
Class WalletOk {keccak : KeccakV256} {k256 : K256} (wallet : PrivateKeySigner) : Prop := {
  with_chain_id_address c w : wallet_address (with_chain_id c w) = wallet_address w;
  sign_hash_recovers w digest sig : sign_hash w digest = Some sig →
    ∃ bit v recovery_id rs pk, (bit = 0 ∨ bit = 1) ∧ (v = bit ∨ v = 27 + bit) ∧
      fb_bytes (as_bytes sig) !! 64%nat = Some (byte_of_Z v) ∧
      recovery_id_from_byte bit = Some recovery_id ∧
      signature_from_slice (take 64 (fb_bytes (as_bytes sig))) = Some rs ∧
      recover_from_prehash (fb_bytes digest) rs recovery_id = Some pk ∧
      encoded_point pk ≠ [] ∧
      fb_bytes (wallet_address w) = drop 12 (fb_bytes (keccak_v256 (drop 1 (encoded_point pk))))
}.

(** [Vec::from_hex] of the crate [hex]: it reads back what [hex::encode]
    writes, and refuses a string that does not start with a digit. *)
Class HexOk (hex : HexCrate) : Prop := {
  from_hex_encode bs : vec_from_hex (to_hex_string bs) = Some bs;
  from_hex_digit c s : hex_value c = None → vec_from_hex (String c s) = None
}.

(** ** The module [tests] *)

Module VoteClient.
Section VoteClient.
Context {keccak : KeccakV256} {k256 : K256} {wallet : PrivateKeySigner}.

Definition PREFIX : string :=
  String (Ascii.ascii_of_byte x19)
    ("Ethereum Signed Message:" +:+ String (Ascii.ascii_of_byte x0a) "32")%string.

Definition hash_vote (chain_id : Z) (dao_address : Address) (proposal_id : U256)
    (direction : Z) (balance : U256) : FixedBytes 32 :=
  let concat_data := concat [be_bytes 8 chain_id; fb_bytes dao_address; be_bytes 32 proposal_id;
                             [byte_of_Z direction]; be_bytes 32 balance] in
  let hashed_data := fb_bytes (keccak_v256 concat_data) in
  keccak_v256 (concat [String.list_byte_of_string PREFIX; hashed_data]).

Definition get_user_vote_signature (chain_id : Z) (signer : Wallet) (dao_address : Address)
    (proposal_id : U256) (direction : Z) (balance : U256) : option AlloySignature :=
  let vote_hash := hash_vote chain_id dao_address proposal_id direction balance in
  sign_hash (with_chain_id (Some chain_id) signer) vote_hash.

(** Lines 272 to 276 and 307 of the integration test: [hex::encode] of the
    bytes, and [{:?}] of that text, which puts it in quotes. *)
Definition signed_vote (sig : AlloySignature) : string := to_hex_string (fb_bytes (as_bytes sig)).
Definition QUOTE : Ascii.ascii := Ascii.ascii_of_byte x22.
Definition debug_text (s : string) : string := String QUOTE (s +:+ String QUOTE "").
End VoteClient.
End VoteClient.

(** The two copies of [hash_vote] are one function. *)
Lemma client_hash_vote {keccak : KeccakV256} chain_id dao proposal_id direction balance :
  VoteClient.hash_vote chain_id dao proposal_id direction balance =
  hash_vote chain_id dao proposal_id direction balance.
Proof.
  unfold VoteClient.hash_vote, hash_vote, keccak256, vote_message.
  rewrite concat_cons, concat_cons, concat_nil, app_nil_r. done.
Qed.

(** ** A wallet, for the witnesses

    The signature is the key followed by the digest; the curve recovers the
    key when the second half is the digest. *)
Module WalletFixture.
Definition k256 : K256 := {|
  RecoveryId := Z; Signature := list byte; PublicKey := list byte;
  recovery_id_from_byte b := if b <=? 3 then Some b else None;
  signature_from_slice l := Some l;
  recover_from_prehash d s _ := if bool_decide (drop 32 s = d) then Some (take 32 s) else None;
  encoded_point pk := x04 :: pk
|}.

Lemma length_signed (k h : FixedBytes 32) :
  length (fb_bytes k ++ fb_bytes h ++ [x1c]) = 65%nat.
Proof. by rewrite !length_app, !length_fb_bytes. Qed.
Lemma length_last (h : FixedBytes 32) : length (drop 12 (fb_bytes h)) = 20%nat.
Proof. by rewrite length_drop, length_fb_bytes. Qed.

Definition wallet : PrivateKeySigner := {|
  Wallet := FixedBytes 32;
  AlloySignature := FixedBytes 65;
  wallet_address k :=
    let h := @keccak_v256 fips_keccak (fb_bytes k) in mk_fixed (drop 12 (fb_bytes h)) (length_last h);
  with_chain_id _ k := k;
  sign_hash k h := Some (mk_fixed (fb_bytes k ++ fb_bytes h ++ [x1c]) (length_signed k h));
  as_bytes sig := sig
|}.

Lemma wallet_ok : @WalletOk fips_keccak k256 wallet.
Proof.
  split; [done|]. intros k h sig [= <-].
  exists 1, 28, (1 : @RecoveryId k256), (fb_bytes k ++ fb_bytes h), (fb_bytes k).
  assert (take 64 (fb_bytes k ++ fb_bytes h ++ [x1c]) = fb_bytes k ++ fb_bytes h) as Htake.
  { rewrite (assoc_L (++)). apply take_app_length'. by rewrite length_app, !length_fb_bytes. }
  split_and!; try (by auto).
  - simpl. rewrite (assoc_L (++)), lookup_app_r by (by rewrite length_app, !length_fb_bytes).
    by rewrite length_app, !length_fb_bytes.
  - simpl. by rewrite Htake.
  - simpl. rewrite drop_app_length' by (by rewrite length_fb_bytes).
    rewrite bool_decide_eq_true_2 by done. by rewrite take_app_length' by (by rewrite length_fb_bytes).
Qed.

Lemma hex_ok : HexOk VotingFixture.hex.
Proof.
  split; [apply unhex_to_hex_string|]. intros c [|c' s] Hc; [done|].
  cbn. by rewrite Hc.
Qed.

Definition key : FixedBytes 32 := fixed_repeat 32 x5a.
Definition sig : FixedBytes 65 :=
  let h := @VoteClient.hash_vote fips_keccak 11155111 Fixture.dao 4 2 35 in
  mk_fixed (fb_bytes key ++ fb_bytes h ++ [x1c]) (length_signed key h).
End WalletFixture.

(** ** Properties *)

Section Signed.
Context {keccak : KeccakV256} {k256 : K256} {wallet : PrivateKeySigner} {wallet_ok : WalletOk wallet}.
Context {steel : Steel} {hex : HexCrate} {hex_ok : HexOk hex}.

(** C19: a vote that the client signs for the chain of the guest program is
    recovered there: on the hexadecimal text of the signature, and for the
    DAO, proposal, direction and balance that were signed, the guest program
    finds the address of the wallet. *)
Theorem signed_vote_recovered i signer sig :
  VoteClient.get_user_vote_signature sepolia_chain_id signer (vi_dao i) (vi_proposal_id i)
    (vi_direction i) (vi_balance i) = Some sig →
  vi_signature i = VoteClient.signed_vote sig →
  signature_address i = Ret (wallet_address signer).
Proof.
  unfold VoteClient.get_user_vote_signature. rewrite client_hash_vote. intros Hsign Htext.
  destruct (sign_hash_recovers _ _ _ Hsign)
    as (bit & v & rid & rs & pk & Hbit & Hv & H64 & Hrid & Hrs & Hpk & Hne & Haddr).
  rewrite with_chain_id_address in Haddr.
  assert (u8_wf v ∧ into_recovery_id v = Some rid) as [Hwf Hinto].
  { split; [unfold u8_wf; lia|]. rewrite <-Hrid.
    by destruct Hbit as [->| ->], Hv as [->| ->]. }
  unfold signature_address. rewrite Htext. unfold VoteClient.signed_vote.
  rewrite from_hex_encode. cbn [expect mbind outcome_bind].
  rewrite (proj2 (index_Ret _ _ _) H64). cbn [mbind outcome_bind].
  rewrite (proj2 (slice_Ret 0 64 _ (take 64 (fb_bytes (as_bytes sig))))).
  2:{ split; [rewrite length_fb_bytes; lia|done]. }
  cbn [mbind outcome_bind].
  destruct (fixed_try_from_length (n:=64) (take 64 (fb_bytes (as_bytes sig)))) as (r & Hr & Hbytes).
  { rewrite length_take, length_fb_bytes. lia. }
  rewrite Hr. cbn [unwrap mbind outcome_bind]. rewrite Z_of_byte_of_Z, Z.mod_small by (unfold u8_wf in Hwf; lia).
  apply ecrecover_Ret. exists rid, rs, pk. by rewrite Hbytes.
Qed.

(** In quotes, as the integration test passes it, no signature is readable. *)
Lemma quoted_signature_refused i s :
  vi_signature i = VoteClient.debug_text s →
  signature_address i = Panics (ExpectFailed "Invalid hex string").
Proof.
  intros Htext. unfold signature_address. rewrite Htext. unfold VoteClient.debug_text.
  by rewrite from_hex_digit.
Qed.
End Signed.

Lemma signed_vote_recovered_witness :
  @signature_address fips_keccak WalletFixture.k256 VotingFixture.steel VotingFixture.hex
    (VotingFixture.input_signed (@VoteClient.signed_vote WalletFixture.wallet WalletFixture.sig) 2 35) =
  Ret (@wallet_address WalletFixture.wallet WalletFixture.key).
Proof.
  refine (@signed_vote_recovered fips_keccak WalletFixture.k256 WalletFixture.wallet
            WalletFixture.wallet_ok VotingFixture.steel VotingFixture.hex WalletFixture.hex_ok
            _ WalletFixture.key WalletFixture.sig _ _); reflexivity.
Defined.
