(* ===== verification/ExecutionGuest.v ===== *)
(** * The guest program [execution_protocol]

    It checks that a tally makes a proposal executable under the DAO's
    execution strategy, against the total supply of the configured assets, and
    commits the tally to its journal. *)

From stdpp Require Import base gmap list strings.
From Stdlib Require Import ZArith Lia Strings.Byte.
From S2P Require Import Prelude Machine Ethereum GuestVoting GuestDelegation GuestExecution.
From S2P Require Import GuestContext VoteSignature GuestIO VotingGuest Fixtures.
#[local] Open Scope Z_scope.

(** [struct Journal] of the [sol!] block; its last field is a dynamic array. *)
Record ExecutionJournal : Type := mk_execution_journal {
  ej_commitment : Commitment;
  ej_config_contract : Address;
  ej_proposal_id : U256;
  ej_tally : list U256
}.

Class ExecutionJournalAbi : Type := {
  execution_journal_abi_encode : ExecutionJournal → list byte
}.

(** The values [main] reads, in the order it reads them. *)
Record ExecutionInput {steel : Steel} : Type := mk_execution_input {
  ei_input : EvmInput;
  ei_dao : Address;
  ei_proposal_id : U256;
  ei_tally : array3;
  ei_config_contract : Address
}.

Section ExecutionProtocol.
Context {alloy : AlloyText} {steel : Steel} {serde : ZkvmSerde} {json : SerdeConfig}
  {abi : ExecutionJournalAbi}.

(** Lines 35 to 39: the reads. *)
Definition read_execution_input : stateful GuestIO ExecutionInput :=
  input ← env_read SerEvmInput;
  dao ← env_read SerAddress;
  proposal_id ← env_read SerU256;
  tally ← env_read SerTally;
  config_contract ← env_read SerAddress;
  mret (mk_execution_input steel input dao proposal_id tally config_contract).

(** Lines 58 to 63. *)
Definition total_supply (ctx : Context) (assets : list Asset) : outcome U256 :=
  supplies ← mapM (process_total_supply ctx) assets;
  Ret (u256_sum supplies).

(** Lines 41 to 80: everything between the reads and the commit. *)
Definition execution_statement (i : ExecutionInput) : outcome ExecutionJournal :=
  env ← into_env (ei_input i);
  config ← read_config env (ei_config_contract i) (ei_proposal_id i);
  let strategies_context := context_default env in
  total_voting_power ← total_supply strategies_context (cfg_assets config);
  executable ← process_execution_strategy strategies_context (cfg_execution_strategy config)
                 total_voting_power (ei_tally i);
  _ ← rassert executable;
  Ret {| ej_commitment := block_commitment strategies_context;
         ej_config_contract := ei_config_contract i;
         ej_proposal_id := ei_proposal_id i;
         ej_tally := array3_to_vec (ei_tally i) |}.

Definition execution_main : stateful GuestIO unit :=
  i ← read_execution_input;
  journal ← lift (execution_statement i);
  env_commit_slice (execution_journal_abi_encode journal).
End ExecutionProtocol.

(** ** Specification *)

(** The total supply of [asset], by the asset's named strategy. *)
Inductive supply_at (env : GuestEvmEnv) (asset : Asset) : U256 → Prop :=
| supply_balance_of s :
    asset_voting_power_strategy asset = "BalanceOf" →
    genv_view env (asset_contract asset) (CallERC20 getTotalSupplyCall) = Some s →
    supply_at env asset s
| supply_get_past_votes s :
    asset_voting_power_strategy asset = "GetPastVotes" →
    genv_view env (asset_contract asset)
      (CallVotes (getPastTotalSupplyCall (genv_number env))) = Some s →
    supply_at env asset s.

Section ExecutionCorrect.
Context {alloy : AlloyText} {steel : Steel} {serde : ZkvmSerde} {json : SerdeConfig}
  {abi : ExecutionJournalAbi}.

(** When the program accepts a tally. *)
Definition tally_executable (i : ExecutionInput) (env : GuestEvmEnv)
    (cfg : RiscVotingProtocolConfig) (supplies : list U256) : Prop :=
  into_env (ei_input i) = Ret env ∧
  (∃ s, genv_view env (ei_config_contract i)
          (CallConfig {| cc_proposal_id := ei_proposal_id i |}) = Some s ∧
        config_from_str s = Some cfg) ∧
  cfg_execution_strategy cfg = "MajorityVoting" ∧
  Forall2 (supply_at env) (cfg_assets cfg) supplies ∧
  majority_proof_execution env (zsum supplies mod U256_MOD) (ei_tally i) = true.

Lemma default_supply_at env asset s :
  process_total_supply (context_default env) asset = Ret s ↔ supply_at env asset s.
Proof.
  rewrite default_supply. simpl. split.
  - repeat case_decide; [..|done]; unfold get_past_votes_get_supply, balance_of_get_supply.
    + intros ?%guest_call_votes. by apply supply_get_past_votes.
    + intros ?%guest_call_erc20. by apply supply_balance_of.
  - intros [? Hn Hv|? Hn Hv]; rewrite Hn.
    + rewrite decide_False, decide_True by done. by apply guest_call_erc20.
    + rewrite decide_True by done. by apply guest_call_votes.
Qed.

Lemma total_supply_Ret env assets n :
  total_supply (context_default env) assets = Ret n ↔
  ∃ supplies, Forall2 (supply_at env) assets supplies ∧ n = zsum supplies mod U256_MOD.
Proof.
  unfold total_supply. rewrite bind_Ret_inv. setoid_rewrite mapM_Ret. f_equiv. intros ss.
  rewrite u256_sum_spec. split.
  - intros [Hall [= <-]]. split; [|done]. eapply Forall2_impl; [exact Hall|].
    intros. by apply default_supply_at.
  - intros [Hall ->]. split; [|done]. eapply Forall2_impl; [exact Hall|].
    intros. by apply default_supply_at.
Qed.

Lemma default_execution_Ret env name supply t :
  (b ← process_execution_strategy (context_default env) name supply t; rassert b) = Ret tt ↔
  name = "MajorityVoting" ∧ majority_proof_execution env supply t = true.
Proof.
  rewrite default_execution. case_decide; simpl; [|naive_solver].
  destruct (majority_proof_execution env supply t); naive_solver.
Qed.

Lemma execution_statement_Ret i j :
  execution_statement i = Ret j ↔
  ∃ env cfg supplies, tally_executable i env cfg supplies ∧
    j = mk_execution_journal (genv_commitment env) (ei_config_contract i) (ei_proposal_id i)
          (array3_to_vec (ei_tally i)).
Proof.
  unfold execution_statement, tally_executable. split.
  - intros Hj. apply bind_Ret_inv in Hj as (env & Henv & Hj).
    apply bind_Ret_inv in Hj as (cfg & Hcfg%read_config_Ret & Hj).
    apply bind_Ret_inv in Hj as (total & (ss & Hss & ->)%total_supply_Ret & Hj).
    rewrite default_execution in Hj. case_decide; [|done]. simpl in Hj. outcome_inv. subst j.
    exists env, cfg, ss. done.
  - intros (env & cfg & ss & (Henv & Hcfg & Hn & Hss & Hm) & ->).
    rewrite Henv. simpl. rewrite (proj2 (read_config_Ret _ _ _ cfg) Hcfg). simpl.
    rewrite (proj2 (total_supply_Ret env _ (zsum ss mod U256_MOD))) by eauto. simpl.
    rewrite default_execution, decide_True by done. simpl. by rewrite Hm.
Qed.

Lemma read_execution_input_journal io i io' :
  read_execution_input io = (Ret i, io') → io_journal io' = io_journal io.
Proof.
  unfold read_execution_input. intros Hr. guest_reads Hr.
  unfold mret, stateful_ret in Hr. injection Hr as _ <-. congruence.
Qed.

Lemma execution_main_run stdin jb :
  run_guest execution_main stdin = Ret jb ↔
  ∃ i j io, read_execution_input {| io_stdin := stdin; io_journal := [] |} = (Ret i, io) ∧
    execution_statement i = Ret j ∧ jb = io_journal io ++ execution_journal_abi_encode j.
Proof. apply guest_run. Qed.
End ExecutionCorrect.

(** ** Properties *)

(** C16: on any input stream, the program commits a journal exactly when the
    environment verifies, the stored configuration names [MajorityVoting], and
    that strategy passes the tally it read against the summed supplies of the
    configured assets; the journal is the encoding of that tally and of the
    block commitment. *)
Theorem execution_guest_correct {alloy : AlloyText} {steel : Steel} {serde : ZkvmSerde}
    {json : SerdeConfig} {abi : ExecutionJournalAbi} stdin jb :
  run_guest execution_main stdin = Ret jb ↔
  ∃ i io, read_execution_input {| io_stdin := stdin; io_journal := [] |} = (Ret i, io) ∧
    ∃ env cfg supplies, tally_executable i env cfg supplies ∧
      jb = execution_journal_abi_encode
             (mk_execution_journal (genv_commitment env) (ei_config_contract i)
                (ei_proposal_id i) (array3_to_vec (ei_tally i))).
Proof.
  rewrite execution_main_run. split.
  - intros (i & j & io & Hr & (env & cfg & ss & Hb & ->)%execution_statement_Ret & ->).
    exists i, io. split; [done|]. exists env, cfg, ss. split; [done|].
    by rewrite (read_execution_input_journal _ _ _ Hr).
  - intros (i & io & Hr & env & cfg & ss & Hb & ->).
    eexists i, _, io. split_and!; [done|apply execution_statement_Ret; eauto 8|].
    by rewrite (read_execution_input_journal _ _ _ Hr).
Qed.
