(* ===== verification/Abi.v ===== *)
(** * The Solidity ABI of the two journals

    The programs encode and decode journals with [alloy]'s [SolValue], an
    interface of the model.  This file gives the layout the Solidity ABI
    prescribes for the two structs of the [sol!] blocks: a static struct is
    the sequence of its 32-byte words; a struct with a dynamic array is an
    offset word followed by its head, with the offset of the array, and then
    the array's length and elements.  Decoding validates: the data has exactly
    the encoded length, the padding of an address is zero, a [uint8] is below
    256. *)

From stdpp Require Import base gmap list strings.
From Stdlib Require Import ZArith Lia Strings.Byte.
From S2P Require Import Prelude Machine Ethereum GuestExecution VotingGuest ExecutionGuest.
#[local] Open Scope Z_scope.

Definition abi_uint (z : Z) : list byte := be_bytes 32 z.
Definition abi_address (a : Address) : list byte := replicate 12 x00 ++ fb_bytes a.

Definition commitment_words (c : Commitment) : list (list byte) :=
  [abi_uint (com_id c); fb_bytes (com_digest c); fb_bytes (com_configID c)].

Definition voting_words (j : VotingJournal) : list (list byte) :=
  commitment_words (vj_commitment j) ++
  [abi_address (vj_config_contract j); abi_uint (vj_proposal_id j); abi_address (vj_voter j);
   abi_uint (vj_balance j); abi_uint (vj_direction j)].
Definition abi_encode_voting (j : VotingJournal) : list byte := concat (voting_words j).

Definition execution_words (j : ExecutionJournal) : list (list byte) :=
  [abi_uint 32] ++ commitment_words (ej_commitment j) ++
  [abi_address (ej_config_contract j); abi_uint (ej_proposal_id j); abi_uint 192;
   abi_uint (Z.of_nat (length (ej_tally j)))] ++ (abi_uint <$> ej_tally j).
Definition abi_encode_execution (j : ExecutionJournal) : list byte := concat (execution_words j).

Definition abi_decode_address (w : list byte) : option Address :=
  if bool_decide (take 12 w = replicate 12 x00) then fixed_try_from (drop 12 w) else None.

Definition abi_decode_voting (l : list byte) : option VotingJournal :=
  match chunks_exact 32 l with
  | [w0; w1; w2; w3; w4; w5; w6; w7] =>
      if bool_decide (length l = 256%nat) then
        digest ← fixed_try_from w1;
        configID ← fixed_try_from w2;
        config_contract ← abi_decode_address w3;
        voter ← abi_decode_address w5;
        if be_value w7 <? 256 then
          Some (mk_voting_journal (mk_commitment (be_value w0) digest configID)
                  config_contract (be_value w4) voter (be_value w6) (be_value w7))
        else None
      else None
  | _ => None
  end.

Definition voting_journal_wf (j : VotingJournal) : Prop :=
  u256_wf (com_id (vj_commitment j)) ∧ u256_wf (vj_proposal_id j) ∧ u256_wf (vj_balance j) ∧
  u8_wf (vj_direction j).

(** ** Lemmas *)

Lemma length_abi_uint z : length (abi_uint z) = 32%nat.
Proof. apply length_be_bytes. Qed.
Lemma length_abi_address a : length (abi_address a) = 32%nat.
Proof. unfold abi_address. by rewrite length_app, length_fb_bytes. Qed.
#[export] Hint Resolve length_abi_uint length_abi_address : zkgov.

Lemma length_concat_words (ws : list (list byte)) :
  Forall (λ w, length w = 32%nat) ws → length (concat ws) = (32 * length ws)%nat.
Proof. induction 1 as [|w ws Hw _ IH]; [done|]. rewrite concat_cons, length_app, IH, Hw. simpl. lia. Qed.

Lemma voting_words_32 j : Forall (λ w, length w = 32%nat) (voting_words j).
Proof. repeat constructor; auto using length_fb_bytes with zkgov. Qed.

Lemma execution_words_32 j : Forall (λ w, length w = 32%nat) (execution_words j).
Proof.
  repeat apply Forall_app_2; [repeat constructor; auto using length_fb_bytes with zkgov..|].
  apply Forall_fmap, Forall_true. apply length_abi_uint.
Qed.

Lemma be_value_abi_uint z : u256_wf z → be_value (abi_uint z) = z.
Proof. intros Hz. unfold abi_uint. rewrite be_value_be_bytes. by apply Z.mod_small. Qed.

Lemma abi_decode_encode_address a : abi_decode_address (abi_address a) = Some a.
Proof.
  unfold abi_decode_address, abi_address.
  rewrite take_app_length', drop_app_length', bool_decide_true by done.
  by apply fixed_try_from_Some.
Qed.

Lemma fixed_try_from_bytes {n} (a : FixedBytes n) : fixed_try_from (fb_bytes a) = Some a.
Proof. by apply fixed_try_from_Some. Qed.

Lemma abi_decode_encode_voting j :
  voting_journal_wf j → abi_decode_voting (abi_encode_voting j) = Some j.
Proof.
  intros (Hid & Hp & Hb & Hd). unfold abi_decode_voting, abi_encode_voting.
  rewrite chunks_exact_concat, length_concat_words by (done || lia || apply voting_words_32).
  rewrite bool_decide_true by done.
  destruct j as [[id digest cid] cc pid voter bal dir]. unfold voting_words, commitment_words.
  cbn [app vj_commitment vj_config_contract vj_proposal_id vj_voter vj_balance vj_direction
       com_id com_digest com_configID] in *.
  assert (u256_wf dir) by (unfold u8_wf, u256_wf, U256_MOD in *; lia).
  rewrite !fixed_try_from_bytes. cbn [mbind option_bind].
  rewrite !abi_decode_encode_address. cbn [mbind option_bind].
  rewrite !be_value_abi_uint by done. rewrite (proj2 (Z.ltb_lt _ _)) by (unfold u8_wf in Hd; lia).
  done.
Qed.

(** Data of another length than eight words is refused. *)
Lemma abi_decode_voting_length l : length l ≠ 256%nat → abi_decode_voting l = None.
Proof.
  intros Hl. unfold abi_decode_voting. rewrite bool_decide_false by done.
  by repeat case_match.
Qed.

Lemma abi_decode_execution j : ej_tally j ≠ [] → abi_decode_voting (abi_encode_execution j) = None.
Proof.
  intros Ht. apply abi_decode_voting_length. unfold abi_encode_execution.
  rewrite length_concat_words by apply execution_words_32.
  unfold execution_words, commitment_words. simpl. rewrite length_fmap.
  destruct (ej_tally j); [done|]. simpl. lia.
Qed.
