(* ===== verification/AbiSpec.v ===== *)
(** * The Solidity ABI

    Types of the ABI with their canonical names, and the encoding that the
    specification prescribes for them, as a reference for the layouts that the
    other files write out word by word. *)

From stdpp Require Import base gmap list strings pretty.
From Stdlib Require Import ZArith Lia Strings.Byte.
From S2P Require Import Prelude Machine Ethereum VoteSignature GuestExecution VotingGuest.
From S2P Require Import ExecutionGuest Abi.
#[local] Open Scope Z_scope.

(** ** Types and values *)

#[local] Unset Elimination Schemes.
Inductive SolTy : Type :=
| SUint (bits : Z)
| SAddress
| SBool
| SFixed (size : Z)        (* [bytes4], [bytes32] *)
| SBytes
| SString
| SArray (t : SolTy)
| STuple (ts : list SolTy).

Inductive SolVal : Type :=
| AUint (z : Z)
| AAddress (a : Address)
| ABool (b : bool)
| AFixed (l : list byte)
| ABytes (l : list byte)
| AString (s : string)
| AArray (vs : list SolVal)
| ATuple (vs : list SolVal).
#[local] Set Elimination Schemes.

(** The name of a type in signatures. *)
Fixpoint canonical (t : SolTy) : string :=
  match t with
  | SUint bits => "uint" +:+ pretty bits
  | SAddress => "address"
  | SBool => "bool"
  | SFixed size => "bytes" +:+ pretty size
  | SBytes => "bytes"
  | SString => "string"
  | SArray t => canonical t +:+ "[]"
  | STuple ts => "(" +:+ String.concat "," (canonical <$> ts) +:+ ")"
  end%string.

Fixpoint dynamic (t : SolTy) : bool :=
  match t with
  | SUint _ | SAddress | SBool | SFixed _ => false
  | SBytes | SString | SArray _ => true
  | STuple ts => existsb dynamic ts
  end.

(** ** The encoding *)

(** A tuple: the encodings of its static parts and the offsets of the dynamic
    ones, followed by the encodings of the dynamic parts. *)
Definition head_size (parts : list (bool * list byte)) : Z :=
  zsum ((λ p : bool * list byte, if p.1 then 32 else Z.of_nat (length p.2)) <$> parts).
Fixpoint heads (offset : Z) (parts : list (bool * list byte)) : list byte :=
  match parts with
  | [] => []
  | (true, e) :: parts => abi_uint offset ++ heads (offset + Z.of_nat (length e)) parts
  | (false, e) :: parts => e ++ heads offset parts
  end.
Definition tails (parts : list (bool * list byte)) : list byte :=
  concat ((λ p : bool * list byte, if p.1 then p.2 else []) <$> parts).
Definition enc_parts (parts : list (bool * list byte)) : list byte :=
  heads (head_size parts) parts ++ tails parts.

(** Bytes are padded with zeros to whole words. *)
Definition padding (l : list byte) : list byte := replicate ((32 - length l mod 32) mod 32) x00.
Definition enc_bytes (l : list byte) : list byte :=
  abi_uint (Z.of_nat (length l)) ++ l ++ padding l.

Fixpoint enc (t : SolTy) (v : SolVal) : list byte :=
  match t, v with
  | SUint _, AUint z => abi_uint z
  | SAddress, AAddress a => abi_address a
  | SBool, ABool b => abi_uint (if b then 1 else 0)
  | SFixed _, AFixed l => l ++ padding l
  | SBytes, ABytes l => enc_bytes l
  | SString, AString s => enc_bytes (String.list_byte_of_string s)
  | SArray t, AArray vs =>
      abi_uint (Z.of_nat (length vs)) ++ enc_parts ((λ v, (dynamic t, enc t v)) <$> vs)
  | STuple ts, ATuple vs =>
      enc_parts ((fix go (ts : list SolTy) (vs : list SolVal) : list (bool * list byte) :=
        match ts, vs with
        | t :: ts, v :: vs => (dynamic t, enc t v) :: go ts vs
        | _, _ => []
        end) ts vs)
  | _, _ => []
  end.

Lemma enc_tuple ts vs :
  enc (STuple ts) (ATuple vs) = enc_parts (zip_with (λ t v, (dynamic t, enc t v)) ts vs).
Proof. done. Qed.

(** [abi.encode(v)], [SolValue::abi_encode] and [abi_encode_params] *)
Definition abi_encode (t : SolTy) (v : SolVal) : list byte := enc (STuple [t]) (ATuple [v]).
Definition abi_encode_params (ts : list SolTy) (vs : list SolVal) : list byte :=
  enc (STuple ts) (ATuple vs).

(** ** Functions *)

Record SolFn : Type := mk_fn {
  fn_name : string;
  fn_inputs : list SolTy;
  fn_outputs : list SolTy
}.
Definition signature (f : SolFn) : string := (fn_name f +:+ canonical (STuple (fn_inputs f)))%string.

Section Selectors.
Context {keccak : KeccakV256}.

(** The first four bytes of the hash of the signature. *)
Definition selector (f : SolFn) : list byte :=
  take 4 (fb_bytes (keccak_v256 (String.list_byte_of_string (signature f)))).
Lemma length_fn_selector f : length (selector f) = 4%nat.
Proof. unfold selector. by rewrite length_take, length_fb_bytes. Qed.

Definition calldata (f : SolFn) (vs : list SolVal) : list byte :=
  selector f ++ abi_encode_params (fn_inputs f) vs.
End Selectors.

(** ** Static words and padded bytes *)

Lemma enc_parts_static parts :
  Forall (λ p : bool * list byte, p.1 = false) parts → enc_parts parts = concat (snd <$> parts).
Proof.
  intros Hall. unfold enc_parts. generalize (head_size parts). intros off.
  assert (tails parts = []) as ->.
  { unfold tails. induction Hall as [|[d e] parts Hd _ IH]; [done|]. simpl in *. by rewrite Hd. }
  rewrite app_nil_r. induction Hall as [|[d e] parts Hd _ IH]; [done|]. simpl in *.
  rewrite Hd. by rewrite IH.
Qed.

Lemma padding_word (l : list byte) : length l = 32%nat → padding l = [].
Proof. intros Hl. unfold padding. by rewrite Hl. Qed.

Lemma length_padded (l : list byte) :
  (length (l ++ padding l) mod 32 = 0)%nat ∧ (length l ≤ length (l ++ padding l))%nat.
Proof.
  unfold padding. rewrite length_app, length_replicate. split; [|lia].
  pose proof (Nat.mod_upper_bound (length l) 32 ltac:(lia)).
  pose proof (Nat.div_mod_eq (length l) 32). destruct (decide (length l mod 32 = 0)%nat) as [He|Hn].
  - rewrite He. change ((32 - 0) mod 32)%nat with 0%nat. by rewrite Nat.add_0_r.
  - rewrite (Nat.mod_small (32 - _) 32) by lia.
    replace (length l + (32 - length l mod 32))%nat with ((length l / 32 + 1) * 32)%nat by lia.
    by apply Nat.Div0.mod_mul.
Qed.

(** ** The journals *)

Definition commitment_ty : SolTy := STuple [SUint 256; SFixed 32; SFixed 32].
Definition commitment_val (c : Commitment) : SolVal :=
  ATuple [AUint (com_id c); AFixed (fb_bytes (com_digest c)); AFixed (fb_bytes (com_configID c))].

(** [struct Journal] of the two guests. *)
Definition voting_Journal : SolTy :=
  STuple [commitment_ty; SAddress; SUint 256; SAddress; SUint 256; SUint 8].
Definition execution_Journal : SolTy :=
  STuple [commitment_ty; SAddress; SUint 256; SArray (SUint 256)].

Definition voting_val (j : VotingJournal) : SolVal :=
  ATuple [commitment_val (vj_commitment j); AAddress (vj_config_contract j);
          AUint (vj_proposal_id j); AAddress (vj_voter j); AUint (vj_balance j);
          AUint (vj_direction j)].
Definition execution_val (j : ExecutionJournal) : SolVal :=
  ATuple [commitment_val (ej_commitment j); AAddress (ej_config_contract j);
          AUint (ej_proposal_id j); AArray (AUint <$> ej_tally j)].

Lemma enc_commitment c : enc commitment_ty (commitment_val c) = concat (commitment_words c).
Proof.
  unfold commitment_ty, commitment_val, commitment_words. cbn [enc dynamic existsb].
  rewrite !padding_word, !app_nil_r by apply length_fb_bytes.
  by rewrite enc_parts_static by repeat constructor.
Qed.

Lemma length_commitment_words c : length (concat (commitment_words c)) = 96%nat.
Proof.
  rewrite length_concat_words; [done|]. repeat constructor; auto using length_fb_bytes with zkgov.
Qed.

(** The layout of the journal of a vote is the one of its type. *)
Theorem voting_journal_spec j : abi_encode voting_Journal (voting_val j) = abi_encode_voting j.
Proof.
  unfold abi_encode, voting_Journal, voting_val, abi_encode_voting, voting_words.
  rewrite concat_app, <-enc_commitment, enc_tuple. cbn [zip_with dynamic existsb orb commitment_ty].
  rewrite enc_tuple. cbn [zip_with dynamic existsb orb].
  rewrite !enc_parts_static by repeat constructor. cbn [fmap list_fmap snd concat].
  by rewrite app_nil_r.
Qed.

Lemma enc_array_uint n zs :
  enc (SArray (SUint n)) (AArray (AUint <$> zs)) =
  concat (abi_uint (Z.of_nat (length zs)) :: (abi_uint <$> zs)).
Proof.
  cbn [enc dynamic]. rewrite length_fmap, concat_cons. f_equal.
  rewrite enc_parts_static; [by rewrite <-!list_fmap_compose|].
  by apply Forall_fmap, Forall_true.
Qed.

(** The layout of the journal of an execution is the one of its type. *)
Theorem execution_journal_spec j :
  abi_encode execution_Journal (execution_val j) = abi_encode_execution j.
Proof.
  unfold abi_encode, execution_Journal, execution_val, abi_encode_execution, execution_words.
  rewrite !concat_app, <-enc_commitment. pose proof (length_commitment_words (ej_commitment j)) as Hl.
  rewrite <-enc_commitment in Hl. rewrite enc_tuple. cbn [zip_with].
  rewrite enc_tuple. cbn [zip_with]. rewrite enc_array_uint.
  change (dynamic commitment_ty) with false. change (dynamic (STuple [commitment_ty; _; _; _])) with true.
  set (c := enc commitment_ty _) in *. set (a := concat (_ :: _)). clearbody c. cbn [enc dynamic].
  unfold enc_parts, head_size, tails. cbn [heads fmap list_fmap fst snd concat].
  rewrite Hl, length_abi_uint, length_abi_address.
  change (zsum [Z.of_nat 96; Z.of_nat 32; Z.of_nat 32; 32]) with 192. change (zsum [32]) with 32.
  subst a. rewrite concat_cons, !app_nil_r, <-!app_assoc. done.
Qed.
