(* ===== verification/Seal.v ===== *)
(** * Seals for the EVM verifiers ([lib/risc0/lib.rs], [lib/risc0/groth16.rs])

    A proof is published as a four-byte verifier selector followed by the seal
    of the receipt.  Digests come from [risc0_zkvm]; they are 32-byte values
    here. *)

From stdpp Require Import base gmap list strings.
From Stdlib Require Import ZArith Lia Strings.Byte.
From S2P Require Import Prelude Machine.

Abbreviation Digest := (FixedBytes 32).

(** The receipts [encode_seal] tells apart; every other kind is [OtherReceipt]. *)
Inductive InnerReceipt : Type :=
| Fake (claim_digest : Digest)
| Groth16 (verifier_parameters : Digest) (seal : list byte)
| OtherReceipt.

(** [risc0_zkvm::Receipt] *)
Record Receipt : Type := mk_receipt {
  receipt_inner : InnerReceipt;
  receipt_journal : list byte
}.

(** [Vec::extend_from_slice] *)
Definition extend_from_slice (v s : list byte) : list byte := v ++ s.

Definition encode_seal (receipt : Receipt) : outcome (result (list byte)) :=
  match receipt_inner receipt with
  | Fake claim_digest =>
      let seal := fb_bytes claim_digest in
      let selector := replicate 4 x00 in
      let selector_seal := [] in
      let selector_seal := extend_from_slice selector_seal selector in
      let selector_seal := extend_from_slice selector_seal seal in
      Ret (Ok selector_seal)
  | Groth16 verifier_parameters seal =>
      selector ← slice 0 4 (fb_bytes verifier_parameters);
      let selector_seal := [] in
      let selector_seal := extend_from_slice selector_seal selector in
      let selector_seal := extend_from_slice selector_seal seal in
      Ret (Ok selector_seal)
  | OtherReceipt => Ret (Err "Unsupported receipt type")
  end.

(** [Groth16ReceiptVerifierParameters::default().digest()] of the zkVM the
    crate is built against, and the ABI encoding of a byte string. *)
Class Groth16Params : Type := {
  default_verifier_parameters_digest : Digest;
  bytes_abi_encode : list byte → list byte
}.

Section Groth16.
Context {params : Groth16Params}.

(** [groth16::encode] *)
Definition groth16_encode (seal : list byte) : outcome (result (list byte)) :=
  selector ← slice 0 4 (fb_bytes default_verifier_parameters_digest);
  let selector_seal := [] in
  let selector_seal := extend_from_slice selector_seal selector in
  let selector_seal := extend_from_slice selector_seal seal in
  Ret (Ok selector_seal).

(** [groth16::abi_encode] *)
Definition groth16_abi_encode (seal : list byte) : outcome (result (list byte)) :=
  r ← groth16_encode seal;
  Ret (match r with Ok bytes => Ok (bytes_abi_encode bytes) | Err e => Err e end).
End Groth16.

(** ** Lemmas *)

Lemma slice_selector (d : Digest) : slice 0 4 (fb_bytes d) = Ret (take 4 (fb_bytes d)).
Proof. unfold slice. rewrite decide_True; [done|]. rewrite length_fb_bytes. lia. Qed.

Lemma length_selector (d : Digest) : length (take 4 (fb_bytes d)) = 4.
Proof. by rewrite length_take, length_fb_bytes. Qed.

(** The two parts of an encoded seal, as a verifier reads them. *)
Definition seal_selector (l : list byte) : list byte := take 4 l.
Definition seal_body (l : list byte) : list byte := drop 4 l.

Lemma seal_parts (s b : list byte) :
  length s = 4 → seal_selector (s ++ b) = s ∧ seal_body (s ++ b) = b.
Proof.
  intros Hs. unfold seal_selector, seal_body.
  by rewrite take_app_length', drop_app_length' by done.
Qed.

(** ** Properties *)

(** [encode_seal] never panics; on a Groth16 receipt it yields the first
    four bytes of the verifier parameters followed by the unchanged seal, on a
    development-mode receipt four zero bytes followed by the claim digest, and
    on any other receipt an error; [groth16::encode] agrees with it when the
    receipt was made with the default parameters. *)
Theorem encode_seal_parts {params : Groth16Params} receipt :
  match receipt_inner receipt with
  | Fake claim => ∃ l, encode_seal receipt = Ret (Ok l) ∧
      seal_selector l = replicate 4 x00 ∧ seal_body l = fb_bytes claim
  | Groth16 vp seal => ∃ l, encode_seal receipt = Ret (Ok l) ∧
      seal_selector l = take 4 (fb_bytes vp) ∧ seal_body l = seal ∧
      (vp = default_verifier_parameters_digest → groth16_encode seal = Ret (Ok l))
  | OtherReceipt => encode_seal receipt = Ret (Err "Unsupported receipt type")
  end.
Proof.
  unfold encode_seal, groth16_encode, extend_from_slice.
  destruct (receipt_inner receipt) as [claim|vp seal|]; [| |done].
  - eexists. split; [done|]. by apply seal_parts.
  - rewrite slice_selector. eexists. split; [done|].
    destruct (seal_parts (take 4 (fb_bytes vp)) seal (length_selector vp)) as [Hs Hb].
    split_and!; [done..|]. intros <-. by rewrite slice_selector.
Qed.
