(* ===== verification/HostStrategies.v ===== *)
(** * The host's strategies and their registry (crate [apps])

    The host runs the same strategies as the guest, as preflight calls: each
    call is answered by the node and recorded, so that Steel can prove the
    state it touched to the guest.  The record is the state of these
    functions.  The host's configuration structs have the same fields as the
    guest's and are modelled by the same records. *)

From stdpp Require Import base gmap list strings.
From Stdlib Require Import ZArith Lia Strings.Byte.
From S2P Require Import Prelude Machine Ethereum GuestDelegation GuestExecution GuestContext.
#[local] Open Scope Z_scope.

Definition HostDelegationObject : Type := DelegationObject.
Definition HostAsset : Type := Asset.
Definition HostConfig : Type := RiscVotingProtocolConfig.
Definition HostDelegation : Type := Delegation.

(** Host code that makes preflight calls. *)
Definition host (A : Type) : Type := stateful (list access) A.
#[export] Instance host_ret : MRet host := stateful_ret.
#[export] Instance host_bind : MBind host := stateful_bind.

(** [Contract::preflight(addr, env).call_builder(&c).call().await] *)
Definition preflight (env : HostEvmEnv) (addr : Address) (c : Call) : host (result (CallReturn c)) :=
  λ log, (Ret (match henv_view env addr c with Some r => Ok r | None => Err "call failed" end),
          log ++ [(addr, c)]).

(** [.await.unwrap()] *)
Definition preflight_unwrap (env : HostEvmEnv) (addr : Address) (c : Call) : host (CallReturn c) :=
  r ← preflight env addr c; lift (unwrap_result r).

(** ** Traits *)

Class HostVotingPowerStrategy (T : Type) : Type := {
  hvp_process : T → HostEvmEnv → Address → HostAsset → host U256;
  hvp_get_supply : T → HostEvmEnv → HostAsset → host U256
}.
Class HostDelegationStrategy (T : Type) : Type := {
  hds_process : T → HostEvmEnv → Address → HostAsset → list byte →
                host (result (list HostDelegation))
}.
Class ExecutionStrategy (T : Type) : Type := {
  hes_proof_execution : T → HostEvmEnv → U256 → array3 → host bool
}.

Record BoxHostVotingPower : Type := box_hvp {
  bhvp_type : Type; bhvp_inst : HostVotingPowerStrategy bhvp_type; bhvp_self : bhvp_type
}.
Record BoxHostDelegation : Type := box_hds {
  bhds_type : Type; bhds_inst : HostDelegationStrategy bhds_type; bhds_self : bhds_type
}.
Record BoxHostExecution : Type := box_hes {
  bhes_type : Type; bhes_inst : ExecutionStrategy bhes_type; bhes_self : bhes_type
}.
Arguments box_hvp {_ _} _.
Arguments box_hds {_ _} _.
Arguments box_hes {_ _} _.

Definition dyn_hvp_process (b : BoxHostVotingPower) :=
  @hvp_process (bhvp_type b) (bhvp_inst b) (bhvp_self b).
Definition dyn_hvp_get_supply (b : BoxHostVotingPower) :=
  @hvp_get_supply (bhvp_type b) (bhvp_inst b) (bhvp_self b).
Definition dyn_hds_process (b : BoxHostDelegation) :=
  @hds_process (bhds_type b) (bhds_inst b) (bhds_self b).
Definition dyn_hes_proof_execution (b : BoxHostExecution) :=
  @hes_proof_execution (bhes_type b) (bhes_inst b) (bhes_self b).

(** [impl FromIterator<(Address, U256)> for Delegation] of the host. *)
Definition host_delegation_from_iter (iter : list (Address * U256)) : outcome HostDelegation :=
  match iter with
  | (d, r) :: _ => Ret {| delegate := d; ratio := r |}
  | [] => Panics (PanicMsg "Iterator is empty, cannot create Delegation")
  end.

(** ** Voting power *)

Inductive HostBalanceOf : Type := HostBalanceOf_.

Definition host_balance_of_process (env : HostEvmEnv) (account : Address) (asset : HostAsset) :
    host U256 :=
  preflight_unwrap env (asset_contract asset) (CallERC20 (balanceOfCall account)).
Definition host_balance_of_get_supply (env : HostEvmEnv) (asset : HostAsset) : host U256 :=
  preflight_unwrap env (asset_contract asset) (CallERC20 getTotalSupplyCall).

#[export] Instance HostBalanceOf_strategy : HostVotingPowerStrategy HostBalanceOf := {|
  hvp_process _ := host_balance_of_process;
  hvp_get_supply _ := host_balance_of_get_supply
|}.

Inductive HostGetPastVotes : Type := HostGetPastVotes_.

(** The host asks for the parent of the block of the environment. *)
Definition host_get_past_votes_process (env : HostEvmEnv) (account : Address) (asset : HostAsset) :
    host U256 :=
  let block_number := henv_parent_number env in
  preflight_unwrap env (asset_contract asset) (CallVotes (getPastVotesCall account block_number)).
Definition host_get_past_votes_get_supply (env : HostEvmEnv) (asset : HostAsset) : host U256 :=
  let block_number := henv_parent_number env in
  preflight_unwrap env (asset_contract asset) (CallVotes (getPastTotalSupplyCall block_number)).

#[export] Instance HostGetPastVotes_strategy : HostVotingPowerStrategy HostGetPastVotes := {|
  hvp_process _ := host_get_past_votes_process;
  hvp_get_supply _ := host_get_past_votes_get_supply
|}.

(** ** Delegation *)

Inductive HostSplitDelegation : Type := HostSplitDelegation_.

Definition host_compare_bytes32_to_address (bytes32 : FixedBytes 32) (address : Address) : bool :=
  bool_decide (drop 12 (fb_bytes bytes32) = fb_bytes address).

(** Unlike the guest, it prints the first entry of the answer, so an empty
    answer panics before it is tested for emptiness. *)
Definition process_delegate (env : HostEvmEnv) (asset_contract : Address) (context : string)
    (potential_delegate account : Address) : host (option HostDelegation) :=
  r ← preflight_unwrap env asset_contract
        (CallRegistry {| gd_context := context; gd_account := potential_delegate |});
  let ds := gdr_delegations r in
  _ ← lift (index ds 0);
  if is_empty ds then mret (Some {| delegate := potential_delegate; ratio := 1 |})
  else
    let total := foldl (λ acc d, u256_add acc (reg_ratio d)) 0 ds in
    match List.find (λ d, host_compare_bytes32_to_address (reg_delegate d) account) ds with
    | None => mret None
    | Some d =>
        q ← lift (u256_div total (reg_ratio d));
        mret (Some {| delegate := potential_delegate; ratio := q |})
    end.

Section HostSplitDelegation.
Context {alloy : AlloyText}.

Definition host_split_delegation_process (env : HostEvmEnv) (account : Address)
    (asset : HostAsset) (additional_data : list byte) : host (result (list HostDelegation)) :=
  if decide (length additional_data mod 20 ≠ 0)%nat then mret (Err ERR_LENGTH)
  else
    delegations ← lift (mapM address_from_slice (chunks_exact 20 additional_data));
    account_delegates ← mapM (λ potential_delegate,
        process_delegate env (do_contract (asset_delegation asset))
          (address_to_string (asset_contract asset)) potential_delegate account) delegations;
    if existsb is_none account_delegates then mret (Err ERR_INVALID)
    else ds ← lift (mapM unwrap account_delegates); mret (Ok ds).

#[export] Instance HostSplitDelegation_strategy : HostDelegationStrategy HostSplitDelegation := {|
  hds_process _ := host_split_delegation_process
|}.
End HostSplitDelegation.

(** ** Execution *)

Inductive HostMajorityVoting : Type := HostMajorityVoting_.

Definition host_majority_proof_execution (_env : HostEvmEnv) (total_supply : U256)
    (tally : array3) : bool :=
  let yes_votes := tally_0 tally in
  let no_votes := tally_1 tally in
  let abstain_votes := tally_2 tally in
  let total_votes := u256_add (u256_add yes_votes no_votes) abstain_votes in
  if total_votes <=? total_supply / 2 then false
  else
    let non_abstain_votes := u256_add yes_votes no_votes in
    let threshold := non_abstain_votes / 2 in
    yes_votes >? threshold.

#[export] Instance HostMajorityVoting_strategy : ExecutionStrategy HostMajorityVoting := {|
  hes_proof_execution _ env supply tally := mret (host_majority_proof_execution env supply tally)
|}.

(** ** The registry ([HostContext]) *)

Record HostContext : Type := mk_host_context {
  hctx_voting_power_strategies : gmap string BoxHostVotingPower;
  hctx_delegation_strategies : gmap string BoxHostDelegation;
  hctx_execution_strategies : gmap string BoxHostExecution;
  hctx_env : HostEvmEnv
}.

Section HostDefault.
Context {alloy : AlloyText}.

(** [HostContext::default] *)
Definition host_context_default (env : HostEvmEnv) : HostContext := {|
  hctx_voting_power_strategies :=
    <["GetPastVotes" := box_hvp HostGetPastVotes_]>
      (<["BalanceOf" := box_hvp HostBalanceOf_]> ∅);
  hctx_delegation_strategies := <["SplitDelegation" := box_hds HostSplitDelegation_]> ∅;
  hctx_execution_strategies := <["MajorityVoting" := box_hes HostMajorityVoting_]> ∅;
  hctx_env := env
|}.
End HostDefault.

(** [HostContext::process_voting_power_strategy] *)
Definition process_voting_power_strategy (ctx : HostContext) (name : string) (account : Address)
    (asset : HostAsset) : host U256 :=
  match hctx_voting_power_strategies ctx !! name with
  | Some s => dyn_hvp_process s (hctx_env ctx) account asset
  | None => lift (Panics (PanicMsg (not_found name)))
  end.

(** [HostContext::process_delegation_strategy]: here an unknown name panics. *)
Definition host_process_delegation_strategy (ctx : HostContext) (account : Address)
    (asset : HostAsset) (additional_data : list byte) : host (result (list HostDelegation)) :=
  match hctx_delegation_strategies ctx !! do_strategy (asset_delegation asset) with
  | Some s => dyn_hds_process s (hctx_env ctx) account asset additional_data
  | None => lift (Panics (PanicMsg (not_found (do_strategy (asset_delegation asset)))))
  end.

(** [HostContext::process_total_supply]: here an unknown name is an error. *)
Definition host_process_total_supply (ctx : HostContext) (asset : HostAsset) : host (result U256) :=
  match hctx_voting_power_strategies ctx !! asset_voting_power_strategy asset with
  | Some s => x ← dyn_hvp_get_supply s (hctx_env ctx) asset; mret (Ok x)
  | None => mret (Err (not_found (asset_voting_power_strategy asset)))
  end.

(** [HostContext::process_execution_strategy]: likewise. *)
Definition host_process_execution_strategy (ctx : HostContext) (name : string)
    (total_supply : U256) (tally : array3) : host (result bool) :=
  match hctx_execution_strategies ctx !! name with
  | Some s => b ← dyn_hes_proof_execution s (hctx_env ctx) total_supply tally; mret (Ok b)
  | None => mret (Err (not_found name))
  end.
