(* ===== verification/Json.v ===== *)
(** * Structs as JSON text

    The programs read and write structs as JSON with [serde]: which text a
    struct has is determined by the names and types of its fields and by the
    attribute [rename_all].  A [Ty] is that description, [print] the compact
    text of a value, and [SerdeJson] the interface of [serde_json::from_str];
    its law says that compact text is read back.  [JsonFixture] is a reader
    with this law. *)

From stdpp Require Import base gmap list strings.
From Stdlib Require Import ZArith Lia Strings.Ascii.
From S2P Require Import Prelude Machine Ethereum.
#[local] Open Scope Z_scope.

(** ** Descriptions *)

#[local] Unset Elimination Schemes.

Inductive Ty : Type :=
| TString
| TInt (lo hi : Z)
| TAddress
| TVec (t : Ty)
| TStruct (fields : list (string * Ty)).

Definition TU8 : Ty := TInt 0 (2 ^ 8 - 1).
Definition TU64 : Ty := TInt 0 (2 ^ 64 - 1).
Definition TI16 : Ty := TInt (- 2 ^ 15) (2 ^ 15 - 1).
Definition TI32 : Ty := TInt (- 2 ^ 31) (2 ^ 31 - 1).
Definition TI64 : Ty := TInt (- 2 ^ 63) (2 ^ 63 - 1).

(** Values; an address is given by its text. *)
Inductive Val : Type :=
| VString (s : string)
| VInt (z : Z)
| VAddress (text : string)
| VList (vs : list Val)
| VStruct (vs : list Val).
#[local] Set Elimination Schemes.

(** [#[serde(rename_all = "camelCase")]]: a letter after an underscore becomes
    a capital, and the underscores are dropped. *)
Definition capital (c : ascii) : ascii :=
  let n := nat_of_ascii c in
  if (97 <=? n)%nat && (n <=? 122)%nat then ascii_of_nat (n - 32) else c.
Fixpoint camel_go (up : bool) (s : string) : string :=
  match s with
  | EmptyString => ""
  | String c s =>
      if Ascii.eqb c "_" then camel_go true s
      else String (if up then capital c else c) (camel_go false s)
  end.
Definition camel_case (s : string) : string := camel_go false s.

(** ** Compact text, as characters *)

Abbreviation chars := (list ascii).
Definition quote : ascii := ascii_of_nat 34.
Definition quoted (s : string) : chars := quote :: String.list_ascii_of_string s ++ [quote].

Definition digit (n : Z) : ascii := ascii_of_nat (48 + Z.to_nat n).
(** The last [fuel] digits; twenty are enough for 64 bits. *)
Fixpoint digits (fuel : nat) (n : Z) : chars :=
  match fuel with
  | O => []
  | S fuel => (if n <? 10 then [] else digits fuel (n / 10)) ++ [digit (n mod 10)]
  end.
Definition print_int (z : Z) : chars :=
  if z <? 0 then "-"%char :: digits 20 (- z) else digits 20 z.

Fixpoint join (l : list chars) : chars :=
  match l with
  | [] => []
  | [s] => s
  | s :: l => s ++ ","%char :: join l
  end.

Fixpoint print (t : Ty) (v : Val) : chars :=
  match t, v with
  | TString, VString s | TAddress, VAddress s => quoted s
  | TInt _ _, VInt z => print_int z
  | TVec t, VList vs => "["%char :: join (map (print t) vs) ++ ["]"%char]
  | TStruct fs, VStruct vs =>
      "{"%char :: join ((fix go (fs : list (string * Ty)) (vs : list Val) : list chars :=
        match fs, vs with
        | (name, t) :: fs, v :: vs => (quoted name ++ ":"%char :: print t v) :: go fs vs
        | _, _ => []
        end) fs vs) ++ ["}"%char]
  | _, _ => []
  end.
(** The text of a value, with white space after it. *)
Definition json_text (t : Ty) (v : Val) (space : chars) : string :=
  String.string_of_list_ascii (print t v ++ space).
Definition is_space (c : ascii) : bool :=
  existsb (λ n, nat_of_ascii c =? n)%nat [32; 9; 10; 13]%nat.

(** ** Values of a type *)

Fixpoint has_type (t : Ty) (v : Val) : bool :=
  match t, v with
  | TString, VString _ | TAddress, VAddress _ => true
  | TInt lo hi, VInt z => (lo <=? z) && (z <=? hi)
  | TVec t, VList vs => forallb (has_type t) vs
  | TStruct fs, VStruct vs =>
      (fix go (fs : list (string * Ty)) (vs : list Val) : bool :=
        match fs, vs with
        | [], [] => true
        | (_, t) :: fs, v :: vs => has_type t v && go fs vs
        | _, _ => false
        end) fs vs
  | _, _ => false
  end.

(** Text that needs no escape: printable ASCII but the quote and the backslash. *)
Definition plain_char (c : ascii) : bool :=
  let n := nat_of_ascii c in
  (32 <=? n)%nat && (n <? 127)%nat && negb (n =? 34)%nat && negb (n =? 92)%nat.
Definition plain (s : string) : bool := forallb plain_char (String.list_ascii_of_string s).
Fixpoint plain_val (v : Val) : bool :=
  match v with
  | VString s | VAddress s => plain s
  | VInt _ => true
  | VList vs | VStruct vs => forallb plain_val vs
  end.

(** Types whose integers have at most 64 bits and whose names need no escape. *)
Fixpoint ty_ok (t : Ty) : bool :=
  match t with
  | TString | TAddress => true
  | TInt lo hi => (- 2 ^ 63 <=? lo) && (hi <? 2 ^ 64)
  | TVec t => ty_ok t
  | TStruct fs => forallb (λ f, plain f.1 && ty_ok f.2) fs
  end.

(** ** The interface *)

(** [serde_json::from_str::<T>] for the struct of a description; addresses are
    left as text for [alloy] to read. *)
Class SerdeJson : Type := {
  json_from_str : Ty → string → option Val
}.

(** Values read are of the type, the empty text is no value, and the compact
    text of a value, also before white space, reads as the value. *)
Class SerdeJsonOk (json : SerdeJson) : Prop := {
  json_typed t s v : json_from_str t s = Some v → has_type t v = true;
  json_empty t : json_from_str t "" = None;
  json_print t v space :
    ty_ok t = true → has_type t v = true → plain_val v = true → forallb is_space space = true →
    json_from_str t (json_text t v space) = Some v
}.

(** ** A reader for compact text *)

Module JsonFixture.
Fixpoint strip (p s : chars) : option chars :=
  match p, s with
  | [], s => Some s
  | a :: p, b :: s => if Ascii.eqb a b then strip p s else None
  | _ :: _, [] => None
  end.

(** The characters up to the next quote. *)
Fixpoint read_text (s : chars) : option (chars * chars) :=
  match s with
  | [] => None
  | c :: s => if Ascii.eqb c quote then Some ([], s)
              else r ← read_text s; Some (c :: r.1, r.2)
  end.
Definition read_string (s : chars) : option (string * chars) :=
  s ← strip [quote] s; r ← read_text s; Some (String.string_of_list_ascii r.1, r.2).

Definition digit_value (c : ascii) : option Z :=
  let n := Z.of_nat (nat_of_ascii c) in
  if (48 <=? n) && (n <=? 57) then Some (n - 48) else None.
Fixpoint read_digits (acc : Z) (s : chars) : Z * chars :=
  match s with
  | c :: s' => match digit_value c with
               | Some d => read_digits (acc * 10 + d) s'
               | None => (acc, s)
               end
  | [] => (acc, [])
  end.
Definition read_nat (s : chars) : option (Z * chars) :=
  match s with
  | c :: _ => if bool_decide (is_Some (digit_value c)) then Some (read_digits 0 s) else None
  | [] => None
  end.
Definition read_int (s : chars) : option (Z * chars) :=
  match strip ["-"%char] s with
  | Some s => r ← read_nat s; Some (- r.1, r.2)
  | None => read_nat s
  end.

Section Read.
Context (read : Ty → chars → option (Val * chars)).

Fixpoint read_items (n : nat) (t : Ty) (s : chars) : option (list Val * chars) :=
  match n with
  | O => None
  | S n =>
      r ← read t s;
      match strip [","%char] r.2 with
      | Some s => rs ← read_items n t s; Some (r.1 :: rs.1, rs.2)
      | None => s ← strip ["]"%char] r.2; Some ([r.1], s)
      end
  end.

Fixpoint read_fields (first : bool) (fs : list (string * Ty)) (s : chars) :
    option (list Val * chars) :=
  match fs with
  | [] => s ← strip ["}"%char] s; Some ([], s)
  | (name, t) :: fs =>
      s ← (if first then Some s else strip [","%char] s);
      s ← strip (quoted name ++ [":"%char]) s;
      r ← read t s;
      rs ← read_fields false fs r.2;
      Some (r.1 :: rs.1, rs.2)
  end.
End Read.

Fixpoint read (fuel : nat) (t : Ty) (s : chars) : option (Val * chars) :=
  match fuel with
  | O => None
  | S fuel =>
      match t with
      | TString => r ← read_string s; Some (VString r.1, r.2)
      | TAddress => r ← read_string s; Some (VAddress r.1, r.2)
      | TInt lo hi =>
          r ← read_int s;
          if (lo <=? r.1) && (r.1 <=? hi) then Some (VInt r.1, r.2) else None
      | TVec t =>
          s ← strip ["["%char] s;
          match strip ["]"%char] s with
          | Some s => Some (VList [], s)
          | None => rs ← read_items (read fuel) (length s) t s; Some (VList rs.1, rs.2)
          end
      | TStruct fs =>
          s ← strip ["{"%char] s;
          rs ← read_fields (read fuel) true fs s; Some (VStruct rs.1, rs.2)
      end
  end.

Fixpoint depth (t : Ty) : nat :=
  match t with
  | TString | TAddress | TInt _ _ => 1
  | TVec t => S (depth t)
  | TStruct fs => S (foldr (λ f n, Nat.max (depth f.2) n) 0%nat fs)
  end.

Definition json : SerdeJson := {|
  json_from_str t s :=
    match read (depth t) t (String.list_ascii_of_string s) with
    | Some (v, rest) => if forallb is_space rest then Some v else None
    | None => None
    end
|}.

(** ** Reading back what was printed *)

Lemma strip_app p s : strip p (p ++ s) = Some s.
Proof. induction p as [|c p IH]; simpl; [done|]. by rewrite Ascii.eqb_refl. Qed.

Lemma strip_one c s : strip [c] (c :: s) = Some s.
Proof. apply (strip_app [c]). Qed.

Lemma strip_ne c d s : c ≠ d → strip [c] (d :: s) = None.
Proof. intros Hne. simpl. by destruct (Ascii.eqb_spec c d). Qed.

Lemma plain_char_quote c : plain_char c = true → Ascii.eqb c quote = false.
Proof.
  intros Hc. destruct (Ascii.eqb_spec c quote) as [->|]; [|done]. vm_compute in Hc. done.
Qed.

Lemma read_text_plain l rest :
  forallb plain_char l = true → read_text (l ++ quote :: rest) = Some (l, rest).
Proof.
  induction l as [|c l IH]; intros Hl; [done|]. simpl in *.
  apply andb_true_iff in Hl as [Hc Hl]. by rewrite plain_char_quote, IH.
Qed.

Lemma read_string_quoted s rest : plain s = true → read_string (quoted s ++ rest) = Some (s, rest).
Proof.
  intros Hs. unfold read_string, quoted. simpl. rewrite <-app_assoc.
  cbn [app]. rewrite read_text_plain by done. simpl.
  by rewrite String.string_of_list_ascii_of_string.
Qed.

Lemma digit_value_digit n : 0 <= n < 10 → digit_value (digit n) = Some n.
Proof.
  intros Hn. assert (n = 0 ∨ n = 1 ∨ n = 2 ∨ n = 3 ∨ n = 4 ∨ n = 5 ∨ n = 6 ∨ n = 7 ∨ n = 8 ∨ n = 9)
    as Hd by lia. by repeat destruct Hd as [->|Hd]; subst.
Qed.

Lemma digits_S fuel n :
  digits (S fuel) n = (if n <? 10 then [] else digits fuel (n / 10)) ++ [digit (n mod 10)].
Proof. reflexivity. Qed.
#[local] Arguments digits : simpl never.
#[local] Arguments digit : simpl never.
#[local] Arguments digit_value : simpl never.

Lemma read_digits_digits fuel n rest :
  0 <= n < 10 ^ Z.of_nat (S fuel) →
  read_digits 0 (digits (S fuel) n ++ rest) = read_digits n rest.
Proof.
  revert n rest. induction fuel as [|fuel IH]; intros n rest Hn; rewrite digits_S;
    (destruct (Z.ltb_spec n 10) as [Hlt|Hge];
      [cbn [app read_digits]; rewrite Z.mod_small by lia;
       rewrite digit_value_digit by lia; f_equal; lia|]).
  { change (10 ^ Z.of_nat 1) with 10 in Hn. lia. }
  rewrite <-app_assoc. cbn [app]. rewrite IH.
  - cbn [read_digits]. rewrite digit_value_digit by (apply Z.mod_pos_bound; lia).
    f_equal. pose proof (Z.div_mod n 10). lia.
  - split; [apply Z.div_pos; lia|]. apply Z.div_lt_upper_bound; [lia|].
    rewrite <-Z.pow_succ_r by lia.
    replace (Z.succ (Z.of_nat (S fuel))) with (Z.of_nat (S (S fuel))) by lia. apply Hn.
Qed.

Lemma digits_head fuel n :
  0 <= n → ∃ c l, digits (S fuel) n = c :: l ∧ is_Some (digit_value c).
Proof.
  assert (∀ n, 0 <= n → is_Some (digit_value (digit (n mod 10)))) as Hd.
  { intros m Hm. rewrite digit_value_digit by (apply Z.mod_pos_bound; lia). eauto. }
  revert n. induction fuel as [|fuel IH]; intros n Hn; rewrite digits_S.
  - unfold digits. destruct (n <? 10); simpl; eauto.
  - destruct (n <? 10); [simpl; eauto|].
    destruct (IH (n / 10)) as (c & l & -> & Hc); [apply Z.div_pos; lia|]. simpl. eauto.
Qed.

(** What may follow a number. *)
Definition ends (s : chars) : Prop :=
  match s with [] => True | c :: _ => digit_value c = None end.

Lemma read_digits_ends n s : ends s → read_digits n s = (n, s).
Proof. destruct s as [|c s]; [done|]. simpl. by intros ->. Qed.

Lemma read_nat_digits n rest :
  0 <= n < 2 ^ 64 → ends rest → read_nat (digits 20 n ++ rest) = Some (n, rest).
Proof.
  intros Hn Hr. assert (read_digits 0 (digits 20 n ++ rest) = (n, rest)) as Hd.
  { rewrite read_digits_digits; [by apply read_digits_ends|]. split; [lia|].
    transitivity (2 ^ 64); [lia|done]. }
  destruct (digits_head 19 n) as (c & l & Heq & Hc); [lia|]. unfold read_nat.
  rewrite Heq in *. cbn [app] in *. by rewrite bool_decide_eq_true_2, Hd.
Qed.

Lemma read_int_print z rest :
  - 2 ^ 63 <= z < 2 ^ 64 → ends rest → read_int (print_int z ++ rest) = Some (z, rest).
Proof.
  intros Hz Hr. unfold read_int, print_int. destruct (Z.ltb_spec z 0) as [Hneg|Hpos].
  - simpl. rewrite read_nat_digits by (done || lia). simpl. by rewrite Z.opp_involutive.
  - destruct (digits_head 19 z) as (c & l & Hd & Hc); [lia|].
    assert (strip ["-"%char] (digits 20 z ++ rest) = None) as ->.
    { rewrite Hd. apply strip_ne. intros <-. by destruct Hc. }
    apply read_nat_digits; [lia|done].
Qed.

(** ** Lists and structs *)

Definition more (l : list chars) : chars :=
  match l with [] => [] | _ => ","%char :: join l end.
Lemma join_cons s l : join (s :: l) = s ++ more l.
Proof. destruct l; simpl; [by rewrite app_nil_r|done]. Qed.
Lemma ends_more l c rest : digit_value c = None → ends (more l ++ c :: rest).
Proof. by destruct l. Qed.

Fixpoint print_fields (fs : list (string * Ty)) (vs : list Val) : list chars :=
  match fs, vs with
  | (name, t) :: fs, v :: vs => (quoted name ++ ":"%char :: print t v) :: print_fields fs vs
  | _, _ => []
  end.
Lemma print_struct fs vs :
  print (TStruct fs) (VStruct vs) = "{"%char :: join (print_fields fs vs) ++ ["}"%char].
Proof. reflexivity. Qed.

(** A value is read back whatever follows. *)
Definition reads (rd : Ty → chars → option (Val * chars)) (t : Ty) (v : Val) : Prop :=
  ∀ rest, ends rest → rd t (print t v ++ rest) = Some (v, rest).

Lemma length_join l : (length l <= S (length (join l)))%nat.
Proof.
  induction l as [|s l IH]; [simpl; lia|]. rewrite join_cons, length_app.
  destruct l; simpl in *; lia.
Qed.

Lemma read_items_print rd t vs n rest :
  Forall (reads rd t) vs → vs ≠ [] → (length vs <= n)%nat →
  read_items rd n t (join (map (print t) vs) ++ "]"%char :: rest) = Some (vs, rest).
Proof.
  revert n. induction vs as [|v vs IH]; intros n Hvs Hne Hn; [done|].
  apply Forall_cons in Hvs as [Hv Hvs]. destruct n as [|n]; [simpl in Hn; lia|].
  cbn [map]. rewrite join_cons, <-app_assoc. cbn [read_items].
  rewrite Hv by (by apply ends_more). cbn [mbind option_bind fst snd].
  destruct vs as [|v' vs]; [done|].
  change (more (map (print t) (v' :: vs))) with (","%char :: join (map (print t) (v' :: vs))).
  cbn [app strip]. rewrite Ascii.eqb_refl. rewrite IH; [done|done|done|simpl in *; lia].
Qed.

Lemma read_fields_print rd fs vs first rest :
  Forall2 (λ f v, reads rd f.2 v) fs vs →
  read_fields rd first fs ((if first then join (print_fields fs vs)
    else more (print_fields fs vs)) ++ "}"%char :: rest) = Some (vs, rest).
Proof.
  intros Hvs. revert first. induction Hvs as [|[name t] v fs vs Hv Hvs IH]; intros first;
    [by destruct first|].
  assert (read_fields rd true ((name, t) :: fs) (join (print_fields ((name, t) :: fs) (v :: vs)) ++
    "}"%char :: rest) = Some (v :: vs, rest)) as Htrue.
  { cbn [print_fields read_fields mbind option_bind]. rewrite join_cons.
    replace (((quoted name ++ ":"%char :: print t v) ++ more (print_fields fs vs)) ++
      "}"%char :: rest) with ((quoted name ++ [":"%char]) ++ print t v ++
      more (print_fields fs vs) ++ "}"%char :: rest) by (by rewrite <-!app_assoc).
    rewrite strip_app. cbn [mbind option_bind]. rewrite Hv by (by apply ends_more).
    cbn [mbind option_bind fst snd]. by rewrite (IH false). }
  destruct first; [done|].
  change (more (print_fields ((name, t) :: fs) (v :: vs))) with
    (","%char :: join (print_fields ((name, t) :: fs) (v :: vs))). done.
Qed.

(** Printed values start with none of the closing brackets. *)
Lemma print_head t v :
  has_type t v = true → ∃ c l, print t v = c :: l ∧ c ≠ "]"%char.
Proof.
  destruct t, v; try done; intros _; simpl; unfold print_int;
    try (case_match; [by do 2 eexists|]); try by do 2 eexists.
  destruct (digits_head 19 z) as (c & l & -> & Hc); [lia|]. do 2 eexists. split; [done|].
  intros ->. by destruct Hc.
Qed.

(** ** The laws *)

Lemma has_type_struct fs vs :
  has_type (TStruct fs) (VStruct vs) = true ↔ Forall2 (λ f v, has_type f.2 v = true) fs vs.
Proof.
  revert vs. induction fs as [|[name t] fs IH]; intros [|v vs]; split; intros H;
    try done; try by inversion H.
  - apply andb_true_iff in H as [Hv H]. constructor; [done|]. by apply IH.
  - inversion H as [|? ? ? ? Hv Hvs]; subst. apply andb_true_iff. split; [done|]. by apply IH.
Qed.

Lemma depth_field f fs n : (depth (TStruct fs) <= S n)%nat → f ∈ fs → (depth f.2 <= n)%nat.
Proof.
  simpl. intros Hn Hf. enough (depth f.2 <= foldr (λ f n, Nat.max (depth f.2) n) 0 fs)%nat by lia.
  clear Hn. induction fs as [|g fs IH]; [by apply not_elem_of_nil in Hf|].
  apply elem_of_cons in Hf as [->|Hf]; simpl; [lia|]. specialize (IH Hf). lia.
Qed.

Lemma read_print fuel t v :
  (depth t <= fuel)%nat → ty_ok t = true → has_type t v = true → plain_val v = true →
  reads (read fuel) t v.
Proof.
  revert t v. induction fuel as [|fuel IH]; intros t v Hf Hok Ht Hp rest Hr;
    [by destruct t; simpl in Hf; lia|].
  destruct t as [|lo hi| |t|fs], v as [s|z|s|vs|vs]; try done; cbn [read].
  - cbn [print]. by rewrite read_string_quoted.
  - cbn [print]. simpl in Ht, Hok. rewrite read_int_print by (done || lia).
    cbn [mbind option_bind fst snd]. by rewrite Ht.
  - cbn [print]. by rewrite read_string_quoted.
  - cbn [print]. cbn [app]. rewrite strip_one. cbn [mbind option_bind].
    rewrite <-app_assoc. cbn [app]. simpl in Ht, Hp, Hok. destruct vs as [|v vs]; [done|].
    assert (Forall (reads (read fuel) t) (v :: vs)) as Hall.
    { apply Forall_forall. intros w Hw%list_elem_of_In. rewrite !forallb_forall in *.
      apply IH; simpl in Hf; [lia|done|by apply Ht|by apply Hp]. }
    destruct (print_head t v) as (c & l & Hc & Hne).
    { simpl in Ht. by apply andb_true_iff in Ht as [? _]. }
    assert (strip ["]"%char] (join (map (print t) (v :: vs)) ++ "]"%char :: rest) = None) as ->.
    { cbn [map]. rewrite join_cons, Hc. apply strip_ne. congruence. }
    rewrite read_items_print; [done|done|done|]. rewrite length_app.
    pose proof (length_join (map (print t) (v :: vs))) as Hl. rewrite length_map in Hl. simpl in *. lia.
  - rewrite print_struct. cbn [app]. rewrite strip_one. cbn [mbind option_bind].
    rewrite <-app_assoc. cbn [app]. rewrite (read_fields_print _ fs vs true); [done|].
    apply has_type_struct in Ht. cbn [plain_val ty_ok] in Hp, Hok.
    apply Forall2_same_length_lookup. split; [by eapply Forall2_length|].
    intros k f w Hfk Hwk. rewrite forallb_forall in Hp, Hok.
    assert (f ∈ fs) as Hin by (by eapply list_elem_of_lookup_2).
    apply IH.
    + by eapply depth_field.
    + by specialize (Hok f (proj1 (list_elem_of_In _ _) Hin)) as [_ ?]%andb_true_iff.
    + eapply Forall2_lookup_lr in Ht; [exact Ht|done|done].
    + apply Hp, list_elem_of_In. by eapply list_elem_of_lookup_2.
Qed.

Lemma read_items_typed rd t n s vs rest :
  (∀ s v rest, rd t s = Some (v, rest) → has_type t v = true) →
  read_items rd n t s = Some (vs, rest) → forallb (has_type t) vs = true.
Proof.
  intros Hrd. revert s vs. induction n as [|n IH]; intros s vs; [done|]. cbn [read_items].
  destruct (rd t s) as [[v s1]|] eqn:Hv; [|done]. cbn [mbind option_bind fst snd].
  destruct (strip [","%char] s1) as [s2|].
  - destruct (read_items rd n t s2) as [[vs' s3]|] eqn:Hvs; [|done]. intros [= <- <-]. simpl.
    by rewrite (Hrd _ _ _ Hv), (IH _ _ Hvs).
  - destruct (strip _ s1); [|done]. intros [= <- _]. simpl. by rewrite (Hrd _ _ _ Hv).
Qed.

Lemma read_fields_typed rd fs first s vs rest :
  (∀ t s v rest, rd t s = Some (v, rest) → has_type t v = true) →
  read_fields rd first fs s = Some (vs, rest) → Forall2 (λ f v, has_type f.2 v = true) fs vs.
Proof.
  intros Hrd. revert first s vs. induction fs as [|[name t] fs IH]; intros first s vs;
    cbn [read_fields].
  - destruct (strip _ s); [|done]. intros [= <- _]. constructor.
  - destruct (if first then _ else _) as [s1|]; [|done]. cbn [mbind option_bind].
    destruct (strip _ s1) as [s2|]; [|done]. cbn [mbind option_bind].
    destruct (rd t s2) as [[v s3]|] eqn:Hv; [|done]. cbn [mbind option_bind fst snd].
    destruct (read_fields rd false fs s3) as [[vs' s4]|] eqn:Hvs; [|done].
    intros [= <- <-]. constructor; [by eapply Hrd|by eapply IH].
Qed.

Lemma read_typed fuel t s v rest : read fuel t s = Some (v, rest) → has_type t v = true.
Proof.
  revert t s v rest. induction fuel as [|fuel IH]; intros t s v rest; [done|].
  destruct t as [|lo hi| |t|fs]; cbn [read].
  - destruct (read_string s); [|done]. by intros [= <- _].
  - destruct (read_int s) as [[z s1]|]; [|done]. cbn [mbind option_bind fst snd].
    case_match eqn:Hz; [|done]. by intros [= <- _].
  - destruct (read_string s); [|done]. by intros [= <- _].
  - destruct (strip _ s) as [s1|]; [|done]. cbn [mbind option_bind].
    destruct (strip _ s1); [by intros [= <- _]|].
    destruct (read_items _ _ _ _) as [[vs s3]|] eqn:Hvs; [|done]. intros [= <- _]. simpl.
    eapply read_items_typed; [|done]. intros. by eapply IH.
  - destruct (strip _ s) as [s1|]; [|done]. cbn [mbind option_bind].
    destruct (read_fields _ _ _ _) as [[vs s3]|] eqn:Hvs; [|done]. intros [= <- _].
    apply has_type_struct. by eapply read_fields_typed.
Qed.

Lemma space_ends space : forallb is_space space = true → ends space.
Proof.
  destruct space as [|c l]; [done|]. simpl. intros [Hc _]%andb_true_iff.
  unfold is_space in Hc. apply existsb_exists in Hc as (n & Hn & ->%Nat.eqb_eq%eq_sym).
  rewrite <-(ascii_nat_embedding c).
  by repeat destruct Hn as [<-|Hn]; [..|destruct Hn].
Qed.

Lemma json_ok : SerdeJsonOk json.
Proof.
  split.
  - intros t s v. simpl. destruct (read _ _ _) as [[w rest]|] eqn:Hr; [|done].
    case_match; [|done]. intros [= <-]. by eapply read_typed.
  - intros []; done.
  - intros t v space Hok Ht Hp Hs. simpl. unfold json_text.
    rewrite String.list_ascii_of_string_of_list_ascii.
    rewrite (read_print (depth t) t v); [by rewrite Hs|done..|by apply space_ends].
Qed.
End JsonFixture.
