(* ===== verification/Simulation.v ===== *)
(** * Host and guest compute the same

    The host preflights every strategy call before proving, so that the guest
    can repeat it on the recorded state.  [replays] is what Steel promises of
    the guest's view: every recorded call is answered as the node answered it.
    [simulates m o] says that a host computation [m] only extends the record
    and that, on any view that replays the final record, the guest computation
    [o] returns the same value.  It is closed under the ways the programs
    compose computations. *)

From stdpp Require Import base gmap list strings.
From Stdlib Require Import ZArith Lia Strings.Byte.
From S2P Require Import Prelude Machine Ethereum GuestVoting GuestDelegation GuestExecution.
From S2P Require Import GuestContext GuestIO HostStrategies Fixtures.
#[local] Open Scope Z_scope.

(** The guest's view answers the recorded calls as the host's did. *)
Definition replays (genv : GuestEvmEnv) (henv : HostEvmEnv) (log : list access) : Prop :=
  Forall (λ a : access, genv_view genv a.1 a.2 = henv_view henv a.1 a.2) log.

Lemma replays_app genv henv l k :
  replays genv henv (l ++ k) ↔ replays genv henv l ∧ replays genv henv k.
Proof. apply Forall_app. Qed.

Definition simulates (genv : GuestEvmEnv) (henv : HostEvmEnv) {A} (m : host A) (o : outcome A) :
    Prop :=
  ∀ log a log', m log = (Ret a, log') →
    (∃ ext, log' = log ++ ext) ∧ (replays genv henv log' → o = Ret a).

Create HintDb sim.

Section Simulation.
Context (genv : GuestEvmEnv) (henv : HostEvmEnv).
Abbreviation sim := (simulates genv henv).

Lemma sim_lift {A} (o : outcome A) : sim (lift o) o.
Proof. intros log a log' [= Ho ->]. split; [|done]. exists []. by rewrite app_nil_r. Qed.

Lemma sim_ret {A} (a : A) : sim (mret a) (Ret a).
Proof. apply (sim_lift (Ret a)). Qed.

Lemma sim_panic {A} p (o : outcome A) : sim (lift (Panics p)) o.
Proof. intros log a log'. done. Qed.

Lemma sim_bind {A B} (m : host A) (o : outcome A) (f : A → host B) (g : A → outcome B) :
  sim m o → (∀ a, sim (f a) (g a)) → sim (m ≫= f) (o ≫= g).
Proof.
  intros Hm Hf log b log'. unfold mbind, host_bind, stateful_bind.
  destruct (m log) as [[a|p] log1] eqn:E; [|done]. intros Hb.
  destruct (Hm _ _ _ E) as [[ext1 ->] Ho]. destruct (Hf a _ _ _ Hb) as [[ext2 ->] Hg].
  split; [exists (ext1 ++ ext2); by rewrite app_assoc|]. intros Hrep.
  rewrite Ho; [by apply Hg|]. by apply replays_app in Hrep as [? _].
Qed.

(** A check the host makes and the guest does not. *)
Lemma sim_guard {A B} (x : outcome A) (m : host B) (o : outcome B) :
  sim m o → sim (_ ← lift x; m) o.
Proof.
  intros Hm log b log'. unfold mbind, host_bind, stateful_bind, lift.
  destruct x; [apply Hm|done].
Qed.

Lemma sim_preflight addr c : sim (preflight_unwrap henv addr c) (guest_call genv addr c).
Proof.
  intros log r log'. unfold preflight_unwrap, mbind, host_bind, stateful_bind, preflight, lift.
  destruct (henv_view henv addr c) as [x|] eqn:E; [|done]. simpl. intros [= -> <-].
  split; [by eexists|]. intros [_ Hrep]%replays_app. apply Forall_inv in Hrep. simpl in Hrep.
  unfold guest_call. by rewrite Hrep, E.
Qed.

Lemma sim_mapM {A B} (f : A → host B) (g : A → outcome B) (l : list A) :
  (∀ a, a ∈ l → sim (f a) (g a)) → sim (mapM f l) (mapM g l).
Proof.
  induction l as [|a l IH]; intros Hf; [apply sim_ret|]. simpl.
  apply sim_bind; [apply Hf; left|]. intros b. apply sim_bind; [|intros; apply sim_ret].
  apply IH. intros; apply Hf; by right.
Qed.

Lemma sim_foldM {A B} (f : B → A → host B) (g : B → A → outcome B) acc (l : list A) :
  (∀ b a, a ∈ l → sim (f b a) (g b a)) → sim (foldM f acc l) (foldM g acc l).
Proof.
  revert acc. induction l as [|a l IH]; intros acc Hf; [apply sim_ret|]. simpl.
  apply sim_bind; [apply Hf; left|]. intros b. apply IH. intros; apply Hf; by right.
Qed.

Lemma sim_ext {A} (m : host A) (o o' : outcome A) : o = o' → sim m o → sim m o'.
Proof. by intros ->. Qed.
End Simulation.
#[export] Hint Resolve sim_lift sim_ret sim_panic sim_preflight : sim.

(** ** Strategies *)

Section Strategies.
Context {alloy : AlloyText} (genv : GuestEvmEnv) (henv : HostEvmEnv).
Abbreviation sim := (simulates genv henv).

Lemma sim_process_delegate asset pd account :
  sim (process_delegate henv (do_contract (asset_delegation asset))
         (address_to_string (asset_contract asset)) pd account)
      (potential_delegate_delegation genv account asset pd).
Proof.
  unfold process_delegate, potential_delegate_delegation.
  apply sim_bind; [apply (sim_preflight genv henv _ (CallRegistry _))|].
  intros r. apply sim_guard.
  destruct (is_empty _); [apply sim_ret|]. fold (total_ratios (gdr_delegations r)).
  change (λ d, host_compare_bytes32_to_address (reg_delegate d) account)
    with (λ d, compare_bytes32_to_address (reg_delegate d) account).
  destruct (List.find _ _); [|apply sim_ret].
  apply sim_bind; [apply sim_lift|]. intros q. apply sim_ret.
Qed.

Lemma sim_split_delegation account asset data :
  sim (host_split_delegation_process henv account asset data)
      (split_delegation_process genv account asset data).
Proof.
  unfold host_split_delegation_process, split_delegation_process.
  case_decide; [apply sim_ret|]. apply sim_bind; [apply sim_lift|]. intros addrs.
  apply sim_bind; [apply sim_mapM; intros; apply sim_process_delegate|]. intros os.
  destruct (existsb _ _); [apply sim_ret|]. apply sim_bind; [apply sim_lift|]. intros ds.
  apply sim_ret.
Qed.

Lemma sim_delegation_strategy account asset data :
  sim (host_process_delegation_strategy (host_context_default henv) account asset data)
      (process_delegation_strategy (context_default genv) account asset data).
Proof.
  rewrite default_delegation. simpl. unfold host_process_delegation_strategy. simpl.
  rewrite lookup_insert, lookup_empty. repeat case_decide; try congruence; subst.
  - apply sim_split_delegation.
  - apply sim_panic.
Qed.

(** The votes strategy agrees only when both sides ask for the same block. *)
Lemma sim_voting_power name account asset :
  name ≠ "GetPastVotes" ∨ henv_parent_number henv = genv_number genv →
  sim (process_voting_power_strategy (host_context_default henv) name account asset)
      (process_voting_strategy (context_default genv) name account asset).
Proof.
  intros Hn. rewrite default_voting. unfold process_voting_power_strategy. simpl.
  rewrite !lookup_insert, lookup_empty. repeat case_decide; subst; try done.
  - destruct Hn as [Hn|Hn]; [done|]. unfold get_past_votes_process. rewrite <-Hn.
    apply (sim_preflight genv henv _ (CallVotes _)).
  - apply (sim_preflight genv henv _ (CallERC20 _)).
Qed.
End Strategies.

(** ** Computations that may return an error

    The guest has no counterpart of the host's early returns: a host
    computation that returns [Ok a] is simulated by a guest computation that
    returns [a]; one that returns an error asks nothing of the guest. *)

Definition simulates_ok (genv : GuestEvmEnv) (henv : HostEvmEnv) {A} (m : host (result A))
    (o : outcome A) : Prop :=
  ∀ log a log', m log = (Ret (Ok a), log') →
    (∃ ext, log' = log ++ ext) ∧ (replays genv henv log' → o = Ret a).

Section SimulationOk.
Context (genv : GuestEvmEnv) (henv : HostEvmEnv).
Abbreviation sim := (simulates genv henv).
Abbreviation sim_ok := (simulates_ok genv henv).

Lemma sim_ok_ret {A} (a : A) : sim_ok (mret (Ok a)) (Ret a).
Proof. intros log b log' [= <- <-]. split; [|done]. exists []. by rewrite app_nil_r. Qed.

Lemma sim_ok_err {A} e (o : outcome A) : sim_ok (mret (Err e)) o.
Proof. intros log b log'. done. Qed.

Lemma sim_ok_panic {A} p (o : outcome A) : sim_ok (lift (Panics p)) o.
Proof. intros log b log'. done. Qed.

Lemma sim_ok_bind {A B} (m : host A) (o : outcome A) (f : A → host (result B))
    (g : A → outcome B) :
  sim m o → (∀ a, sim_ok (f a) (g a)) → sim_ok (m ≫= f) (o ≫= g).
Proof.
  intros Hm Hf log b log'. unfold mbind, host_bind, stateful_bind.
  destruct (m log) as [[a|p] log1] eqn:E; [|done]. intros Hb.
  destruct (Hm _ _ _ E) as [[ext1 ->] Ho]. destruct (Hf a _ _ _ Hb) as [[ext2 ->] Hg].
  split; [exists (ext1 ++ ext2); by rewrite app_assoc|]. intros Hrep.
  rewrite Ho; [by apply Hg|]. by apply replays_app in Hrep as [? _].
Qed.

Lemma sim_ok_Ok {A} (m : host A) (o : outcome A) : sim m o → sim_ok (x ← m; mret (Ok x)) o.
Proof.
  intros Hm. assert (o = (o ≫= Ret)) as -> by (by destruct o).
  apply sim_ok_bind; [done|apply sim_ok_ret].
Qed.

Lemma sim_ok_try {A B} (m : host (result A)) (o : outcome A) (f : A → host (result B))
    (g : A → outcome B) :
  sim_ok m o → (∀ a, sim_ok (f a) (g a)) → sim_ok (a <-? m; f a) (o ≫= g).
Proof.
  intros Hm Hf log b log'. unfold mbind, host_bind, stateful_bind.
  destruct (m log) as [[[a|e]|p] log1] eqn:E; [|done..]. simpl. intros Hb.
  destruct (Hm _ _ _ E) as [[ext1 ->] Ho]. destruct (Hf a _ _ _ Hb) as [[ext2 ->] Hg].
  split; [exists (ext1 ++ ext2); by rewrite app_assoc|]. intros Hrep.
  rewrite Ho; [by apply Hg|]. by apply replays_app in Hrep as [? _].
Qed.
End SimulationOk.

(** ** Supplies and execution *)

Section Execution.
Context {alloy : AlloyText} (genv : GuestEvmEnv) (henv : HostEvmEnv).

(** The host's copy of the majority rule is the guest's. *)
Lemma host_majority_eq supply t :
  host_majority_proof_execution henv supply t = majority_proof_execution genv supply t.
Proof. done. Qed.

Lemma sim_total_supply asset :
  asset_voting_power_strategy asset ≠ "GetPastVotes" ∨
    henv_parent_number henv = genv_number genv →
  simulates_ok genv henv (host_process_total_supply (host_context_default henv) asset)
    (process_total_supply (context_default genv) asset).
Proof.
  intros Hn. rewrite default_supply. unfold host_process_total_supply. simpl.
  rewrite !lookup_insert, lookup_empty. repeat case_decide; subst; try done.
  - destruct Hn as [Hn|Hn]; [done|]. unfold get_past_votes_get_supply. rewrite <-Hn.
    apply (sim_ok_Ok genv henv (A:=U256)), (sim_preflight genv henv _ (CallVotes _)).
  - apply (sim_ok_Ok genv henv (A:=U256)), (sim_preflight genv henv _ (CallERC20 _)).
Qed.

Lemma sim_execution_strategy name supply t :
  simulates_ok genv henv
    (host_process_execution_strategy (host_context_default henv) name supply t)
    (process_execution_strategy (context_default genv) name supply t).
Proof.
  rewrite default_execution. unfold host_process_execution_strategy. simpl.
  rewrite lookup_insert, lookup_empty. repeat case_decide; subst; try done.
  rewrite <-host_majority_eq. apply sim_ok_ret.
Qed.
End Execution.

(** ** The host's [SplitDelegation] on every input

    What it accepts: the guest's accounts, less those that have delegated to
    nobody, on which it panics. *)

Section HostSplit.
Context {alloy : AlloyText} (henv : HostEvmEnv).

(** A guest that sees what the host sees. *)
Definition guest_of : GuestEvmEnv := {|
  genv_view := henv_view henv;
  genv_number := henv_number henv;
  genv_commitment := mk_commitment 0 (fixed_repeat 32 x00) (fixed_repeat 32 x00)
|}.

(** The call recorded for one potential delegate. *)
Definition registry_access (asset : Asset) (pd : Address) : access :=
  (do_contract (asset_delegation asset),
   CallRegistry {| gd_context := address_to_string (asset_contract asset); gd_account := pd |}).

Definition has_delegated (v : EvmView) (asset : Asset) (pd : Address) : Prop :=
  ∃ r, registry_of v asset pd = Some r ∧ gdr_delegations r ≠ [].

Lemma process_delegate_Ret asset pd account o log log' :
  process_delegate henv (do_contract (asset_delegation asset))
    (address_to_string (asset_contract asset)) pd account log = (Ret o, log') ↔
  has_delegated (henv_view henv) asset pd ∧
  potential_delegate_delegation guest_of account asset pd = Ret o ∧
  log' = log ++ [registry_access asset pd].
Proof.
  unfold process_delegate, potential_delegate_delegation, has_delegated, registry_of, guest_call,
    preflight_unwrap, preflight, mbind, host_bind, stateful_bind, lift, registry_access. simpl.
  destruct (henv_view henv _ _) as [r|]; simpl; [|naive_solver].
  destruct (gdr_delegations r) as [|d ds] eqn:Hr; simpl.
  { split; [done|]. intros ((? & [= <-] & ?) & _). congruence. }
  assert (∃ r', Some r = Some r' ∧ gdr_delegations r' ≠ []) by (exists r; by rewrite Hr).
  change (host_compare_bytes32_to_address (reg_delegate d) account)
    with (compare_bytes32_to_address (reg_delegate d) account).
  change (λ d, host_compare_bytes32_to_address (reg_delegate d) account)
    with (λ d, compare_bytes32_to_address (reg_delegate d) account).
  unfold total_ratios. simpl.
  destruct (if compare_bytes32_to_address _ _ then _ else _) as [e|];
    [destruct (u256_div _ _)|]; simpl; (split; [intros [= <- <-]|intros (_ & Ho & ->)]);
    try done; by injection Ho as <-.
Qed.

Lemma process_delegate_empty asset pd r account log :
  registry_of (henv_view henv) asset pd = Some r → gdr_delegations r = [] →
  process_delegate henv (do_contract (asset_delegation asset))
    (address_to_string (asset_contract asset)) pd account log =
  (Panics IndexOutOfBounds, log ++ [registry_access asset pd]).
Proof.
  unfold registry_of, process_delegate, preflight_unwrap, preflight, mbind, host_bind,
    stateful_bind, lift. intros -> Hr. simpl. by rewrite Hr.
Qed.

Lemma mapM_process_delegate_Ret asset account pds os log log' :
  mapM (λ pd, process_delegate henv (do_contract (asset_delegation asset))
          (address_to_string (asset_contract asset)) pd account) pds log = (Ret os, log') ↔
  Forall (has_delegated (henv_view henv) asset) pds ∧
  mapM (potential_delegate_delegation guest_of account asset) pds = Ret os ∧
  log' = log ++ (registry_access asset <$> pds).
Proof.
  revert os log log'. induction pds as [|pd pds IH]; intros os log log'.
  - simpl. rewrite app_nil_r. split.
    + intros [= <- <-]. by split; [constructor|].
    + by intros (_ & [= <-] & ->).
  - rewrite Forall_cons, fmap_cons, cons_middle, app_assoc. split.
    + intros (o & log1 & (Hd & Ho & ->)%process_delegate_Ret & Hrest)%bind_stateful_inv.
      apply bind_stateful_inv in Hrest as (os1 & log2 & (Hds & Hos & ->)%IH & [= <- <-]).
      split_and!; [done..| |done]. cbn [mapM]. rewrite Ho. simpl. by rewrite Hos.
    + intros ([Hd Hds] & Hm & ->). cbn [mapM] in Hm.
      apply bind_Ret_inv in Hm as (o & Ho & Hm).
      apply bind_Ret_inv in Hm as (os1 & Hos & [= <-]).
      apply bind_stateful_inv. exists o, (log ++ [registry_access asset pd]).
      rewrite process_delegate_Ret. split; [done|].
      apply bind_stateful_inv. exists os1. eexists. by rewrite IH.
Qed.
End HostSplit.

(** ** Properties *)

(** The host's [SplitDelegation] accepts exactly the data that is a list
    of accounts which all have delegated and all let the voter claim a share;
    it then returns those shares and has recorded one registry call per
    account, in order. *)
Theorem host_split_delegation_accepts {alloy : AlloyText} henv account asset data ds log log' :
  host_split_delegation_process henv account asset data log = (Ret (Ok ds), log') ↔
  ∃ addrs, data = concat (fb_bytes <$> addrs) ∧
    Forall2 (delegates_to (henv_view henv) account asset) addrs ds ∧
    Forall (has_delegated (henv_view henv) asset) addrs ∧
    log' = log ++ (registry_access asset <$> addrs).
Proof.
  split.
  - unfold host_split_delegation_process. case_decide as Hlen; [done|].
    destruct (chunks_addresses data) as (addrs & Ha & ->); [lia|]. rewrite Ha.
    intros (? & ? & [= <- <-] & Hr)%bind_stateful_inv.
    apply bind_stateful_inv in Hr as (os & ? & (Hd & Hos & ->)%mapM_process_delegate_Ret & Hr).
    exists addrs. destruct (existsb is_none os) eqn:Hn; [done|].
    unfold mbind, host_bind, stateful_bind, lift in Hr.
    destruct (mapM unwrap os) as [ds'|] eqn:Hu; [|done]. injection Hr as -> <-.
    split_and!; [done| |done..]. apply mapM_unwrap_inv in Hu as ->.
    apply mapM_Ret in Hos. apply Forall2_fmap_r in Hos.
    eapply Forall2_impl; [exact Hos|]. intros pd d. apply (potential_delegate_Some (guest_of henv)).
  - intros (addrs & -> & Hall & Hd & ->). unfold host_split_delegation_process.
    rewrite decide_False by (intros Hn; apply Hn, length_addresses). rewrite addresses_chunks.
    apply bind_stateful_inv. exists addrs, log. split; [done|].
    apply bind_stateful_inv. exists (Some <$> ds). eexists.
    rewrite mapM_process_delegate_Ret. split_and!; [done| |done|].
    + apply mapM_Ret, Forall2_fmap_r. eapply Forall2_impl; [exact Hall|].
      intros pd d. apply (potential_delegate_Some (guest_of henv)).
    + rewrite (proj2 (mapM_unwrap_Ret _)) by (eexists; apply mapM_unwrap_fmap).
      by rewrite mapM_unwrap_fmap.
Qed.

(** The host on one account that has delegated to nobody. *)
Lemma host_split_undelegated {alloy : AlloyText} henv account asset (pd : Address) r log :
  registry_of (henv_view henv) asset pd = Some r → gdr_delegations r = [] →
  host_split_delegation_process henv account asset (fb_bytes pd) log =
    (Panics IndexOutOfBounds, log ++ [registry_access asset pd]).
Proof.
  intros Hh Hr. assert (fb_bytes pd = concat (fb_bytes <$> [pd])) as ->
    by (rewrite fmap_cons, concat_cons; by rewrite app_nil_r).
  unfold host_split_delegation_process.
  rewrite decide_False by (intros Hn; apply Hn, length_addresses). rewrite addresses_chunks.
  unfold mapM, mbind, host_bind, stateful_bind, lift.
  by rewrite (process_delegate_empty _ _ _ r).
Qed.

(** An account that has delegated to nobody is accepted by the guest with
    ratio 1, but makes the host panic when it prints the first entry: the
    publisher cannot preflight a vote with undelegated power. *)
Theorem host_undelegated_panics {alloy : AlloyText} genv henv account asset pd r log :
  registry_of (henv_view henv) asset pd = Some r → gdr_delegations r = [] →
  registry_of (genv_view genv) asset pd = Some r →
  host_split_delegation_process henv account asset (fb_bytes pd) log =
    (Panics IndexOutOfBounds, log ++ [registry_access asset pd]) ∧
  split_delegation_process genv account asset (fb_bytes pd) =
    Ret (Ok [{| delegate := pd; ratio := 1 |}]).
Proof.
  intros Hh Hr Hg. split; [by eapply host_split_undelegated|].
  apply split_delegation_single. by eapply delegates_none.
Qed.

(** Carol has delegated to nobody. *)
Lemma host_undelegated_panics_witness :
  let henv := mk_henv Fixture.view 7 6 in
  (@host_split_delegation_process Fixture.alloy henv Fixture.carol Fixture.asset
     (fb_bytes Fixture.carol) []).1 = Panics IndexOutOfBounds ∧
  @split_delegation_process Fixture.alloy Fixture.genv Fixture.carol Fixture.asset
    (fb_bytes Fixture.carol) = Ret (Ok [mk_delegation Fixture.carol 1]).
Proof.
  intros henv.
  destruct (@host_undelegated_panics Fixture.alloy Fixture.genv henv Fixture.carol Fixture.asset
    Fixture.carol (mk_gdr [] 0) []) as [-> ->]; [reflexivity..|]. by split.
Defined.
