(* ===== verification/Publisher.v ===== *)
(** * The publisher programs (crate [apps], [bin/publisher.rs] and [bin/execution_publisher.rs])

    A publisher preflights what the guest will compute, proves the guest, and
    sends the journal and the seal to the plugin contract.  The node, the
    prover and the JSON and ABI decoders are interfaces; the state of a run is
    the preflight record and the transactions sent. *)

From stdpp Require Import base gmap list strings.
From Stdlib Require Import ZArith Lia Strings.Byte.
From S2P Require Import Prelude Machine Ethereum GuestDelegation GuestExecution GuestContext.
From S2P Require Import GuestIO VotingGuest ExecutionGuest Seal HostStrategies.
#[local] Open Scope Z_scope.

(** [VOTING_PROTOCOL_ELF], [EXECUTION_PROTOCOL_ELF] *)
Inductive Elf : Type := VOTING_PROTOCOL_ELF | EXECUTION_PROTOCOL_ELF.

(** The two functions of [IMajorityVoting] that the publishers call. *)
Inductive PluginCall : Type :=
| call_vote (journal seal : list byte)
| call_execute (journal seal : list byte).
Record Transaction : Type := mk_tx { tx_to : Address; tx_call : PluginCall }.

Class HostNode {steel : Steel} : Type := {
  url_from_str : string → option string;
  (* [EthEvmEnv::builder().rpc(url).block_number(n).build().await] with the Sepolia spec *)
  build_env : string → Z → result HostEvmEnv;
  (* [env.into_input().await] on the recorded accesses *)
  into_input : HostEvmEnv → list access → result EvmInput;
  (* [default_prover().prove_with_ctx(..)] in a blocking task *)
  prove : Elf → list Z → result Receipt;
  (* [serde_json::from_str::<apps::RiscVotingProtocolConfig>] *)
  host_config_from_str : string → option HostConfig;
  (* [VotingJournal::abi_decode(.., true)] *)
  voting_journal_abi_decode : list byte → option VotingJournal;
  (* [call_builder.send().await] and [pending_tx.get_receipt().await]: the status *)
  send_transaction : Transaction → result string;
  get_receipt : string → result bool
}.

Record World : Type := mk_world { w_log : list access; w_sent : list Transaction }.

(** Run a preflight computation on the record of the world. *)
Definition on_log {A} (m : host A) : stateful World A := λ w,
  let '(o, log) := m (w_log w) in (o, {| w_log := log; w_sent := w_sent w |}).

Definition send {steel : Steel} {node : HostNode} (tx : Transaction) :
    stateful World (result string) := λ w,
  (Ret (send_transaction tx), {| w_log := w_log w; w_sent := w_sent w ++ [tx] |}).

(** [.context(msg)?] on a result, and on an option-like decoder. *)
Definition context {A} (msg : string) (r : result A) : result A :=
  match r with Ok a => Ok a | Err _ => Err msg end.
Definition context_opt {A} (msg : string) (o : option A) : result A :=
  match o with Some a => Ok a | None => Err msg end.

(** ** [publisher] *)

(** [struct Args] *)
Record Args : Type := mk_args {
  arg_chain_id : Z;
  arg_eth_wallet_private_key : string;
  arg_rpc_url : string;
  arg_block_number : option Z;
  arg_voter_signature : string;
  arg_voter : Address;
  arg_dao_address : Address;
  arg_proposal_id : U256;
  arg_direction : Z;
  arg_balance : U256;
  arg_config_contract : Address;
  arg_token : Address;
  arg_additional_delegation_data : string;
  arg_testing : Z
}.

Section Publisher.
Context {alloy : AlloyText} {steel : Steel} {serde : ZkvmSerde} {node : HostNode}.

(** Lines 175 to 186: the power claimed in one asset. *)
Definition host_delegations_power (ctx : HostContext) (asset : HostAsset)
    (delegations : list HostDelegation) : host U256 :=
  foldM (M:=host) (λ asset_voting_power delegation,
      voting_power ← process_voting_power_strategy ctx (asset_voting_power_strategy asset)
                       (delegate delegation) asset;
      q ← lift (u256_div voting_power (ratio delegation));
      mret (u256_add asset_voting_power q)) 0 delegations.

(** Lines 159 to 187: one turn of the loop over the assets. *)
Definition host_asset_voting_power (ctx : HostContext) (voter : Address)
    (additional_data : string) (total : U256) (asset : HostAsset) : host U256 :=
  data ← lift (unwrap (bytes_from_str additional_data));
  delegations_result ← host_process_delegation_strategy ctx voter asset data;
  _ ← lift (rassert (negb (is_err delegations_result)));
  delegations ← lift (unwrap_result delegations_result);
  asset_voting_power ← host_delegations_power ctx asset delegations;
  mret (u256_add total asset_voting_power).

(** Lines 155 to 188. *)
Definition host_total_voting_power (ctx : HostContext) (voter : Address)
    (additional_data : string) (assets : list HostAsset) : host U256 :=
  foldM (M:=host) (host_asset_voting_power ctx voter additional_data) 0 assets.

(** Lines 200 to 210: what is written to the guest. *)
Definition publisher_stdin (args : Args) (input : EvmInput) : list Z :=
  ser SerEvmInput input ++
  ser SerString (arg_voter_signature args) ++
  ser SerAddress (arg_voter args) ++
  ser SerAddress (arg_dao_address args) ++
  ser SerU256 (arg_proposal_id args) ++
  ser SerU8 (arg_direction args) ++
  ser SerU256 (arg_balance args) ++
  ser SerAddress (arg_config_contract args) ++
  ser SerString (arg_additional_delegation_data args).

(** Lines 121 to 151: the environment and the configuration. *)
Definition publisher_setup (rpc_url : string) (block_number : option Z)
    (config_contract : Address) (proposal_id : U256) :
    stateful World (result (HostEvmEnv * HostConfig)) :=
  _ ← lift (unwrap (url_from_str rpc_url));
  url ← lift (unwrap (url_from_str rpc_url));
  number ← lift (unwrap block_number);
  env <-? lift (Ret (build_env url number));
  config_returns <-? on_log (preflight env config_contract
    (CallConfig {| cc_proposal_id := proposal_id |}));
  config ← lift (unwrap (host_config_from_str config_returns));
  mret (Ok (env, config)).

(** Lines 198 to 253: prove the guest and send the transaction. *)
Definition publisher_publish (elf : Elf) (stdin : EvmInput → list Z) (env : HostEvmEnv)
    (contract : Address) (call : list byte → list byte → PluginCall) :
    stateful World (result unit) := λ w,
  (view_call_input <-? lift (Ret (into_input env (w_log w)));
   receipt <-? lift (Ret (context "failed to create proof" (prove elf (stdin view_call_input))));
   _ <-? lift (Ret (context_opt "invalid journal"
           (voting_journal_abi_decode (receipt_journal receipt))));
   sealed ← lift (encode_seal receipt);
   seal <-? lift (Ret (context "invalid receipt" sealed));
   tx_hash <-? send {| tx_to := contract; tx_call := call (receipt_journal receipt) seal |};
   status <-? lift (Ret (context ("transaction did not confirm: " +:+ tx_hash)%string
                           (get_receipt tx_hash)));
   mret (if status : bool then Ok tt else Err ("transaction failed: " +:+ tx_hash)%string)) w.

Definition publisher_main (args : Args) : stateful World (result unit) :=
  ec <-? publisher_setup (arg_rpc_url args) (arg_block_number args)
          (arg_config_contract args) (arg_proposal_id args);
  let '(env, config) := ec in
  total_voting_power ← on_log (host_total_voting_power (host_context_default env)
    (arg_voter args) (arg_additional_delegation_data args) (cfg_assets config));
  _ ← lift (rassert (total_voting_power =? arg_balance args));
  if arg_testing args =? 1 then mret (Ok tt)
  else publisher_publish VOTING_PROTOCOL_ELF (publisher_stdin args) env
         (arg_config_contract args) call_vote.
End Publisher.

(** ** [execution_publisher] *)

(** [struct Args] *)
Record ExecutionArgs : Type := mk_execution_args {
  earg_chain_id : Z;
  earg_eth_wallet_private_key : string;
  earg_rpc_url : string;
  earg_block_number : option Z;
  earg_dao_address : Address;
  earg_proposal_id : U256;
  earg_config_contract : Address;
  earg_tally : list U256;
  earg_testing : Z
}.

Section ExecutionPublisher.
Context {alloy : AlloyText} {steel : Steel} {serde : ZkvmSerde} {node : HostNode}.

(** Lines 136 to 144: the loop over the assets. *)
Fixpoint host_total_supply (ctx : HostContext) (total : U256) (assets : list HostAsset) :
    host (result U256) :=
  match assets with
  | [] => mret (Ok total)
  | asset :: assets =>
      voting_power <-? host_process_total_supply ctx asset;
      host_total_supply ctx (u256_add total voting_power) assets
  end.

(** Lines 161 to 167: what is written to the guest. *)
Definition execution_publisher_stdin (args : ExecutionArgs) (tally : array3) (input : EvmInput) :
    list Z :=
  ser SerEvmInput input ++
  ser SerAddress (earg_dao_address args) ++
  ser SerU256 (earg_proposal_id args) ++
  ser SerAddress (earg_config_contract args) ++
  ser SerTally tally.

Definition execution_publisher_main (args : ExecutionArgs) : stateful World (result unit) :=
  tally ← lift (expect "Expected tally input to be an array of 3"
                  (array3_try_from (earg_tally args)));
  ec <-? publisher_setup (earg_rpc_url args) (earg_block_number args)
          (earg_config_contract args) (earg_proposal_id args);
  let '(env, config) := ec in
  total_voting_power <-? on_log
    (host_total_supply (host_context_default env) 0 (cfg_assets config));
  executable <-? on_log (host_process_execution_strategy (host_context_default env)
    (cfg_execution_strategy config) total_voting_power tally);
  _ ← lift (rassert executable);
  if earg_testing args =? 1 then mret (Ok tt)
  else publisher_publish EXECUTION_PROTOCOL_ELF (execution_publisher_stdin args tally) env
         (earg_config_contract args) call_execute.
End ExecutionPublisher.
