(* ===== verification/HostFixture.v ===== *)
(** * Concrete instances for the publishers

    A node serving the example chain, a word encoding that satisfies
    [ZkvmSerdeOk], a prover that runs the guest, and the ABI of [Abi]: with
    them the publishers run from their arguments to the transaction. *)

From stdpp Require Import base gmap list strings.
From Stdlib Require Import ZArith Lia Strings.Byte.
From S2P Require Import Prelude Machine Ethereum VoteSignature Fixtures GuestExecution GuestIO.
From S2P Require Import VotingGuest ExecutionGuest Abi Seal HostStrategies Publisher.
#[local] Open Scope Z_scope.

Module HostFixture.
Abbreviation steel := VotingFixture.steel.
#[local] Existing Instance VotingFixture.steel.

(** ** A word encoding: a tag for the type, then the value *)

Definition tag (t : SerTy) : Z :=
  match t with
  | SerEvmInput => 0 | SerString => 1 | SerAddress => 2
  | SerU256 => 3 | SerU8 => 4 | SerTally => 5
  end.

Definition words_of_bytes (l : list byte) : list Z := Z_of_byte <$> l.
Definition bytes_of_words (l : list Z) : list byte := byte_of_Z <$> l.

Definition payload (t : SerTy) : SerRep t → list Z :=
  match t with
  | SerEvmInput => λ x : Z, [x]
  | SerString => λ x, let l := String.list_byte_of_string x in
                      Z.of_nat (length l) :: words_of_bytes l
  | SerAddress => λ x, words_of_bytes (fb_bytes x)
  | SerU256 => λ x : Z, [x]
  | SerU8 => λ x : Z, [x]
  | SerTally => λ x, array3_to_vec x
  end.

Definition unpayload (t : SerTy) : list Z → option (SerRep t * list Z) :=
  match t with
  | SerEvmInput => λ l, match l with x :: l => Some (x : Z, l) | [] => None end
  | SerString => λ l, match l with
      | n :: l => let k := Z.to_nat n in
          Some (String.string_of_list_byte (bytes_of_words (take k l)), drop k l)
      | [] => None end
  | SerAddress => λ l, a ← fixed_try_from (bytes_of_words (take 20 l)); Some (a, drop 20 l)
  | SerU256 => λ l, match l with
      | x :: l => if (0 <=? x) && (x <? U256_MOD) then Some (x : Z, l) else None
      | [] => None end
  | SerU8 => λ l, match l with
      | x :: l => if (0 <=? x) && (x <? 256) then Some (x : Z, l) else None
      | [] => None end
  | SerTally => λ l, match l with
      | a :: b :: c :: l =>
          if forallb (λ x, (0 <=? x) && (x <? U256_MOD)) [a; b; c]
          then Some (mk_array3 a b c, l) else None
      | _ => None end
  end.

Definition serde : @ZkvmSerde steel := {|
  ser t x := tag t :: payload t x;
  de t l := match l with
            | n :: l => if n =? tag t then unpayload t l else None
            | [] => None
            end
|}.

Lemma bytes_words l : bytes_of_words (words_of_bytes l) = l.
Proof.
  unfold bytes_of_words, words_of_bytes. rewrite <-list_fmap_compose.
  rewrite <-(list_fmap_id l) at 2. apply list_fmap_ext. intros i b _. apply byte_of_Z_of_byte.
Qed.

Lemma serde_ok : ZkvmSerdeOk serde.
Proof.
  intros t x rest Hx. simpl. rewrite Z.eqb_refl. destruct t; simpl in *; try done.
  - rewrite Nat2Z.id.
    assert (length (words_of_bytes (String.list_byte_of_string x)) =
      length (String.list_byte_of_string x)) as Hlen by apply length_fmap.
    rewrite take_app_length', drop_app_length', bytes_words by done.
    by rewrite String.string_of_list_byte_of_string.
  - assert (length (words_of_bytes (fb_bytes x)) = 20%nat) as Hlen
      by (unfold words_of_bytes; rewrite length_fmap; apply length_fb_bytes).
    rewrite take_app_length', drop_app_length', bytes_words by done.
    by rewrite fixed_try_from_bytes.
  - unfold u256_wf in Hx. rewrite (proj2 (Z.leb_le _ _)), (proj2 (Z.ltb_lt _ _)) by lia. done.
  - unfold u8_wf in Hx. rewrite (proj2 (Z.leb_le _ _)), (proj2 (Z.ltb_lt _ _)) by lia. done.
  - destruct x as [a b c]. destruct Hx as (Ha & Hb & Hc). unfold u256_wf in *. simpl in *.
    rewrite !(proj2 (Z.leb_le _ _)), !(proj2 (Z.ltb_lt _ _)) by lia. done.
Qed.

(** ** Journals and the prover *)

Definition vabi : VotingJournalAbi := {| voting_journal_abi_encode := abi_encode_voting |}.
Definition eabi : ExecutionJournalAbi := {| execution_journal_abi_encode := abi_encode_execution |}.

Definition run (elf : Elf) (stdin : list Z) : outcome (list byte) :=
  match elf with
  | VOTING_PROTOCOL_ELF => run_guest
      (@voting_main Fixture.alloy example_keccak example_k256 steel serde
         VotingFixture.hex VotingFixture.json vabi) stdin
  | EXECUTION_PROTOCOL_ELF => run_guest
      (@execution_main Fixture.alloy steel serde VotingFixture.json eabi) stdin
  end.

(** ** The node: block 7 of the example chain *)

Definition henv : HostEvmEnv := {|
  henv_view := Fixture.view;
  henv_number := Fixture.block_number;
  henv_parent_number := Fixture.block_number - 1
|}.

(** The recorded call is answered by [env] as by the example chain. *)
Definition same_answer (env : HostEvmEnv) (a : access) : bool :=
  bool_decide (Fixture.view a.1 a.2 = henv_view env a.1 a.2).

Definition node : @HostNode steel := {|
  url_from_str s := Some s;
  build_env _ n := if n =? Fixture.block_number then Ok henv else Err "no such block";
  into_input env log :=
    if (henv_number env =? Fixture.block_number) && forallb (same_answer env) log
    then Ok (0 : @EvmInput steel) else Err "state mismatch";
  prove elf stdin := match run elf stdin with
                     | Ret j => Ok (mk_receipt (Fake (fixed_repeat 32 x99)) j)
                     | Panics _ => Err "guest panicked"
                     end;
  host_config_from_str := @config_from_str VotingFixture.json;
  voting_journal_abi_decode := abi_decode_voting;
  send_transaction _ := Ok "0xabcd";
  get_receipt _ := Ok true
|}.

(** Bob's half, claimed by carol: the only delegators the host accepts have
    delegated. *)
Definition args (testing : Z) : Args := {|
  arg_chain_id := 11155111;
  arg_eth_wallet_private_key := "key";
  arg_rpc_url := "http://localhost:8545";
  arg_block_number := Some Fixture.block_number;
  arg_voter_signature := VotingFixture.signature x01;
  arg_voter := Fixture.carol;
  arg_dao_address := Fixture.dao;
  arg_proposal_id := 4;
  arg_direction := 2;
  arg_balance := 25;
  arg_config_contract := Fixture.plugin;
  arg_token := Fixture.token;
  arg_additional_delegation_data := to_hex_string (fb_bytes Fixture.bob);
  arg_testing := testing
|}.

(** 150 of the 220 votes, 120 of them in favour. *)
Definition eargs (testing : Z) : ExecutionArgs := {|
  earg_chain_id := 11155111;
  earg_eth_wallet_private_key := "key";
  earg_rpc_url := "http://localhost:8545";
  earg_block_number := Some Fixture.block_number;
  earg_dao_address := Fixture.dao;
  earg_proposal_id := 4;
  earg_config_contract := Fixture.plugin;
  earg_tally := [120; 30; 0];
  earg_testing := testing
|}.

Definition world0 : World := {| w_log := []; w_sent := [] |}.

Definition publish (testing : Z) : outcome (result unit) * World :=
  @publisher_main Fixture.alloy steel serde node (args testing) world0.

(** A full run sends one transaction, a test run none. *)
Example publish_sends :
  (λ t, (is_ret (publish t).1, length (w_sent (publish t).2), length (w_log (publish t).2)))
    <$> [0; 1] = [(true, 1%nat, 3%nat); (true, 0%nat, 3%nat)].
Proof. vm_compute. reflexivity. Qed.
End HostFixture.
