(* ===== verification/EndToEnd.v ===== *)
(** * From the publisher to the guest

    The publisher's preflight simulates the guest, the guest reads what the
    publisher wrote, and what the publisher sends is what the guest committed. *)

From stdpp Require Import base gmap list strings.
From Stdlib Require Import ZArith Lia Strings.Byte.
From S2P Require Import Prelude Machine Ethereum VoteSignature Fixtures GuestVoting GuestDelegation.
From S2P Require Import GuestExecution GuestContext GuestIO VotingGuest ExecutionGuest Abi Seal.
From S2P Require Import HostStrategies Simulation Publisher HostFixture.
#[local] Open Scope Z_scope.

(** The host and the guest ask for votes at the same block, or not at all. *)
Definition strategies_agree (genv : GuestEvmEnv) (henv : HostEvmEnv) (assets : list Asset) : Prop :=
  Forall (λ a, asset_voting_power_strategy a ≠ "GetPastVotes" ∨
               henv_parent_number henv = genv_number genv) assets.

(** ** The preflight simulates the guest *)

Section Preflight.
Context {alloy : AlloyText} (genv : GuestEvmEnv) (henv : HostEvmEnv).
Abbreviation sim := (simulates genv henv).
Abbreviation gctx := (context_default genv).
Abbreviation hctx := (host_context_default henv).

Lemma sim_delegations_power asset ds :
  asset_voting_power_strategy asset ≠ "GetPastVotes" ∨
    henv_parent_number henv = genv_number genv →
  sim (host_delegations_power hctx asset ds)
      (foldM (M:=outcome) (λ acc delegation,
           share ← (p ← process_voting_strategy gctx (asset_voting_power_strategy asset)
                          (delegate delegation) asset;
                    u256_div p (ratio delegation));
           Ret (u256_add share acc)) 0 ds).
Proof.
  intros Hn. apply sim_foldM. intros acc d _. rewrite bind_assoc.
  apply sim_bind; [by apply sim_voting_power|]. intros p.
  apply sim_bind; [apply sim_lift|]. intros q. rewrite u256_add_comm. apply sim_ret.
Qed.

Lemma sim_asset_voting_power voter additional total asset :
  asset_voting_power_strategy asset ≠ "GetPastVotes" ∨
    henv_parent_number henv = genv_number genv →
  sim (host_asset_voting_power hctx voter additional total asset)
      (p ← asset_voting_power gctx voter additional asset; Ret (u256_add total p)).
Proof.
  intros Hn. unfold host_asset_voting_power, asset_voting_power.
  rewrite bind_assoc. apply sim_bind; [apply sim_lift|]. intros data.
  rewrite bind_assoc. apply sim_bind; [apply sim_delegation_strategy|]. intros r.
  rewrite bind_assoc. apply sim_bind; [apply sim_lift|]. intros _.
  rewrite bind_assoc. apply sim_bind; [apply sim_lift|]. intros ds.
  apply sim_bind; [by apply sim_delegations_power|]. intros p. apply sim_ret.
Qed.

Lemma sim_total_voting_power voter additional assets :
  strategies_agree genv henv assets →
  sim (host_total_voting_power hctx voter additional assets)
      (total_voting_power gctx voter additional assets).
Proof.
  intros Hall. unfold host_total_voting_power, total_voting_power, u256_sum. generalize 0.
  induction Hall as [|a assets Ha Hall IH]; intros acc; [apply sim_ret|]. simpl.
  eapply sim_ext; [|apply sim_bind;
    [by apply sim_asset_voting_power|intros acc'; apply (IH acc')]].
  rewrite !bind_assoc. destruct (asset_voting_power gctx voter additional a); simpl; [|done].
  by rewrite !bind_assoc.
Qed.

Lemma sim_host_total_supply acc assets :
  strategies_agree genv henv assets →
  simulates_ok genv henv (host_total_supply hctx acc assets)
    (ss ← mapM (process_total_supply gctx) assets; Ret (foldl u256_add acc ss)).
Proof.
  intros Hall. revert acc. induction Hall as [|a assets Ha Hall IH]; intros acc;
    [apply sim_ok_ret|]. simpl. rewrite bind_assoc.
  apply sim_ok_try; [by apply sim_total_supply|]. intros s. rewrite bind_assoc. apply IH.
Qed.
End Preflight.

(** ** The guest reads what the publisher wrote *)

Definition args_wf (args : Args) : Prop :=
  u256_wf (arg_proposal_id args) ∧ u8_wf (arg_direction args) ∧ u256_wf (arg_balance args).

Definition voting_input_of {steel : Steel} (args : Args) (input : EvmInput) : VotingInput :=
  mk_voting_input steel input (arg_voter_signature args) (arg_voter args) (arg_dao_address args)
    (arg_proposal_id args) (arg_direction args) (arg_balance args) (arg_config_contract args)
    (arg_additional_delegation_data args).

(** What the execution guest reads, given the tally and the contract it decodes. *)
Definition execution_input_of {steel : Steel} (args : ExecutionArgs) (input : EvmInput)
    (tally : array3) (contract : Address) : ExecutionInput :=
  mk_execution_input steel input (earg_dao_address args) (earg_proposal_id args) tally contract.

Section Stdin.
Context {steel : Steel} {serde : ZkvmSerde} {ok : ZkvmSerdeOk serde}.

Lemma read_publisher_stdin args input :
  args_wf args →
  read_voting_input {| io_stdin := publisher_stdin args input; io_journal := [] |} =
  (Ret (voting_input_of args input), {| io_stdin := []; io_journal := [] |}).
Proof.
  intros (Hp & Hd & Hb). unfold read_voting_input, publisher_stdin.
  rewrite <-(app_nil_r (ser SerString (arg_additional_delegation_data args))).
  repeat read_written. done.
Qed.

(** The execution guest reads the tally where the publisher wrote an address. *)
Lemma read_execution_publisher_stdin args tally input :
  u256_wf (earg_proposal_id args) →
  read_execution_input {| io_stdin := execution_publisher_stdin args tally input;
                          io_journal := [] |} =
  match de SerTally (ser SerAddress (earg_config_contract args) ++ ser SerTally tally) with
  | None => (Panics UnwrapFailed,
      {| io_stdin := ser SerAddress (earg_config_contract args) ++ ser SerTally tally;
         io_journal := [] |})
  | Some (tally', rest) =>
      match de SerAddress rest with
      | None => (Panics UnwrapFailed, {| io_stdin := rest; io_journal := [] |})
      | Some (contract, rest') =>
          (Ret (execution_input_of args input tally' contract),
           {| io_stdin := rest'; io_journal := [] |})
      end
  end.
Proof.
  intros Hp. unfold read_execution_input, execution_publisher_stdin.
  do 3 read_written. unfold mbind, stateful_bind, env_read. cbn [io_stdin io_journal].
  destruct (de SerTally _) as [[t' rest]|]; [|done]. cbn [io_stdin io_journal].
  by destruct (de SerAddress rest) as [[c rest']|].
Qed.
End Stdin.

(** ** What a publisher sends *)

Section Sent.
Context {alloy : AlloyText} {steel : Steel} {serde : ZkvmSerde} {node : HostNode}.

(** One published transaction: the prover's journal and the encoded seal. *)
Definition published (elf : Elf) (stdin : EvmInput → list Z) (env : HostEvmEnv)
    (log : list access) (contract : Address) (call : list byte → list byte → PluginCall)
    (tx : Transaction) : Prop :=
  ∃ input receipt seal, into_input env log = Ok input ∧
    prove elf (stdin input) = Ok receipt ∧
    is_Some (voting_journal_abi_decode (receipt_journal receipt)) ∧
    encode_seal receipt = Ret (Ok seal) ∧
    tx = {| tx_to := contract; tx_call := call (receipt_journal receipt) seal |}.

Lemma publisher_publish_sent elf stdin env contract call w o w' :
  publisher_publish elf stdin env contract call w = (o, w') →
  w_sent w' = w_sent w ∨
  ∃ tx, published elf stdin env (w_log w) contract call tx ∧ w_sent w' = w_sent w ++ [tx].
Proof.
  unfold publisher_publish, published, mbind, stateful_bind, lift, try_, mret, stateful_ret.
  destruct (into_input env (w_log w)) as [input|e] eqn:Hin; [|intros [= <- <-]; by left].
  destruct (prove elf (stdin input)) as [receipt|e] eqn:Hp; simpl; [|intros [= <- <-]; by left].
  destruct (voting_journal_abi_decode _) as [j|] eqn:Hj; simpl; [|intros [= <- <-]; by left].
  destruct (encode_seal receipt) as [[seal|e]|p] eqn:Hs; simpl; [|intros [= <- <-]; by left..].
  destruct (send_transaction _) as [h|e]; simpl;
    [destruct (get_receipt h) as [[]|e]; simpl|]; intros [= <- <-]; right;
    eexists; (split; [|reflexivity]); exists input, receipt, seal; eauto 10.
Qed.

Lemma on_log_sent {A} (m : host A) w o w' :
  on_log m w = (o, w') → w_sent w' = w_sent w ∧ m (w_log w) = (o, w_log w').
Proof. unfold on_log. destruct (m (w_log w)) as [o1 log]. intros [= <- <-]. done. Qed.

Lemma publisher_setup_sent url bn cc pid w o w' :
  publisher_setup url bn cc pid w = (o, w') → w_sent w' = w_sent w.
Proof.
  unfold publisher_setup, mbind, stateful_bind, lift, try_, mret, stateful_ret.
  destruct (url_from_str url) as [u|]; simpl; [|by intros [= <- <-]].
  destruct bn as [n|]; simpl; [|by intros [= <- <-]].
  destruct (build_env u n) as [env|e]; simpl; [|by intros [= <- <-]].
  destruct (henv_view env cc _) as [s|]; simpl; [|by intros [= <- <-]].
  destruct (host_config_from_str s) as [cfg|]; simpl; by intros [= <- <-].
Qed.

(** What a successful setup found. *)
Lemma publisher_setup_Ok url bn cc pid w env cfg w' :
  publisher_setup url bn cc pid w = (Ret (Ok (env, cfg)), w') →
  ∃ u n s, url_from_str url = Some u ∧ bn = Some n ∧ build_env u n = Ok env ∧
    henv_view env cc (CallConfig {| cc_proposal_id := pid |}) = Some s ∧
    host_config_from_str s = Some cfg ∧
    w' = {| w_log := w_log w ++ [(cc, CallConfig {| cc_proposal_id := pid |})];
            w_sent := w_sent w |}.
Proof.
  unfold publisher_setup, mbind, stateful_bind, lift, try_, mret, stateful_ret.
  destruct (url_from_str url) as [u|]; simpl; [|done].
  destruct bn as [n|]; simpl; [|done].
  destruct (build_env u n) as [e|] eqn:He; simpl; [|done].
  destruct (henv_view e cc _) as [s|] eqn:Hs; simpl; [|done].
  destruct (host_config_from_str s) as [c|] eqn:Hc; simpl; [|done].
  intros [= -> -> <-]. exists u, n, s. split_and!; done.
Qed.

Lemma publisher_main_sent args w o w' :
  publisher_main args w = (o, w') →
  w_sent w' = w_sent w ∨
  arg_testing args ≠ 1 ∧ ∃ env log tx,
    published VOTING_PROTOCOL_ELF (publisher_stdin args) env log (arg_config_contract args)
      call_vote tx ∧ w_sent w' = w_sent w ++ [tx].
Proof.
  unfold publisher_main, mbind, stateful_bind.
  destruct (publisher_setup _ _ _ _ w) as [[[[env cfg]|e]|p] w1] eqn:Hsetup; simpl;
    [|intros [= <- <-]; left; by eapply publisher_setup_sent..].
  apply publisher_setup_sent in Hsetup as Hw1.
  destruct (on_log _ w1) as [[total|p] w2] eqn:Htotal; apply on_log_sent in Htotal as [Hw2 _];
    [|intros [= <- <-]; left; congruence].
  unfold lift, rassert. destruct (total =? arg_balance args); [|intros [= <- <-]; left; congruence].
  destruct (Z.eqb_spec (arg_testing args) 1) as [_|Ht]; [intros [= <- <-]; left; congruence|].
  intros [Hs|(tx & Htx & Hs)]%publisher_publish_sent; [left; congruence|].
  right. split; [done|]. exists env, (w_log w2), tx. split; [done|congruence].
Qed.

Lemma execution_publisher_main_sent args w o w' :
  execution_publisher_main args w = (o, w') →
  w_sent w' = w_sent w ∨
  earg_testing args ≠ 1 ∧ ∃ env log tally tx, array3_try_from (earg_tally args) = Some tally ∧
    published EXECUTION_PROTOCOL_ELF (execution_publisher_stdin args tally) env log
      (earg_config_contract args) call_execute tx ∧ w_sent w' = w_sent w ++ [tx].
Proof.
  unfold execution_publisher_main, mbind, stateful_bind, lift at 1.
  destruct (array3_try_from (earg_tally args)) as [tally|]; simpl; [|intros [= <- <-]; by left].
  destruct (publisher_setup _ _ _ _ w) as [[[[env cfg]|e]|p] w1] eqn:Hsetup; simpl;
    [|intros [= <- <-]; left; by eapply publisher_setup_sent..].
  apply publisher_setup_sent in Hsetup as Hw1.
  destruct (on_log (host_total_supply _ _ _) w1) as [[[total|e]|p] w2] eqn:Htotal;
    apply on_log_sent in Htotal as [Hw2 _]; [|intros [= <- <-]; left; congruence..].
  simpl. destruct (on_log _ w2) as [[[b|e]|p] w3] eqn:Hb;
    apply on_log_sent in Hb as [Hw3 _]; [|intros [= <- <-]; left; congruence..].
  simpl. unfold lift, rassert. destruct b; [|intros [= <- <-]; left; congruence].
  destruct (Z.eqb_spec (earg_testing args) 1) as [_|Ht]; [intros [= <- <-]; left; congruence|].
  intros [Hs|(tx & Htx & Hs)]%publisher_publish_sent; [left; congruence|].
  right. split; [done|]. exists env, (w_log w3), tally, tx. split_and!; [done..|congruence].
Qed.
End Sent.

(** ** The prover

    What a receipt means: its journal is the one the program committed on the
    given input. *)
Class ProverOk {alloy : AlloyText} {keccak : KeccakV256} {k256 : K256} {steel : Steel}
    {serde : ZkvmSerde} {hex : HexCrate} {json : SerdeConfig} {vabi : VotingJournalAbi}
    {eabi : ExecutionJournalAbi} (node : HostNode) : Prop := {
  prove_voting stdin r :
    prove VOTING_PROTOCOL_ELF stdin = Ok r → run_guest voting_main stdin = Ret (receipt_journal r);
  prove_execution stdin r :
    prove EXECUTION_PROTOCOL_ELF stdin = Ok r →
    run_guest execution_main stdin = Ret (receipt_journal r)
}.

Section Sound.
Context {alloy : AlloyText} {keccak : KeccakV256} {k256 : K256} {steel : Steel}
  {serde : ZkvmSerde} {hex : HexCrate} {json : SerdeConfig} {vabi : VotingJournalAbi}
  {eabi : ExecutionJournalAbi} {node : HostNode}.

(** The journal of a vote on the values of [args]. *)
Definition journal_of (args : Args) (commitment : Commitment) : VotingJournal :=
  mk_voting_journal commitment (arg_config_contract args) (arg_proposal_id args)
    (arg_voter args) (arg_balance args) (arg_direction args).

Lemma run_publisher_stdin {ok : ZkvmSerdeOk serde} args input :
  args_wf args →
  run_guest voting_main (publisher_stdin args input) =
  (j ← voting_statement (voting_input_of args input); Ret (voting_journal_abi_encode j)).
Proof.
  intros Hwf. unfold run_guest, voting_main, mbind at 1, stateful_bind at 1.
  rewrite read_publisher_stdin by done. unfold mbind, stateful_bind, lift, env_commit_slice.
  by destruct (voting_statement _).
Qed.

(** A published vote is one the guest committed on the publisher's arguments. *)
Lemma published_vote {ok : ZkvmSerdeOk serde} {prover : ProverOk node} args env log contract tx :
  args_wf args →
  published VOTING_PROTOCOL_ELF (publisher_stdin args) env log contract call_vote tx →
  ∃ input j seal, voting_statement (voting_input_of args input) = Ret j ∧
    tx = {| tx_to := contract; tx_call := call_vote (voting_journal_abi_encode j) seal |}.
Proof.
  intros Hwf (input & r & seal & _ & Hp%prove_voting & _ & _ & ->).
  rewrite run_publisher_stdin in Hp by done.
  apply bind_Ret_inv in Hp as (j & Hj & [= <-]). eauto.
Qed.

(** What a receipt with status [true] followed. *)
Lemma publisher_publish_Ok elf stdin env contract call w w' :
  publisher_publish elf stdin env contract call w = (Ret (Ok tt), w') →
  ∃ tx h, published elf stdin env (w_log w) contract call tx ∧
    w_sent w' = w_sent w ++ [tx] ∧ send_transaction tx = Ok h ∧ get_receipt h = Ok true.
Proof.
  unfold publisher_publish, published, mbind, stateful_bind, lift, try_, mret, stateful_ret.
  destruct (into_input env (w_log w)) as [input|e] eqn:Hin; [|done].
  destruct (prove elf (stdin input)) as [receipt|e] eqn:Hp; simpl; [|done].
  destruct (voting_journal_abi_decode _) as [j|] eqn:Hj; simpl; [|done].
  destruct (encode_seal receipt) as [[seal|e]|p] eqn:Hs; simpl; [|done..].
  destruct (send_transaction _) as [h|e] eqn:Hsend; simpl; [|done].
  destruct (get_receipt h) as [[]|e] eqn:Hr; simpl; [|done..]. intros [= <-].
  eexists _, h. split_and!; [|reflexivity|done..]. exists input, receipt, seal. eauto 10.
Qed.
End Sound.

(** ** Steel

    The input built from a record of preflight calls verifies into an
    environment for the same block that answers those calls as the node did. *)
Class SteelOk {steel : Steel} (node : HostNode) : Prop :=
  into_input_env henv log input :
    into_input henv log = Ok input →
    ∃ genv, into_env input = Ret genv ∧ replays genv henv log ∧
      genv_number genv = henv_number henv.

(** Both crates derive the same deserialiser. *)
Class SameConfig {steel : Steel} {json : SerdeConfig} (node : HostNode) : Prop :=
  same_config s : host_config_from_str s = config_from_str s.

Section Complete.
Context {alloy : AlloyText} {keccak : KeccakV256} {k256 : K256} {steel : Steel}
  {serde : ZkvmSerde} {hex : HexCrate} {json : SerdeConfig} {vabi : VotingJournalAbi}
  {node : HostNode} {steel_ok : SteelOk node} {same : SameConfig node}.

(** What a publisher run that reached its balance check had found. *)
Lemma publisher_dry_run args w w' :
  arg_testing args = 1 → publisher_main args w = (Ret (Ok tt), w') →
  ∃ env cfg s ext, henv_view env (arg_config_contract args)
      (CallConfig {| cc_proposal_id := arg_proposal_id args |}) = Some s ∧
    host_config_from_str s = Some cfg ∧
    (∃ u n, url_from_str (arg_rpc_url args) = Some u ∧ arg_block_number args = Some n ∧
       build_env u n = Ok env) ∧
    host_total_voting_power (host_context_default env) (arg_voter args)
      (arg_additional_delegation_data args) (cfg_assets cfg)
      (w_log w ++ [(arg_config_contract args,
                    CallConfig {| cc_proposal_id := arg_proposal_id args |})]) =
    (Ret (arg_balance args), ext) ∧ w_log w' = ext ∧ w_sent w' = w_sent w.
Proof.
  intros Ht. unfold publisher_main, mbind, stateful_bind.
  destruct (publisher_setup _ _ _ _ w) as [[[[env cfg]|e]|p] w1] eqn:Hsetup; simpl; [|done..].
  apply publisher_setup_Ok in Hsetup as (u & n & s & Hu & Hn & He & Hs & Hc & ->).
  destruct (on_log _ _) as [[total|p] w2] eqn:Htotal; [|done].
  apply on_log_sent in Htotal as [Hsent Htotal]. simpl in *.
  unfold lift, rassert. destruct (Z.eqb_spec total (arg_balance args)) as [->|]; [|done].
  rewrite (proj2 (Z.eqb_eq _ _) Ht). intros [= <-]. exists env, cfg, s, (w_log w2). eauto 12.
Qed.
End Complete.

Section CompleteGuest.
Context {alloy : AlloyText} {keccak : KeccakV256} {k256 : K256} {steel : Steel}
  {serde : ZkvmSerde} {hex : HexCrate} {json : SerdeConfig} {vabi : VotingJournalAbi}
  {node : HostNode}.

(** The guest accepts a vote whose preflight total is the claimed balance. *)
Lemma voting_statement_preflight args input signer genv henv cfg s log :
  signature_address (voting_input_of args input) = Ret signer →
  1 <= arg_direction args <= 3 → 0 < arg_balance args →
  into_env input = Ret genv →
  henv_view henv (arg_config_contract args)
    (CallConfig {| cc_proposal_id := arg_proposal_id args |}) = Some s →
  config_from_str s = Some cfg →
  strategies_agree genv henv (cfg_assets cfg) →
  ∀ log', host_total_voting_power (host_context_default henv) (arg_voter args)
    (arg_additional_delegation_data args) (cfg_assets cfg)
    (log ++ [(arg_config_contract args,
              CallConfig {| cc_proposal_id := arg_proposal_id args |})]) =
    (Ret (arg_balance args), log') →
  replays genv henv log' →
  voting_statement (voting_input_of args input) = Ret (journal_of args (genv_commitment genv)).
Proof.
  intros Hsig Hdir Hpos Henv Hs Hcfg Hagree log' Htotal Hrep.
  apply (sim_total_voting_power genv henv) in Htotal as [[ext ->] Hg]; [|done].
  specialize (Hg Hrep). apply replays_app in Hrep as [[_ Hc]%replays_app _].
  apply Forall_inv in Hc. simpl in Hc. rewrite Hs in Hc.
  unfold voting_statement. rewrite Hsig. simpl. rewrite Henv. simpl.
  rewrite (proj2 (read_config_Ret _ _ _ cfg)) by eauto. simpl. rewrite Hg. simpl.
  by rewrite (proj2 (direction_ok _) Hdir), (proj2 (Z.gtb_lt _ _) Hpos), Z.eqb_refl.
Qed.
End CompleteGuest.

(** What a run of the publisher sends is the journal of a backed vote. *)
Lemma publisher_main_backed {alloy : AlloyText} {keccak : KeccakV256} {k256 : K256}
    {steel : Steel} {serde : ZkvmSerde} {hex : HexCrate} {json : SerdeConfig}
    {vabi : VotingJournalAbi} {eabi : ExecutionJournalAbi} {node : HostNode}
    {ok : ZkvmSerdeOk serde} {prover : ProverOk node} args w o w' :
  args_wf args → publisher_main args w = (o, w') →
  w_sent w' = w_sent w ∨
  arg_testing args ≠ 1 ∧ ∃ input env cfg sharess seal,
    vote_backed (voting_input_of args input) env cfg sharess ∧
    w_sent w' = w_sent w ++ [{| tx_to := arg_config_contract args; tx_call := call_vote
      (voting_journal_abi_encode (journal_of args (genv_commitment env))) seal |}].
Proof.
  intros Hwf [Hs|(Ht & env & log & tx & Htx & Hs)]%publisher_main_sent; [by left|]. right.
  split; [done|]. apply published_vote in Htx as (input & j & seal & Hj & ->); [|done].
  apply voting_statement_Ret in Hj as (_ & genv & cfg & ss & Hb & ->).
  exists input, genv, cfg, ss, seal. done.
Qed.

(** ** The example node keeps these promises *)

Lemma fixture_prover_ok :
  @ProverOk Fixture.alloy example_keccak example_k256 VotingFixture.steel HostFixture.serde
    VotingFixture.hex VotingFixture.json HostFixture.vabi HostFixture.eabi HostFixture.node.
Proof.
  assert (∀ elf stdin r, prove (HostNode:=HostFixture.node) elf stdin = Ok r →
    HostFixture.run elf stdin = Ret (receipt_journal r)) as Hrun.
  { intros elf stdin r. cbn [prove HostFixture.node].
    destruct (HostFixture.run elf stdin); [|done]. by intros [= <-]. }
  split; intros stdin r; [apply (Hrun VOTING_PROTOCOL_ELF)|apply (Hrun EXECUTION_PROTOCOL_ELF)].
Qed.

Lemma fixture_steel_ok : @SteelOk VotingFixture.steel HostFixture.node.
Proof.
  intros henv log input. cbn [into_input HostFixture.node]. case_match eqn:Hb; [|done].
  intros [= <-]. apply andb_true_iff in Hb as [Hn Hlog]. apply Z.eqb_eq in Hn.
  exists Fixture.genv. split_and!; [done| |by rewrite Hn]. apply Forall_forall. intros a Ha.
  eapply forallb_forall in Hlog; [|by apply list_elem_of_In].
  by apply bool_decide_eq_true in Hlog.
Qed.

Lemma fixture_same_config : @SameConfig VotingFixture.steel VotingFixture.json HostFixture.node.
Proof. intros s. reflexivity. Qed.

Lemma fixture_args_wf t : args_wf (HostFixture.args t).
Proof. split_and!; by split. Qed.

(** ** Properties *)

(** Whatever its arguments, node and outcome, a run of the publisher sends
    nothing, or is not a test run and sends one transaction to the
    configured plugin; that one carries the journal of the vote in the
    arguments, and the vote is backed at the committed block. *)
Theorem publisher_sends_backed_votes {alloy : AlloyText} {keccak : KeccakV256} {k256 : K256}
    {steel : Steel} {serde : ZkvmSerde} {hex : HexCrate} {json : SerdeConfig}
    {vabi : VotingJournalAbi} {eabi : ExecutionJournalAbi} {node : HostNode}
    {ok : ZkvmSerdeOk serde} {prover : ProverOk node} args w o w' :
  args_wf args → publisher_main args w = (o, w') →
  w_sent w' = w_sent w ∨
  arg_testing args ≠ 1 ∧ ∃ input env cfg sharess seal,
    vote_backed (voting_input_of args input) env cfg sharess ∧
    w_sent w' = w_sent w ++ [{| tx_to := arg_config_contract args; tx_call := call_vote
      (voting_journal_abi_encode (journal_of args (genv_commitment env))) seal |}].
Proof. apply publisher_main_backed. Qed.

Lemma publisher_sends_backed_votes_witness :
  let run := HostFixture.publish 0 in
  ∃ input env cfg sharess seal,
    @vote_backed Fixture.alloy VotingFixture.steel VotingFixture.json
      (voting_input_of (HostFixture.args 0) input) env cfg sharess ∧
    w_sent run.2 = [{| tx_to := Fixture.plugin; tx_call := call_vote
      (abi_encode_voting (journal_of (HostFixture.args 0) (genv_commitment env))) seal |}].
Proof.
  destruct (@publisher_sends_backed_votes Fixture.alloy example_keccak example_k256
    VotingFixture.steel HostFixture.serde VotingFixture.hex VotingFixture.json HostFixture.vabi
    HostFixture.eabi HostFixture.node HostFixture.serde_ok fixture_prover_ok
    (HostFixture.args 0) HostFixture.world0 _ _ (fixture_args_wf 0) (surjective_pairing _))
    as [Hs|[_ Hs]]; [vm_compute in Hs; discriminate|exact Hs].
Defined.

(** If a test run of the publisher passes on a configuration without
    [GetPastVotes], then for a valid direction, a positive balance and a
    recoverable signature the guest accepts the input the publisher would
    prove, and commits the journal of the vote. *)
Theorem publisher_dry_run_proves {alloy : AlloyText} {keccak : KeccakV256} {k256 : K256}
    {steel : Steel} {serde : ZkvmSerde} {hex : HexCrate} {json : SerdeConfig}
    {vabi : VotingJournalAbi} {node : HostNode} {ok : ZkvmSerdeOk serde}
    {steel_ok : SteelOk node} {same : SameConfig node} args w w' u n henv input signer :
  args_wf args → arg_testing args = 1 → publisher_main args w = (Ret (Ok tt), w') →
  url_from_str (arg_rpc_url args) = Some u → arg_block_number args = Some n →
  build_env u n = Ok henv →
  (∀ s cfg, henv_view henv (arg_config_contract args)
       (CallConfig {| cc_proposal_id := arg_proposal_id args |}) = Some s →
     config_from_str s = Some cfg →
     Forall (λ a, asset_voting_power_strategy a ≠ "GetPastVotes") (cfg_assets cfg)) →
  into_input henv (w_log w') = Ok input →
  signature_address (voting_input_of args input) = Ret signer →
  1 <= arg_direction args <= 3 → 0 < arg_balance args →
  ∃ commitment, run_guest voting_main (publisher_stdin args input) =
    Ret (voting_journal_abi_encode (journal_of args commitment)).
Proof.
  intros Hwf Ht Hmain Hu Hn He Hvotes Hin Hsig Hdir Hpos.
  apply publisher_dry_run in Hmain
    as (env & cfg & s & log & Hs & Hc & (u' & n' & Hu' & Hn' & He') & Htotal & Hlog & _); [|done].
  assert (env = henv) as -> by congruence. rewrite same_config in Hc. rewrite Hlog in Hin.
  destruct (into_input_env _ _ _ Hin) as (genv & Hgenv & Hrep & _).
  exists (genv_commitment genv). rewrite run_publisher_stdin by done.
  erewrite voting_statement_preflight; eauto.
  eapply Forall_impl; [exact (Hvotes _ _ Hs Hc)|]. intros a Ha. by left.
Qed.

Lemma publisher_dry_run_proves_witness :
  ∃ commitment, HostFixture.run VOTING_PROTOCOL_ELF
      (@publisher_stdin VotingFixture.steel HostFixture.serde (HostFixture.args 1) 0) =
    Ret (abi_encode_voting (journal_of (HostFixture.args 1) commitment)).
Proof.
  eapply (@publisher_dry_run_proves Fixture.alloy example_keccak example_k256
    VotingFixture.steel HostFixture.serde VotingFixture.hex VotingFixture.json HostFixture.vabi
    HostFixture.node HostFixture.serde_ok fixture_steel_ok fixture_same_config
    (HostFixture.args 1) HostFixture.world0 (HostFixture.publish 1).2);
    [apply fixture_args_wf|done|vm_compute; reflexivity|reflexivity|reflexivity|reflexivity| |
     vm_compute; reflexivity|vm_compute; reflexivity|done|done].
  intros s cfg [= <-] [= <-]. by constructor.
Defined.

(** A publisher that returns [Ok] outside a test run has sent exactly one
    transaction, the node accepted it, and its receipt has status [true]; the
    transaction carries the journal of the prover's receipt and its seal. *)
Theorem publisher_ok_confirmed {alloy : AlloyText} {steel : Steel} {serde : ZkvmSerde}
    {node : HostNode} args w w' :
  arg_testing args ≠ 1 → publisher_main args w = (Ret (Ok tt), w') →
  ∃ env log tx hash,
    published VOTING_PROTOCOL_ELF (publisher_stdin args) env log (arg_config_contract args)
      call_vote tx ∧
    w_sent w' = w_sent w ++ [tx] ∧ send_transaction tx = Ok hash ∧ get_receipt hash = Ok true.
Proof.
  intros Ht. unfold publisher_main, mbind, stateful_bind.
  destruct (publisher_setup _ _ _ _ w) as [[[[env cfg]|e]|p] w1] eqn:Hsetup; simpl; [|done..].
  apply publisher_setup_sent in Hsetup as Hw1.
  destruct (on_log _ w1) as [[total|p] w2] eqn:Htotal; [|done].
  apply on_log_sent in Htotal as [Hw2 _]. unfold lift, rassert.
  destruct (total =? arg_balance args); [|done]. rewrite (proj2 (Z.eqb_neq _ _) Ht).
  intros (tx & h & Htx & Hs & Hsend & Hr)%publisher_publish_Ok.
  exists env, (w_log w2), tx, h. rewrite Hs, Hw2, Hw1. done.
Qed.

Lemma publisher_ok_confirmed_witness :
  ∃ env log tx hash,
    @published VotingFixture.steel HostFixture.node VOTING_PROTOCOL_ELF
      (@publisher_stdin VotingFixture.steel HostFixture.serde (HostFixture.args 0)) env log
      Fixture.plugin call_vote tx ∧
    w_sent (HostFixture.publish 0).2 = [tx] ∧
    send_transaction (HostNode:=HostFixture.node) tx = Ok hash ∧
    get_receipt (HostNode:=HostFixture.node) hash = Ok true.
Proof.
  apply (@publisher_ok_confirmed Fixture.alloy VotingFixture.steel HostFixture.serde
    HostFixture.node (HostFixture.args 0) HostFixture.world0 (HostFixture.publish 0).2);
    [done|vm_compute; reflexivity].
Defined.

(** The guest reads back, in order, exactly the values the publisher
    wrote for it, and nothing is left over. *)
Theorem publisher_guest_roundtrip {steel : Steel} {serde : ZkvmSerde} {ok : ZkvmSerdeOk serde}
    args input :
  args_wf args →
  read_voting_input {| io_stdin := publisher_stdin args input; io_journal := [] |} =
  (Ret (voting_input_of args input), {| io_stdin := []; io_journal := [] |}).
Proof. apply read_publisher_stdin. Qed.

Lemma publisher_guest_roundtrip_witness :
  (@read_voting_input VotingFixture.steel HostFixture.serde
    {| io_stdin := @publisher_stdin VotingFixture.steel HostFixture.serde (HostFixture.args 0) 0;
       io_journal := [] |}).2 = {| io_stdin := []; io_journal := [] |}.
Proof.
  by rewrite (@publisher_guest_roundtrip VotingFixture.steel HostFixture.serde
    HostFixture.serde_ok (HostFixture.args 0) 0 (fixture_args_wf 0)).
Defined.

(** The execution publisher writes the plugin address before the tally and
    the guest reads the tally first: on the publisher's words the guest
    decodes its tally from the words of the address, and panics when they do
    not decode as one; the tally it was given never is what it reads first. *)
Theorem execution_stdin_swapped {alloy : AlloyText} {steel : Steel} {serde : ZkvmSerde}
    {json : SerdeConfig} {eabi : ExecutionJournalAbi} {ok : ZkvmSerdeOk serde}
    args tally input :
  u256_wf (earg_proposal_id args) →
  run_guest execution_main (execution_publisher_stdin args tally input) =
  match de SerTally (ser SerAddress (earg_config_contract args) ++ ser SerTally tally) with
  | None => Panics UnwrapFailed
  | Some (tally', rest) =>
      match de SerAddress rest with
      | None => Panics UnwrapFailed
      | Some (contract, _) =>
          j ← execution_statement (execution_input_of args input tally' contract);
          Ret (execution_journal_abi_encode j)
      end
  end.
Proof.
  intros Hp. unfold run_guest, execution_main, mbind at 1, stateful_bind at 1.
  rewrite read_execution_publisher_stdin by done.
  destruct (de SerTally _) as [[t' rest]|]; [|done].
  destruct (de SerAddress rest) as [[c rest']|]; [|done].
  unfold mbind, stateful_bind, lift, env_commit_slice.
  by destruct (execution_statement _).
Qed.

(** A typed encoding detects the swap: the guest panics. *)
Lemma execution_stdin_swapped_witness :
  HostFixture.run EXECUTION_PROTOCOL_ELF
    (@execution_publisher_stdin VotingFixture.steel HostFixture.serde (HostFixture.eargs 0)
       (mk_array3 120 30 0) 0) = Panics UnwrapFailed.
Proof.
  unfold HostFixture.run.
  rewrite (@execution_stdin_swapped Fixture.alloy VotingFixture.steel HostFixture.serde
    VotingFixture.json HostFixture.eabi HostFixture.serde_ok (HostFixture.eargs 0)
    (mk_array3 120 30 0) 0 ltac:(by split)). reflexivity.
Defined.

(** C40: the execution publisher decodes the journal of an execution as that
    of a vote, which has another length: with the ABI of the two structs it
    sends no transaction, whatever its arguments and the chain. *)
Theorem execution_publisher_never_sends {alloy : AlloyText} {keccak : KeccakV256} {k256 : K256}
    {steel : Steel} {serde : ZkvmSerde} {hex : HexCrate} {json : SerdeConfig}
    {vabi : VotingJournalAbi} {eabi : ExecutionJournalAbi} {node : HostNode}
    {prover : ProverOk node} args w o w' :
  (∀ j, execution_journal_abi_encode j = abi_encode_execution j) →
  (∀ b, voting_journal_abi_decode b = abi_decode_voting b) →
  execution_publisher_main args w = (o, w') → w_sent w' = w_sent w.
Proof.
  intros Henc Hdec [Hs|(_ & env & log & t & tx & _ & Htx & _)]%execution_publisher_main_sent; [done|].
  destruct Htx as (input & r & seal & _ & Hp%prove_execution & [j Hj] & _).
  apply execution_main_run in Hp
    as (i & ej & io & Hr & (genv & cfg & ss & _ & ->)%execution_statement_Ret & Hjb).
  rewrite (read_execution_input_journal _ _ _ Hr), Henc in Hjb. simpl in Hjb.
  by rewrite Hdec, Hjb, abi_decode_execution in Hj.
Qed.

Lemma execution_publisher_never_sends_witness :
  w_sent (@execution_publisher_main Fixture.alloy VotingFixture.steel HostFixture.serde
    HostFixture.node (HostFixture.eargs 0) HostFixture.world0).2 = [].
Proof.
  apply (@execution_publisher_never_sends Fixture.alloy example_keccak example_k256
    VotingFixture.steel HostFixture.serde VotingFixture.hex VotingFixture.json HostFixture.vabi
    HostFixture.eabi HostFixture.node fixture_prover_ok (HostFixture.eargs 0) HostFixture.world0
    _ _ (λ _, eq_refl) (λ _, eq_refl) (surjective_pairing _)).
Defined.

(** The voting power the publisher computes in its preflight is the one
    the guest computes on any view that replays the preflight calls, as long
    as both ask the votes tokens about the same block. *)
Theorem preflight_power_refines {alloy : AlloyText} genv henv voter additional assets log total log' :
  strategies_agree genv henv assets →
  host_total_voting_power (host_context_default henv) voter additional assets log =
    (Ret total, log') →
  replays genv henv log' →
  total_voting_power (context_default genv) voter additional assets = Ret total.
Proof. intros Hagree Hm. by apply (sim_total_voting_power genv henv _ _ _ Hagree _ _ _ Hm). Qed.

Lemma preflight_power_refines_witness :
  @total_voting_power Fixture.alloy (@context_default Fixture.alloy Fixture.genv) Fixture.carol
    (to_hex_string (fb_bytes Fixture.bob)) [Fixture.asset] = Ret 25.
Proof.
  refine (@preflight_power_refines Fixture.alloy Fixture.genv HostFixture.henv Fixture.carol
    (to_hex_string (fb_bytes Fixture.bob)) [Fixture.asset] [] 25 _ _ (eq_refl _) _).
  - constructor; [by left|constructor].
  - apply Forall_forall. intros [addr c] _. reflexivity.
Defined.

(** If the execution publisher's preflight passes a tally, so does the
    guest on any view that replays the preflight calls: the same total supply
    and the same verdict of the strategy. *)
Theorem preflight_execution_refines {alloy : AlloyText} genv henv name assets tally log supply log1
    verdict log2 :
  strategies_agree genv henv assets →
  host_total_supply (host_context_default henv) 0 assets log = (Ret (Ok supply), log1) →
  host_process_execution_strategy (host_context_default henv) name supply tally log1 =
    (Ret (Ok verdict), log2) →
  replays genv henv log2 →
  total_supply (context_default genv) assets = Ret supply ∧
  process_execution_strategy (context_default genv) name supply tally = Ret verdict.
Proof.
  intros Hagree Hm He Hrep.
  destruct (sim_execution_strategy genv henv _ _ _ _ _ _ He) as [[ext ->] Hv].
  split; [|by apply Hv]. apply replays_app in Hrep as [Hrep _].
  by apply (sim_host_total_supply genv henv _ _ Hagree _ _ _ Hm).
Qed.

Lemma preflight_execution_refines_witness :
  total_supply (@context_default Fixture.alloy Fixture.genv) [Fixture.asset] = Ret 220 ∧
  process_execution_strategy (@context_default Fixture.alloy Fixture.genv) "MajorityVoting" 220
    (mk_array3 120 30 0) = Ret true.
Proof.
  refine (@preflight_execution_refines Fixture.alloy Fixture.genv HostFixture.henv "MajorityVoting"
    [Fixture.asset] (mk_array3 120 30 0) [] 220 _ true _ _ (eq_refl _) (eq_refl _) _).
  - constructor; [by left|constructor].
  - apply Forall_forall. intros [addr c] _. reflexivity.
Defined.
