(* ===== verification/ConfigJson.v ===== *)
(** * The configuration of a DAO as JSON
    ([strategies/src/lib.rs], [apps/src/lib.rs], [script/RiscVotingProtocolConfig.txt])

    The two crates each define the structs of the configuration.  Here are
    their descriptions, the configuration read through them, and the
    configuration the repository ships. *)

From stdpp Require Import base gmap list strings.
From Stdlib Require Import ZArith Lia Strings.Byte Strings.Ascii.
From S2P Require Import Prelude Machine Ethereum VoteSignature Fixtures GuestVoting.
From S2P Require Import GuestDelegation GuestExecution GuestContext GuestIO VotingGuest.
From S2P Require Import Abi HostStrategies Json Simulation Publisher HostFixture EndToEnd.
#[local] Open Scope Z_scope.

(** [rename_all = "camelCase"] on a struct. *)
Definition renamed (fields : list (string * Ty)) : Ty :=
  TStruct ((λ f, (camel_case f.1, f.2)) <$> fields).

(** ** The guest's structs *)

Definition DelegationObject_ty : Ty :=
  renamed [("contract", TAddress); ("strategy", TString)]%string.
Definition Asset_ty : Ty :=
  renamed [("contract", TAddress); ("chain_id", TU64); ("voting_power_strategy", TString);
           ("delegation", DelegationObject_ty)]%string.
Definition RiscVotingProtocolConfig_ty : Ty :=
  renamed [("voting_protocol_version", TString); ("assets", TVec Asset_ty);
           ("execution_strategy", TString)]%string.

(** ** The host's structs *)

Definition host_DelegationObject_ty : Ty :=
  renamed [("contract", TAddress); ("strategy", TString)]%string.
Definition host_Asset_ty : Ty :=
  renamed [("contract", TAddress); ("chain_id", TU64); ("voting_power_strategy", TString);
           ("delegation", host_DelegationObject_ty)]%string.
Definition host_RiscVotingProtocolConfig_ty : Ty :=
  renamed [("voting_protocol_version", TString); ("assets", TVec host_Asset_ty);
           ("execution_strategy", TString)]%string.

(** ** Values *)

(** [Address] of [alloy] from the text of a JSON string, and its documented
    form: twenty bytes in hexadecimal after the prefix. *)
Class AddressText : Type := { address_of_text : string → option Address }.
Class AddressTextOk (text : AddressText) : Prop :=
  address_of_hex digits (a : Address) :
    unhex digits = Some (fb_bytes a) → address_of_text ("0x" +:+ digits)%string = Some a.

Section Config.
Context {json : SerdeJson} {text : AddressText}.

Definition delegation_of_val (v : Val) : option DelegationObject :=
  match v with
  | VStruct [VAddress contract; VString strategy] =>
      a ← address_of_text contract; Some (mk_delegation_object a strategy)
  | _ => None
  end.
Definition asset_of_val (v : Val) : option Asset :=
  match v with
  | VStruct [VAddress contract; VInt chain_id; VString strategy; delegation] =>
      a ← address_of_text contract; d ← delegation_of_val delegation;
      Some (mk_asset a chain_id strategy d)
  | _ => None
  end.
Definition config_of_val (v : Val) : option RiscVotingProtocolConfig :=
  match v with
  | VStruct [VString version; VList assets; VString execution_strategy] =>
      l ← mapM asset_of_val assets; Some (mk_config version l execution_strategy)
  | _ => None
  end.

Definition host_delegation_of_val (v : Val) : option HostDelegationObject :=
  match v with
  | VStruct [VAddress contract; VString strategy] =>
      a ← address_of_text contract; Some (mk_delegation_object a strategy)
  | _ => None
  end.
Definition host_asset_of_val (v : Val) : option HostAsset :=
  match v with
  | VStruct [VAddress contract; VInt chain_id; VString strategy; delegation] =>
      a ← address_of_text contract; d ← host_delegation_of_val delegation;
      Some (mk_asset a chain_id strategy d)
  | _ => None
  end.
Definition host_config_of_val (v : Val) : option HostConfig :=
  match v with
  | VStruct [VString version; VList assets; VString execution_strategy] =>
      l ← mapM host_asset_of_val assets; Some (mk_config version l execution_strategy)
  | _ => None
  end.

(** [serde_json::from_str::<strategies::RiscVotingProtocolConfig>] and the
    host's, for [apps::RiscVotingProtocolConfig]. *)
Definition config_of_text (s : string) : option RiscVotingProtocolConfig :=
  v ← json_from_str RiscVotingProtocolConfig_ty s; config_of_val v.
Definition host_config_of_text (s : string) : option HostConfig :=
  v ← json_from_str host_RiscVotingProtocolConfig_ty s; host_config_of_val v.

Definition serde_config : SerdeConfig := {| config_from_str := config_of_text |}.

(** ** The shipped configuration *)

(** Text of a file, with its double quotes written as backquotes. *)
Definition file_text (s : string) : string :=
  String.string_of_list_ascii
    ((λ c, if Ascii.eqb c "`" then quote else c) <$> String.list_ascii_of_string s).

Definition TOKEN_TEXT : string := "185Bb1cca668C474214e934028A3e4BB7A5E6525".
Definition REGISTRY_TEXT : string := "32Bb2dB7826cf342743fe80832Fe4DF725879C2D".

Definition RiscVotingProtocolConfig_txt : string :=
  (file_text ("{`votingProtocolVersion`:`1`,`assets`:[{`contract`:`0x185Bb1cca668C474214e934028A3e4BB7A5E6525`,`chainId`:11155111,`votingPowerStrategy`:`BalanceOf`,`delegation`:{`contract`:`0x32Bb2dB7826cf342743fe80832Fe4DF725879C2D`,`strategy`:`SplitDelegation`}}],`executionStrategy`:`MajorityVoting`}") +:+
   String "010" "")%string.

Definition shipped_val : Val :=
  VStruct [VString "1";
    VList [VStruct [VAddress ("0x" +:+ TOKEN_TEXT); VInt 11155111; VString "BalanceOf";
                    VStruct [VAddress ("0x" +:+ REGISTRY_TEXT); VString "SplitDelegation"]]];
    VString "MajorityVoting"]%string.

Lemma shipped_text :
  RiscVotingProtocolConfig_txt = json_text RiscVotingProtocolConfig_ty shipped_val ["010"%char].
Proof. vm_compute. reflexivity. Qed.

Context {json_ok : SerdeJsonOk json} {text_ok : AddressTextOk text}.

(** The structs of the two crates are read alike from any text. *)
Lemma host_config_text s : host_config_of_text s = config_of_text s.
Proof. done. Qed.

(** A node that decodes the configuration of the host crate reads what the
    guest reads. *)
Lemma same_config_node {steel : Steel} (node : HostNode) :
  (∀ s, host_config_from_str s = host_config_of_text s) → @SameConfig steel serde_config node.
Proof. intros Hn s. rewrite Hn. apply host_config_text. Qed.

(** ** The shipped configuration works *)

Definition TOKEN : Address := mk_fixed
  (be_bytes 20 0x185Bb1cca668C474214e934028A3e4BB7A5E6525) (length_be_bytes 20 _).
Definition REGISTRY : Address := mk_fixed
  (be_bytes 20 0x32Bb2dB7826cf342743fe80832Fe4DF725879C2D) (length_be_bytes 20 _).
Definition shipped_asset : Asset :=
  mk_asset TOKEN 11155111 "BalanceOf" (mk_delegation_object REGISTRY "SplitDelegation").

Lemma shipped_decoded :
  config_of_text RiscVotingProtocolConfig_txt =
  Some (mk_config "1" [shipped_asset] "MajorityVoting").
Proof.
  unfold config_of_text. rewrite shipped_text, json_print by (vm_compute; reflexivity).
  unfold shipped_val. cbn [mbind option_bind config_of_val mapM asset_of_val delegation_of_val].
  rewrite (address_of_hex TOKEN_TEXT TOKEN), (address_of_hex REGISTRY_TEXT REGISTRY)
    by (vm_compute; reflexivity). reflexivity.
Qed.

Lemma own_balance {alloy : AlloyText} env voter additional p r :
  bytes_from_str additional = Some (fb_bytes voter) →
  registry_of (genv_view env) shipped_asset voter = Some r → gdr_delegations r = [] →
  genv_view env TOKEN (CallERC20 (balanceOfCall voter)) = Some p → u256_wf p →
  total_voting_power (context_default env) voter additional [shipped_asset] = Ret p.
Proof.
  intros Hdata Hr Hnil Hp Hwf. apply total_voting_power_Ret. exists [[p]]. split.
  - constructor; [|constructor]. split; [done|].
    exists [voter], [{| delegate := voter; ratio := 1 |}]. split_and!.
    + by rewrite Hdata; cbn; rewrite app_nil_r.
    + constructor; [by eapply delegates_none|constructor].
    + constructor; [|constructor]. exists p. simpl. rewrite Z.div_1_r.
      split_and!; [by apply power_balance_of|done|done].
  - simpl. rewrite Z.add_0_r, Z.mod_small; [done|]. exact Hwf.
Qed.

(** The host's preflight for a voter who delegated to nobody. *)
Lemma own_preflight {alloy : AlloyText} {steel : Steel} henv voter additional r log :
  bytes_from_str additional = Some (fb_bytes voter) →
  registry_of (henv_view henv) shipped_asset voter = Some r → gdr_delegations r = [] →
  (host_total_voting_power (host_context_default henv) voter additional [shipped_asset] log).1 =
    Panics IndexOutOfBounds.
Proof.
  intros Hdata Hr Hnil. unfold host_total_voting_power, host_asset_voting_power.
  cbn [foldM]. unfold mbind, host_bind, stateful_bind, lift. rewrite Hdata. cbn [unwrap].
  change (host_process_delegation_strategy (host_context_default henv) voter shipped_asset
    (fb_bytes voter) log) with
    (host_split_delegation_process henv voter shipped_asset (fb_bytes voter) log).
  by rewrite (host_split_undelegated _ _ _ _ r).
Qed.

(** C22: The configuration that the repository ships.  Guest and host decode
    the text of the file to one configuration, whose strategies are
    registered.  With it a voter who delegated to nobody and names only
    themselves has exactly their token balance as power in the guest, and an
    execution is decided by the majority strategy; but the publisher panics in
    the preflight of that very vote, before it proves anything. *)
Theorem shipped_config_votes {alloy : AlloyText} {steel : Steel} :
  ∃ cfg, config_of_text RiscVotingProtocolConfig_txt = Some cfg ∧
    host_config_of_text RiscVotingProtocolConfig_txt = Some cfg ∧
    (∀ voter additional r,
      bytes_from_str additional = Some (fb_bytes voter) → gdr_delegations r = [] →
      let call := CallRegistry {| gd_context := address_to_string TOKEN; gd_account := voter |} in
      (∀ env p, genv_view env REGISTRY call = Some r →
         genv_view env TOKEN (CallERC20 (balanceOfCall voter)) = Some p → u256_wf p →
         total_voting_power (context_default env) voter additional (cfg_assets cfg) = Ret p) ∧
      (∀ henv log, henv_view henv REGISTRY call = Some r →
         (host_total_voting_power (host_context_default henv) voter additional
            (cfg_assets cfg) log).1 = Panics IndexOutOfBounds)) ∧
    ∀ env total_supply tally,
      process_execution_strategy (context_default env) (cfg_execution_strategy cfg)
        total_supply tally = Ret (majority_proof_execution env total_supply tally).
Proof.
  eexists. split; [apply shipped_decoded|].
  split; [rewrite host_config_text; apply shipped_decoded|]. split; [|reflexivity].
  intros voter additional r Hd Hnil. split.
  - intros env p Hr. by apply (own_balance env voter additional p r).
  - intros henv log Hr. by apply (own_preflight henv voter additional r log).
Qed.
End Config.

(** ** A concrete reader *)

Module ConfigFixture.
Definition text : AddressText := {|
  address_of_text s := unhex (Fixture.strip_0x s) ≫= fixed_try_from
|}.
Lemma address_text_ok : AddressTextOk text.
Proof.
  intros digits a Hd. cbn [address_of_text text].
  change (Fixture.strip_0x ("0x" +:+ digits)) with digits. rewrite Hd. simpl.
  apply fixed_try_from_bytes.
Qed.
#[export] Existing Instances JsonFixture.json JsonFixture.json_ok text address_text_ok Fixture.alloy.

(** A chain with the shipped token and registry, where everybody has ten. *)
Definition env : GuestEvmEnv := {|
  genv_view := λ addr c,
    match c with
    | CallERC20 (balanceOfCall _) => if bool_decide (addr = TOKEN) then Some 10 else None
    | CallRegistry _ => if bool_decide (addr = REGISTRY) then Some (mk_gdr [] 0) else None
    | _ => None
    end;
  genv_number := 1; genv_commitment := Fixture.commitment
|}.
End ConfigFixture.

Section Witnesses.
Import ConfigFixture.

Lemma shipped_config_votes_witness :
  ∃ cfg, config_of_text RiscVotingProtocolConfig_txt = Some cfg ∧
    total_voting_power (context_default env) Fixture.alice
      (to_hex_string (fb_bytes Fixture.alice)) (cfg_assets cfg) = Ret 10.
Proof.
  destruct (shipped_config_votes (steel := VotingFixture.steel)) as (cfg & Hcfg & _ & Hvotes & _).
  exists cfg. split; [exact Hcfg|].
  apply (Hvotes Fixture.alice _ (mk_gdr [] 0)); [vm_compute; reflexivity..|by split].
Defined.
End Witnesses.
