(* ===== verification/Server.v ===== *)
(** * The vote server ([server/src/main.rs] and its migration)

    Five HTTP handlers over the table [votes], one of which starts the
    publisher.  The SQL statements of the handlers are given their meaning on
    a model of the table; the state of the pool, the process environment and
    the started program are arguments. *)

From stdpp Require Import base gmap list strings pretty sorting.
From Stdlib Require Import ZArith Lia Strings.Byte.
From S2P Require Import Prelude Machine.
#[local] Open Scope Z_scope.

(** ** Data *)

Record VoteNew : Type := mk_vote_new {
  vn_account : string;
  vn_option : Z;        (* [i16] *)
  vn_proposal_id : Z;   (* [i64] *)
  vn_dao : string
}.

Record Vote : Type := mk_vote {
  vote_id : Z;          (* [i32] *)
  vote_account : string;
  vote_option : Z;
  vote_proposal_id : Z;
  vote_dao : string
}.

Record VotingParams : Type := mk_voting_params {
  vp_block_number : string;
  vp_voter_signature : string;
  vp_voter : string;
  vp_dao_address : string;
  vp_proposal_id : string;
  vp_direction : Z;     (* [u8] *)
  vp_balance : string;
  vp_config_contract : string;
  vp_token_address : string;
  vp_additional_delegation_data : string
}.

#[export] Instance Vote_eq_dec : EqDecision Vote.
Proof. solve_decision. Defined.

Definition i16_wf (z : Z) : Prop := - 2 ^ 15 <= z < 2 ^ 15.
Definition i64_wf (z : Z) : Prop := - 2 ^ 63 <= z < 2 ^ 63.

(** ** The table [votes]

    The rows by primary key, and the sequence behind [id serial]. *)

Record Db : Type := mk_db {
  db_votes : gmap Z Vote;
  db_next_id : Z
}.

(** [CREATE TABLE votes (id serial PRIMARY KEY, ..)] *)
Definition db_init : Db := {| db_votes := ∅; db_next_id := 1 |}.

Definition SERIAL_MAX : Z := 2147483647.

(** PostgreSQL text holds no NUL. *)
Definition pg_text (s : string) : bool :=
  forallb (λ b, negb (bool_decide (b = x00))) (String.list_byte_of_string s).

(** [SELECT * FROM votes WHERE id = $1], with [fetch_one]. *)
Definition sql_select (id : Z) (db : Db) : result Vote * Db :=
  (match db_votes db !! id with
   | Some v => Ok v
   | None => Err "no rows returned by a query that expected to return at least one row"
   end, db).

(** Newest first. *)
Definition vote_desc (v w : Vote) : Prop := vote_id w <= vote_id v.
#[export] Instance vote_desc_dec : RelDecision vote_desc.
Proof. intros v w. unfold vote_desc. apply _. Defined.
#[export] Instance vote_desc_total : Total vote_desc.
Proof. intros v w. unfold vote_desc. lia. Qed.
#[export] Instance vote_desc_trans : Transitive vote_desc.
Proof. intros u v w. unfold vote_desc. lia. Qed.

(** [SELECT * FROM votes ORDER BY id DESC] *)
Definition sql_select_all (db : Db) : result (list Vote) * Db :=
  (Ok (merge_sort vote_desc (map_to_list (db_votes db)).*2), db).

(** [INSERT INTO votes(account, option, proposal_id, dao) VALUES (..) RETURNING ..] *)
Definition sql_insert (v : VoteNew) (db : Db) : result Vote * Db :=
  if negb (pg_text (vn_account v) && pg_text (vn_dao v)) then
    (Err "invalid byte sequence for encoding", db)
  else if db_next_id db >? SERIAL_MAX then (Err "nextval: reached maximum value of sequence", db)
  else
    let id := db_next_id db in
    let row := mk_vote id (vn_account v) (vn_option v) (vn_proposal_id v) (vn_dao v) in
    (Ok row, {| db_votes := <[id := row]> (db_votes db); db_next_id := id + 1 |}).

(** [DELETE FROM votes WHERE id = $1] *)
Definition sql_delete (id : Z) (db : Db) : result unit * Db :=
  (Ok tt, {| db_votes := delete id (db_votes db); db_next_id := db_next_id db |}).

(** The state of the pool when a statement is sent: an error, or a connection. *)
Definition Pool : Type := option string.

Definition query {A} (pool : Pool) (statement : Db → result A * Db) (db : Db) : result A * Db :=
  match pool with
  | Some e => (Err e, db)
  | None => statement db
  end.

(** ** Starting the publisher *)

Record Command : Type := mk_command {
  cmd_program : string;
  cmd_current_dir : string;
  cmd_env : list (string * string);
  cmd_args : list string
}.
Record Output : Type := mk_output {
  out_success : bool;
  out_stdout : list byte;
  out_stderr : list byte
}.

(** [&s[n..]]: panics unless [n] is a character boundary of the UTF-8 text. *)
Definition is_char_boundary (l : list byte) (n : nat) : bool :=
  match l !! n with
  | Some b => negb ((128 <=? Z_of_byte b) && (Z_of_byte b <? 192))
  | None => (n =? length l)%nat
  end.
Definition str_from (n : nat) (s : string) : outcome string :=
  let l := String.list_byte_of_string s in
  if is_char_boundary l n then Ret (String.string_of_list_byte (drop n l))
  else Panics IndexOutOfBounds.

(** ** Handlers *)

Record AppState : Type := mk_app {
  app_db : Db;
  app_commands : list Command   (* the programs it tried to start *)
}.

(** [web::Data<AppState>] is shared: a handler runs on the state and leaves it. *)
Definition handler (A : Type) : Type := stateful AppState (result A).

Definition on_db {A} (pool : Pool) (statement : Db → result A * Db) : handler A := λ s,
  let '(r, db) := query pool statement (app_db s) in
  (Ret r, {| app_db := db; app_commands := app_commands s |}).

(** Every error of the query is a bad request. *)
Definition retrieve_vote (pool : Pool) (id : Z) : handler Vote := on_db pool (sql_select id).
Definition retrieve_all_votes (pool : Pool) : handler (list Vote) := on_db pool sql_select_all.
Definition add_vote (pool : Pool) (v : VoteNew) : handler Vote := on_db pool (sql_insert v).

(** Here an error of the query panics. *)
Definition delete_vote (pool : Pool) (id : Z) : handler unit := λ s,
  let '(r, db) := query pool (sql_delete id) (app_db s) in
  (_ ← unwrap_result r; Ret (Ok tt), {| app_db := db; app_commands := app_commands s |}).

Section Publisher.
(** [std::env::var] and the operating system's answer to [Command::output]. *)
Context (env_var : string → option string) (spawn : Command → result Output).

Definition publisher_command (payload : VotingParams) : outcome Command :=
  voter_signature ← str_from 2 (vp_voter_signature payload);
  api_key ← unwrap (env_var "BONSAI_API_KEY");
  api_url ← unwrap (env_var "BONSAI_API_URL");
  rpc_url ← unwrap (env_var "RPC_URL");
  private_key ← unwrap (env_var "ETH_WALLET_PRIVATE_KEY");
  let chain_id := default "11155111" (env_var "CHAIN_ID") in
  Ret {| cmd_program := "./publisher";
         cmd_current_dir := "./target/release/";
         cmd_env := [("BONSAI_API_KEY", api_key); ("BONSAI_API_URL", api_url);
                     ("RPC_URL", rpc_url); ("ETH_WALLET_PRIVATE_KEY", private_key)];
         cmd_args := [
           ("--chain-id=" +:+ chain_id)%string;
           ("--rpc-url=" +:+ rpc_url)%string;
           ("--block-number=" +:+ vp_block_number payload)%string;
           ("--voter-signature=" +:+ voter_signature)%string;
           ("--voter=" +:+ vp_voter payload)%string;
           ("--dao-address=" +:+ vp_dao_address payload)%string;
           ("--proposal-id=" +:+ vp_proposal_id payload)%string;
           ("--direction=" +:+ pretty (vp_direction payload))%string;
           ("--balance=" +:+ vp_balance payload)%string;
           ("--config-contract=" +:+ vp_config_contract payload)%string;
           ("--token=" +:+ vp_token_address payload)%string;
           ("--additional-delegation-data=" +:+ vp_additional_delegation_data payload)%string;
           "--testing=0"] |}.

(** The status of the program is computed and dropped. *)
Definition proof_vote (payload : VotingParams) : handler unit := λ s,
  match publisher_command payload with
  | Panics p => (Panics p, s)
  | Ret cmd =>
      let s' := {| app_db := app_db s; app_commands := app_commands s ++ [cmd] |} in
      match spawn cmd with
      | Err _ => (Panics (PanicMsg "Failed to execute command"), s')
      | Ok output => (let _success := out_success output in Ret (Ok tt), s')
      end
  end.

(** ** Requests *)

Inductive Request : Type :=
| RetrieveVote (id : Z)
| RetrieveAllVotes
| AddVote (v : VoteNew)
| DeleteVote (id : Z)
| ProofVote (payload : VotingParams).

(** The state after one request, whatever it answers. *)
Definition serve (pr : Pool * Request) (s : AppState) : AppState :=
  let '(pool, r) := pr in
  match r with
  | RetrieveVote id => (retrieve_vote pool id s).2
  | RetrieveAllVotes => (retrieve_all_votes pool s).2
  | AddVote v => (add_vote pool v s).2
  | DeleteVote id => (delete_vote pool id s).2
  | ProofVote payload => (proof_vote payload s).2
  end.

Definition serve_all (rs : list (Pool * Request)) (s : AppState) : AppState :=
  foldl (λ s r, serve r s) s rs.
End Publisher.

Definition app_init : AppState := {| app_db := db_init; app_commands := [] |}.

(** ** What a request may do to the table *)

Inductive db_step (db : Db) : Db → Prop :=
| step_same : db_step db db
| step_insert v :
    db_next_id db <= SERIAL_MAX →
    db_step db {| db_votes := <[db_next_id db := mk_vote (db_next_id db) (vn_account v)
                                  (vn_option v) (vn_proposal_id v) (vn_dao v)]> (db_votes db);
                  db_next_id := db_next_id db + 1 |}
| step_delete id :
    db_step db {| db_votes := delete id (db_votes db); db_next_id := db_next_id db |}.

(** Rows sit under their own id, and every id used is below the sequence. *)
Definition db_wf (db : Db) : Prop :=
  1 <= db_next_id db <= SERIAL_MAX + 1 ∧
  map_Forall (λ id v, vote_id v = id ∧ 1 <= id < db_next_id db) (db_votes db).

Lemma db_init_wf : db_wf db_init.
Proof. split; [done|apply map_Forall_empty]. Qed.

Lemma db_step_wf db db' : db_step db db' → db_wf db → db_wf db'.
Proof.
  intros [|v Hmax|id] [Hn Hv]; [done|..]; (split; simpl; [lia|]).
  - apply map_Forall_insert_2; [simpl; lia|]. eapply map_Forall_impl; [exact Hv|].
    simpl. intros; lia.
  - by apply map_Forall_delete.
Qed.

Lemma db_step_next db db' : db_step db db' → db_next_id db <= db_next_id db'.
Proof. intros [|v Hmax|id]; simpl; lia. Qed.

(** A row missing under an id that was already given out stays missing. *)
Lemma db_step_gone db db' id :
  db_step db db' → id < db_next_id db → db_votes db !! id = None → db_votes db' !! id = None.
Proof.
  intros [|v Hmax|id'] Hid Hnone; simpl; [done|..].
  - by rewrite lookup_insert_ne by lia.
  - rewrite lookup_delete_None. by right.
Qed.

Create HintDb server.
#[export] Hint Resolve db_init_wf db_step_wf : server.

Section Requests.
Context (env_var : string → option string) (spawn : Command → result Output).
Abbreviation serve := (serve env_var spawn).
Abbreviation serve_all := (serve_all env_var spawn).

Lemma proof_vote_db payload s : app_db (proof_vote env_var spawn payload s).2 = app_db s.
Proof. unfold proof_vote. repeat case_match; done. Qed.

Lemma serve_step r s : db_step (app_db s) (app_db (serve r s)).
Proof.
  destruct r as [[e|] []]; simpl; try rewrite proof_vote_db; try constructor.
  unfold add_vote, on_db, query, sql_insert. repeat case_match; simplify_eq; simpl; constructor. lia.
Qed.

Lemma serve_all_app rs rs' s : serve_all (rs ++ rs') s = serve_all rs' (serve_all rs s).
Proof. apply foldl_app. Qed.

(** A property of tables that no step loses holds after any requests. *)
Lemma serve_all_ind (P : Db → Prop) rs s :
  (∀ db db', db_step db db' → P db → P db') → P (app_db s) → P (app_db (serve_all rs s)).
Proof.
  intros Hstep. revert s. induction rs as [|r rs IH]; intros s Hs; [done|].
  apply IH. eapply Hstep; [apply serve_step|done].
Qed.

Lemma serve_all_wf rs s : db_wf (app_db s) → db_wf (app_db (serve_all rs s)).
Proof. apply serve_all_ind. eauto with server. Qed.

Lemma reachable_wf rs : db_wf (app_db (serve_all rs app_init)).
Proof. apply serve_all_wf, db_init_wf. Qed.

Lemma serve_all_next rs s : db_next_id (app_db s) <= db_next_id (app_db (serve_all rs s)).
Proof.
  apply (serve_all_ind (λ db, db_next_id (app_db s) <= db_next_id db)); [|done].
  intros db db' Hstep%db_step_next. lia.
Qed.

Lemma serve_all_gone rs s id :
  id < db_next_id (app_db s) → db_votes (app_db s) !! id = None →
  db_votes (app_db (serve_all rs s)) !! id = None.
Proof.
  intros Hid Hnone.
  apply (serve_all_ind (λ db, id < db_next_id db ∧ db_votes db !! id = None)); [|done].
  intros db db' Hstep [Hid' Hn]. split; [apply db_step_next in Hstep; lia|].
  by eapply db_step_gone.
Qed.

(** A row stays until a request deletes its id. *)
Lemma serve_keeps r s id v :
  db_wf (app_db s) → r.2 ≠ DeleteVote id → db_votes (app_db s) !! id = Some v →
  db_votes (app_db (serve r s)) !! id = Some v.
Proof.
  intros [_ Hwf] Hr Hv. pose proof (Hwf _ _ Hv) as [_ Hid].
  destruct r as [[e|] [ | |w|id'|]]; simpl in *; try rewrite proof_vote_db; try done.
  - unfold add_vote, on_db, query, sql_insert. repeat case_match; simplify_eq; simpl; try done.
    rewrite lookup_insert_ne by lia. done.
  - rewrite lookup_delete_ne; [done|]. congruence.
Qed.

Lemma serve_all_keeps rs s id v :
  db_wf (app_db s) → Forall (λ r, r.2 ≠ DeleteVote id) rs → db_votes (app_db s) !! id = Some v →
  db_votes (app_db (serve_all rs s)) !! id = Some v.
Proof.
  intros Hwf Hrs. revert s Hwf. induction Hrs as [|r rs Hr Hrs IH]; intros s Hwf Hv; [done|].
  apply IH; [eapply db_step_wf; [apply serve_step|done]|]. by apply serve_keeps.
Qed.
End Requests.

Lemma add_vote_Ok pool v s row s' :
  add_vote pool v s = (Ret (Ok row), s') →
  row = mk_vote (db_next_id (app_db s)) (vn_account v) (vn_option v) (vn_proposal_id v) (vn_dao v) ∧
  db_votes (app_db s') = <[vote_id row := row]> (db_votes (app_db s)) ∧
  db_next_id (app_db s') = vote_id row + 1 ∧ db_next_id (app_db s) <= SERIAL_MAX.
Proof.
  unfold add_vote, on_db, query, sql_insert. repeat case_match; intros; simplify_eq; simpl.
  split_and!; try done. lia.
Qed.

Lemma retrieve_vote_lookup id s v :
  retrieve_vote None id s = (Ret (Ok v), s) ↔ db_votes (app_db s) !! id = Some v.
Proof.
  unfold retrieve_vote, on_db, query, sql_select. destruct s as [db cs]. simpl.
  destruct (db_votes db !! id); naive_solver.
Qed.

(** ** The listing *)

Lemma votes_elem db v :
  db_wf db → v ∈ merge_sort vote_desc (map_to_list (db_votes db)).*2 ↔
  db_votes db !! vote_id v = Some v.
Proof.
  intros [_ Hwf]. rewrite (merge_sort_Permutation vote_desc), list_elem_of_fmap. split.
  - intros ([id w] & -> & Hw%elem_of_map_to_list). simpl. by destruct (Hwf _ _ Hw) as [-> _].
  - intros Hv. exists (vote_id v, v). by rewrite elem_of_map_to_list.
Qed.

Lemma votes_NoDup db : db_wf db → NoDup (merge_sort vote_desc (map_to_list (db_votes db)).*2).
Proof.
  intros [_ Hwf]. rewrite (merge_sort_Permutation vote_desc).
  apply NoDup_fmap_2_strong; [|apply NoDup_map_to_list].
  intros [i v] [j w] Hi%elem_of_map_to_list Hj%elem_of_map_to_list. simpl. intros ->.
  destruct (Hwf _ _ Hi) as [<- _], (Hwf _ _ Hj) as [<- _]. done.
Qed.

Lemma desc_strict (l : list Vote) :
  (∀ v w, v ∈ l → w ∈ l → vote_id v = vote_id w → v = w) → NoDup l →
  StronglySorted vote_desc l → StronglySorted (λ v w, vote_id w < vote_id v) l.
Proof.
  intros Hinj Hnd Hs. induction Hs as [|v l Hs IH Hall]; [constructor|].
  apply NoDup_cons in Hnd as [Hv Hnd]. constructor.
  - apply IH; [|done]. intros u w Hu Hw. apply Hinj; by right.
  - rewrite Forall_forall in Hall |- *. intros w Hw. specialize (Hall w Hw).
    destruct (decide (vote_id w = vote_id v)) as [Heq|]; [|unfold vote_desc in Hall; lia].
    apply Hinj in Heq as ->; [done|by right|by left].
Qed.

Lemma votes_sorted db :
  db_wf db → StronglySorted (λ v w, vote_id w < vote_id v)
    (merge_sort vote_desc (map_to_list (db_votes db)).*2).
Proof.
  intros Hwf. apply desc_strict; [|by apply votes_NoDup|apply (StronglySorted_merge_sort _)].
  intros v w Hv%votes_elem Hw%votes_elem Heq; [|done..]. rewrite Heq, Hw in Hv. by injection Hv.
Qed.

(** ** Concrete requests *)

Module ServerFixture.
Definition env_var (name : string) : option string :=
  if bool_decide (name = "CHAIN_ID") then None else Some (name +:+ "-value")%string.
(** Programs that run and fail. *)
Definition spawn_fails (_ : Command) : result Output := Ok (mk_output false [] []).
Definition spawn_works (_ : Command) : result Output := Ok (mk_output true [] []).

Definition vote_of (account : string) (option : Z) : VoteNew := mk_vote_new account option 4 "0xda0".
Definition params (signature : string) : VotingParams :=
  mk_voting_params "7" signature "0x03" "0xda0" "4" 2 "25" "0x0c" "0x0e" "0x02".

Definition run (rs : list (Pool * Request)) : AppState :=
  serve_all env_var spawn_works rs app_init.
Definition three : list (Pool * Request) :=
  [(None, AddVote (vote_of "0xa" 1)); (None, AddVote (vote_of "0xb" 2));
   (Some "pool timed out"%string, AddVote (vote_of "0xc" 3)); (None, DeleteVote 1);
   (None, AddVote (vote_of "0xd" 3)); (None, ProofVote (params "0x1122"))].

Example three_listed :
  (retrieve_all_votes None (run three)).1 =
  Ret (Ok [mk_vote 3 "0xd" 3 4 "0xda0"; mk_vote 2 "0xb" 2 4 "0xda0"]).
Proof. vm_compute. reflexivity. Qed.
Example short_signature_panics :
  (proof_vote env_var spawn_works (params "0") app_init).1 = Panics IndexOutOfBounds.
Proof. vm_compute. reflexivity. Qed.
End ServerFixture.

(** ** Properties *)

(** C30: after any sequence of requests, with any failures of the pool, every
    row sits under its own id, the ids lie between 1 and the next value of
    the sequence, and the sequence stays within [i32]; the full listing
    succeeds, is strictly descending by id, and holds exactly the votes that
    can be retrieved one by one. *)
Theorem server_votes_invariant env_var spawn rs :
  let s := serve_all env_var spawn rs app_init in
  db_wf (app_db s) ∧
  ∃ l, retrieve_all_votes None s = (Ret (Ok l), s) ∧
    StronglySorted (λ v w, vote_id w < vote_id v) l ∧
    ∀ v, v ∈ l ↔ retrieve_vote None (vote_id v) s = (Ret (Ok v), s).
Proof.
  intros s. pose proof (reachable_wf env_var spawn rs) as Hwf. fold s in Hwf. clearbody s. split; [done|].
  eexists. split; [unfold retrieve_all_votes, on_db; simpl; by destruct s|].
  split; [by apply votes_sorted|]. intros v. rewrite retrieve_vote_lookup. by apply votes_elem.
Qed.

(** A vote that was added is retrieved unchanged under the id returned,
    after any further requests that do not delete that id. *)
Theorem add_vote_retrieve env_var spawn before pool v row s after :
  add_vote pool v (serve_all env_var spawn before app_init) = (Ret (Ok row), s) →
  Forall (λ r, r.2 ≠ DeleteVote (vote_id row)) after →
  let s' := serve_all env_var spawn after s in
  retrieve_vote None (vote_id row) s' = (Ret (Ok row), s') ∧
  vote_account row = vn_account v ∧ vote_option row = vn_option v ∧
  vote_proposal_id row = vn_proposal_id v ∧ vote_dao row = vn_dao v.
Proof.
  intros Hadd Hafter s'. pose proof (add_vote_Ok _ _ _ _ _ Hadd) as (-> & Hvotes & _).
  split; [|done]. apply retrieve_vote_lookup, serve_all_keeps; [|done|].
  - pose proof (serve_step env_var spawn (pool, AddVote v)
      (serve_all env_var spawn before app_init)) as Hstep. simpl in Hstep. rewrite Hadd in Hstep.
    eapply db_step_wf; [exact Hstep|apply reachable_wf].
  - rewrite Hvotes. by rewrite lookup_insert_eq.
Qed.

Lemma add_vote_retrieve_witness :
  let s' := ServerFixture.run
    [(None, AddVote (ServerFixture.vote_of "0xa" 1)); (None, DeleteVote 9)] in
  (retrieve_vote None 1 s').1 = Ret (Ok (mk_vote 1 "0xa" 1 4 "0xda0")).
Proof.
  destruct (add_vote_retrieve ServerFixture.env_var ServerFixture.spawn_works [] None
    (ServerFixture.vote_of "0xa" 1) (mk_vote 1 "0xa" 1 4 "0xda0") _ [(None, DeleteVote 9)]
    (eq_refl _)) as [H _]; [by repeat constructor|].
  exact (f_equal fst H).
Defined.

(** Ids are never reused: of two votes added in any run, the later has
    the greater id, also when the first was deleted in between. *)
Theorem add_vote_fresh env_var spawn pool pool' v v' row row' s s' s'' between :
  add_vote pool v s = (Ret (Ok row), s') →
  add_vote pool' v' (serve_all env_var spawn between s') = (Ret (Ok row'), s'') →
  vote_id row < vote_id row'.
Proof.
  intros (_ & _ & Hn & _)%add_vote_Ok (-> & _)%add_vote_Ok. simpl.
  pose proof (serve_all_next env_var spawn between s'). lia.
Qed.

Lemma add_vote_fresh_witness : vote_id (mk_vote 1 "0xa" 1 4 "0xda0") < 2.
Proof.
  apply (add_vote_fresh ServerFixture.env_var ServerFixture.spawn_works None None
    (ServerFixture.vote_of "0xa" 1) (ServerFixture.vote_of "0xb" 2) _
    (mk_vote 2 "0xb" 2 4 "0xda0") app_init _ _ [(None, DeleteVote 1)] (eq_refl _) (eq_refl _)).
Defined.

(** A deleted vote is gone for good: retrieving it is a bad request after
    any further requests, because no later vote takes its id. *)
Theorem delete_vote_final env_var spawn id v s s' after pool :
  db_wf (app_db s) → retrieve_vote None id s = (Ret (Ok v), s) →
  delete_vote None id s = (Ret (Ok tt), s') →
  ∃ e s'', retrieve_vote pool id (serve_all env_var spawn after s') = (Ret (Err e), s'').
Proof.
  intros [_ Hwf] Hv%retrieve_vote_lookup [= <-]. apply Hwf in Hv as [_ Hid].
  unfold retrieve_vote, on_db, query. destruct pool as [e|]; [by eexists _, _|]. unfold sql_select.
  rewrite serve_all_gone; [by eexists _, _|simpl; lia|]. simpl. apply lookup_delete_eq.
Qed.

Lemma delete_vote_final_witness :
  ∃ e s'', retrieve_vote None 1 (serve_all ServerFixture.env_var ServerFixture.spawn_works
    [(None, AddVote (ServerFixture.vote_of "0xb" 2))]
    (delete_vote None 1 (ServerFixture.run [(None, AddVote (ServerFixture.vote_of "0xa" 1))])).2) =
    (Ret (Err e), s'').
Proof.
  apply (delete_vote_final ServerFixture.env_var ServerFixture.spawn_works 1
    (mk_vote 1 "0xa" 1 4 "0xda0")
    (ServerFixture.run [(None, AddVote (ServerFixture.vote_of "0xa" 1))]));
    [apply reachable_wf|reflexivity|reflexivity].
Defined.

(** [proof_vote] answers only when the program could be started, and then
    always with success, whatever the program's exit status: a vote that was
    not proved or not accepted looks the same to the client. *)
Theorem proof_vote_answers env_var spawn payload s r s' :
  proof_vote env_var spawn payload s = (Ret r, s') ↔
  r = Ok tt ∧ ∃ cmd success out err,
    publisher_command env_var payload = Ret cmd ∧ spawn cmd = Ok (mk_output success out err) ∧
    s' = {| app_db := app_db s; app_commands := app_commands s ++ [cmd] |}.
Proof.
  unfold proof_vote. split.
  - destruct (publisher_command env_var payload) as [cmd|]; [|done].
    destruct (spawn cmd) as [[success out err]|] eqn:Hs; [|done]. intros [= <- <-].
    split; [done|]. by exists cmd, success, out, err.
  - intros (-> & cmd & success & out & err & -> & -> & ->). done.
Qed.

(** The publisher is started exactly when the signature has a character
    boundary after two bytes and the four required variables are set; the
    signature it is given is the submitted one less those two bytes. *)
Theorem publisher_command_spec env_var payload :
  ((∃ cmd, publisher_command env_var payload = Ret cmd) ↔
   is_char_boundary (String.list_byte_of_string (vp_voter_signature payload)) 2 = true ∧
   Forall (λ name, is_Some (env_var name))
     ["BONSAI_API_KEY"; "BONSAI_API_URL"; "RPC_URL"; "ETH_WALLET_PRIVATE_KEY"]%string) ∧
  ∀ cmd, publisher_command env_var payload = Ret cmd →
    (∃ sig, ("--voter-signature=" +:+ sig)%string ∈ cmd_args cmd ∧
      String.list_byte_of_string sig =
        drop 2 (String.list_byte_of_string (vp_voter_signature payload))) ∧
    Forall (λ kv, env_var kv.1 = Some kv.2) (cmd_env cmd).
Proof.
  unfold publisher_command, str_from. destruct (is_char_boundary _ 2); simpl.
  2:{ split; [|done]. by split; [intros [? ?]|intros [? _]]. }
  split.
  - split.
    + intros [cmd Hc]. do 4 (apply bind_Ret_inv in Hc as (? & ?%unwrap_Ret & Hc)).
      split; [done|]. repeat constructor; eauto.
    + intros [_ Hall]. rewrite !Forall_cons in Hall.
      destruct Hall as ([a ->] & [b ->] & [c ->] & [d ->] & _). by eexists.
  - intros cmd Hc. do 4 (apply bind_Ret_inv in Hc as (? & ?%unwrap_Ret & Hc)).
    injection Hc as <-. split; [|by repeat constructor].
    eexists. split; [|apply String.list_byte_of_string_of_list_byte]. set_solver.
Qed.
