(* ===== verification/CommandLine.v ===== *)
(** * From a request of the server to the arguments of the publisher

    The server starts the publisher with a command line built from a request;
    the publisher parses it into [Args].  The parser is the crate [clap]
    ([Clap]), configured by the attributes of the struct; the text of
    addresses, of 256-bit integers and of private keys is read by [alloy]
    ([CliText]).  Integers of the standard library are read here. *)

From stdpp Require Import base gmap list strings pretty.
From Stdlib Require Import ZArith Lia Strings.Byte.
From S2P Require Import Prelude Machine Ethereum VoteSignature Fixtures GuestIO VotingGuest.
From S2P Require Import ExecutionGuest Abi Seal HostStrategies Publisher HostFixture EndToEnd Server.
#[local] Open Scope Z_scope.

(** ** [u8::from_str], [u64::from_str]

    Decimal digits, at least one, after an optional plus sign, with the
    multiplication and the addition checked. *)

Definition digit_of_byte (b : byte) : option Z :=
  let z := Z_of_byte b in if (48 <=? z) && (z <=? 57) then Some (z - 48) else None.

Definition push_digit (bound : Z) (acc : option Z) (b : byte) : option Z :=
  n ← acc; d ← digit_of_byte b;
  let n' := n * 10 + d in if n' <? bound then Some n' else None.

Definition parse_uint (bound : Z) (s : string) : option Z :=
  match String.list_byte_of_string s with
  | [] | [x2b] => None
  | x2b :: l | l => foldl (push_digit bound) (Some 0) l
  end.
Definition parse_u8 : string → option Z := parse_uint (2 ^ 8).
Definition parse_u64 : string → option Z := parse_uint (2 ^ 64).
#[local] Arguments parse_u8 : simpl never.
#[local] Arguments parse_u64 : simpl never.

(** ** [clap] *)

(** A field with [#[clap(long)]]: its long name, the variable it falls back
    to with [env], and whether it must be given. *)
Record ArgSpec : Type := mk_arg {
  as_long : string;
  as_env : option string;
  as_required : bool
}.

(** [try_get_matches] of the declared arguments, with the process environment
    and its arguments: the text of each argument, or an error. *)
Class Clap : Type := {
  try_get_matches : list ArgSpec → (string → option string) → list string →
    option (string → option string)
}.

(** [FromStr] of the types of [alloy]. *)
Class CliText : Type := {
  address_from_str : string → option Address;
  u256_from_str : string → option U256;
  signer_from_str : string → option string
}.
Class CliTextOk (text : CliText) : Prop :=
  u256_from_str_wf s n : u256_from_str s = Some n → u256_wf n.

(** [--name=value] *)
Definition long_arg (kv : string * string) : string :=
  ("--" +:+ kv.1 +:+ "=" +:+ kv.2)%string.

(** What an argument gets: its value on the command line, else its variable. *)
Definition arg_value (env : string → option string) (kvs : list (string * string))
    (a : ArgSpec) : option string :=
  match find (λ kv, String.eqb kv.1 (as_long a)) kvs with
  | Some kv => Some kv.2
  | None => n ← as_env a; env n
  end.

(** Names are distinct and have no equality sign. *)
Definition specs_ok (specs : list ArgSpec) : Prop :=
  NoDup (as_long <$> specs) ∧
  Forall (λ a, x3d ∉ String.list_byte_of_string (as_long a)) specs.

(** Declared arguments, each given at most once as [--name=value], parse when
    no required one is left without a value. *)
Class ClapOk (clap : Clap) : Prop :=
  try_get_matches_long specs env kvs :
    specs_ok specs → NoDup kvs.*1 → kvs.*1 ⊆ (as_long <$> specs) →
    Forall (λ a, as_required a = true → is_Some (arg_value env kvs a)) specs →
    ∃ m, try_get_matches specs env (long_arg <$> kvs) = Some m ∧
      Forall (λ a, m (as_long a) = arg_value env kvs a) specs.

(** ** [Args::parse] of the publisher *)

Definition required (name : string) : ArgSpec := mk_arg name None true.

Definition publisher_specs : list ArgSpec := [
  required "chain-id";
  mk_arg "eth-wallet-private-key" (Some "ETH_WALLET_PRIVATE_KEY"%string) true;
  mk_arg "rpc-url" (Some "RPC_URL"%string) true;
  mk_arg "block-number" None false;
  required "voter-signature"; required "voter"; required "dao-address"; required "proposal-id";
  required "direction"; required "balance"; required "config-contract"; required "token";
  required "additional-delegation-data"; required "testing"].

(** The environment of a child: the parent's, with the command's settings. *)
Definition child_env (parent : string → option string) (cmd : Command) : string → option string :=
  foldl (λ env kv name, if bool_decide (name = kv.1) then Some kv.2 else env name)
    parent (cmd_env cmd).

Section Process.
Context {clap : Clap} {text : CliText}.

Definition args_from_matches (m : string → option string) : option Args :=
  chain_id ← m "chain-id"%string ≫= parse_u64;
  eth_wallet_private_key ← m "eth-wallet-private-key"%string ≫= signer_from_str;
  rpc_url ← m "rpc-url"%string;
  block_number ← match m "block-number"%string with
                 | Some s => Some <$> parse_u64 s
                 | None => Some None
                 end;
  voter_signature ← m "voter-signature"%string;
  voter ← m "voter"%string ≫= address_from_str;
  dao_address ← m "dao-address"%string ≫= address_from_str;
  proposal_id ← m "proposal-id"%string ≫= u256_from_str;
  direction ← m "direction"%string ≫= parse_u8;
  balance ← m "balance"%string ≫= u256_from_str;
  config_contract ← m "config-contract"%string ≫= address_from_str;
  token ← m "token"%string ≫= address_from_str;
  additional_delegation_data ← m "additional-delegation-data"%string;
  testing ← m "testing"%string ≫= parse_u8;
  Some (mk_args chain_id eth_wallet_private_key rpc_url block_number voter_signature voter
    dao_address proposal_id direction balance config_contract token additional_delegation_data
    testing).

Definition args_parse (env : string → option string) (argv : list string) : option Args :=
  m ← try_get_matches publisher_specs env argv; args_from_matches m.

(** The exit status of [main]: an error of [anyhow] is 1, a panic 101, and a
    command line that does not parse 2. *)
Definition exit_code (o : outcome (result unit)) : Z :=
  match o with Ret (Ok _) => 0 | Ret (Err _) => 1 | Panics _ => 101 end.

Definition publisher_process {alloy : AlloyText} {steel : Steel} {serde : ZkvmSerde}
    {node : HostNode} (parent : string → option string) (cmd : Command) (w : World) : Z * World :=
  match args_parse (child_env parent cmd) (cmd_args cmd) with
  | None => (2, w)
  | Some args => let '(o, w') := publisher_main args w in (exit_code o, w')
  end.

(** What a request asks the publisher to do. *)
Definition request_args (env_var : string → option string) (p : VotingParams) : option Args :=
  chain_id ← parse_u64 (default "11155111"%string (env_var "CHAIN_ID"%string));
  key ← env_var "ETH_WALLET_PRIVATE_KEY"%string ≫= signer_from_str;
  rpc_url ← env_var "RPC_URL"%string;
  block_number ← parse_u64 (vp_block_number p);
  voter ← address_from_str (vp_voter p);
  dao_address ← address_from_str (vp_dao_address p);
  proposal_id ← u256_from_str (vp_proposal_id p);
  balance ← u256_from_str (vp_balance p);
  config_contract ← address_from_str (vp_config_contract p);
  token ← address_from_str (vp_token_address p);
  Some (mk_args chain_id key rpc_url (Some block_number)
    (String.string_of_list_byte (drop 2 (String.list_byte_of_string (vp_voter_signature p))))
    voter dao_address proposal_id (vp_direction p) balance config_contract token
    (vp_additional_delegation_data p) 0).
End Process.

(** ** Lemmas *)

Lemma push_digit_range bound l acc n :
  (∀ k, acc = Some k → 0 <= k < bound) →
  foldl (push_digit bound) acc l = Some n → 0 <= n < bound.
Proof.
  revert acc. induction l as [|b l IH]; intros acc Hacc; [apply Hacc|]. apply IH. intros k.
  unfold push_digit. destruct acc as [a|]; [|done]. specialize (Hacc a eq_refl). simpl.
  unfold digit_of_byte. destruct ((48 <=? _) && _) eqn:Hd; [|done]. simpl.
  case_match eqn:Hb; [|done]. intros [= <-]. lia.
Qed.

Lemma parse_uint_range bound s n : 0 < bound → parse_uint bound s = Some n → 0 <= n < bound.
Proof.
  intros Hb. unfold parse_uint.
  assert (∀ l, foldl (push_digit bound) (Some 0) l = Some n → 0 <= n < bound) as Hl.
  { intros l. apply push_digit_range. intros k [= <-]. lia. }
  repeat case_match; try done; apply Hl.
Qed.

(** Every [u8] is printed so that it is read back. *)
Lemma parse_u8_pretty n : u8_wf n → parse_u8 (pretty n) = Some n.
Proof.
  intros Hn.
  assert (forallb (λ k : nat, bool_decide (parse_u8 (pretty (Z.of_nat k)) = Some (Z.of_nat k)))
    (seq 0 256) = true) as Hall by (vm_compute; reflexivity).
  eapply forallb_forall in Hall; [|apply in_seq; instantiate (1 := Z.to_nat n);
    unfold u8_wf in Hn; lia].
  apply bool_decide_eq_true in Hall. rewrite Z2Nat.id in Hall by (unfold u8_wf in Hn; lia). done.
Qed.

Lemma publisher_specs_ok : specs_ok publisher_specs.
Proof.
  split; [apply (bool_decide_unpack _); vm_compute; done|].
  repeat constructor; apply (bool_decide_unpack _); vm_compute; done.
Qed.

(** The names and values the server writes. *)
Definition request_values (chain_id rpc_url voter_signature : string) (p : VotingParams) :
    list (string * string) :=
  [("chain-id", chain_id); ("rpc-url", rpc_url); ("block-number", vp_block_number p);
   ("voter-signature", voter_signature); ("voter", vp_voter p);
   ("dao-address", vp_dao_address p); ("proposal-id", vp_proposal_id p);
   ("direction", pretty (vp_direction p)); ("balance", vp_balance p);
   ("config-contract", vp_config_contract p); ("token", vp_token_address p);
   ("additional-delegation-data", vp_additional_delegation_data p); ("testing", "0")]%string.

Lemma publisher_command_Ret env_var p cmd :
  publisher_command env_var p = Ret cmd →
  ∃ rpc_url key, env_var "RPC_URL"%string = Some rpc_url ∧
    env_var "ETH_WALLET_PRIVATE_KEY"%string = Some key ∧
    child_env env_var cmd "ETH_WALLET_PRIVATE_KEY"%string = Some key ∧
    cmd_args cmd = long_arg <$> request_values
      (default "11155111"%string (env_var "CHAIN_ID"%string)) rpc_url
      (String.string_of_list_byte (drop 2 (String.list_byte_of_string (vp_voter_signature p)))) p.
Proof.
  unfold publisher_command, str_from. destruct (is_char_boundary _ 2); [|done]. simpl.
  intros Hc. do 4 (apply bind_Ret_inv in Hc as (? & ?%unwrap_Ret & Hc)).
  injection Hc as <-. do 2 eexists. split_and!; [done|done|reflexivity|reflexivity].
Qed.

Section Composed.
Context {clap : Clap} {text : CliText} {clap_ok : ClapOk clap}.

(** On the server's command line the publisher has the arguments of the
    request, or none when a field of the request does not parse. *)
Lemma command_args env_var p cmd :
  u8_wf (vp_direction p) → publisher_command env_var p = Ret cmd →
  args_parse (child_env env_var cmd) (cmd_args cmd) = request_args env_var p.
Proof.
  intros Hd (rpc & key & Hrpc & Hkey & Hchild & Hargs)%publisher_command_Ret.
  apply parse_u8_pretty in Hd. unfold request_values in Hargs.
  remember (pretty (vp_direction p)) as direction eqn:Hdir. clear Hdir.
  unfold args_parse, request_args. rewrite Hargs, Hrpc, Hkey.
  match goal with |- context [long_arg <$> ?l] => set (kvs := l) end.
  destruct (try_get_matches_long publisher_specs (child_env env_var cmd) kvs) as (m & -> & Hm).
  { apply publisher_specs_ok. }
  { apply (bool_decide_unpack _). vm_compute. done. }
  { intros k Hk. apply (bool_decide_unpack _). revert k Hk.
    apply Forall_forall. repeat constructor. }
  { repeat constructor; intros Hr; try done; unfold arg_value; cbn; rewrite ?Hchild; eauto. }
  unfold publisher_specs in Hm. rewrite !Forall_cons in Hm. destruct_and! Hm.
  unfold args_from_matches, arg_value in *. cbn in *.
  repeat match goal with H : m _ = _ |- _ => rewrite H; clear H end.
  rewrite Hchild. simpl. rewrite Hd. change (parse_u8 "0") with (Some 0).
  repeat match goal with |- _ = mbind _ ?x => destruct x; simpl; [|done] end.
  done.
Qed.

Lemma request_args_wf {text_ok : CliTextOk text} env_var p args :
  u8_wf (vp_direction p) → request_args env_var p = Some args →
  args_wf args ∧ arg_testing args = 0.
Proof.
  intros Hd. unfold request_args. intros Hr. simplify_option_eq.
  split; [|done]. unfold args_wf. simpl. eauto using u256_from_str_wf.
Qed.
End Composed.

(** ** A parser for such command lines *)

Module CliFixture.
Fixpoint split_eq (l : list byte) : option (list byte * list byte) :=
  match l with
  | [] => None
  | x3d :: l => Some ([], l)
  | b :: l => kv ← split_eq l; Some (b :: kv.1, kv.2)
  end.
Definition split_long (s : string) : option (string * string) :=
  match String.list_byte_of_string s with
  | x2d :: x2d :: l =>
      kv ← split_eq l; Some (String.string_of_list_byte kv.1, String.string_of_list_byte kv.2)
  | _ => None
  end.

Definition get_matches (specs : list ArgSpec) (env : string → option string)
    (argv : list string) : option (string → option string) :=
  kvs ← mapM split_long argv;
  if bool_decide (NoDup kvs.*1) && bool_decide (Forall (λ k, k ∈ as_long <$> specs) kvs.*1) &&
     forallb (λ a, negb (as_required a) || bool_decide (is_Some (arg_value env kvs a))) specs
  then Some (λ name, a ← find (λ a, String.eqb (as_long a) name) specs; arg_value env kvs a)
  else None.
Definition clap : Clap := {| try_get_matches := get_matches |}.

Definition text : CliText := {|
  address_from_str s := unhex (Fixture.strip_0x s) ≫= fixed_try_from;
  u256_from_str := parse_uint U256_MOD;
  signer_from_str s := Some s
|}.
Lemma text_ok : CliTextOk text.
Proof. intros s n. by apply parse_uint_range. Qed.

Lemma split_eq_app k v : x3d ∉ k → split_eq (k ++ x3d :: v) = Some (k, v).
Proof.
  induction k as [|b k IH]; [done|]. intros [Hb Hk]%not_elem_of_cons. simpl.
  rewrite IH by done. by destruct b.
Qed.

Lemma split_long_arg kv :
  x3d ∉ String.list_byte_of_string kv.1 → split_long (long_arg kv) = Some kv.
Proof.
  intros Hk. destruct kv as [k v]. unfold split_long, long_arg. cbn [fst snd] in *.
  rewrite !list_byte_of_string_app.
  change (String.list_byte_of_string "--") with [x2d; x2d].
  change (String.list_byte_of_string "=") with [x3d]. cbn [app].
  rewrite split_eq_app by done. cbn [mbind option_bind fst snd]. by rewrite !String.string_of_list_byte_of_string.
Qed.

Lemma find_spec specs a :
  NoDup (as_long <$> specs) → a ∈ specs →
  find (λ b, String.eqb (as_long b) (as_long a)) specs = Some a.
Proof.
  induction specs as [|b specs IH]; [by intros _ ?%not_elem_of_nil|].
  rewrite fmap_cons, NoDup_cons. intros [Hb Hn] [->|Ha]%elem_of_cons; simpl.
  - by rewrite String.eqb_refl.
  - destruct (String.eqb_spec (as_long b) (as_long a)) as [He|]; [|by apply IH].
    destruct Hb. rewrite He. by apply list_elem_of_fmap_2.
Qed.

Lemma split_long_args specs kvs :
  specs_ok specs → kvs.*1 ⊆ (as_long <$> specs) → mapM split_long (long_arg <$> kvs) = Some kvs.
Proof.
  intros [_ Heq] Hsub. apply mapM_Some, Forall2_fmap_l, Forall_Forall2_diag, Forall_forall.
  intros kv Hkv. apply split_long_arg.
  pose proof (Hsub kv.1 (list_elem_of_fmap_2 fst _ _ Hkv)) as Ha.
  apply list_elem_of_fmap in Ha as (a & -> & Ha). rewrite Forall_forall in Heq. by apply Heq.
Qed.

Lemma clap_ok : ClapOk clap.
Proof.
  intros specs env kvs [Hn Heq] Hkn Hsub Hreq. cbn [try_get_matches clap]. unfold get_matches.
  rewrite (split_long_args specs) by done.
  simpl. rewrite !bool_decide_eq_true_2; [|by apply Forall_forall|done].
  rewrite (proj2 (forallb_forall _ specs)); cycle 1.
  { intros a Ha%list_elem_of_In. rewrite Forall_forall in Hreq. specialize (Hreq a Ha).
    destruct (as_required a); [|done]. simpl. by apply bool_decide_eq_true_2, Hreq. }
  eexists. split; [done|]. apply Forall_forall. intros a Ha. by rewrite find_spec.
Qed.

(** The request that leads to the arguments of [HostFixture]. *)
Definition env_var (name : string) : option string :=
  if bool_decide (name = "CHAIN_ID") then None
  else if bool_decide (name = "RPC_URL") then Some "http://localhost:8545"%string
  else Some "key"%string.
Definition hex_of (a : Address) : string := address_to_string (AlloyText:=Fixture.alloy) a.
Definition params (balance : string) : VotingParams :=
  mk_voting_params "7" ("0x" +:+ VotingFixture.signature x01)%string (hex_of Fixture.carol)
    (hex_of Fixture.dao) "4" 2 balance (hex_of Fixture.plugin) (hex_of Fixture.token)
    (to_hex_string (fb_bytes Fixture.bob)).
Definition process (balance : string) : outcome (Z * World) :=
  cmd ← publisher_command env_var (params balance);
  Ret (@publisher_process clap text Fixture.alloy HostFixture.steel HostFixture.serde
         HostFixture.node env_var cmd HostFixture.world0).

Definition command : Command :=
  match publisher_command env_var (params "25") with
  | Ret cmd => cmd
  | Panics _ => mk_command "" "" [] []
  end.

(** A good request, one that claims too much, and one that does not parse. *)
Example processes :
  (λ b, match process b with
        | Ret (code, w) => (code, length (w_sent w))
        | Panics _ => (-1, 0%nat)
        end) <$> ["25"; "26"; "25 "]%string = [(0, 1%nat); (101, 0%nat); (2, 0%nat)].
Proof. vm_compute. reflexivity. Qed.
End CliFixture.

(** ** Properties *)

(** The publisher that the server starts for a request either sends
    nothing and fails, or sends one transaction, to the plugin the request
    names; that one carries the journal of exactly the vote the request
    describes, the vote is backed at the committed block, and if the program
    succeeds then the transaction was confirmed. *)
Theorem request_published {clap : Clap} {text : CliText} {clap_ok : ClapOk clap}
    {text_ok : CliTextOk text} {alloy : AlloyText} {keccak : KeccakV256} {k256 : K256}
    {steel : Steel} {serde : ZkvmSerde} {hex : HexCrate} {json : SerdeConfig}
    {vabi : VotingJournalAbi} {eabi : ExecutionJournalAbi} {node : HostNode}
    {ok : ZkvmSerdeOk serde} {prover : ProverOk node} env_var p cmd w code w' :
  u8_wf (vp_direction p) → publisher_command env_var p = Ret cmd →
  publisher_process env_var cmd w = (code, w') →
  w_sent w' = w_sent w ∧ code ≠ 0 ∨
  ∃ args input env cfg sharess seal, request_args env_var p = Some args ∧
    vote_backed (voting_input_of args input) env cfg sharess ∧
    let tx := {| tx_to := arg_config_contract args; tx_call := call_vote
      (voting_journal_abi_encode (journal_of args (genv_commitment env))) seal |} in
    w_sent w' = w_sent w ++ [tx] ∧
    (code = 0 → ∃ hash, send_transaction tx = Ok hash ∧ get_receipt hash = Ok true).
Proof.
  intros Hd Hcmd. unfold publisher_process. rewrite (command_args _ _ _ Hd Hcmd).
  destruct (request_args env_var p) as [args|] eqn:Hargs; [|by intros [= <- <-]; left].
  destruct (request_args_wf _ _ _ Hd Hargs) as [Hwf Ht].
  destruct (publisher_main args w) as [o w1] eqn:Hmain. intros [= <- <-].
  assert (exit_code o = 0 → ∃ tx hash, w_sent w1 = w_sent w ++ [tx] ∧
    send_transaction tx = Ok hash ∧ get_receipt hash = Ok true) as Hok.
  { destruct o as [[[]|]|]; try done. intros _.
    apply publisher_ok_confirmed in Hmain as (_ & _ & tx & hash & _ & ?); [|by rewrite Ht].
    by exists tx, hash. }
  apply publisher_main_backed in Hmain as [Hs|(_ & input & env & cfg & ss & seal & Hb & Hs)];
    [left|right|done].
  - split; [done|]. intros (tx & hash & Htx & _)%Hok. rewrite Hs in Htx.
    apply (f_equal length) in Htx. rewrite length_app in Htx. simpl in Htx. lia.
  - exists args, input, env, cfg, ss, seal. split_and!; [done..|].
    intros (tx & hash & Htx & Hh)%Hok. rewrite Hs in Htx. simplify_list_eq. eauto.
Qed.
