(* ===== verification/Tooling.v ===== *)
(** * The programs around the publisher

    The script [test-sepolia.sh] and the integration test, which start the
    publisher with command lines of their own; the start of the server
    ([server/src/main.rs], [main]) with its table of routes; and the build
    script of the guest programs ([methods/build.rs]). *)

From stdpp Require Import base gmap list strings pretty.
From Stdlib Require Import ZArith Lia Strings.Byte.
From S2P Require Import Prelude Machine Ethereum VoteSignature Fixtures GuestIO VotingGuest Signing.
From S2P Require Import ExecutionGuest Abi Seal HostStrategies Publisher HostFixture EndToEnd Server.
From S2P Require Import CommandLine.
#[local] Open Scope Z_scope.

(** ** [test-sepolia.sh] *)

Section Sepolia.
Local Open Scope string_scope.

(** The variables the script exports; [RPC_URL] is the caller's. *)
Definition VOTER_SIGNATURE : string := "476d1ca40c07dad98cad9acf0b08e673ae0ea7b2efb01453bd123333c800c6ee3b6f2a642e7aa03e777cfea4fec2c790ca99515a2d4acad0adbf062602ef0b9d1c".

Definition sepolia_values (rpc_url : string) : list (string * string) :=
  [("chain-id", "11155111"); ("rpc-url", rpc_url); ("block-number", "7087022");
   ("voter-signature", VOTER_SIGNATURE);
   ("voter", "0x8bF1e340055c7dE62F11229A149d3A1918de3d74");
   ("dao-address", "0xB32806A45fDdB87747bb641A890D10F2F819c267");
   ("proposal-id", "0"); ("direction", "2"); ("balance", "450000000000000000");
   ("config-contract", "0xaf4ba5015Eb5bE8780e664e2BE40144668361B0f");
   ("token", "0x185Bb1cca668C474214e934028A3e4BB7A5E6525");
   ("additional-delegation-data", "8bF1e340055c7dE62F11229A149d3A1918de3d74")].
Definition sepolia_args (rpc_url : string) : list string := long_arg <$> sepolia_values rpc_url.
End Sepolia.

(** ** The command of the integration test *)

Section TestCommand.
Local Open Scope string_scope.
Definition test_values (chain_id endpoint block_number signed_vote voter dao balance plugin token
    additional_delegation_data : string) : list (string * string) :=
  [("chain-id", chain_id); ("rpc-url", endpoint); ("block-number", block_number);
   ("voter-signature", VoteClient.debug_text signed_vote); ("voter", voter); ("dao-address", dao);
   ("proposal-id", "0"); ("direction", "2"); ("balance", balance); ("config-contract", plugin);
   ("token", token); ("testing", "1"); ("additional-delegation-data", additional_delegation_data)].
End TestCommand.

(** ** The start of the server *)

Inductive Method : Type := GET | POST | DELETE.
Inductive Pattern : Type := PathEmpty | PathId | PathVote.   (* [""], ["/{id}"], ["/vote"] *)
Inductive Endpoint : Type :=
| OnRetrieveAllVotes | OnRetrieveVote | OnAddVote | OnDeleteVote | OnProofVote.
#[export] Instance Method_eq_dec : EqDecision Method.
Proof. solve_decision. Defined.

(** A segment of the path matches [{id}] when it is not empty. *)
Definition pattern_matches (p : Pattern) (segment : option string) : bool :=
  match p, segment with
  | PathEmpty, None => true
  | PathId, Some s => negb (String.eqb s "")
  | PathVote, Some s => String.eqb s "vote"
  | _, _ => false
  end.

(** The scope ["/votes"], in the order in which the services are registered. *)
Definition votes_scope : list (Method * Pattern * Endpoint) :=
  [(GET, PathEmpty, OnRetrieveAllVotes); (GET, PathId, OnRetrieveVote); (POST, PathEmpty, OnAddVote);
   (DELETE, PathId, OnDeleteVote); (POST, PathVote, OnProofVote)].
Definition route_matches (m : Method) (segment : option string) (r : Method * Pattern * Endpoint) : bool :=
  bool_decide (r.1.1 = m) && pattern_matches r.1.2 segment.
Definition dispatch (m : Method) (segment : option string) : option Endpoint :=
  snd <$> find (route_matches m segment) votes_scope.

(** [migrations] is the answer of [sqlx::migrate!().run(&pool)]: the database
    after it, which the handlers share. *)
Definition server_main (migrations : result Db) : outcome (AppState * list (Method * Pattern * Endpoint)) :=
  match migrations with
  | Err _ => Panics (ExpectFailed "Failed to run migrations")
  | Ok db => Ret ({| app_db := db; app_commands := [] |}, votes_scope)
  end.

(** No request fits two routes: the order of registration is irrelevant. *)
Lemma routes_disjoint m segment r r' :
  r ∈ votes_scope → r' ∈ votes_scope →
  route_matches m segment r = true → route_matches m segment r' = true → r = r'.
Proof.
  unfold votes_scope. rewrite !elem_of_cons, !elem_of_nil. intros Hr Hr'.
  unfold route_matches. rewrite !andb_true_iff, !bool_decide_eq_true.
  intros [Hm Hp] [Hm' Hp']. subst m.
  destruct Hr as [->|[->|[->|[->|[->|[]]]]]], Hr' as [->|[->|[->|[->|[->|[]]]]]];
    simpl in *; try done; by destruct segment.
Qed.

(** ** [methods/build.rs] *)

Record DockerOptions : Type := mk_docker { root_dir : option string }.
Record GuestOptions : Type := mk_guest_options {
  go_features : list string;
  go_use_docker : option DockerOptions
}.
Record SolidityOptions : Type := mk_solidity_options {
  so_image_id_sol_path : option string;
  so_elf_sol_path : option string
}.

(** The crates [risc0_build] and [risc0_build_ethereum]; the second writes
    files, given by their paths and texts. *)
Class Risc0Build : Type := {
  GuestListEntry : Type;
  embed_methods_with_options : list (string * GuestOptions) → list GuestListEntry;
  generate_solidity_files :
    list GuestListEntry → SolidityOptions → result (list (string * string))
}.

Definition SOLIDITY_IMAGE_ID_PATH : string := "../contracts/ImageID.sol".
Definition SOLIDITY_ELF_PATH : string := "../contracts/Elf.sol".

Definition build_main {build : Risc0Build} (env_var : string → option string) :
    outcome (list (string * string)) :=
  let use_docker := (λ _, mk_docker (Some "../"%string)) <$> env_var "RISC0_USE_DOCKER"%string in
  let guests := embed_methods_with_options
    [("aragon-zk-voting-protocol-guests"%string, mk_guest_options [] use_docker)] in
  let solidity_opts := mk_solidity_options (Some SOLIDITY_IMAGE_ID_PATH) (Some SOLIDITY_ELF_PATH) in
  match generate_solidity_files guests solidity_opts with
  | Ok files => Ret files
  | Err _ => Panics UnwrapFailed
  end.

(** Of the environment, the build depends on whether Docker is asked for. *)
Lemma build_main_env {build : Risc0Build} env_var env_var' :
  (is_Some (env_var "RISC0_USE_DOCKER"%string) ↔ is_Some (env_var' "RISC0_USE_DOCKER"%string)) →
  build_main env_var = build_main env_var'.
Proof.
  intros H. unfold build_main. do 2 f_equal. destruct (env_var _), (env_var' _); try done; exfalso.
  - by destruct (proj1 H) as [? ?].
  - by destruct (proj2 H) as [? ?].
Qed.

(** ** Properties *)

(** A required argument without a value is an error. *)
Class ClapRequired (clap : Clap) : Prop :=
  try_get_matches_missing specs env kvs a :
    specs_ok specs → NoDup kvs.*1 → kvs.*1 ⊆ (as_long <$> specs) →
    a ∈ specs → as_required a = true → arg_value env kvs a = None →
    try_get_matches specs env (long_arg <$> kvs) = None.

Section CommandLines.
Context {clap : Clap} {text : CliText} {alloy : AlloyText} {steel : Steel} {serde : ZkvmSerde}.
Context {node : HostNode}.

(** The script [test-sepolia.sh] never publishes a vote: it does not give
    the argument [--testing], which the publisher requires, so that the
    publisher ends with status 2 before it does anything, whatever the
    environment. *)
Theorem sepolia_script_refused {required_ok : ClapRequired clap} parent cmd rpc_url w :
  cmd_args cmd = sepolia_args rpc_url → publisher_process parent cmd w = (2, w).
Proof.
  intros Hargs. unfold publisher_process, args_parse. rewrite Hargs. unfold sepolia_args.
  rewrite (try_get_matches_missing publisher_specs _ (sepolia_values rpc_url) (required "testing"));
    [done|apply publisher_specs_ok|..].
  - apply (bool_decide_unpack _). vm_compute. done.
  - intros k Hk. apply (bool_decide_unpack _). revert k Hk. apply Forall_forall. repeat constructor.
  - by apply (list_elem_of_lookup_2 _ 13).
  - done.
  - reflexivity.
Qed.

(** On the command line of the integration test the publisher has the test's
    values, with the signature in quotes and proving switched off. *)
Lemma test_args {clap_ok : ClapOk clap} env chain_id endpoint block_number signed_vote voter dao
    balance plugin token additional args :
  args_parse env (long_arg <$> test_values chain_id endpoint block_number signed_vote voter dao
    balance plugin token additional) = Some args →
  is_Some (env "ETH_WALLET_PRIVATE_KEY"%string) →
  arg_voter_signature args = VoteClient.debug_text signed_vote ∧
  arg_proposal_id args = default 0 (u256_from_str "0") ∧ arg_direction args = 2 ∧
  arg_testing args = 1.
Proof.
  intros Hargs [key Hkey]. unfold args_parse in Hargs.
  match type of Hargs with context [long_arg <$> ?l] => set (kvs := l) in Hargs end.
  destruct (try_get_matches_long publisher_specs env kvs) as (m & Hmatch & Hm).
  { apply publisher_specs_ok. }
  { apply (bool_decide_unpack _). vm_compute. done. }
  { intros k Hk. apply (bool_decide_unpack _). revert k Hk.
    apply Forall_forall. repeat constructor. }
  { repeat constructor; intros Hr; try done; unfold arg_value; cbn; rewrite ?Hkey; eauto. }
  rewrite Hmatch in Hargs. unfold publisher_specs in Hm. rewrite !Forall_cons in Hm.
  destruct_and! Hm. unfold args_from_matches, arg_value in *. cbn in *.
  repeat match goal with H : m _ = _ |- _ => rewrite H in Hargs; clear H end.
  rewrite Hkey in Hargs. change (parse_u8 "1") with (Some 1) in Hargs.
  change (parse_u8 "2") with (Some 2) in Hargs.
  simplify_option_eq. done.
Qed.
End CommandLines.

Module ToolingFixture.
Lemma required_ok : ClapRequired CliFixture.clap.
Proof.
  intros specs env kvs a Hspecs Hkn Hsub Ha Hreq Hnone.
  cbn [try_get_matches CliFixture.clap]. unfold CliFixture.get_matches.
  rewrite (CliFixture.split_long_args specs) by done.
  cbn [mbind option_bind]. destruct (forallb _ specs) eqn:Hall; [|by rewrite andb_false_r].
  rewrite forallb_forall in Hall. specialize (Hall a (proj1 (list_elem_of_In _ _) Ha)).
  rewrite Hreq, Hnone in Hall. done.
Qed.
Definition cmd : Command := mk_command "cargo" "." [] (sepolia_args "http://localhost:8545").
End ToolingFixture.

Lemma sepolia_script_refused_witness :
  @publisher_process CliFixture.clap CliFixture.text Fixture.alloy HostFixture.steel
    HostFixture.serde HostFixture.node CliFixture.env_var ToolingFixture.cmd HostFixture.world0 =
  (2, HostFixture.world0).
Proof.
  apply (@sepolia_script_refused CliFixture.clap CliFixture.text Fixture.alloy HostFixture.steel
    HostFixture.serde HostFixture.node ToolingFixture.required_ok CliFixture.env_var
    ToolingFixture.cmd "http://localhost:8545"%string). reflexivity.
Defined.
