(* ===== verification/Bodies.v ===== *)
(** * The bodies of the server's requests ([server/src/main.rs])

    Handlers that take [web::Json] run on the struct a body decodes to; a body
    that does not decode is answered with an error before the handler runs.
    With the types of the structs, what the handlers get is in range. *)

From stdpp Require Import base gmap list strings.
From Stdlib Require Import ZArith Lia Strings.Byte Strings.Ascii.
From S2P Require Import Prelude Machine Ethereum VoteSignature Fixtures GuestIO VotingGuest.
From S2P Require Import ExecutionGuest Abi Seal HostStrategies Json Publisher HostFixture EndToEnd.
From S2P Require Import Server CommandLine.
#[local] Open Scope Z_scope.

(** ** The structs *)

Definition VoteNew_ty : Ty :=
  TStruct [("account", TString); ("option", TI16); ("proposal_id", TI64); ("dao", TString)]%string.
Definition Vote_ty : Ty :=
  TStruct [("id", TI32); ("account", TString); ("option", TI16); ("proposal_id", TI64);
           ("dao", TString)]%string.
Definition VotingParams_ty : Ty :=
  TStruct [("block_number", TString); ("voter_signature", TString); ("voter", TString);
           ("dao_address", TString); ("proposal_id", TString); ("direction", TU8);
           ("balance", TString); ("config_contract", TString); ("token_address", TString);
           ("additional_delegation_data", TString)]%string.

Definition vote_new_of_val (v : Val) : option VoteNew :=
  match v with
  | VStruct [VString account; VInt option; VInt proposal_id; VString dao] =>
      Some (mk_vote_new account option proposal_id dao)
  | _ => None
  end.
Definition voting_params_of_val (v : Val) : option VotingParams :=
  match v with
  | VStruct [VString block_number; VString voter_signature; VString voter; VString dao_address;
             VString proposal_id; VInt direction; VString balance; VString config_contract;
             VString token_address; VString additional_delegation_data] =>
      Some (mk_voting_params block_number voter_signature voter dao_address proposal_id direction
              balance config_contract token_address additional_delegation_data)
  | _ => None
  end.
Definition vote_val (v : Vote) : Val :=
  VStruct [VInt (vote_id v); VString (vote_account v); VInt (vote_option v);
           VInt (vote_proposal_id v); VString (vote_dao v)].

(** ** Requests with bodies *)

Inductive HttpRequest : Type :=
| HttpRetrieve (id : Z)
| HttpRetrieveAll
| HttpAdd (body : string)
| HttpDelete (id : Z)
| HttpProof (body : string).

Section Bodies.
Context {json : SerdeJson} (env_var : string → option string) (spawn : Command → result Output).

(** The request a handler sees, if one runs. *)
Definition extract (r : HttpRequest) : option Request :=
  match r with
  | HttpRetrieve id => Some (RetrieveVote id)
  | HttpRetrieveAll => Some RetrieveAllVotes
  | HttpAdd body => v ← json_from_str VoteNew_ty body; AddVote <$> vote_new_of_val v
  | HttpDelete id => Some (DeleteVote id)
  | HttpProof body => v ← json_from_str VotingParams_ty body; ProofVote <$> voting_params_of_val v
  end.

Definition serve_http (pr : Pool * HttpRequest) (s : AppState) : AppState :=
  match extract pr.2 with
  | Some r => serve env_var spawn (pr.1, r) s
  | None => s
  end.
Definition serve_http_all (rs : list (Pool * HttpRequest)) (s : AppState) : AppState :=
  foldl (λ s r, serve_http r s) s rs.

(** ** Any run of requests *)

Lemma serve_http_all_ind (P : AppState → Prop) rs s :
  (∀ r s', r ∈ rs → P s' → P (serve_http r s')) → P s → P (serve_http_all rs s).
Proof.
  revert s. induction rs as [|r rs IH]; intros s Hstep Hs; [done|].
  apply IH; [|by apply Hstep; [left|]]. intros r' s' Hr. apply Hstep. by right.
Qed.

Lemma on_db_commands {A} pool (st : Db → result A * Db) s :
  app_commands (on_db pool st s).2 = app_commands s.
Proof. unfold on_db. by destruct (query _ _ _). Qed.

(** The programs the server starts are the commands of bodies it was sent. *)
Lemma served_command rs cmd :
  cmd ∈ app_commands (serve_http_all rs app_init) →
  ∃ pool body val p, (pool, HttpProof body) ∈ rs ∧
    json_from_str VotingParams_ty body = Some val ∧ voting_params_of_val val = Some p ∧
    publisher_command env_var p = Ret cmd.
Proof.
  revert cmd. apply (serve_http_all_ind (λ s, ∀ cmd, cmd ∈ app_commands s → _)); [|set_solver].
  intros [pool r] s Hin Hs cmd. unfold serve_http. simpl.
  destruct r as [| |body| |body]; simpl.
  - unfold retrieve_vote. rewrite on_db_commands. apply Hs.
  - unfold retrieve_all_votes. rewrite on_db_commands. apply Hs.
  - destruct (json_from_str VoteNew_ty body) as [val|]; simpl; [|apply Hs].
    destruct (vote_new_of_val val); simpl; [|apply Hs].
    unfold add_vote. rewrite on_db_commands. apply Hs.
  - unfold delete_vote. destruct (query _ _ _). apply Hs.
  - destruct (json_from_str VotingParams_ty body) as [val|] eqn:Hj; simpl; [|apply Hs].
    destruct (voting_params_of_val val) as [p|] eqn:Hv; simpl; [|apply Hs].
    unfold proof_vote. destruct (publisher_command env_var p) as [cmd'|] eqn:Hc; [|apply Hs].
    destruct (spawn cmd'); simpl; (rewrite elem_of_app, list_elem_of_singleton;
      intros [?| ->]; [by apply Hs|by exists pool, body, val, p]).
Qed.
Context {json_ok : SerdeJsonOk json}.

(** ** What decodes is in range *)

Definition row_typed (v : Vote) : Prop :=
  1 <= vote_id v <= SERIAL_MAX ∧ i16_wf (vote_option v) ∧ i64_wf (vote_proposal_id v).

Lemma vote_new_typed body val v :
  json_from_str VoteNew_ty body = Some val → vote_new_of_val val = Some v →
  i16_wf (vn_option v) ∧ i64_wf (vn_proposal_id v).
Proof.
  intros Ht%json_typed Hv. unfold vote_new_of_val in Hv. repeat case_match; simplify_eq.
  simpl in Ht. rewrite !andb_true_iff in Ht. unfold i16_wf, i64_wf. simpl. lia.
Qed.

Lemma voting_params_typed body val p :
  json_from_str VotingParams_ty body = Some val → voting_params_of_val val = Some p →
  u8_wf (vp_direction p).
Proof.
  intros Ht%json_typed Hv. unfold voting_params_of_val in Hv. repeat case_match; simplify_eq.
  simpl in Ht. rewrite !andb_true_iff in Ht. unfold u8_wf. simpl. lia.
Qed.

(** ** Rows *)

Lemma add_vote_rows pool v s id row :
  db_votes (app_db (add_vote pool v s).2) !! id = Some row →
  db_votes (app_db s) !! id = Some row ∨
  vote_option row = vn_option v ∧ vote_proposal_id row = vn_proposal_id v.
Proof.
  unfold add_vote, on_db, query, sql_insert. repeat case_match; simplify_eq; simpl; auto.
  rewrite lookup_insert_Some. intros [[_ <-]|[_ ?]]; auto.
Qed.

Definition rows_typed (db : Db) : Prop :=
  map_Forall (λ _ v, i16_wf (vote_option v) ∧ i64_wf (vote_proposal_id v)) (db_votes db).

Lemma serve_http_typed r s :
  rows_typed (app_db s) → rows_typed (app_db (serve_http r s)).
Proof.
  destruct r as [pool []]; unfold serve_http; simpl; intros Hs.
  - by unfold retrieve_vote, on_db, query, sql_select; repeat case_match; simplify_eq.
  - by unfold retrieve_all_votes, on_db, query, sql_select_all; repeat case_match; simplify_eq.
  - destruct (json_from_str VoteNew_ty body) as [val|] eqn:Hj; simpl; [|done].
    destruct (vote_new_of_val val) as [v|] eqn:Hv; simpl; [|done].
    intros id row [Hr|[-> ->]]%add_vote_rows; [by eapply Hs|by eapply vote_new_typed].
  - unfold delete_vote, query, sql_delete. repeat case_match; simplify_eq; simpl; [done|].
    by apply map_Forall_delete.
  - destruct (json_from_str VotingParams_ty body) as [val|]; simpl; [|done].
    destruct (voting_params_of_val val); simpl; [by rewrite proof_vote_db|done].
Qed.

Lemma serve_http_wf r s : db_wf (app_db s) → db_wf (app_db (serve_http r s)).
Proof.
  intros Hs. unfold serve_http. destruct (extract r.2); [|done].
  eapply db_step_wf; [apply serve_step|done].
Qed.

(** The text of a row, read as a [Vote], is the row. *)
Theorem served_row_text rs id row space :
  db_votes (app_db (serve_http_all rs app_init)) !! id = Some row →
  plain_val (vote_val row) = true → forallb is_space space = true →
  row_typed row ∧
  json_from_str Vote_ty (json_text Vote_ty (vote_val row) space) = Some (vote_val row).
Proof.
  intros Hrow Hp Hsp.
  assert (row_typed row) as Ht.
  { assert (db_wf (app_db (serve_http_all rs app_init))) as [Hn Hwf].
    { apply (serve_http_all_ind (λ s, db_wf (app_db s))); [|apply db_init_wf].
      intros. by apply serve_http_wf. }
    assert (rows_typed (app_db (serve_http_all rs app_init))) as Hty.
    { apply (serve_http_all_ind (λ s, rows_typed (app_db s))); [|apply map_Forall_empty].
      intros. by apply serve_http_typed. }
    apply Hwf in Hrow as Hid. apply Hty in Hrow as ?. simpl in Hid. split; [lia|done]. }
  split; [done|]. apply json_print; [done| |done..].
  destruct Ht as (? & ? & ?). unfold i16_wf, i64_wf, SERIAL_MAX in *. simpl.
  rewrite !andb_true_iff. lia.
Qed.

End Bodies.

(** ** A posted request *)

Module BodiesFixture.
Definition params_val (p : VotingParams) : Val :=
  VStruct [VString (vp_block_number p); VString (vp_voter_signature p); VString (vp_voter p);
           VString (vp_dao_address p); VString (vp_proposal_id p); VInt (vp_direction p);
           VString (vp_balance p); VString (vp_config_contract p); VString (vp_token_address p);
           VString (vp_additional_delegation_data p)].
Definition body : string := json_text VotingParams_ty (params_val (CliFixture.params "25")) [].
Definition spawn (_ : Command) : result Output := Ok (mk_output true [] []).
Definition requests : list (Pool * HttpRequest) :=
  [(None, HttpAdd "{}"%string); (None, HttpProof body)].

Lemma requests_body pool b : (pool, HttpProof b) ∈ requests → b = body.
Proof.
  unfold requests. generalize body. intros b'. rewrite elem_of_cons, list_elem_of_singleton.
  intros [?|?]; congruence.
Qed.

(** The first body lacks its fields: nothing is stored. *)
Example served :
  let s := serve_http_all (json:=JsonFixture.json) CliFixture.env_var spawn requests app_init in
  app_db s = db_init ∧ app_commands s = [CliFixture.command].
Proof. split; vm_compute; reflexivity. Qed.
End BodiesFixture.

(** ** Properties *)

(** C7: whatever the server is sent, each program it starts for a request
    either fails and sends nothing, or sends one transaction, to the plugin
    that a posted body names; the transaction carries the journal of exactly
    the vote in that body, and the vote is backed at the committed block.  A
    program that succeeds has had its transaction confirmed. *)
Theorem posted_request_published {clap : Clap} {text : CliText} {clap_ok : ClapOk clap}
    {text_ok : CliTextOk text} {sjson : SerdeJson} {sjson_ok : SerdeJsonOk sjson}
    {alloy : AlloyText} {keccak : KeccakV256} {k256 : K256}
    {steel : Steel} {serde : ZkvmSerde} {hex : HexCrate} {json : SerdeConfig}
    {vabi : VotingJournalAbi} {eabi : ExecutionJournalAbi} {node : HostNode}
    {ok : ZkvmSerdeOk serde} {prover : ProverOk node} env_var spawn rs cmd w code w' :
  cmd ∈ app_commands (serve_http_all env_var spawn rs app_init) →
  publisher_process env_var cmd w = (code, w') →
  w_sent w' = w_sent w ∧ code ≠ 0 ∨
  ∃ pool body val p args input env cfg sharess seal,
    (pool, HttpProof body) ∈ rs ∧ json_from_str VotingParams_ty body = Some val ∧
    voting_params_of_val val = Some p ∧ request_args env_var p = Some args ∧
    vote_backed (voting_input_of args input) env cfg sharess ∧
    let tx := {| tx_to := arg_config_contract args; tx_call := call_vote
      (voting_journal_abi_encode (journal_of args (genv_commitment env))) seal |} in
    w_sent w' = w_sent w ++ [tx] ∧
    (code = 0 → ∃ hash, send_transaction tx = Ok hash ∧ get_receipt hash = Ok true).
Proof.
  intros (pool & body & val & p & Hin & Hj & Hv & Hc)%served_command Hrun.
  destruct (request_published env_var p cmd w code w'
    (voting_params_typed _ _ _ Hj Hv) Hc Hrun) as [?|Hsent]; [by left|right].
  destruct Hsent as (args & input & env & cfg & ss & seal & Hsent).
  by exists pool, body, val, p, args, input, env, cfg, ss, seal.
Qed.

Lemma posted_request_published_witness :
  ∃ tx, (@publisher_process CliFixture.clap CliFixture.text Fixture.alloy HostFixture.steel
      HostFixture.serde HostFixture.node CliFixture.env_var CliFixture.command
      HostFixture.world0).2.(w_sent) = [tx] ∧ tx_to tx = Fixture.plugin.
Proof.
  edestruct (@posted_request_published CliFixture.clap CliFixture.text CliFixture.clap_ok
    CliFixture.text_ok JsonFixture.json JsonFixture.json_ok Fixture.alloy example_keccak
    example_k256 VotingFixture.steel HostFixture.serde VotingFixture.hex VotingFixture.json
    HostFixture.vabi HostFixture.eabi HostFixture.node HostFixture.serde_ok fixture_prover_ok
    CliFixture.env_var BodiesFixture.spawn BodiesFixture.requests CliFixture.command
    HostFixture.world0 0)
    as [[_ Hc]|(pool & body & val & p & args & input & env & cfg & ss & seal &
                Hin & Hj & Hv & Ha & _ & Hs & _)].
  - rewrite (proj2 BodiesFixture.served). by left.
  - vm_compute. reflexivity.
  - done.
  - eexists. split; [exact Hs|].
    apply BodiesFixture.requests_body in Hin as ->.
    vm_compute in Hj. injection Hj as <-. vm_compute in Hv. injection Hv as <-.
    vm_compute in Ha. injection Ha as <-.
    apply (bool_decide_eq_true_1 _). vm_compute. reflexivity.
Defined.
