(* ===== verification/Solidity.v ===== *)
(** * The Solidity the contracts are written in

    A call returns or reverts; a revert undoes every effect of the call, so a
    contract function is a function from the old state to the new one that may
    fail.  Arithmetic is checked since Solidity 0.8.  This file has that
    monad, the checked operations, mappings with their default values, sums
    over mappings, and the decoding of static ABI words. *)

From stdpp Require Import base gmap list strings.
From Stdlib Require Import ZArith Lia Strings.Byte.
From S2P Require Import Prelude Machine.
#[local] Open Scope Z_scope.

(** ** Reverts *)

Inductive revert : Type :=
| RevertReason (msg : string)                  (* [require(b, msg)] *)
| RevertError (name : string) (args : list Z)  (* [revert Error(args)] *)
| RevertPanic (code : Z)                       (* arithmetic, enum conversion *)
| RevertEmpty.                                 (* failed decoding, no code at the address *)

Inductive evm (A : Type) : Type :=
| Done (a : A)
| Reverts (r : revert).
Arguments Done {A} a.
Arguments Reverts {A} r.

#[export] Instance revert_eq_dec : EqDecision revert.
Proof. solve_decision. Defined.
#[export] Instance evm_eq_dec `{EqDecision A} : EqDecision (evm A).
Proof. solve_decision. Defined.

#[export] Instance evm_ret : MRet evm := λ A a, Done a.
#[export] Instance evm_bind : MBind evm := λ A B f m,
  match m with Done a => f a | Reverts r => Reverts r end.

Definition is_done {A} (m : evm A) : bool :=
  match m with Done _ => true | Reverts _ => false end.

Definition require (b : bool) (msg : string) : evm unit :=
  if b then Done tt else Reverts (RevertReason msg).
Definition revert_if (b : bool) (r : revert) : evm unit :=
  if b then Reverts r else Done tt.

(** ** Checked arithmetic *)

Definition PANIC_ARITHMETIC : Z := 17.
Definition PANIC_ENUM : Z := 33.

(** [a + b] at [uint<w>] *)
Definition checked_add (w a b : Z) : evm Z :=
  if a + b <? 2 ^ w then Done (a + b) else Reverts (RevertPanic PANIC_ARITHMETIC).
(** [a - b] at any unsigned width *)
Definition checked_sub (a b : Z) : evm Z :=
  if b <=? a then Done (a - b) else Reverts (RevertPanic PANIC_ARITHMETIC).

(** [SafeCast.toUint64], [SafeCast.toUint16] *)
Definition toUint64 (x : Z) : evm Z :=
  if x <? 2 ^ 64 then Done x
  else Reverts (RevertReason "SafeCast: value doesn't fit in 64 bits").
Definition toUint16 (x : Z) : evm Z :=
  if x <? 2 ^ 16 then Done x
  else Reverts (RevertReason "SafeCast: value doesn't fit in 16 bits").

(** ** Words *)

Abbreviation bytes32 := (FixedBytes 32).
Abbreviation bytes4 := (FixedBytes 4).

Definition ZERO32 : bytes32 := fixed_repeat 32 x00.
Definition ADDRESS_ZERO : Address := fixed_repeat 20 x00.

(** [uint256(w)] and [bytes32(z)] *)
Definition uint_of_bytes32 (w : bytes32) : Z := be_value (fb_bytes w).
Definition bytes32_of_uint (z : Z) : bytes32 := mk_fixed (be_bytes 32 z) (length_be_bytes 32 z).

(** ** Static ABI data

    [abi.decode(data, (T))] for a static [T] of [n] words: it needs [n] words
    and ignores what follows them; an address or a small integer with bits
    above its width is refused. *)

Definition abi_word (data : list byte) (i : nat) : list byte := take 32 (drop (32 * i) data).

Definition abi_decode_uint (w : Z) (data : list byte) (i : nat) : evm Z :=
  let z := be_value (abi_word data i) in
  if z <? 2 ^ w then Done z else Reverts RevertEmpty.
Definition decode_fixed (n : nat) (l : list byte) : evm (FixedBytes n) :=
  match fixed_try_from l with Some a => Done a | None => Reverts RevertEmpty end.
Definition abi_decode_bytes32 (data : list byte) (i : nat) : evm bytes32 :=
  decode_fixed 32 (abi_word data i).
Definition abi_decode_addr (data : list byte) (i : nat) : evm Address :=
  if bool_decide (take 12 (abi_word data i) = replicate 12 x00)
  then decode_fixed 20 (drop 12 (abi_word data i)) else Reverts RevertEmpty.
Definition abi_head (data : list byte) (n : nat) : evm unit :=
  if decide (32 * n ≤ length data)%nat then Done tt else Reverts RevertEmpty.

(** ** Inverting successful calls *)

Lemma bind_Done_inv {A B} (m : evm A) (f : A → evm B) b :
  (m ≫= f) = Done b ↔ ∃ a, m = Done a ∧ f a = Done b.
Proof. destruct m; simpl; naive_solver. Qed.
Lemma require_Done b msg u : require b msg = Done u ↔ b = true.
Proof. destruct b, u; simpl; naive_solver. Qed.
Lemma revert_if_Done b r u : revert_if b r = Done u ↔ b = false.
Proof. destruct b, u; simpl; naive_solver. Qed.
Lemma checked_add_Done w a b c : checked_add w a b = Done c ↔ a + b < 2 ^ w ∧ c = a + b.
Proof. unfold checked_add. destruct (Z.ltb_spec (a + b) (2 ^ w)); naive_solver lia. Qed.
Lemma checked_sub_Done a b c : checked_sub a b = Done c ↔ b <= a ∧ c = a - b.
Proof. unfold checked_sub. destruct (Z.leb_spec b a); naive_solver lia. Qed.
Lemma toUint64_Done x y : toUint64 x = Done y ↔ x < 2 ^ 64 ∧ y = x.
Proof. unfold toUint64. destruct (Z.ltb_spec x (2 ^ 64)); naive_solver lia. Qed.
Lemma decode_fixed_Done n l (a : FixedBytes n) : decode_fixed n l = Done a ↔ fb_bytes a = l.
Proof.
  rewrite <-fixed_try_from_Some. unfold decode_fixed. destruct (fixed_try_from l); naive_solver.
Qed.

Ltac evm_inv :=
  repeat match goal with
  | H : (_ ≫= _) = Done _ |- _ => apply bind_Done_inv in H as (? & ? & H)
  | H : require _ _ = Done _ |- _ => apply require_Done in H
  | H : revert_if _ _ = Done _ |- _ => apply revert_if_Done in H
  | H : checked_add _ _ _ = Done _ |- _ => apply checked_add_Done in H as [? ->]
  | H : checked_sub _ _ = Done _ |- _ => apply checked_sub_Done in H as [? ->]
  | H : toUint64 _ = Done _ |- _ => apply toUint64_Done in H as [? ->]
  | H : Done _ = Done _ |- _ => injection H as H
  | H : Reverts _ = Done _ |- _ => discriminate H
  | u : unit |- _ => destruct u
  | H : bool_decide _ = true |- _ => apply bool_decide_eq_true in H
  end.

(** ** Mappings

    Every key of a Solidity mapping has a value, the zero of its type until
    one is written. *)

Definition mapping_get `{Countable K} {V} (zero : V) (m : gmap K V) (k : K) : V :=
  default zero (m !! k).

Lemma mapping_get_set `{Countable K} {V} (zero : V) (m : gmap K V) k k' v :
  mapping_get zero (<[k := v]> m) k' = if decide (k = k') then v else mapping_get zero m k'.
Proof. unfold mapping_get. rewrite lookup_insert. by case_decide. Qed.

(** The sum of [f] over the written keys. *)
Definition map_sum `{Countable K} {V} (f : V → Z) (m : gmap K V) : Z :=
  map_fold (λ _ v acc, f v + acc) 0 m.

Section MapSum.
Context `{Countable K} {V : Type} (f : V → Z).
Implicit Types m : gmap K V.

Lemma map_sum_empty : map_sum f (∅ : gmap K V) = 0.
Proof. apply map_fold_empty. Qed.

Lemma map_sum_fresh m k v : m !! k = None → map_sum f (<[k := v]> m) = f v + map_sum f m.
Proof. intros Hk. unfold map_sum. rewrite map_fold_insert_L; [done|intros; lia|done]. Qed.

Lemma map_sum_delete m k v : m !! k = Some v → map_sum f m = f v + map_sum f (delete k m).
Proof.
  intros Hk. rewrite <-(insert_delete_id m k v Hk) at 1.
  apply map_sum_fresh, lookup_delete_eq.
Qed.

(** Overwriting a key replaces its summand. *)
Lemma map_sum_insert m k v :
  map_sum f (<[k := v]> m) = map_sum f m - from_option f 0 (m !! k) + f v.
Proof.
  destruct (m !! k) as [w|] eqn:Hk; simpl.
  - rewrite (map_sum_delete m k w Hk), <-insert_delete_eq.
    rewrite map_sum_fresh by apply lookup_delete_eq. lia.
  - rewrite map_sum_fresh by done. lia.
Qed.

Lemma map_sum_nonneg m : map_Forall (λ _ v, 0 <= f v) m → 0 <= map_sum f m.
Proof.
  induction m as [|k v m Hk IH] using map_ind; intros Hm; [by rewrite map_sum_empty|].
  apply map_Forall_insert in Hm as [Hv Hm]; [|done]. rewrite map_sum_fresh by done.
  pose proof (IH Hm). lia.
Qed.

(** A summand is at most the sum. *)
Lemma map_sum_lookup m k v :
  map_Forall (λ _ v, 0 <= f v) m → m !! k = Some v → f v <= map_sum f m.
Proof.
  intros Hm Hk. rewrite (map_sum_delete m k v Hk).
  pose proof (map_sum_nonneg (delete k m) (map_Forall_delete _ _ k Hm)). lia.
Qed.

(** The sum over the entries as a list. *)
Lemma map_sum_to_list m : map_sum f m = zsum ((λ kv, f kv.2) <$> map_to_list m).
Proof.
  induction m as [|k v m Hk IH] using map_ind; [by rewrite map_sum_empty, map_to_list_empty|].
  rewrite map_sum_fresh, IH by done. symmetry.
  rewrite (zsum_Permutation _ ((λ kv, f kv.2) <$> ((k, v) :: map_to_list m))); [done|].
  by apply fmap_Permutation, map_to_list_insert.
Qed.
End MapSum.

(** ** Words of encoded data *)

Lemma abi_word_concat (ws : list (list byte)) i w rest :
  Forall (λ w, length w = 32%nat) ws → ws !! i = Some w → abi_word (concat ws ++ rest) i = w.
Proof.
  intros Hws. revert i. induction Hws as [|u ws Hu Hws IH]; intros [|i] Hi; try done; simpl in *.
  - injection Hi as ->. unfold abi_word. rewrite drop_0, <-app_assoc. by apply take_app_length'.
  - rewrite <-(IH i Hi). unfold abi_word. rewrite <-app_assoc. f_equal.
    replace (32 * S i)%nat with (32 + 32 * i)%nat by lia.
    rewrite <-drop_drop. f_equal. by apply drop_app_length'.
Qed.

Lemma be_value_range (l : list byte) : 0 <= be_value l < 256 ^ Z.of_nat (length l).
Proof.
  induction l as [|b l IH]; [done|]. cbn [be_value length].
  rewrite Nat2Z.inj_succ, Z.pow_succ_r by lia. pose proof (Z_of_byte_range b). nia.
Qed.

Lemma uint_of_bytes32_range w : 0 <= uint_of_bytes32 w < 2 ^ 256.
Proof.
  pose proof (be_value_range (fb_bytes w)) as Hb. by rewrite length_fb_bytes in Hb.
Qed.
