(* ===== verification/Steel.v ===== *)
(** * Steel commitments on chain ([lib/risc0/steel/Steel.sol])

    The library [Encoding] packs a 240-bit identifier and a 16-bit version
    into one word; [Steel] checks a commitment against the chain, by block
    hash (version 0) or by beacon root (version 1). *)

From stdpp Require Import base gmap list strings.
From Stdlib Require Import ZArith Lia Strings.Byte.
From S2P Require Import Prelude Machine Ethereum Solidity.
#[local] Open Scope Z_scope.

(** ** The block a call runs in *)

Record Block : Type := mk_block {
  blk_number : Z;
  blk_timestamp : Z;
  blk_hash_of : Z → bytes32;                      (* the hash of an earlier block *)
  blk_beacon_roots : list byte → option (list byte)  (* a call to the beacon roots contract *)
}.

(** [blockhash(n)]: zero except for the 256 blocks before the current one. *)
Definition blockhash (b : Block) (n : Z) : bytes32 :=
  if (n <? blk_number b) && (blk_number b - 256 <=? n) then blk_hash_of b n else ZERO32.

(** ** [Encoding] *)

Definition ID_MASK : Z := 0x0000ffffffffffffffffffffffffffffffffffffffffffffffffffffffffffff.

Definition encodeVersionedID (id version : Z) : Z :=
  Z.lor (Z.shiftl version 240 mod U256_MOD) id.

Definition decodeVersionedID (id : Z) : Z * Z :=
  (Z.land id ID_MASK, Z.shiftr id 240).

(** ** [Beacon] *)

Definition parentBlockRoot (b : Block) (timestamp : Z) : evm bytes32 :=
  match blk_beacon_roots b (be_bytes 32 timestamp) with
  | Some result => _ ← abi_head result 1; abi_decode_bytes32 result 0
  | None => Done ZERO32
  end.

(** ** [Steel] *)

Definition validateBlockCommitment (b : Block) (blockNumber : Z) (blockHash : bytes32) : evm bool :=
  age ← checked_sub (blk_number b) blockNumber;
  _ ← revert_if (256 <? age) (RevertError "CommitmentTooOld" []);
  Done (bool_decide (blockHash = blockhash b blockNumber)).

Definition validateBeaconCommitment (b : Block) (timestamp : Z) (blockRoot : bytes32) : evm bool :=
  age ← checked_sub (blk_timestamp b) timestamp;
  _ ← revert_if (12 * 8191 <? age) (RevertError "CommitmentTooOld" []);
  root ← parentBlockRoot b timestamp;
  Done (bool_decide (blockRoot = root)).

Definition validateCommitment (b : Block) (commitment : Commitment) : evm bool :=
  let '(claimID, version) := decodeVersionedID (com_id commitment) in
  if version =? 0 then validateBlockCommitment b claimID (com_digest commitment)
  else if version =? 1 then validateBeaconCommitment b claimID (com_digest commitment)
  else Reverts (RevertError "InvalidCommitmentVersion" []).

(** ** Lemmas *)

Lemma ID_MASK_ones : ID_MASK = Z.ones 240.
Proof. reflexivity. Qed.

Lemma decode_arith id : decodeVersionedID id = (id mod 2 ^ 240, id / 2 ^ 240).
Proof.
  unfold decodeVersionedID. rewrite ID_MASK_ones, Z.land_ones by lia.
  by rewrite Z.shiftr_div_pow2 by lia.
Qed.

Lemma encode_arith id version :
  0 <= id < 2 ^ 240 → 0 <= version < 2 ^ 16 →
  encodeVersionedID id version = version * 2 ^ 240 + id.
Proof.
  intros Hid Hv. unfold encodeVersionedID. rewrite Z.shiftl_mul_pow2 by lia.
  rewrite Z.mod_small by (unfold U256_MOD; lia).
  enough (Z.land (version * 2 ^ 240) id = 0) as Hdisj
    by (by rewrite <-Z.lxor_lor, <-Z.add_nocarry_lxor by done).
  apply Z.bits_inj'. intros i Hi. rewrite Z.land_spec, Z.bits_0.
  destruct (Z.lt_ge_cases i 240).
  - by rewrite Z.mul_pow2_bits_low.
  - rewrite <-(Z.mod_small id (2 ^ 240)) by done.
    rewrite Z.mod_pow2_bits_high by lia. apply andb_false_r.
Qed.

Lemma decode_encode id version :
  0 <= id < 2 ^ 240 → 0 <= version < 2 ^ 16 →
  decodeVersionedID (encodeVersionedID id version) = (id, version).
Proof.
  intros Hid Hv. rewrite decode_arith, encode_arith by done. f_equal.
  - by rewrite Z.add_comm, Z_mod_plus_full, Z.mod_small.
  - rewrite Z.div_add_l, Z.div_small by lia. lia.
Qed.

Lemma decode_range id :
  u256_wf id → 0 <= (decodeVersionedID id).1 < 2 ^ 240 ∧ 0 <= (decodeVersionedID id).2 < 2 ^ 16.
Proof.
  unfold u256_wf, U256_MOD. intros Hid. rewrite decode_arith. cbn [fst snd].
  split; [apply Z.mod_pos_bound; lia|].
  split; [apply Z.div_pos; lia|apply Z.div_lt_upper_bound; lia].
Qed.

(** ** Properties *)

(** An identifier of 240 bits and a version of 16 bits are recovered from
    their encoding, and every word is the encoding of what it decodes to. *)
Theorem versioned_id_roundtrip :
  (∀ id version, 0 <= id < 2 ^ 240 → 0 <= version < 2 ^ 16 →
     decodeVersionedID (encodeVersionedID id version) = (id, version)) ∧
  (∀ word, u256_wf word →
     encodeVersionedID (decodeVersionedID word).1 (decodeVersionedID word).2 = word).
Proof.
  split; [apply decode_encode|]. intros word Hw. destruct (decode_range word Hw).
  rewrite encode_arith, decode_arith by done. cbn [fst snd].
  rewrite Z.mul_comm. symmetry. apply Z_div_mod_eq_full.
Qed.

(** A commitment validates exactly when it has version 0 and is the hash of
    the block it names, which is at most 256 blocks old, or has version 1 and
    is the beacon root the chain returns for the time it names, which is at
    most 8191 slots old. *)
Theorem validateCommitment_true b id version digest configID :
  0 <= id < 2 ^ 240 → 0 <= version < 2 ^ 16 →
  validateCommitment b (mk_commitment (encodeVersionedID id version) digest configID) = Done true ↔
  (version = 0 ∧ id <= blk_number b <= id + 256 ∧ digest = blockhash b id) ∨
  (version = 1 ∧ id <= blk_timestamp b <= id + 12 * 8191 ∧ parentBlockRoot b id = Done digest).
Proof.
  intros Hid Hv. unfold validateCommitment. cbn [com_id com_digest].
  rewrite decode_encode by done.
  destruct (Z.eqb_spec version 0) as [->|H0]; [|destruct (Z.eqb_spec version 1) as [->|H1]].
  - unfold validateBlockCommitment. split.
    + intros H. evm_inv. subst. left. split_and!; [done|lia..|done].
    + intros [(_ & Hage & ->)|[? _]]; [|done].
      rewrite (proj2 (checked_sub_Done _ _ _)) by (split; [lia|done]). simpl.
      unfold revert_if. rewrite (proj2 (Z.ltb_ge _ _)) by lia. simpl. by rewrite bool_decide_true.
  - unfold validateBeaconCommitment. split.
    + intros H. evm_inv. subst. right. split_and!; [done|lia..|done].
    + intros [[? _]|(_ & Hage & Hroot)]; [done|].
      rewrite (proj2 (checked_sub_Done _ _ _)) by (split; [lia|done]). simpl.
      unfold revert_if. rewrite (proj2 (Z.ltb_ge _ _)) by lia. simpl. rewrite Hroot. simpl.
      by rewrite bool_decide_true.
  - split; [done|]. by intros [[? _]|[? _]].
Qed.

Lemma validateCommitment_true_witness :
  let b := mk_block 10 100 (λ n, bytes32_of_uint (1000 + n)) (λ _, None) in
  validateCommitment b (mk_commitment (encodeVersionedID 9 0) (bytes32_of_uint 1009) ZERO32) = Done true.
Proof.
  intros b. apply (validateCommitment_true b 9 0); [done|done|]. left. split_and!; [done..|].
  by apply fb_bytes_inj.
Defined.

(** [blockhash] of the current block is zero, and a commitment of age zero is
    not too old: with digest zero it validates. *)
Lemma current_block_zero_digest b configID :
  0 <= blk_number b < 2 ^ 240 →
  validateCommitment b (mk_commitment (encodeVersionedID (blk_number b) 0) ZERO32 configID) = Done true.
Proof.
  intros Hb. unfold validateCommitment. cbn [com_id com_digest]. rewrite decode_encode by lia.
  unfold validateBlockCommitment, checked_sub, blockhash. simpl.
  by rewrite Z.leb_refl, Z.sub_diag, Z.ltb_irrefl.
Qed.
