(* ===== verification/Sha256.v ===== *)
(** * SHA-256

    The EVM's [sha256], from FIPS 180-4: the contracts hash journals, claims
    and verification keys with it, and fix some digests as constants.  Words
    are 32-bit integers. *)

From stdpp Require Import base gmap list strings.
From Stdlib Require Import ZArith Lia Strings.Byte.
From S2P Require Import Prelude Machine Solidity.
#[local] Open Scope Z_scope.

(** The hash of the contracts, as an interface: the theorems hold for any
    function, the constants are checked with the one below. *)
Class Sha256 : Type := { sha256 : list byte → bytes32 }.

Module Fips180.
Definition add32 (a b : Z) : Z := Z.land (a + b) 0xffffffff.
Definition rotr (x n : Z) : Z :=
  Z.lor (Z.shiftr x n) (Z.land (Z.shiftl x (32 - n)) 0xffffffff).
Definition not32 (x : Z) : Z := Z.lxor x 0xffffffff.

Definition Ch (x y z : Z) : Z := Z.lxor (Z.land x y) (Z.land (not32 x) z).
Definition Maj (x y z : Z) : Z := Z.lxor (Z.lxor (Z.land x y) (Z.land x z)) (Z.land y z).
Definition Sigma0 (x : Z) : Z := Z.lxor (Z.lxor (rotr x 2) (rotr x 13)) (rotr x 22).
Definition Sigma1 (x : Z) : Z := Z.lxor (Z.lxor (rotr x 6) (rotr x 11)) (rotr x 25).
Definition sigma0 (x : Z) : Z := Z.lxor (Z.lxor (rotr x 7) (rotr x 18)) (Z.shiftr x 3).
Definition sigma1 (x : Z) : Z := Z.lxor (Z.lxor (rotr x 17) (rotr x 19)) (Z.shiftr x 10).

(** The constants: the first 32 fractional bits of the cube roots of the first
    64 primes, and of the square roots of the first eight. *)
Definition is_prime (n : Z) : bool :=
  (2 <=? n) && forallb (λ d, negb (n mod d =? 0)) (Z.of_nat <$> seq 2 (Z.to_nat n - 2)).
Definition primes (count bound : nat) : list Z :=
  take count (filter (λ n, is_prime n = true) (Z.of_nat <$> seq 0 bound)).

(** The integer cube root, bit by bit. *)
Fixpoint cbrt (bits : nat) (x root : Z) : Z :=
  match bits with
  | O => root
  | S bits =>
      let next := root + 2 ^ Z.of_nat bits in
      cbrt bits x (if next ^ 3 <=? x then next else root)
  end.

Definition K : list Z := Eval vm_compute in
  (λ p, cbrt 36 (p * 2 ^ 96) 0 mod 2 ^ 32) <$> primes 64 312.
Definition H0 : list Z := Eval vm_compute in
  (λ p, Z.sqrt (p * 2 ^ 64) mod 2 ^ 32) <$> primes 8 20.

(** Append one bit, zeros, and the length in bits, to a multiple of 64 bytes. *)
Definition pad (l : list byte) : list byte :=
  let n := length l in
  l ++ [x80] ++ replicate ((119 - n mod 64) mod 64) x00 ++ be_bytes 8 (8 * Z.of_nat n).

Fixpoint words (l : list byte) : list Z :=
  match l with
  | a :: b :: c :: d :: l => be_value [a; b; c; d] :: words l
  | _ => []
  end.

(** The message schedule, the newest word first. *)
Fixpoint expand (n : nat) (w : list Z) : list Z :=
  match n with
  | O => w
  | S n => expand n
      (add32 (add32 (sigma1 (nth 1 w 0)) (nth 6 w 0)) (add32 (sigma0 (nth 14 w 0)) (nth 15 w 0)) :: w)
  end.
Definition schedule (block : list Z) : list Z := rev (expand 48 (rev block)).

Definition round (h : list Z) (kw : Z * Z) : list Z :=
  match h with
  | [a; b; c; d; e; f; g; h] =>
      let t1 := add32 (add32 (add32 h (Sigma1 e)) (add32 (Ch e f g) (fst kw))) (snd kw) in
      let t2 := add32 (Sigma0 a) (Maj a b c) in
      [add32 t1 t2; a; b; c; add32 d t1; e; f; g]
  | _ => h
  end.
Definition compress (h block : list Z) : list Z :=
  zip_with add32 h (foldl round h (zip K (schedule block))).

Fixpoint blocks (n : nat) (h ws : list Z) : list Z :=
  match n with
  | O => h
  | S n => blocks n (compress h (take 16 ws)) (drop 16 ws)
  end.

Definition hash (l : list byte) : list byte :=
  let ws := words (pad l) in
  concat (be_bytes 4 <$> blocks (length ws / 16) H0 ws).

(** ** The digest has 32 bytes *)

Lemma length_round h kw : length (round h kw) = length h.
Proof. by do 9 (destruct h as [|? h]; [done|]). Qed.

Lemma length_compress h block : length (compress h block) = length h.
Proof.
  unfold compress. rewrite length_zip_with.
  assert (∀ l h, length (foldl round h l) = length h) as ->; [|lia].
  induction l as [|kw l IH]; intros k; [done|]. simpl. rewrite IH. apply length_round.
Qed.

Lemma length_blocks n h ws : length (blocks n h ws) = length h.
Proof. revert h ws. induction n as [|n IH]; intros h ws; [done|]. simpl. by rewrite IH, length_compress. Qed.

Lemma length_hash l : length (hash l) = 32%nat.
Proof.
  unfold hash. set (hs := blocks _ _ _). assert (length hs = 8%nat) as Hl by apply length_blocks.
  clearbody hs. do 9 (destruct hs as [|? hs]; [done || simpl in Hl; try lia|]); done.
Qed.
End Fips180.

Definition fips_sha256 : Sha256 :=
  {| sha256 l := mk_fixed (Fips180.hash l) (Fips180.length_hash l) |}.

(** The test vectors of the standard. *)
Example sha256_abc : be_value (Fips180.hash (String.list_byte_of_string "abc")) =
  0xba7816bf8f01cfea414140de5dae2223b00361a396177a9cb410ff61f20015ad.
Proof. vm_compute. reflexivity. Qed.
Example sha256_empty : be_value (Fips180.hash []) =
  0xe3b0c44298fc1c149afbf4c8996fb92427ae41e4649b934ca495991b7852b855.
Proof. vm_compute. reflexivity. Qed.
Example sha256_two_blocks :
  be_value (Fips180.hash (String.list_byte_of_string
    "abcdbcdecdefdefgefghfghighijhijkijkljklmklmnlmnomnopnopq")) =
  0x248d6a61d20638b8e5c026930c3e6039a33ce45964ff2167f6ecedd419db06c1.
Proof. vm_compute. reflexivity. Qed.
