(* ===== verification/JournalDecode.v ===== *)
(** * How the plugin reads the journals of the two guest programs

    The guests encode their journals with the ABI ([Abi]); the contract
    decodes both with the layout of [decode_journal].  For the voting program
    that is the layout it was written with; for the execution program it is
    not. *)

From stdpp Require Import base gmap list strings.
From Stdlib Require Import ZArith Lia Strings.Byte.
From S2P Require Import Prelude Machine Ethereum VoteSignature GuestExecution VotingGuest.
From S2P Require Import Fixtures ExecutionGuest Abi Solidity.
#[local] Open Scope Z_scope.

(** [abi.decode(journalData, (VotingJournal))]; the contract's
    [ExecutionJournal] has the same fields. *)
Definition decode_journal (data : list byte) : evm VotingJournal :=
  _ ← abi_head data 8;
  id ← abi_decode_uint 256 data 0;
  digest ← abi_decode_bytes32 data 1;
  configID ← abi_decode_bytes32 data 2;
  configContract ← abi_decode_addr data 3;
  proposalId ← abi_decode_uint 256 data 4;
  voter ← abi_decode_addr data 5;
  balance ← abi_decode_uint 256 data 6;
  direction ← abi_decode_uint 8 data 7;
  Done {| vj_commitment := {| com_id := id; com_digest := digest; com_configID := configID |};
          vj_config_contract := configContract; vj_proposal_id := proposalId;
          vj_voter := voter; vj_balance := balance; vj_direction := direction |}.

(** ** Reading word [i] of a sequence of words *)

Section Words.
Context (ws : list (list byte)) (rest : list byte) (Hws : Forall (λ w, length w = 32%nat) ws).

Lemma abi_head_concat n : (n <= length ws)%nat → abi_head (concat ws ++ rest) n = Done tt.
Proof.
  intros Hn. unfold abi_head. rewrite decide_True; [done|].
  rewrite length_app, length_concat_words by done. lia.
Qed.

Lemma abi_decode_uint_concat w i z :
  ws !! i = Some (abi_uint z) → 0 <= z < 2 ^ w → w <= 256 →
  abi_decode_uint w (concat ws ++ rest) i = Done z.
Proof.
  intros Hi Hz Hw. unfold abi_decode_uint. rewrite (abi_word_concat _ _ _ _ Hws Hi).
  pose proof (Z.pow_le_mono_r 2 w 256). rewrite be_value_abi_uint by (red; unfold U256_MOD; lia).
  by rewrite (proj2 (Z.ltb_lt _ _)) by lia.
Qed.

Lemma abi_decode_bytes32_concat i (b : bytes32) :
  ws !! i = Some (fb_bytes b) → abi_decode_bytes32 (concat ws ++ rest) i = Done b.
Proof.
  intros Hi. unfold abi_decode_bytes32. rewrite (abi_word_concat _ _ _ _ Hws Hi).
  by apply decode_fixed_Done.
Qed.

Lemma abi_decode_addr_concat i w a :
  ws !! i = Some w → abi_decode_addr (concat ws ++ rest) i = Done a ↔ w = abi_address a.
Proof.
  intros Hi. unfold abi_decode_addr, abi_address. rewrite (abi_word_concat _ _ _ _ Hws Hi). split.
  - intros H. case_bool_decide as Hpad; [|done]. apply decode_fixed_Done in H.
    by rewrite H, <-Hpad, take_drop.
  - intros ->. rewrite take_app_length', drop_app_length', bool_decide_true by done.
    by apply decode_fixed_Done.
Qed.
End Words.

(** Rewrite with the value of the next word. *)
Ltac read_word lem := rewrite lem by (done || lia); cbn [mbind evm_bind].

Lemma decode_encode_journal j rest :
  voting_journal_wf j → decode_journal (abi_encode_voting j ++ rest) = Done j.
Proof.
  intros (Hid & Hp & Hb & Hd). unfold decode_journal, abi_encode_voting.
  pose proof (voting_words_32 j) as Hws. unfold u256_wf, u8_wf, U256_MOD in *.
  rewrite (abi_head_concat _ _ Hws) by done. cbn [mbind evm_bind].
  read_word (abi_decode_uint_concat _ rest Hws 256 0 (com_id (vj_commitment j))).
  read_word (abi_decode_bytes32_concat _ rest Hws 1 (com_digest (vj_commitment j))).
  read_word (abi_decode_bytes32_concat _ rest Hws 2 (com_configID (vj_commitment j))).
  read_word (proj2 (abi_decode_addr_concat _ rest Hws 3 _ (vj_config_contract j) eq_refl)).
  read_word (abi_decode_uint_concat _ rest Hws 256 4 (vj_proposal_id j)).
  read_word (proj2 (abi_decode_addr_concat _ rest Hws 5 _ (vj_voter j) eq_refl)).
  read_word (abi_decode_uint_concat _ rest Hws 256 6 (vj_balance j)).
  read_word (abi_decode_uint_concat _ rest Hws 8 7 (vj_direction j)).
  by destruct j as [[]].
Qed.

(** C21: The contract reads back exactly the journal the voting program
    committed, and ignores what follows it: decoding the ABI encoding of a
    journal, with any trailing bytes, gives that journal. *)
Theorem decode_journal_roundtrip j rest :
  voting_journal_wf j → decode_journal (abi_encode_voting j ++ rest) = Done j.
Proof. apply decode_encode_journal. Qed.

Lemma decode_journal_roundtrip_witness :
  let j := mk_voting_journal Fixture.commitment Fixture.plugin 4 Fixture.carol 35 2 in
  voting_journal_wf j ∧ decode_journal (abi_encode_voting j ++ [x00; x01]) = Done j.
Proof.
  intros j. assert (voting_journal_wf j) as Hj
    by (unfold j, voting_journal_wf, u256_wf, u8_wf, U256_MOD; simpl;
      unfold Fixture.block_number; lia).
  split; [exact Hj|]. apply (decode_journal_roundtrip j [x00; x01] Hj).
Defined.

(** ** The journal of the execution program

    Its encoding starts with the offset of the struct, so the contract reads
    every field one word late. *)

Lemma decode_execution_journal j v :
  length (ej_tally j) = 3%nat → decode_journal (abi_encode_execution j) = Done v →
  com_id (vj_commitment v) = 32 ∧
  fb_bytes (com_digest (vj_commitment v)) = abi_uint (com_id (ej_commitment j)) ∧
  fb_bytes (com_configID (ej_commitment j)) = abi_address (vj_config_contract v).
Proof.
  intros Ht H. pose proof (execution_words_32 j) as Hws.
  unfold abi_encode_execution in H. rewrite <-(app_nil_r (concat _)) in H.
  unfold decode_journal in H. evm_inv. subst v. cbn [vj_commitment com_id com_digest vj_config_contract].
  repeat match goal with Ha : abi_decode_addr _ 3 = Done _ |- _ =>
    apply (abi_decode_addr_concat _ _ Hws 3 _ _ eq_refl) in Ha end.
  match goal with Ha : abi_decode_bytes32 _ 1 = Done _ |- _ =>
    apply decode_fixed_Done in Ha; rewrite (abi_word_concat _ 1 _ _ Hws eq_refl) in Ha end.
  match goal with Ha : abi_decode_uint 256 _ 0 = Done _ |- _ =>
    rewrite (abi_decode_uint_concat _ _ Hws 256 0 32 eq_refl) in Ha by lia; injection Ha as <- end.
  done.
Qed.
