(* ===== verification/Plugin.v ===== *)
(** * The voting plugin ([contracts/MajorityVotingBase.sol], [contracts/RiscVotingProtocolPlugin.sol])

    The contract that stores proposals, counts the votes whose proofs verify,
    and executes proposals.  Functions take the call's context and the state
    and return the new state or revert.  The Aragon framework it inherits from
    ([Osx]), the verifier contracts ([Verifiers]), SHA-256 and the DAO it calls
    are interfaces.  Events are part of the state, as a log. *)

From stdpp Require Import base gmap list strings.
From Stdlib Require Import ZArith Lia Strings.Byte.
From S2P Require Import Prelude Machine Ethereum VoteSignature GuestIO VotingGuest Solidity Steel.
From S2P Require Import Sha256 JournalDecode.
#[local] Open Scope Z_scope.

(** ** Data *)

(** [IMajorityVoting.VoteOption] *)
Inductive VoteOption : Type := OptNone | OptAbstain | OptYes | OptNo.

(** [MajorityVotingBase.VotingMode] *)
Inductive VotingMode : Type := Standard | EarlyExecution | VoteReplacement.

#[export] Instance VoteOption_eq_dec : EqDecision VoteOption.
Proof. solve_decision. Defined.
#[export] Instance VotingMode_eq_dec : EqDecision VotingMode.
Proof. solve_decision. Defined.

Record VotingSettings : Type := mk_settings {
  vs_votingMode : VotingMode;
  vs_supportThreshold : Z;          (* [uint32] *)
  vs_minParticipation : Z;          (* [uint32] *)
  vs_minDuration : Z;               (* [uint64] *)
  vs_minProposerVotingPower : Z;
  vs_votingProtocolConfig : string;
  vs_verifier : Address;
  vs_votingProtocolImageId : bytes32;
  vs_executionProtocolImageId : bytes32
}.

Record ProposalParameters : Type := mk_parameters {
  pp_votingMode : VotingMode;
  pp_supportThreshold : Z;
  pp_startDate : Z;
  pp_endDate : Z;
  pp_snapshotBlock : Z;
  pp_snapshotBlockHash : bytes32;
  pp_votingProtocolConfig : string;
  pp_verifier : Address;
  pp_votingProtocolImageId : bytes32;
  pp_executionProtocolImageId : bytes32
}.

Record Tally : Type := mk_tally { tl_abstain : Z; tl_yes : Z; tl_no : Z }.

(** [IDAO.Action] *)
Record Action : Type := mk_action { act_to : Address; act_value : Z; act_data : list byte }.

Record Proposal : Type := mk_proposal {
  pr_executed : bool;
  pr_parameters : ProposalParameters;
  pr_tally : Tally;
  pr_voters : gmap Address VoteOption;
  pr_actions : list Action;
  pr_allowFailureMap : Z
}.

(** The zero values of storage that was never written. *)
Definition settings_zero : VotingSettings :=
  mk_settings Standard 0 0 0 0 "" ADDRESS_ZERO ZERO32 ZERO32.
Definition parameters_zero : ProposalParameters :=
  mk_parameters Standard 0 0 0 0 ZERO32 "" ADDRESS_ZERO ZERO32 ZERO32.
Definition proposal_zero : Proposal :=
  mk_proposal false parameters_zero (mk_tally 0 0 0) ∅ [] 0.

Inductive Event : Type :=
| VoteCast (proposalId : Z) (voter : Address) (voteOption : VoteOption) (votingPower : Z)
| VotingSettingsUpdated (votingMode : VotingMode)
    (supportThreshold minParticipation minDuration minProposerVotingPower : Z).

(** ** Interfaces *)

(** [ProposalUpgradeable] and [PluginUUPSUpgradeable] of Aragon OSx: their
    storage, the initializer, and the creation of a proposal id. *)
Class Osx : Type := {
  OsxState : Type;
  osx_initialize : Address → OsxState → evm OsxState;
  osx_createProposal : Address → list byte → Z → Z → list Action → Z → OsxState → Z * OsxState
}.

(** [IRiscZeroVerifier(a).verify(seal, imageId, journalDigest)] *)
Class Verifiers : Type := { verify_at : Address → list byte → bytes32 → bytes32 → evm unit }.

(** The context of a call: [address(this)], the sender, the block, and the
    permissions the DAO grants the sender on this contract. *)
Record Msg : Type := mk_msg {
  msg_this : Address;
  msg_sender : Address;
  msg_block : Block;
  msg_has_permission : bytes32 → bool
}.

Record Plugin {osx : Osx} : Type := mk_plugin {
  pl_proposals : gmap Z Proposal;
  pl_votingSettings : VotingSettings;
  pl_counter : Z;
  pl_osx : OsxState;
  pl_log : list Event
}.

(** ** [MajorityVotingBase] *)

(** [RATIO_BASE] of OSx's [Ratio.sol], 10^6. *)
Definition RATIO_BASE : Z := 1000000.
Definition MINUTES_60 : Z := 60 * 60.
Definition DAYS_365 : Z := 365 * 24 * 60 * 60.

Section Base.
Context {osx : Osx} {keccak : KeccakV256}.

Definition proposal_at (s : Plugin) (id : Z) : Proposal :=
  mapping_get proposal_zero (pl_proposals s) id.
Definition put_proposal (id : Z) (p : Proposal) (s : Plugin) : Plugin :=
  mk_plugin osx (<[id := p]> (pl_proposals s)) (pl_votingSettings s) (pl_counter s) (pl_osx s)
    (pl_log s).
Definition emit (e : Event) (s : Plugin) : Plugin :=
  mk_plugin osx (pl_proposals s) (pl_votingSettings s) (pl_counter s) (pl_osx s) (pl_log s ++ [e]).

Definition UPDATE_VOTING_SETTINGS_PERMISSION_ID : bytes32 :=
  keccak_v256 (String.list_byte_of_string "UPDATE_VOTING_SETTINGS_PERMISSION").
Definition CREATE_PROPOSAL_PERMISSION_ID : bytes32 :=
  keccak_v256 (String.list_byte_of_string "CREATE_PROPOSAL_PERMISSION").

(** The modifier [auth(permissionId)]. *)
Definition auth (msg : Msg) (permissionId : bytes32) : evm unit :=
  revert_if (negb (msg_has_permission msg permissionId)) (RevertError "DaoUnauthorized" []).

Definition getVoteOption (s : Plugin) (id : Z) (voter : Address) : VoteOption :=
  mapping_get OptNone (pr_voters (proposal_at s id)) voter.

(** [votingProtocolConfig(uint256)] *)
Definition votingProtocolConfig (s : Plugin) (id : Z) : string :=
  pp_votingProtocolConfig (pr_parameters (proposal_at s id)).

Definition _isProposalOpen (b : Block) (p : Proposal) : evm bool :=
  currentTime ← toUint64 (blk_timestamp b);
  Done ((pp_startDate (pr_parameters p) <=? currentTime)
        && (currentTime <? pp_endDate (pr_parameters p)) && negb (pr_executed p)).

Definition _canExecute (b : Block) (s : Plugin) (id : Z) : evm bool :=
  let p := proposal_at s id in
  if pr_executed p then Done false
  else
    open ← _isProposalOpen b p;
    Done (negb (open && negb (bool_decide (pp_votingMode (pr_parameters p) = EarlyExecution)))).

Definition _updateVotingSettings (st : VotingSettings) (s : Plugin) : evm Plugin :=
  _ ← revert_if (RATIO_BASE - 1 <? vs_supportThreshold st)
        (RevertError "RatioOutOfBounds" [RATIO_BASE - 1; vs_supportThreshold st]);
  _ ← revert_if (RATIO_BASE <? vs_minParticipation st)
        (RevertError "RatioOutOfBounds" [RATIO_BASE; vs_minParticipation st]);
  _ ← revert_if (vs_minDuration st <? MINUTES_60)
        (RevertError "MinDurationOutOfBounds" [MINUTES_60; vs_minDuration st]);
  _ ← revert_if (DAYS_365 <? vs_minDuration st)
        (RevertError "MinDurationOutOfBounds" [DAYS_365; vs_minDuration st]);
  Done (emit (VotingSettingsUpdated (vs_votingMode st) (vs_supportThreshold st)
                (vs_minParticipation st) (vs_minDuration st) (vs_minProposerVotingPower st))
          (mk_plugin osx (pl_proposals s) st (pl_counter s) (pl_osx s) (pl_log s))).

Definition updateVotingSettings (msg : Msg) (st : VotingSettings) (s : Plugin) : evm Plugin :=
  _ ← auth msg UPDATE_VOTING_SETTINGS_PERMISSION_ID;
  _updateVotingSettings st s.

Definition _validateProposalDates (b : Block) (s : Plugin) (start end_ : Z) : evm (Z * Z) :=
  currentTimestamp ← toUint64 (blk_timestamp b);
  startDate ← (if start =? 0 then Done currentTimestamp
               else _ ← revert_if (start <? currentTimestamp)
                          (RevertError "DateOutOfBounds" [currentTimestamp; start]);
                    Done start);
  earliestEndDate ← checked_add 64 startDate (vs_minDuration (pl_votingSettings s));
  endDate ← (if end_ =? 0 then Done earliestEndDate
             else _ ← revert_if (end_ <? earliestEndDate)
                        (RevertError "DateOutOfBounds" [earliestEndDate; end_]);
                  Done end_);
  Done (startDate, endDate).

(** [__MajorityVotingBase_init] and [initialize], under the initializer of OSx. *)
Definition initialize (dao : Address) (st : VotingSettings) (s : Plugin) : evm Plugin :=
  o ← osx_initialize dao (pl_osx s);
  _updateVotingSettings st
    (mk_plugin osx (pl_proposals s) (pl_votingSettings s) (pl_counter s) o (pl_log s)).
End Base.

(** ** [RiscVotingProtocolPlugin] *)

(** The conversion [VoteOption(direction)]. *)
Definition VoteOption_of (direction : Z) : evm VoteOption :=
  if direction =? 0 then Done OptNone
  else if direction =? 1 then Done OptAbstain
  else if direction =? 2 then Done OptYes
  else if direction =? 3 then Done OptNo
  else Reverts (RevertPanic PANIC_ENUM).

(** Lines 157 to 163: take [votingPower] off the option voted for before. *)
Definition decrease_tally (state : VoteOption) (votingPower : Z) (t : Tally) : evm Tally :=
  match state with
  | OptYes => y ← checked_sub (tl_yes t) votingPower; Done (mk_tally (tl_abstain t) y (tl_no t))
  | OptNo => n ← checked_sub (tl_no t) votingPower; Done (mk_tally (tl_abstain t) (tl_yes t) n)
  | OptAbstain => a ← checked_sub (tl_abstain t) votingPower; Done (mk_tally a (tl_yes t) (tl_no t))
  | OptNone => Done t
  end.

(** Lines 167 to 173: add it to the option voted for now. *)
Definition increase_tally (opt : VoteOption) (votingPower : Z) (t : Tally) : evm Tally :=
  match opt with
  | OptYes => y ← checked_add 256 (tl_yes t) votingPower;
              Done (mk_tally (tl_abstain t) y (tl_no t))
  | OptNo => n ← checked_add 256 (tl_no t) votingPower;
             Done (mk_tally (tl_abstain t) (tl_yes t) n)
  | OptAbstain => a ← checked_add 256 (tl_abstain t) votingPower;
                  Done (mk_tally a (tl_yes t) (tl_no t))
  | OptNone => Done t
  end.

(** Lines 108 to 113, [for (uint256 i; i < _actions.length; ) { push; ++i; }],
    with fuel for the iterations. *)
Fixpoint push_actions (fuel i : nat) (_actions actions : list Action) : list Action :=
  match fuel with
  | O => actions
  | S fuel =>
      match _actions !! i with
      | Some a => push_actions fuel (S i) _actions (actions ++ [a])
      | None => actions
      end
  end.

Section Plugin.
Context {osx : Osx} {keccak : KeccakV256} {verifiers : Verifiers} {sha : Sha256}.

Definition createProposal (msg : Msg) (_metadata : list byte) (_actions : list Action)
    (_allowFailureMap _startDate _endDate : Z) (s : Plugin) : evm (Z * Plugin) :=
  _ ← auth msg CREATE_PROPOSAL_PERMISSION_ID;
  let b := msg_block msg in
  let snapshotBlock := (blk_number b - 1) mod 2 ^ 256 in
  dates ← _validateProposalDates b s _startDate _endDate;
  let '(_startDate, _endDate) := dates in
  let '(proposalId, o) := osx_createProposal (msg_sender msg) _metadata _startDate _endDate
                            _actions _allowFailureMap (pl_osx s) in
  snapshotBlock64 ← toUint64 snapshotBlock;
  let p := proposal_at s proposalId in
  let st := pl_votingSettings s in
  let p' := mk_proposal (pr_executed p)
    (mk_parameters (vs_votingMode st) (vs_supportThreshold st) _startDate _endDate snapshotBlock64
       (blockhash b snapshotBlock) (vs_votingProtocolConfig st) (vs_verifier st)
       (vs_votingProtocolImageId st) (vs_executionProtocolImageId st))
    (pr_tally p) (pr_voters p)
    (push_actions (S (length _actions)) 0 _actions (pr_actions p))
    (if _allowFailureMap =? 0 then pr_allowFailureMap p else _allowFailureMap) in
  Done (proposalId,
        put_proposal proposalId p'
          (mk_plugin osx (pl_proposals s) st (pl_counter s) o (pl_log s))).

(** The checks [vote] and [execute] share: the commitment is the snapshot
    block's, and the proof of the journal verifies. *)
Definition check_proof (imageId : ProposalParameters → bytes32) (p : Proposal)
    (commitment : Commitment) (journalData seal : list byte) : evm unit :=
  let par := pr_parameters p in
  _ ← require (bool_decide (com_digest commitment = pp_snapshotBlockHash par)) "Invalid commitment";
  let '(claimID, _) := decodeVersionedID (com_id commitment) in
  _ ← require (claimID =? pp_snapshotBlock par) "Invalid commitment";
  verify_at (pp_verifier par) seal (imageId par) (sha256 journalData).

Definition vote (msg : Msg) (journalData seal : list byte) (s : Plugin) : evm Plugin :=
  journal ← decode_journal journalData;
  _ ← require (bool_decide (vj_config_contract journal = msg_this msg)) "Invalid token address";
  let id := vj_proposal_id journal in
  let p := proposal_at s id in
  _ ← check_proof pp_votingProtocolImageId p (vj_commitment journal) journalData seal;
  let votingPower := vj_balance journal in
  let _voter := vj_voter journal in
  tally ← decrease_tally (mapping_get OptNone (pr_voters p) _voter) votingPower (pr_tally p);
  _voteOption ← VoteOption_of (vj_direction journal);
  tally ← increase_tally _voteOption votingPower tally;
  Done (emit (VoteCast id _voter _voteOption votingPower)
    (put_proposal id (mk_proposal (pr_executed p) (pr_parameters p) tally
       (<[_voter := _voteOption]> (pr_voters p)) (pr_actions p) (pr_allowFailureMap p)) s)).

Definition _canVote (b : Block) (s : Plugin) (id : Z) (_account : Address)
    (_voteOption : VoteOption) : evm bool :=
  let p := proposal_at s id in
  open ← _isProposalOpen b p;
  if negb open then Done false
  else if bool_decide (_voteOption = OptNone) then Done false
  else Done (negb (bool_decide (mapping_get OptNone (pr_voters p) _account ≠ OptNone)
                   && bool_decide (pp_votingMode (pr_parameters p) ≠ VoteReplacement))).

Definition getProposal (b : Block) (s : Plugin) (id : Z) :
    evm (bool * bool * ProposalParameters * Tally * list Action * Z) :=
  let p := proposal_at s id in
  open ← _isProposalOpen b p;
  Done (open, pr_executed p, pr_parameters p, pr_tally p, pr_actions p, pr_allowFailureMap p).

(** The first line of [_execute]. *)
Definition set_executed (id : Z) (s : Plugin) : Plugin :=
  let p := proposal_at s id in
  put_proposal id (mk_proposal true (pr_parameters p) (pr_tally p) (pr_voters p) (pr_actions p)
    (pr_allowFailureMap p)) s.

(** [execute] up to the call of the DAO. *)
Definition execute_begin (msg : Msg) (journalData seal : list byte) (s : Plugin) :
    evm (Z * Plugin) :=
  journal ← decode_journal journalData;
  _ ← require (bool_decide (vj_config_contract journal = msg_this msg)) "Invalid token address";
  let id := vj_proposal_id journal in
  let p := proposal_at s id in
  can ← _canExecute (msg_block msg) s id;
  _ ← revert_if (negb can) (RevertError "ProposalExecutionForbidden" [id]);
  _ ← check_proof pp_executionProtocolImageId p (vj_commitment journal) journalData seal;
  Done (id, set_executed id s).

(** [_executeProposal], the call of the DAO with the actions, which may call
    the plugin back. *)
Variable dao_execute : Z → list Action → Z → Plugin → evm Plugin.

Definition execute (msg : Msg) (journalData seal : list byte) (s : Plugin) : evm Plugin :=
  ids ← execute_begin msg journalData seal s;
  let '(id, s) := ids in
  dao_execute id (pr_actions (proposal_at s id)) (pr_allowFailureMap (proposal_at s id)) s.
End Plugin.

(** ** When the proof of a journal is accepted *)

Section CheckProof.
Context {verifiers : Verifiers} {sha : Sha256}.
Lemma check_proof_Done imageId p c data seal u :
  check_proof imageId p c data seal = Done u ↔
  com_digest c = pp_snapshotBlockHash (pr_parameters p) ∧
  com_id c mod 2 ^ 240 = pp_snapshotBlock (pr_parameters p) ∧
  verify_at (pp_verifier (pr_parameters p)) seal (imageId (pr_parameters p)) (sha256 data) = Done u.
Proof.
  unfold check_proof. rewrite decode_arith. split.
  - intros H. evm_inv. split_and!; [done|lia|done].
  - intros (Hd & Hc & Hv). rewrite bool_decide_eq_true_2 by done. simpl.
    rewrite (proj2 (Z.eqb_eq _ _) Hc). done.
Qed.
End CheckProof.
