(* ===== verification/PluginFixture.v ===== *)
(** * A concrete plugin

    A deployment of the plugin on the chain of [Fixtures], with one proposal
    and votes of alice, used by the witnesses of the theorems. *)

From stdpp Require Import base gmap list strings.
From Stdlib Require Import ZArith Lia Strings.Byte.
From S2P Require Import Prelude Machine Ethereum VoteSignature Fixtures GuestIO VotingGuest Abi.
From S2P Require Import Solidity Steel Sha256 JournalDecode Plugin.
#[local] Open Scope Z_scope.

Module PluginFixture.
(** ** The other contracts: a flag and a counter for the framework, one
    verifier that accepts seals that start like the digest. *)
Definition osx : Osx := {|
  OsxState := bool * Z;
  osx_initialize _ o := if fst o then Reverts (RevertReason "already initialized")
                        else Done (true, snd o);
  osx_createProposal _ _ _ _ _ _ o := (Z.abs (snd o), (fst o, Z.abs (snd o) + 1))
|}.
#[export] Existing Instance osx.

Definition verifier : Address := fixed_repeat 20 x55.
Definition verifiers : Verifiers := {|
  verify_at a seal _ digest :=
    if bool_decide (a = verifier) && bool_decide (seal = take 4 (fb_bytes digest)) then Done tt
    else Reverts RevertEmpty
|}.
Definition sha : Sha256 := {| sha256 l := bytes32_of_uint (Z.of_nat (length l)) |}.
Definition keccak : KeccakV256 := {| keccak_v256 l := bytes32_of_uint (Z.of_nat (length l)) |}.
#[export] Existing Instance verifiers.
#[export] Existing Instance sha.
#[export] Existing Instance keccak.

Definition settings : VotingSettings :=
  mk_settings VoteReplacement 500000 0 3600 0 Fixture.config_text verifier
    (fixed_repeat 32 x01) (fixed_repeat 32 x02).

(** Block 8, whose parent is the block of the chain. *)
Definition block_at (time : Z) : Block :=
  mk_block 8 time (λ n, if n =? 7 then com_digest Fixture.commitment else ZERO32) (λ _, None).
Definition msg_at (time : Z) : Msg := mk_msg Fixture.plugin Fixture.alice (block_at time) (λ _, true).

Definition journal (direction balance : Z) : VotingJournal := {|
  vj_commitment := Fixture.commitment; vj_config_contract := Fixture.plugin; vj_proposal_id := 0;
  vj_voter := Fixture.alice; vj_balance := balance; vj_direction := direction
|}.
Definition seal : list byte := replicate 4 x00.
Definition actions : list Action := [mk_action Fixture.token 0 [x01]; mk_action Fixture.dao 5 []].

(** ** A run: initialize, create at time 1000, vote yes with 100, vote no with
    40, execute after the end. *)
Definition get {A} (zero : A) (m : evm A) : A :=
  match m with Done a => a | Reverts _ => zero end.

Definition s_zero : Plugin := mk_plugin osx ∅ settings_zero 0 (false, 0) [].
Definition s_init : Plugin := get s_zero (initialize Fixture.dao settings s_zero).
Definition s_created : Plugin :=
  snd (get (0, s_zero) (createProposal (msg_at 1000) [] actions 0 0 0 s_init)).
Definition s_yes : Plugin :=
  get s_zero (vote (msg_at 1000) (abi_encode_voting (journal 2 100)) seal s_created).
Definition s_no : Plugin :=
  get s_zero (vote (msg_at 1000) (abi_encode_voting (journal 3 40)) seal s_yes).
Definition s_executed : Plugin :=
  snd (get (0, s_zero)
    (execute_begin (msg_at 5000) (abi_encode_voting (journal 0 0)) seal s_no)).

Lemma s_init_ok : initialize Fixture.dao settings s_zero = Done s_init.
Proof. reflexivity. Qed.
Lemma s_created_ok :
  createProposal (msg_at 1000) [] actions 0 0 0 s_init = Done (0, s_created).
Proof. reflexivity. Qed.
Lemma decode_ok direction balance :
  0 <= direction < 256 → 0 <= balance < 2 ^ 256 →
  decode_journal (abi_encode_voting (journal direction balance)) = Done (journal direction balance).
Proof.
  intros Hd Hb. rewrite <-(app_nil_r (abi_encode_voting _)). apply decode_encode_journal.
  unfold voting_journal_wf, u256_wf, u8_wf, U256_MOD. simpl. unfold Fixture.block_number. lia.
Qed.
Lemma s_yes_ok : vote (msg_at 1000) (abi_encode_voting (journal 2 100)) seal s_created = Done s_yes.
Proof. vm_compute. reflexivity. Qed.
Lemma s_no_ok : vote (msg_at 1000) (abi_encode_voting (journal 3 40)) seal s_yes = Done s_no.
Proof. vm_compute. reflexivity. Qed.
Lemma s_executed_ok :
  execute_begin (msg_at 5000) (abi_encode_voting (journal 0 0)) seal s_no = Done (0, s_executed).
Proof. vm_compute. reflexivity. Qed.
End PluginFixture.
