(* ===== verification/PluginCorrect.v ===== *)
(** * What the voting plugin guarantees

    The calls that change the plugin's state as a step relation, the
    invariants of every reachable state, and the tally as the abstract count
    of the ballots in the event log. *)

From stdpp Require Import base gmap list strings.
From Stdlib Require Import ZArith Lia Strings.Byte.
From S2P Require Import Prelude Machine Ethereum VoteSignature GuestIO VotingGuest Solidity Steel.
From S2P Require Import Fixtures ExecutionGuest Abi Sha256 JournalDecode Plugin PluginFixture.
#[local] Open Scope Z_scope.

(** ** What the other contracts promise *)

(** [proposalCount] of [ProposalUpgradeable]: a new proposal takes the current
    count as its id. *)
Class OsxOk (osx : Osx) : Type := {
  osx_count : OsxState → Z;
  osx_count_nonneg o : 0 <= osx_count o;
  osx_initialize_count dao o o' : osx_initialize dao o = Done o' → osx_count o' = osx_count o;
  osx_create_count creator metadata start end_ acts afm o :
    fst (osx_createProposal creator metadata start end_ acts afm o) = osx_count o ∧
    osx_count (snd (osx_createProposal creator metadata start end_ acts afm o)) = osx_count o + 1
}.

(** A call to an address without code reverts; the zero address has none. *)
Class VerifiersOk (verifiers : Verifiers) : Prop :=
  verify_at_zero : ∀ seal imageId digest, is_done (verify_at ADDRESS_ZERO seal imageId digest) = false.

(** ** Values that fit their types, as the ABI decoder leaves them *)

Definition settings_typed (st : VotingSettings) : Prop :=
  0 <= vs_supportThreshold st < 2 ^ 32 ∧ 0 <= vs_minParticipation st < 2 ^ 32 ∧
  0 <= vs_minDuration st < 2 ^ 64 ∧ 0 <= vs_minProposerVotingPower st < 2 ^ 256.
Definition msg_typed (msg : Msg) : Prop :=
  0 <= blk_number (msg_block msg) < 2 ^ 256 ∧ 0 <= blk_timestamp (msg_block msg) < 2 ^ 256.

Definition settings_ok (st : VotingSettings) : Prop :=
  vs_supportThreshold st < RATIO_BASE ∧ vs_minParticipation st <= RATIO_BASE ∧
  MINUTES_60 <= vs_minDuration st <= DAYS_365.

(** ** Steps *)

Inductive op : Type :=
| OpInitialize
| OpUpdate
| OpCreate (id : Z)
| OpVote (id : Z) (voter : Address)
| OpExecute (id : Z).

#[export] Instance op_eq_dec : EqDecision op.
Proof. solve_decision. Defined.

Section Steps.
Context {osx : Osx} {keccak : KeccakV256} {verifiers : Verifiers} {sha : Sha256}.

(** One call.  [execute] is the part before the DAO is called: nothing follows
    that call, so what the DAO does in it are further steps. *)
Inductive step (s : Plugin) : op → Plugin → Prop :=
| step_initialize dao st s' :
    settings_typed st → initialize dao st s = Done s' → step s OpInitialize s'
| step_update msg st s' :
    settings_typed st → updateVotingSettings msg st s = Done s' → step s OpUpdate s'
| step_create msg metadata acts afm start end_ id s' :
    msg_typed msg → 0 <= start < 2 ^ 64 → 0 <= end_ < 2 ^ 64 →
    createProposal msg metadata acts afm start end_ s = Done (id, s') → step s (OpCreate id) s'
| step_vote msg journalData seal journal s' :
    decode_journal journalData = Done journal →
    vote msg journalData seal s = Done s' →
    step s (OpVote (vj_proposal_id journal) (vj_voter journal)) s'
| step_execute msg journalData seal id s' :
    execute_begin msg journalData seal s = Done (id, s') → step s (OpExecute id) s'.

Inductive steps : Plugin → list op → Plugin → Prop :=
| steps_nil s : steps s [] s
| steps_cons s o s' os s'' : step s o s' → steps s' os s'' → steps s (o :: os) s''.

(** A proxy's storage before the initializer. *)
Definition plugin_fresh (o : OsxState) : Plugin := mk_plugin osx ∅ settings_zero 0 o [].

(** The states of a plugin that was initialized. *)
Definition reachable (s : Plugin) : Prop :=
  ∃ o dao st s0 os, settings_typed st ∧ initialize dao st (plugin_fresh o) = Done s0 ∧
                    steps s0 os s.

Lemma steps_app s os s' os' s'' : steps s os s' → steps s' os' s'' → steps s (os ++ os') s''.
Proof. induction 1; simpl; eauto using steps. Qed.

Lemma reachable_steps s os s' : reachable s → steps s os s' → reachable s'.
Proof. intros (o & dao & st & s0 & os0 & ? & ? & Hs) Hs'. red. eauto 10 using steps_app. Qed.

(** ** What each call does *)

Lemma update_settings_Done st s s' :
  _updateVotingSettings st s = Done s' ↔
  settings_ok st ∧
  s' = mk_plugin osx (pl_proposals s) st (pl_counter s) (pl_osx s)
         (pl_log s ++ [VotingSettingsUpdated (vs_votingMode st) (vs_supportThreshold st)
            (vs_minParticipation st) (vs_minDuration st) (vs_minProposerVotingPower st)]).
Proof.
  unfold _updateVotingSettings, settings_ok. split.
  - intros H. evm_inv. subst. unfold emit. simpl. split_and!; [lia..|done].
  - intros [(?&?&?&?) ->]. unfold revert_if.
    repeat rewrite (proj2 (Z.ltb_ge _ _)) by lia. done.
Qed.

Lemma dates_Done b s start end_ start' end' :
  _validateProposalDates b s start end_ = Done (start', end') ↔
  let now := blk_timestamp b in
  let earliest := start' + vs_minDuration (pl_votingSettings s) in
  now < 2 ^ 64 ∧ earliest < 2 ^ 64 ∧
  ((start = 0 ∧ start' = now) ∨ (start ≠ 0 ∧ now <= start ∧ start' = start)) ∧
  ((end_ = 0 ∧ end' = earliest) ∨ (end_ ≠ 0 ∧ earliest <= end_ ∧ end' = end_)).
Proof.
  unfold _validateProposalDates. simpl. split.
  - intros H. evm_inv. destruct (Z.eqb_spec start 0), (Z.eqb_spec end_ 0); evm_inv; subst;
      simplify_eq; split_and!; try done; lia.
  - intros (H1 & H2 & H3 & H4). unfold toUint64. rewrite (proj2 (Z.ltb_lt _ _)) by done. simpl.
    unfold checked_add, revert_if.
    destruct H3 as [[-> ->]|(Hs & ? & ->)]; [|rewrite (proj2 (Z.eqb_neq start 0)) by done]; simpl;
      [|rewrite (proj2 (Z.ltb_ge start _)) by lia; simpl];
      (rewrite (proj2 (Z.ltb_lt (_ + _) _)) by lia; simpl);
      (destruct H4 as [[-> ->]|(He & ? & ->)]; [done|];
       rewrite (proj2 (Z.eqb_neq end_ 0)) by done; simpl;
       rewrite (proj2 (Z.ltb_ge end_ _)) by lia; done).
Qed.

Lemma push_actions_all fuel i acts dst :
  (length acts - i < fuel)%nat → push_actions fuel i acts dst = dst ++ drop i acts.
Proof.
  revert i dst. induction fuel as [|fuel IH]; intros i dst Hf; [lia|]. simpl.
  destruct (acts !! i) as [a|] eqn:Ha.
  - pose proof (lookup_lt_Some _ _ _ Ha). rewrite IH by lia.
    by rewrite (drop_S _ _ _ Ha), <-app_assoc.
  - apply lookup_ge_None in Ha. by rewrite drop_ge, app_nil_r by done.
Qed.
#[local] Arguments push_actions : simpl never.

Lemma proposal_at_put id p s id' :
  proposal_at (put_proposal id p s) id' = if decide (id = id') then p else proposal_at s id'.
Proof. apply mapping_get_set. Qed.

(** The proposal [createProposal] writes over the one stored at its id. *)
Definition created (msg : Msg) (s : Plugin) (acts : list Action) (afm start end_ : Z)
    (p : Proposal) : Proposal :=
  let b := msg_block msg in
  let n := (blk_number b - 1) mod 2 ^ 256 in
  let st := pl_votingSettings s in
  mk_proposal (pr_executed p)
    (mk_parameters (vs_votingMode st) (vs_supportThreshold st) start end_ n (blockhash b n)
       (vs_votingProtocolConfig st) (vs_verifier st) (vs_votingProtocolImageId st)
       (vs_executionProtocolImageId st))
    (pr_tally p) (pr_voters p) (pr_actions p ++ acts)
    (if afm =? 0 then pr_allowFailureMap p else afm).

Lemma create_Done msg metadata acts afm start end_ s id s' :
  createProposal msg metadata acts afm start end_ s = Done (id, s') ↔
  ∃ start' end',
    msg_has_permission msg CREATE_PROPOSAL_PERMISSION_ID = true ∧
    _validateProposalDates (msg_block msg) s start end_ = Done (start', end') ∧
    (blk_number (msg_block msg) - 1) mod 2 ^ 256 < 2 ^ 64 ∧
    id = fst (osx_createProposal (msg_sender msg) metadata start' end' acts afm (pl_osx s)) ∧
    s' = mk_plugin osx (<[id := created msg s acts afm start' end' (proposal_at s id)]> (pl_proposals s))
           (pl_votingSettings s) (pl_counter s)
           (snd (osx_createProposal (msg_sender msg) metadata start' end' acts afm (pl_osx s)))
           (pl_log s).
Proof.
  unfold createProposal, auth. split.
  - intros H. evm_inv.
    match goal with d : Z * Z |- _ => destruct d as [start' end'] end. exists start', end'.
    destruct (osx_createProposal _ _ _ _ _ _ _) as [id0 o] eqn:Ho. evm_inv.
    simplify_eq. rewrite push_actions_all by lia. split_and!; try done. by destruct (msg_has_permission _ _).
  - intros (start' & end' & Hp & Hd & Hn & Hid & Hs'). rewrite Hp. simpl. rewrite Hd. simpl.
    destruct (osx_createProposal _ _ _ _ _ _ _) as [id0 o] eqn:Ho. simpl in *. subst id0.
    unfold toUint64. rewrite (proj2 (Z.ltb_lt _ _) Hn). cbn [mbind evm_bind].
    rewrite push_actions_all by lia. rewrite drop_0. by subst s'.
Qed.

Lemma vote_Done msg data seal s s' :
  vote msg data seal s = Done s' ↔
  ∃ j opt t1 t2, decode_journal data = Done j ∧ vj_config_contract j = msg_this msg ∧
    let p := proposal_at s (vj_proposal_id j) in
    check_proof pp_votingProtocolImageId p (vj_commitment j) data seal = Done tt ∧
    decrease_tally (mapping_get OptNone (pr_voters p) (vj_voter j)) (vj_balance j) (pr_tally p)
      = Done t1 ∧
    VoteOption_of (vj_direction j) = Done opt ∧
    increase_tally opt (vj_balance j) t1 = Done t2 ∧
    s' = emit (VoteCast (vj_proposal_id j) (vj_voter j) opt (vj_balance j))
           (put_proposal (vj_proposal_id j) (mk_proposal (pr_executed p) (pr_parameters p) t2
              (<[vj_voter j := opt]> (pr_voters p)) (pr_actions p) (pr_allowFailureMap p)) s).
Proof.
  unfold vote. split.
  - intros H. evm_inv. eexists _, _, _, _. cbn zeta. eauto 10.
  - intros (j & opt & t1 & t2 & Hj & Hc & Hp & H1 & Ho & H2 & ->). rewrite Hj. simpl.
    rewrite bool_decide_eq_true_2 by done. simpl. rewrite Hp. simpl. rewrite H1. simpl.
    rewrite Ho. simpl. rewrite H2. done.
Qed.

Lemma can_execute_Done b s id :
  _canExecute b s id = Done true ↔
  let p := proposal_at s id in
  pr_executed p = false ∧ blk_timestamp b < 2 ^ 64 ∧
  (pp_startDate (pr_parameters p) <= blk_timestamp b < pp_endDate (pr_parameters p) →
   pp_votingMode (pr_parameters p) = EarlyExecution).
Proof.
  unfold _canExecute, _isProposalOpen. cbn zeta.
  destruct (pr_executed (proposal_at s id)); [naive_solver|]. unfold toUint64.
  destruct (Z.ltb_spec (blk_timestamp b) (2 ^ 64)); simpl; [|split; [done|intros; lia]].
  destruct (Z.leb_spec (pp_startDate (pr_parameters (proposal_at s id))) (blk_timestamp b)),
    (Z.ltb_spec (blk_timestamp b) (pp_endDate (pr_parameters (proposal_at s id))));
    simpl; try (split; [intros _; split_and!; [done|done|lia]|done]).
  case_bool_decide; simpl; naive_solver.
Qed.

Lemma execute_begin_Done msg data seal s id s' :
  execute_begin msg data seal s = Done (id, s') ↔
  ∃ j, decode_journal data = Done j ∧ vj_config_contract j = msg_this msg ∧
    id = vj_proposal_id j ∧ _canExecute (msg_block msg) s id = Done true ∧
    check_proof pp_executionProtocolImageId (proposal_at s id) (vj_commitment j) data seal
      = Done tt ∧
    s' = set_executed id s.
Proof.
  unfold execute_begin. split.
  - intros H. evm_inv. simplify_eq.
    match goal with Hc : _canExecute _ _ _ = Done ?c |- _ => destruct c; [|done] end. eauto 10.
  - intros (j & Hj & Hc & -> & He & Hp & ->). rewrite Hj. simpl.
    rewrite bool_decide_eq_true_2 by done. simpl. rewrite He. simpl. rewrite Hp. done.
Qed.
End Steps.

(** ** Well-formed states *)

Definition tally_wf (t : Tally) : Prop :=
  0 <= tl_abstain t < 2 ^ 256 ∧ 0 <= tl_yes t < 2 ^ 256 ∧ 0 <= tl_no t < 2 ^ 256.

Definition proposal_wf (p : Proposal) : Prop :=
  0 <= pp_supportThreshold (pr_parameters p) < RATIO_BASE ∧
  0 <= pp_startDate (pr_parameters p) ∧
  pp_startDate (pr_parameters p) + MINUTES_60 <= pp_endDate (pr_parameters p) < 2 ^ 64 ∧
  0 <= pp_snapshotBlock (pr_parameters p) < 2 ^ 64 ∧
  tally_wf (pr_tally p).

Section Invariants.
Context {osx : Osx} {keccak : KeccakV256} {verifiers : Verifiers} {sha : Sha256}.
Context {osx_ok : OsxOk osx} {verifiers_ok : VerifiersOk verifiers}.

(** The settings are within their bounds, and the proposals stored are those
    with an id below the count, each well-formed. *)
Definition plugin_wf (s : Plugin) : Prop :=
  settings_typed (pl_votingSettings s) ∧ settings_ok (pl_votingSettings s) ∧
  map_Forall (λ id p, 0 <= id < osx_count (pl_osx s) ∧ proposal_wf p) (pl_proposals s).

(** A proof that verifies is for a proposal that was created. *)
Lemma check_proof_exists imageId s id c data seal u :
  check_proof imageId (proposal_at s id) c data seal = Done u →
  pl_proposals s !! id = Some (proposal_at s id).
Proof.
  rewrite check_proof_Done. intros (_ & _ & Hv). unfold proposal_at, mapping_get in *.
  destruct (pl_proposals s !! id) as [p|]; [done|]. simpl in Hv.
  pose proof (verify_at_zero seal (imageId parameters_zero) (sha256 data)) as Hz.
  by rewrite Hv in Hz.
Qed.

Lemma decode_journal_range data j :
  decode_journal data = Done j →
  0 <= vj_proposal_id j < 2 ^ 256 ∧ 0 <= vj_balance j < 2 ^ 256 ∧ 0 <= vj_direction j < 2 ^ 8.
Proof.
  unfold decode_journal, abi_decode_uint. intros H. evm_inv. subst j. simpl.
  repeat match goal with
  | H : (if ?b then _ else _) = Done _ |- _ => destruct b eqn:?; evm_inv
  end. subst. split_and!; try lia; apply be_value_range.
Qed.

Lemma decrease_tally_wf st b t t' :
  0 <= b → decrease_tally st b t = Done t' → tally_wf t → tally_wf t'.
Proof. intros Hb H (?&?&?). destruct st; simpl in H; evm_inv; subst; red; simpl; lia. Qed.
Lemma increase_tally_wf opt b t t' :
  0 <= b → increase_tally opt b t = Done t' → tally_wf t → tally_wf t'.
Proof. intros Hb H (?&?&?). destruct opt; simpl in H; evm_inv; subst; red; simpl; lia. Qed.

Lemma initialize_wf dao st s s' :
  settings_typed st → initialize dao st s = Done s' →
  map_Forall (λ id p, 0 <= id < osx_count (pl_osx s) ∧ proposal_wf p) (pl_proposals s) →
  plugin_wf s'.
Proof.
  intros Hst H Hps. unfold initialize in H. evm_inv. apply update_settings_Done in H as [Hok ->].
  split_and!; simpl; try done. by erewrite osx_initialize_count by done.
Qed.

Lemma create_wf msg metadata acts afm start end_ s id s' :
  msg_typed msg → 0 <= start < 2 ^ 64 → 0 <= end_ < 2 ^ 64 →
  createProposal msg metadata acts afm start end_ s = Done (id, s') →
  plugin_wf s → id = osx_count (pl_osx s) ∧ proposal_at s id = proposal_zero ∧ plugin_wf s'.
Proof.
  intros [Hn Ht] Hs He H (Hst & Hok & Hps).
  apply create_Done in H as (start' & end' & _ & Hd & Hsn & Hid & ->).
  destruct (osx_create_count (msg_sender msg) metadata start' end' acts afm (pl_osx s)) as [Hc Hc'].
  rewrite Hc in Hid. apply dates_Done in Hd as (H1 & H2 & H3 & H4).
  assert (pl_proposals s !! id = None) as Hf.
  { apply eq_None_not_Some. intros [p Hp]. apply Hps in Hp. lia. }
  assert (proposal_at s id = proposal_zero) as Hz by (unfold proposal_at, mapping_get; by rewrite Hf).
  pose proof (osx_count_nonneg (pl_osx s)). destruct Hst as (?&?&?&?), Hok as (?&?&?&?).
  split_and!; try done. split_and!; simpl; try done. rewrite Hz, Hc'.
  apply map_Forall_insert_2.
  - unfold MINUTES_60 in *. unfold proposal_wf, tally_wf. simpl.
    pose proof (Z.mod_pos_bound (blk_number (msg_block msg) - 1) (2 ^ 256)). unfold MINUTES_60. lia.
  - eapply map_Forall_impl; [exact Hps|]. simpl. intros i p [??]. split; [lia|done].
Qed.

Lemma vote_wf msg data seal s s' : vote msg data seal s = Done s' → plugin_wf s → plugin_wf s'.
Proof.
  intros H (Hst & Hok & Hps).
  apply vote_Done in H as (j & opt & t1 & t2 & Hj & _ & Hp & H1 & _ & H2 & ->).
  apply decode_journal_range in Hj as (Hid & Hb & _). apply check_proof_exists in Hp.
  split_and!; simpl; try done. apply map_Forall_insert_2; [|done].
  apply Hps in Hp as [Hlt (?&?&?&?&Ht)]. split; [done|]. split_and!; simpl; try done; try lia.
  eapply increase_tally_wf, decrease_tally_wf; [|done| |done|done]; lia.
Qed.

Lemma execute_begin_wf msg data seal s id s' :
  execute_begin msg data seal s = Done (id, s') → plugin_wf s → plugin_wf s'.
Proof.
  intros H (Hst & Hok & Hps). apply execute_begin_Done in H as (j & Hj & _ & -> & _ & Hp & ->).
  apply check_proof_exists in Hp. split_and!; simpl; try done.
  apply map_Forall_insert_2; [|done]. apply Hps in Hp as [??]. done.
Qed.

Lemma step_wf s o s' : step s o s' → plugin_wf s → plugin_wf s'.
Proof.
  intros H Hwf. destruct H as [dao st s' Hst H|msg st s' Hst H|msg metadata acts afm start end_ id s'
    Hm Hs He H|msg data seal j s' Hj H|msg data seal id s' H].
  - eapply initialize_wf; [done|done|]. apply Hwf.
  - unfold updateVotingSettings in H. evm_inv. apply update_settings_Done in H as [Hok ->].
    by split_and!; [..|apply Hwf].
  - by destruct (create_wf _ _ _ _ _ _ _ _ _ Hm Hs He H Hwf) as (_ & _ & ?).
  - by eapply vote_wf.
  - by eapply execute_begin_wf.
Qed.

Lemma steps_wf s os s' : steps s os s' → plugin_wf s → plugin_wf s'.
Proof. induction 1; eauto using step_wf. Qed.

Lemma reachable_plugin_wf s : reachable s → plugin_wf s.
Proof.
  intros (o & dao & st & s0 & os & Hst & Hi & Hs). eapply steps_wf; [done|].
  eapply initialize_wf; [done..|]. apply map_Forall_empty.
Qed.
End Invariants.

(** ** The life of a proposal *)

(** [p'] is [p] with other votes, and executed if [executed] says so. *)
Definition same_proposal (p p' : Proposal) (executed : bool) : Prop :=
  pr_parameters p' = pr_parameters p ∧ pr_actions p' = pr_actions p ∧
  pr_allowFailureMap p' = pr_allowFailureMap p ∧ pr_executed p' = (pr_executed p || executed).

(** How many of the calls executed proposal [id]. *)
Definition executions (id : Z) (os : list op) : nat := length (filter (λ o, o = OpExecute id) os).

Section Lifecycle.
Context {osx : Osx} {keccak : KeccakV256} {verifiers : Verifiers} {sha : Sha256}.
Context {osx_ok : OsxOk osx} {verifiers_ok : VerifiersOk verifiers}.

Lemma proposal_at_Some (s : Plugin) id p : pl_proposals s !! id = Some p → proposal_at s id = p.
Proof. unfold proposal_at, mapping_get. by intros ->. Qed.

Lemma step_keeps s o s' id p :
  plugin_wf s → step s o s' → pl_proposals s !! id = Some p →
  ∃ p', pl_proposals s' !! id = Some p' ∧ same_proposal p p' (bool_decide (o = OpExecute id)) ∧
        (o = OpExecute id → pr_executed p = false).
Proof.
  intros Hwf H Hp.
  assert (same_proposal p p false) as Hrefl by (red; by rewrite orb_false_r).
  destruct H as [dao st s' Hst H|msg st s' Hst H|msg metadata acts afm start end_ id' s'
    Hm Hs He H|msg data seal j s' Hj H|msg data seal id' s' H].
  - unfold initialize in H. evm_inv. apply update_settings_Done in H as [_ ->].
    by exists p; split; [|split; [exact Hrefl|]].
  - unfold updateVotingSettings in H. evm_inv. apply update_settings_Done in H as [_ ->].
    by exists p; split; [|split; [exact Hrefl|]].
  - destruct (create_wf _ _ _ _ _ _ _ _ _ Hm Hs He H Hwf) as (Hid & _ & _).
    apply create_Done in H as (start' & end' & _ & _ & _ & _ & ->).
    exists p. split; [|by split; [exact Hrefl|]]. simpl. apply lookup_insert_Some. right. split; [|done].
    apply Hwf in Hp. lia.
  - apply vote_Done in H as (j' & opt & t1 & t2 & _ & _ & _ & _ & _ & _ & ->).
    simpl. destruct (decide (id = vj_proposal_id j')) as [<-|Hne].
    + rewrite (proposal_at_Some _ _ _ Hp), lookup_insert_eq. eexists. split; [done|].
      split; [|done]. unfold same_proposal. by rewrite orb_false_r.
    + rewrite lookup_insert_ne by done. by exists p; split; [|split; [exact Hrefl|]].
  - apply execute_begin_Done in H as (j & _ & _ & _ & Hc & _ & ->).
    apply can_execute_Done in Hc as (Hx & _ & _).
    unfold set_executed, put_proposal. simpl.
    destruct (decide (id = id')) as [<-|Hne].
    + rewrite (proposal_at_Some _ _ _ Hp) in *. rewrite lookup_insert_eq. eexists.
      split; [done|]. rewrite bool_decide_eq_true_2 by done.
      split; [|done]. unfold same_proposal. by rewrite orb_true_r.
    + rewrite lookup_insert_ne by done. exists p. rewrite bool_decide_eq_false_2 by congruence.
      split_and!; [done..|congruence].
Qed.

Lemma steps_keep s os s' id p :
  plugin_wf s → steps s os s' → pl_proposals s !! id = Some p →
  ∃ p', pl_proposals s' !! id = Some p' ∧
    pr_parameters p' = pr_parameters p ∧ pr_actions p' = pr_actions p ∧
    pr_allowFailureMap p' = pr_allowFailureMap p ∧
    (executions id os + Nat.b2n (pr_executed p) = Nat.b2n (pr_executed p'))%nat.
Proof.
  intros Hr Hs. revert p.
  induction Hs as [s|s o s' os s'' Ho Hs IH]; intros p Hp; [by exists p|].
  destruct (step_keeps _ _ _ _ _ Hr Ho Hp) as (p1 & Hp1 & (Hpar & Hact & Hafm & Hex) & Hno).
  destruct (IH (step_wf _ _ _ Ho Hr) p1 Hp1) as (p2 & Hp2 & Hpar' & Hact' & Hafm' & Hex').
  exists p2. split_and!; try congruence. rewrite <-Hex', Hex. unfold executions.
  rewrite filter_cons. case_decide as Hd; simpl.
  - rewrite (Hno Hd). simpl. lia.
  - by rewrite orb_false_r.
Qed.

Lemma steps_keep_executed s os s' id p :
  plugin_wf s → steps s os s' → pl_proposals s !! id = Some p → pr_executed p = true →
  ∃ p', pl_proposals s' !! id = Some p' ∧ pr_executed p' = true ∧
        pr_parameters p' = pr_parameters p.
Proof.
  intros Hwf Hs Hp Hx. destruct (steps_keep _ _ _ _ _ Hwf Hs Hp) as (p' & Hp' & Hpar & _ & _ & Hn).
  exists p'. rewrite Hx in Hn. destruct (pr_executed p'); simpl in Hn; [done|lia].
Qed.

(** C9: Once a proposal exists, no sequence of calls to the plugin changes its
    parameters (dates, snapshot, verifier, image ids, configuration), its
    actions or its failure map, and the number of successful executions of it
    is exactly the change of its [executed] flag: a proposal is executed at
    most once, whatever the DAO's actions call back. *)
Theorem proposal_lifecycle s os s' id p :
  reachable s → steps s os s' → pl_proposals s !! id = Some p →
  ∃ p', pl_proposals s' !! id = Some p' ∧
    pr_parameters p' = pr_parameters p ∧ pr_actions p' = pr_actions p ∧
    pr_allowFailureMap p' = pr_allowFailureMap p ∧
    (executions id os + Nat.b2n (pr_executed p) = Nat.b2n (pr_executed p'))%nat.
Proof.
  intros Hr. by apply steps_keep, reachable_plugin_wf.
Qed.

(** C10: Every reachable state is well-typed: the settings are within the bounds
    the code enforces, only ids below the proposal count are stored, and each
    stored proposal has a support threshold below 100%, lasts at least an
    hour, has 64-bit dates and snapshot block, and a tally that fits 256
    bits. *)
Theorem reachable_typed s :
  reachable s →
  settings_ok (pl_votingSettings s) ∧
  ∀ id p, pl_proposals s !! id = Some p → 0 <= id < osx_count (pl_osx s) ∧ proposal_wf p.
Proof. intros Hr. apply reachable_plugin_wf in Hr as (_ & Hok & Hps). split; [done|apply Hps]. Qed.
End Lifecycle.

(** ** Creating and executing a proposal *)

Section Operations.
Context {osx : Osx} {keccak : KeccakV256} {verifiers : Verifiers} {sha : Sha256}.
Context {osx_ok : OsxOk osx} {verifiers_ok : VerifiersOk verifiers}.

(** C14: [createProposal] succeeds exactly for a caller with the permission, in
    a block that has a predecessor, with a start that is not in the past and
    an end at least the minimum duration later (a zero start is now, a zero
    end the earliest one).  It then takes the next id and stores there, and
    nowhere else, an unexecuted proposal with an empty tally, no votes, the
    given actions, the current settings, and the previous block and its hash
    as snapshot. *)
Theorem create_proposal_correct msg metadata acts afm start end_ s id s' :
  reachable s → msg_typed msg → 0 <= start < 2 ^ 64 → 0 <= end_ < 2 ^ 64 →
  let b := msg_block msg in
  let st := pl_votingSettings s in
  let start' := if start =? 0 then blk_timestamp b else start in
  let earliest := start' + vs_minDuration st in
  let end' := if end_ =? 0 then earliest else end_ in
  let o := osx_createProposal (msg_sender msg) metadata start' end' acts afm (pl_osx s) in
  createProposal msg metadata acts afm start end_ s = Done (id, s') ↔
  msg_has_permission msg CREATE_PROPOSAL_PERMISSION_ID = true ∧
  1 <= blk_number b <= 2 ^ 64 ∧
  blk_timestamp b <= start' ∧ blk_timestamp b < 2 ^ 64 ∧ earliest <= end' ∧ earliest < 2 ^ 64 ∧
  id = osx_count (pl_osx s) ∧
  s' = mk_plugin osx
         (<[id := mk_proposal false
              (mk_parameters (vs_votingMode st) (vs_supportThreshold st) start' end'
                 (blk_number b - 1) (blockhash b (blk_number b - 1))
                 (vs_votingProtocolConfig st) (vs_verifier st) (vs_votingProtocolImageId st)
                 (vs_executionProtocolImageId st))
              (mk_tally 0 0 0) ∅ acts afm]> (pl_proposals s))
         st (pl_counter s) (snd o) (pl_log s).
Proof.
  intros Hr [Hn Ht] Hs He b st start' earliest end' o. apply reachable_plugin_wf in Hr as (_ & _ & Hps).
  assert (proposal_at s (osx_count (pl_osx s)) = proposal_zero) as Hz.
  { unfold proposal_at, mapping_get. destruct (_ !! _) as [p|] eqn:Hp; [|done].
    apply Hps in Hp. lia. }
  pose proof (Z.mod_pos_bound (blk_number b - 1) (2 ^ 256)) as Hmod.
  assert (1 <= blk_number b → (blk_number b - 1) mod 2 ^ 256 = blk_number b - 1) as Hsmall.
  { intros. apply Z.mod_small. unfold b in *. lia. }
  assert ((if afm =? 0 then 0 else afm) = afm) as Hafm by (by destruct (Z.eqb_spec afm 0)).
  rewrite create_Done. split.
  - intros (st0 & en0 & Hp & Hd & Hb & Hid & ->).
    apply dates_Done in Hd as (H1 & H2 & H3 & H4).
    assert (st0 = start') as -> by (unfold start'; destruct (Z.eqb_spec start 0); naive_solver).
    assert (en0 = end') as -> by (unfold end'; destruct (Z.eqb_spec end_ 0); naive_solver).
    destruct (osx_create_count (msg_sender msg) metadata start' end' acts afm (pl_osx s)) as [Hc _].
    rewrite Hc in Hid. subst id.
    assert (1 <= blk_number b) as Hb1.
    { destruct (Z.eq_dec (blk_number b) 0) as [H0|]; [|unfold b in *; lia].
      unfold b in H0. rewrite H0 in Hb. vm_compute in Hb. done. }
    rewrite Hz. unfold created. fold b. rewrite (Hsmall Hb1) in *. simpl. rewrite Hafm.
    split_and!; try done; unfold earliest, st, b in *; lia.
  - intros (Hp & Hb & Hst & Hts & Hen & Hea & -> & ->). exists start', end'.
    destruct (osx_create_count (msg_sender msg) metadata start' end' acts afm (pl_osx s)) as [Hc _].
    split_and!; [done| | |done|].
    + apply dates_Done. cbn zeta. fold b st earliest. split_and!; [done|done| |];
        unfold end', start' in *; [destruct (Z.eqb_spec start 0)|destruct (Z.eqb_spec end_ 0)]; lia.
    + fold b. rewrite Hsmall; lia.
    + rewrite Hz. unfold created. fold b. rewrite Hsmall by lia. simpl. by rewrite Hafm.
Qed.

(** The proposal with another tally and other votes. *)
Definition retally (id : Z) (t : Tally) (voters : gmap Address VoteOption) (s : Plugin) : Plugin :=
  let p := proposal_at s id in
  put_proposal id (mk_proposal (pr_executed p) (pr_parameters p) t voters (pr_actions p)
    (pr_allowFailureMap p)) s.

(** C34: The proof [execute] asks for is not tied to the votes: whatever replaces
    the stored tally and votes of the proposal, the same call is still
    accepted.  The contract takes no part in checking that the proposal
    passed. *)
Theorem execute_ignores_tally msg data seal s id s' t voters :
  execute_begin msg data seal s = Done (id, s') →
  execute_begin msg data seal (retally id t voters s) = Done (id, retally id t voters s').
Proof.
  intros H. apply execute_begin_Done in H as (j & Hj & Hc & Hid & He & Hp & ->).
  assert (proposal_at (retally id t voters s) id = mk_proposal (pr_executed (proposal_at s id))
    (pr_parameters (proposal_at s id)) t voters (pr_actions (proposal_at s id))
    (pr_allowFailureMap (proposal_at s id))) as Hr
    by (unfold retally; by rewrite proposal_at_put, decide_True by done).
  apply execute_begin_Done. exists j. split_and!; try done.
  - apply can_execute_Done in He. apply can_execute_Done. by rewrite Hr.
  - apply check_proof_Done in Hp. apply check_proof_Done. by rewrite Hr.
  - unfold set_executed. rewrite Hr. unfold retally. rewrite proposal_at_put, decide_True by done.
    unfold put_proposal. simpl. by rewrite !insert_insert_eq.
Qed.

(** What it takes to pass the commitment of an execution journal for that of a
    proposal, one word late. *)
Definition misread (this : Address) (par : ProposalParameters) (c : Commitment) : Prop :=
  pp_snapshotBlock par = 32 ∧
  fb_bytes (pp_snapshotBlockHash par) = abi_uint (com_id c) ∧
  fb_bytes (com_configID c) = abi_address this.

(** C23: [execute] misreads what the execution program proves.  If it accepts a
    journal of that program, then the proposal's snapshot block is number 32
    (the offset word read as the block), its hash is the commitment's
    identifier, and the commitment's configuration hash is the plugin's own
    address: so it never executes a proposal whose snapshot block is another
    one. *)
Theorem execution_journal_misread msg j seal s id s' :
  length (ej_tally j) = 3%nat →
  execute_begin msg (abi_encode_execution j) seal s = Done (id, s') →
  misread (msg_this msg) (pr_parameters (proposal_at s id)) (ej_commitment j).
Proof.
  intros Ht H. unfold execute_begin in H. evm_inv. simplify_eq.
  match goal with Hd : decode_journal _ = Done _ |- _ =>
    apply decode_execution_journal in Hd as (Hid & Hdig & Hcfg); [|done] end.
  match goal with Hp : check_proof _ _ _ _ _ = Done _ |- _ =>
    apply check_proof_Done in Hp as (Hd & Hs & _) end.
  rewrite Hid in Hs. split_and!; [by rewrite <-Hs|congruence|congruence].
Qed.

(** The DAO changes the plugin only through the plugin's own calls. *)
Variable dao_execute : Z → list Action → Z → Plugin → evm Plugin.
Definition dao_calls_back : Prop :=
  ∀ id acts afm s s', dao_execute id acts afm s = Done s' → ∃ os, steps s os s'.

(** C13: A successful [execute] was for a stored proposal that had not been
    executed and, unless its mode is early execution, was not open; its proof
    verified against the proposal's verifier and execution image; the DAO was
    called once with the actions and the failure map stored for it; and
    afterwards the proposal, with the same parameters, is executed. *)
Theorem execute_correct msg data seal s s' :
  dao_calls_back → reachable s → execute dao_execute msg data seal s = Done s' →
  ∃ id p p', pl_proposals s !! id = Some p ∧ pr_executed p = false ∧
    (pp_startDate (pr_parameters p) <= blk_timestamp (msg_block msg)
       < pp_endDate (pr_parameters p) → pp_votingMode (pr_parameters p) = EarlyExecution) ∧
    verify_at (pp_verifier (pr_parameters p)) seal (pp_executionProtocolImageId (pr_parameters p))
      (sha256 data) = Done tt ∧
    dao_execute id (pr_actions p) (pr_allowFailureMap p) (set_executed id s) = Done s' ∧
    reachable s' ∧ pl_proposals s' !! id = Some p' ∧ pr_executed p' = true ∧
    pr_parameters p' = pr_parameters p.
Proof.
  intros Hdao Hr H. unfold execute in H. evm_inv.
  match goal with q : Z * Plugin |- _ => destruct q as [id s1] end.
  match goal with Hb : execute_begin _ _ _ _ = _ |- _ => rename Hb into Hbegin end.
  assert (step s (OpExecute id) s1) as Hstep by (by econstructor).
  apply execute_begin_Done in Hbegin as (j & Hj & Hc & Hid & He & Hp & Hs1).
  pose proof (check_proof_exists _ _ _ _ _ _ _ Hp) as Hex. set (p := proposal_at s id) in *.
  destruct (step_keeps _ _ _ _ _ (reachable_plugin_wf _ Hr) Hstep Hex)
    as (p1 & Hp1 & (Hpar & Hact & Hafm & Hx) & _).
  rewrite (proposal_at_Some _ _ _ Hp1), Hact, Hafm in H.
  destruct (Hdao _ _ _ _ _ H) as [os Hos].
  assert (reachable s1) as Hr1 by (eapply reachable_steps; eauto using steps).
  apply can_execute_Done in He as (Hne & _ & Hopen). apply check_proof_Done in Hp as (_ & _ & Hv).
  rewrite bool_decide_eq_true_2, orb_true_r in Hx by done.
  assert (∃ p', pl_proposals s' !! id = Some p' ∧ pr_executed p' = true ∧
                pr_parameters p' = pr_parameters p1) as (p' & Hp' & Hx' & Hpar').
  { by apply (steps_keep_executed _ _ _ _ _ (reachable_plugin_wf _ Hr1) Hos Hp1). }
  exists id, p, p'. subst s1. split_and!; try done; [by eapply reachable_steps|congruence].
Qed.
End Operations.

(** ** The concrete plugin *)

Module PluginWitness.
Import PluginFixture.

Definition osx_ok : OsxOk osx.
Proof.
  refine {| osx_count := (λ o, Z.abs (snd o)) : @OsxState osx → Z |}; simpl; [lia| |intros; lia].
  intros _ [[] n] o'; simpl; [done|]. by intros [= <-].
Defined.
Definition verifiers_ok : VerifiersOk verifiers.
Proof. by intros seal imageId digest. Qed.
#[export] Existing Instance osx_ok.
#[export] Existing Instance verifiers_ok.

Lemma settings_typed_holds : settings_typed settings.
Proof. unfold settings_typed. simpl. lia. Qed.

Lemma s_init_reachable (k : KeccakV256) (v : Verifiers) (h : Sha256) : @reachable osx k v h s_init.
Proof.
  exists (false, 0), Fixture.dao, settings, s_init, []. split; [apply settings_typed_holds|].
  split; [apply s_init_ok|constructor].
Qed.

Lemma s_created_steps : steps s_init [OpCreate 0] s_created.
Proof.
  econstructor; [|constructor].
  apply (step_create _ (msg_at 1000) [] actions 0 0 0); [..|apply s_created_ok];
    unfold msg_typed; simpl; lia.
Qed.

Lemma s_created_reachable : reachable s_created.
Proof. eapply reachable_steps; [apply s_init_reachable|apply s_created_steps]. Qed.

Lemma s_no_steps : steps s_created [OpVote 0 Fixture.alice; OpVote 0 Fixture.alice] s_no.
Proof.
  econstructor; [|econstructor; [|constructor]].
  - apply (step_vote _ (msg_at 1000) (abi_encode_voting (journal 2 100)) seal (journal 2 100));
      [apply decode_ok; lia|apply s_yes_ok].
  - apply (step_vote _ (msg_at 1000) (abi_encode_voting (journal 3 40)) seal (journal 3 40));
      [apply decode_ok; lia|apply s_no_ok].
Qed.

Lemma s_no_reachable : reachable s_no.
Proof. eapply reachable_steps; [apply s_created_reachable|apply s_no_steps]. Qed.

Lemma s_executed_steps :
  steps s_created [OpVote 0 Fixture.alice; OpVote 0 Fixture.alice; OpExecute 0] s_executed.
Proof.
  change [OpVote 0 Fixture.alice; OpVote 0 Fixture.alice; OpExecute 0]
    with ([OpVote 0 Fixture.alice; OpVote 0 Fixture.alice] ++ [OpExecute 0]).
  eapply steps_app; [apply s_no_steps|]. econstructor; [|constructor].
  eapply step_execute, s_executed_ok.
Qed.

(** An execution journal whose commitment is the plugin's address, and a
    proposal of block 32 with the hash it is mistaken for. *)
Definition odd_journal : ExecutionJournal := {|
  ej_commitment := mk_commitment 9 ZERO32
    (mk_fixed (abi_address Fixture.plugin) (length_abi_address Fixture.plugin));
  ej_config_contract := ADDRESS_ZERO; ej_proposal_id := 4; ej_tally := [100; 0; 0]
|}.
Definition odd_state : Plugin := put_proposal 0
  (mk_proposal false (mk_parameters Standard 0 0 1 32 (bytes32_of_uint 9) "" verifier ZERO32 ZERO32)
     (mk_tally 0 0 0) ∅ [] 0) s_init.
End PluginWitness.

Section Witnesses.
Import PluginFixture PluginWitness.

Lemma proposal_lifecycle_witness :
  ∃ p p', pl_proposals PluginFixture.s_created !! 0 = Some p ∧
    pl_proposals PluginFixture.s_executed !! 0 = Some p' ∧ pr_actions p' = pr_actions p ∧
    pr_actions p = PluginFixture.actions ∧ pr_executed p = false ∧ pr_executed p' = true.
Proof.
  eexists. destruct (proposal_lifecycle PluginFixture.s_created
    [OpVote 0 Fixture.alice; OpVote 0 Fixture.alice; OpExecute 0] PluginFixture.s_executed 0
    (proposal_at PluginFixture.s_created 0)) as (p' & Hp' & _ & Hact & _ & Hex);
    [apply PluginWitness.s_created_reachable|apply PluginWitness.s_executed_steps
    |vm_compute; reflexivity|].
  exists p'. split; [vm_compute; reflexivity|]. split; [exact Hp'|]. split; [exact Hact|].
  split; [reflexivity|]. split; [reflexivity|]. destruct (pr_executed p'); [done|discriminate Hex].
Defined.

Lemma reachable_typed_witness :
  settings_ok (pl_votingSettings PluginFixture.s_no) ∧
  0 < osx_count (pl_osx PluginFixture.s_no) ∧ proposal_wf (proposal_at PluginFixture.s_no 0).
Proof.
  destruct (reachable_typed PluginFixture.s_no PluginWitness.s_no_reachable) as [Hok Hps].
  split; [exact Hok|]. destruct (Hps 0 (proposal_at PluginFixture.s_no 0)) as [[_ Hc] Hp];
    [vm_compute; reflexivity|]. split; [exact Hc|exact Hp].
Defined.

Lemma create_proposal_correct_witness :
  createProposal (PluginFixture.msg_at 1000) [] PluginFixture.actions 0 0 0 PluginFixture.s_init
    = Done (0, PluginFixture.s_created).
Proof.
  apply (create_proposal_correct (PluginFixture.msg_at 1000) [] PluginFixture.actions 0 0 0
    PluginFixture.s_init 0 PluginFixture.s_created (PluginWitness.s_init_reachable _ _ _));
    [unfold msg_typed; simpl; lia|lia|lia|].
  split_and!; vm_compute; congruence.
Defined.

Lemma execute_ignores_tally_witness :
  execute_begin (PluginFixture.msg_at 5000) (abi_encode_voting (PluginFixture.journal 0 0))
    PluginFixture.seal (retally 0 (mk_tally 0 0 1000) ∅ PluginFixture.s_no)
  = Done (0, retally 0 (mk_tally 0 0 1000) ∅ PluginFixture.s_executed).
Proof. apply execute_ignores_tally. apply PluginFixture.s_executed_ok. Defined.

Lemma execution_journal_misread_witness :
  misread Fixture.plugin (pr_parameters (proposal_at PluginWitness.odd_state 0))
    (ej_commitment PluginWitness.odd_journal).
Proof.
  apply (execution_journal_misread (PluginFixture.msg_at 5000) PluginWitness.odd_journal
    PluginFixture.seal PluginWitness.odd_state 0 (set_executed 0 PluginWitness.odd_state));
    [reflexivity|vm_compute; reflexivity].
Defined.

Lemma execute_correct_witness :
  ∃ id p', pl_proposals PluginFixture.s_executed !! id = Some p' ∧ pr_executed p' = true.
Proof.
  destruct (execute_correct (λ _ _ _ s, Done s) (PluginFixture.msg_at 5000)
    (abi_encode_voting (PluginFixture.journal 0 0)) PluginFixture.seal PluginFixture.s_no
    PluginFixture.s_executed) as (id & p & p' & _ & _ & _ & _ & _ & _ & Hp' & Hx & _).
  - intros id acts afm s s' [= <-]. exists []. constructor.
  - apply PluginWitness.s_no_reachable.
  - vm_compute. reflexivity.
  - exists id, p'. split; [exact Hp'|exact Hx].
Defined.
End Witnesses.
