(* ===== verification/PluginViews.v ===== *)
(** * The views of the voting plugin

    The public getters of [MajorityVotingBase.sol]: the current settings, and
    the questions whether a vote can be cast and a proposal be executed. *)

From stdpp Require Import base gmap list strings.
From Stdlib Require Import ZArith Lia Strings.Byte.
From S2P Require Import Prelude Machine Ethereum VoteSignature GuestIO VotingGuest Solidity Steel.
From S2P Require Import Fixtures Abi Sha256 JournalDecode Plugin PluginFixture PluginCorrect.
#[local] Open Scope Z_scope.

Section Views.
Context {osx : Osx}.

Definition canVote (b : Block) (s : Plugin) (_proposalId : Z) (_voter : Address)
    (_voteOption : VoteOption) : evm bool := _canVote b s _proposalId _voter _voteOption.
Definition canExecute (b : Block) (s : Plugin) (_proposalId : Z) : evm bool :=
  _canExecute b s _proposalId.

Definition supportThreshold (s : Plugin) : Z := vs_supportThreshold (pl_votingSettings s).
Definition minParticipation (s : Plugin) : Z := vs_minParticipation (pl_votingSettings s).
Definition minDuration (s : Plugin) : Z := vs_minDuration (pl_votingSettings s).
Definition minProposerVotingPower (s : Plugin) : Z :=
  vs_minProposerVotingPower (pl_votingSettings s).
Definition votingMode (s : Plugin) : VotingMode := vs_votingMode (pl_votingSettings s).
Definition verifier (s : Plugin) : Address := vs_verifier (pl_votingSettings s).
Definition votingProtocolImageId (s : Plugin) : bytes32 :=
  vs_votingProtocolImageId (pl_votingSettings s).
Definition executionProtocolImageId (s : Plugin) : bytes32 :=
  vs_executionProtocolImageId (pl_votingSettings s).
(** [votingProtocolConfig()], without a proposal. *)
Definition votingProtocolConfig_current (s : Plugin) : string :=
  vs_votingProtocolConfig (pl_votingSettings s).
End Views.

Section Facts.
Context {osx : Osx} {keccak : KeccakV256} {verifiers : Verifiers} {sha : Sha256}.
Context {osx_ok : OsxOk osx} {verifiers_ok : VerifiersOk verifiers}.

Lemma proposal_at_None s id : pl_proposals s !! id = None → proposal_at s id = proposal_zero.
Proof. intros H. unfold proposal_at, mapping_get. by rewrite H. Qed.

(** When a proposal is open. *)
Definition open_at (t : Z) (p : Proposal) : Prop :=
  pp_startDate (pr_parameters p) <= t < pp_endDate (pr_parameters p) ∧ pr_executed p = false.
#[export] Instance open_at_dec t p : Decision (open_at t p).
Proof. unfold open_at. apply _. Defined.

Lemma open_Done b p :
  blk_timestamp b < 2 ^ 64 →
  _isProposalOpen b p = Done (bool_decide (open_at (blk_timestamp b) p)).
Proof.
  intros Ht. unfold _isProposalOpen. rewrite (proj2 (toUint64_Done _ _) (conj Ht eq_refl)). simpl.
  f_equal. case_bool_decide as Ho; unfold open_at in Ho;
    destruct (Z.leb_spec (pp_startDate (pr_parameters p)) (blk_timestamp b)),
      (Z.ltb_spec (blk_timestamp b) (pp_endDate (pr_parameters p))), (pr_executed p); simpl;
    try done; by (lia || destruct Ho; split).
Qed.

(** [canVote] is true exactly for a created and open proposal, a proper
    option, and a voter without a vote, unless votes can be replaced.  The
    voter's power has no part in it. *)
Theorem can_vote_view b s id voter opt :
  0 <= blk_timestamp b < 2 ^ 64 →
  canVote b s id voter opt = Done true ↔
  ∃ p, pl_proposals s !! id = Some p ∧ open_at (blk_timestamp b) p ∧ opt ≠ OptNone ∧
    (getVoteOption s id voter = OptNone ∨ pp_votingMode (pr_parameters p) = VoteReplacement).
Proof.
  intros Ht. unfold canVote, _canVote, getVoteOption. rewrite open_Done by lia. simpl.
  destruct (pl_proposals s !! id) as [p|] eqn:Hp.
  - rewrite (proposal_at_Some _ _ _ Hp). case_bool_decide as Ho; simpl; [|naive_solver].
    repeat case_bool_decide; simpl; naive_solver.
  - rewrite (proposal_at_None _ _ Hp). rewrite bool_decide_eq_false_2; [naive_solver|].
    unfold open_at. simpl. lia.
Qed.

(** [canExecute] is true exactly when the proposal is not executed and is
    closed or in early execution mode: the tally has no part in it. *)
Theorem can_execute_view b s id :
  blk_timestamp b < 2 ^ 64 →
  canExecute b s id = Done true ↔
  pr_executed (proposal_at s id) = false ∧
  (open_at (blk_timestamp b) (proposal_at s id) →
   pp_votingMode (pr_parameters (proposal_at s id)) = EarlyExecution).
Proof.
  intros Ht. unfold canExecute, _canExecute. rewrite open_Done by done. cbn zeta.
  destruct (pr_executed (proposal_at s id)); [naive_solver|]. simpl.
  repeat case_bool_decide; simpl; naive_solver.
Qed.

(** [canExecute] answers true for proposals that were never created, which
    [execute] refuses, whatever the proof. *)
Theorem can_execute_unknown b s id :
  0 <= blk_timestamp b < 2 ^ 64 → pl_proposals s !! id = None →
  canExecute b s id = Done true ∧
  ∀ dao_execute msg data seal s' j, decode_journal data = Done j → vj_proposal_id j = id →
    execute dao_execute msg data seal s ≠ Done s'.
Proof.
  intros Ht Hp. split.
  - apply can_execute_view; [lia|]. rewrite (proposal_at_None _ _ Hp). split; [done|].
    unfold open_at. simpl. lia.
  - intros dao_execute msg data seal s' j Hj Hid H. unfold execute in H.
    destruct (execute_begin msg data seal s) as [[id' s1]|] eqn:Hb; [|done].
    apply execute_begin_Done in Hb as (j' & Hj' & _ & -> & _ & Hc & _).
    apply check_proof_exists in Hc. congruence.
Qed.

(** The settings that the getters show are within their bounds in every
    reachable state, and an update shows at once. *)
Theorem settings_views s :
  reachable s →
  supportThreshold s < RATIO_BASE ∧ minParticipation s <= RATIO_BASE ∧
  MINUTES_60 <= minDuration s <= DAYS_365 ∧
  ∀ msg st s', updateVotingSettings msg st s = Done s' →
    (votingMode s', supportThreshold s', minParticipation s', minDuration s',
     minProposerVotingPower s', votingProtocolConfig_current s', verifier s',
     votingProtocolImageId s', executionProtocolImageId s') =
    (vs_votingMode st, vs_supportThreshold st, vs_minParticipation st, vs_minDuration st,
     vs_minProposerVotingPower st, vs_votingProtocolConfig st, vs_verifier st,
     vs_votingProtocolImageId st, vs_executionProtocolImageId st).
Proof.
  intros (_ & (? & ? & ?) & _)%reachable_plugin_wf. do 3 (split; [done|]).
  intros msg st s' Hup. unfold updateVotingSettings in Hup. evm_inv.
  by apply update_settings_Done in Hup as [_ ->].
Qed.
End Facts.
