(* ===== verification/Ballots.v ===== *)
(** * The tally of the voting plugin as a count of ballots

    The ballots of a proposal are the votes in the event log, the last one of
    each voter counting.  The contract keeps a running tally instead, from
    which a voter's second vote is taken off with the power it has then. *)

From stdpp Require Import base gmap list strings.
From Stdlib Require Import ZArith Lia Strings.Byte.
From S2P Require Import Prelude Machine Ethereum VoteSignature GuestIO VotingGuest Solidity Steel.
From S2P Require Import Fixtures Abi Sha256 JournalDecode Plugin PluginFixture PluginCorrect.
#[local] Open Scope Z_scope.

(** ** The abstract count *)

Definition cast (id : Z) (m : gmap Address (VoteOption * Z)) (e : Event) :
    gmap Address (VoteOption * Z) :=
  match e with
  | VoteCast id' voter opt power => if id' =? id then <[voter := (opt, power)]> m else m
  | _ => m
  end.

(** The last vote of each voter on a proposal. *)
Definition ballots (id : Z) (log : list Event) : gmap Address (VoteOption * Z) :=
  foldl (cast id) ∅ log.

Definition weigh (opt : VoteOption) (ballot : VoteOption * Z) : Z :=
  if bool_decide (fst ballot = opt) then snd ballot else 0.

(** The tally of the ballots. *)
Definition count_ballots (m : gmap Address (VoteOption * Z)) : Tally :=
  mk_tally (map_sum (weigh OptAbstain) m) (map_sum (weigh OptYes) m) (map_sum (weigh OptNo) m).

(** No voter voted on the proposal with two powers. *)
Definition one_power (id : Z) (log : list Event) : Prop :=
  ∀ voter opt power opt' power',
    VoteCast id voter opt power ∈ log → VoteCast id voter opt' power' ∈ log → power = power'.

Lemma one_power_single id mode thr part dur pow id' voter opt power :
  one_power id [VotingSettingsUpdated mode thr part dur pow; VoteCast id' voter opt power].
Proof.
  intros v o p o' p' Hp Hp'. apply list_elem_of_In in Hp as [|[|[]]]; [done|].
  apply list_elem_of_In in Hp' as [|[|[]]]; [done|]. congruence.
Qed.

Lemma ballots_snoc id log e : ballots id (log ++ [e]) = cast id (ballots id log) e.
Proof. unfold ballots. by rewrite foldl_app. Qed.

Lemma ballots_in_log id log voter opt power :
  ballots id log !! voter = Some (opt, power) → VoteCast id voter opt power ∈ log.
Proof.
  induction log as [|e log IH] using rev_ind; [done|]. rewrite ballots_snoc, elem_of_app.
  destruct e as [id' v o p|]; simpl; [|by auto].
  destruct (Z.eqb_spec id' id) as [->|]; [|by auto].
  rewrite lookup_insert. case_decide as Hv; [subst v|by auto].
  intros [= -> ->]. right. by apply list_elem_of_singleton.
Qed.

(** ** One vote *)

Definition tally_of (opt : VoteOption) (t : Tally) : Z :=
  match opt with
  | OptNone => 0 | OptAbstain => tl_abstain t | OptYes => tl_yes t | OptNo => tl_no t
  end.

Lemma decrease_tally_Done st power t t' :
  decrease_tally st power t = Done t' →
  ∀ opt, opt ≠ OptNone → tally_of opt t' = tally_of opt t - weigh opt (st, power).
Proof.
  intros H opt Hopt. unfold weigh. simpl.
  destruct st, opt; simpl in H; evm_inv; subst; case_bool_decide; simpl; try done; lia.
Qed.

Lemma increase_tally_Done st power t t' :
  increase_tally st power t = Done t' →
  ∀ opt, opt ≠ OptNone → tally_of opt t' = tally_of opt t + weigh opt (st, power).
Proof.
  intros H opt Hopt. unfold weigh. simpl.
  destruct st, opt; simpl in H; evm_inv; subst; case_bool_decide; simpl; try done; lia.
Qed.

Lemma tally_ext t t' : (∀ opt, opt ≠ OptNone → tally_of opt t = tally_of opt t') → t = t'.
Proof.
  intros H. destruct t, t'. f_equal; [apply (H OptAbstain)|apply (H OptYes)|apply (H OptNo)]; done.
Qed.

Lemma tally_of_count opt m :
  opt ≠ OptNone → tally_of opt (count_ballots m) = map_sum (weigh opt) m.
Proof. by destruct opt. Qed.

(** ** Reachable states *)

Section Ballots.
Context {osx : Osx} {keccak : KeccakV256} {verifiers : Verifiers} {sha : Sha256}.

(** The stored votes are the last ones of the log, and the stored tally is
    their count where no voter used two powers. *)
Definition ballots_inv (s : Plugin) : Prop := ∀ id,
  pr_voters (proposal_at s id) = fst <$> ballots id (pl_log s) ∧
  (one_power id (pl_log s) → pr_tally (proposal_at s id) = count_ballots (ballots id (pl_log s))).

Lemma one_power_prefix id log log' : one_power id (log ++ log') → one_power id log.
Proof. intros H v o p o' p' Hp Hp'. eapply (H v o p o' p'); apply elem_of_app; auto. Qed.

(** A call that neither votes nor touches votes keeps the invariant. *)
Lemma ballots_inv_silent s s' log :
  pl_log s' = pl_log s ++ log → (∀ id, Forall (λ e, ∀ m, cast id m e = m) log) →
  (∀ id, pr_voters (proposal_at s' id) = pr_voters (proposal_at s id) ∧
         pr_tally (proposal_at s' id) = pr_tally (proposal_at s id)) →
  ballots_inv s → ballots_inv s'.
Proof.
  intros Hlog Hcast Hsame Hinv id. destruct (Hsame id) as [-> ->]. destruct (Hinv id) as [Hv Ht].
  assert (ballots id (pl_log s') = ballots id (pl_log s)) as ->.
  { rewrite Hlog. unfold ballots. rewrite foldl_app. generalize (foldl (cast id) ∅ (pl_log s)).
    specialize (Hcast id). clear Hlog. induction Hcast as [|e log He _ IH]; intros m; simpl; [done|].
    rewrite He. apply IH. }
  split; [done|]. intros Hone. apply Ht. rewrite Hlog in Hone. by eapply one_power_prefix.
Qed.

Lemma vote_ballots msg data seal s s' : vote msg data seal s = Done s' → ballots_inv s → ballots_inv s'.
Proof.
  intros H Hinv. apply vote_Done in H as (j & opt & t1 & t2 & _ & _ & _ & H1 & _ & H2 & ->).
  intros id. unfold emit. simpl. rewrite ballots_snoc. simpl.
  change (proposal_at (mk_plugin _ ?p _ _ _ _) id) with (mapping_get proposal_zero p id).
  rewrite mapping_get_set. destruct (Hinv id) as [Hv Ht].
  destruct (Z.eqb_spec (vj_proposal_id j) id) as [Hid|Hid]; case_decide as Hd; try done; [|].
  - subst id. rewrite fmap_insert. simpl. rewrite Hv. split; [done|]. intros Hone.
    specialize (Ht (one_power_prefix _ _ _ Hone)). apply tally_ext. intros o Ho.
    rewrite (increase_tally_Done _ _ _ _ H2), (decrease_tally_Done _ _ _ _ H1), Ht by done.
    rewrite !tally_of_count, map_sum_insert by done. do 2 f_equal. rewrite Hv.
    unfold mapping_get. rewrite lookup_fmap.
    destruct (ballots _ _ !! _) as [[o' p']|] eqn:Hb; simpl; [|by destruct o].
    rewrite (Hone (vj_voter j) o' p' opt (vj_balance j)); [done| |].
    + apply elem_of_app. left. by apply ballots_in_log.
    + apply elem_of_app. right. by apply list_elem_of_singleton.
  - split; [done|]. intros Hone. apply Ht. by eapply one_power_prefix.
Qed.

Lemma step_ballots s o s' : step s o s' → ballots_inv s → ballots_inv s'.
Proof.
  intros H. destruct H as [dao st s' Hst H|msg st s' Hst H|msg metadata acts afm start end_ id s'
    Hm Hs He H|msg data seal j s' Hj H|msg data seal id s' H].
  - unfold initialize in H. evm_inv. apply update_settings_Done in H as [_ ->].
    eapply ballots_inv_silent; [done|by repeat constructor|done].
  - unfold updateVotingSettings in H. evm_inv. apply update_settings_Done in H as [_ ->].
    eapply ballots_inv_silent; [done|by repeat constructor|done].
  - apply create_Done in H as (start' & end' & _ & _ & _ & _ & ->).
    apply (ballots_inv_silent _ _ []); [by rewrite app_nil_r|by constructor|].
    intros id'. change (proposal_at (mk_plugin _ ?p _ _ _ _) id') with (mapping_get proposal_zero p id').
    rewrite mapping_get_set. by case_decide; subst.
  - by apply (vote_ballots msg data seal).
  - apply execute_begin_Done in H as (j & _ & _ & _ & _ & _ & ->).
    apply (ballots_inv_silent _ _ []); [by rewrite app_nil_r|by constructor|].
    intros id'. unfold set_executed. rewrite proposal_at_put. by case_decide; subst.
Qed.

Lemma reachable_ballots s : reachable s → ballots_inv s.
Proof.
  intros (o & dao & st & s0 & os & Hst & Hi & Hs).
  assert (ballots_inv (plugin_fresh o)) as H0.
  { intros id. change (ballots id (pl_log (plugin_fresh o))) with (∅ : gmap Address (VoteOption * Z)).
    split; [by rewrite fmap_empty|]. intros _. unfold count_ballots. by rewrite !map_sum_empty. }
  apply (step_ballots _ OpInitialize s0) in H0; [|by econstructor].
  clear Hi. induction Hs; eauto using step_ballots.
Qed.

(** C8: The running tally refines the count of ballots: in every reachable
    state, the option stored for each voter is the one of their last vote, and
    where no voter voted on the proposal with two different powers the stored
    yes, no and abstain are exactly the sums over the last ballots. *)
Theorem tally_counts_ballots s id :
  reachable s →
  (∀ voter, getVoteOption s id voter =
    default OptNone (fst <$> ballots id (pl_log s) !! voter)) ∧
  (one_power id (pl_log s) →
   pr_tally (proposal_at s id) = count_ballots (ballots id (pl_log s))).
Proof.
  intros Hr. destruct (reachable_ballots s Hr id) as [Hv Ht]. split; [|done].
  intros voter. unfold getVoteOption, mapping_get. by rewrite Hv, lookup_fmap.
Qed.

Lemma vote_tally msg data seal s s' :
  vote msg data seal s = Done s' →
  ∃ j opt, decode_journal data = Done j ∧ VoteOption_of (vj_direction j) = Done opt ∧
    let id := vj_proposal_id j in
    getVoteOption s' id (vj_voter j) = opt ∧
    ∀ o, o ≠ OptNone → tally_of o (pr_tally (proposal_at s' id)) =
      tally_of o (pr_tally (proposal_at s id))
      - weigh o (getVoteOption s id (vj_voter j), vj_balance j) + weigh o (opt, vj_balance j).
Proof.
  intros H. apply vote_Done in H as (j & opt & t1 & t2 & Hj & _ & _ & H1 & Ho & H2 & ->).
  exists j, opt. split_and!; [done..|]. cbn zeta. unfold getVoteOption, emit.
  change (proposal_at (mk_plugin _ ?p _ _ _ _) ?id) with (mapping_get proposal_zero p id).
  simpl. rewrite !mapping_get_set, decide_True by done. simpl.
  rewrite mapping_get_set, decide_True by done. split; [done|]. intros o Hne.
  by rewrite (increase_tally_Done _ _ _ _ H2), (decrease_tally_Done _ _ _ _ H1) by done.
Qed.

(** C35: A second vote takes off the power it has itself, not the power the
    first one was counted with.  When a voter who had not voted votes for
    [opt] with power [a] and then for another option with power [b], the tally
    of [opt] ends [a - b] away from where it started: power stays counted for
    a replaced ballot, or votes of others are taken away. *)
Theorem vote_replacement_residue msg data seal s s1 msg' data' seal' s2 j j' opt :
  vote msg data seal s = Done s1 → vote msg' data' seal' s1 = Done s2 →
  decode_journal data = Done j → decode_journal data' = Done j' →
  vj_proposal_id j' = vj_proposal_id j → vj_voter j' = vj_voter j →
  getVoteOption s (vj_proposal_id j) (vj_voter j) = OptNone →
  VoteOption_of (vj_direction j) = Done opt → opt ≠ OptNone →
  vj_direction j' ≠ vj_direction j →
  tally_of opt (pr_tally (proposal_at s2 (vj_proposal_id j))) =
    tally_of opt (pr_tally (proposal_at s (vj_proposal_id j))) + vj_balance j - vj_balance j'.
Proof.
  intros H1 H2 Hj Hj' Hid Hv Hno Hopt Hne Hdir.
  apply vote_tally in H1 as (j0 & o1 & Hj0 & Ho1 & Hg1 & Ht1).
  apply vote_tally in H2 as (j1 & o2 & Hj1 & Ho2 & _ & Ht2).
  rewrite Hj in Hj0. injection Hj0 as <-. rewrite Hj' in Hj1. injection Hj1 as <-.
  rewrite Hopt in Ho1. injection Ho1 as <-.
  rewrite Hid, Hv in Ht2. rewrite (Ht2 opt Hne), (Ht1 opt Hne), Hg1, Hno.
  assert (o2 ≠ opt) as Hoo.
  { intros ->. apply Hdir. unfold VoteOption_of in Hopt, Ho2.
    repeat match goal with
    | H : context [?x =? ?y] |- _ => destruct (Z.eqb_spec x y); simplify_eq
    end; congruence. }
  unfold weigh. simpl. rewrite (bool_decide_eq_true_2 (opt = opt)) by done.
  rewrite !bool_decide_eq_false_2 by congruence. lia.
Qed.

(** The same call in another block. *)
Definition in_block (b : Block) (msg : Msg) : Msg :=
  mk_msg (msg_this msg) (msg_sender msg) b (msg_has_permission msg).

(** C36: [vote] does not consult [_canVote]: a vote that is accepted in one block
    is accepted with the same effect in every other, although [_canVote] says
    no from the end date on, or when the option is [None]. *)
Theorem vote_ignores_window msg data seal s s' j :
  vote msg data seal s = Done s' → decode_journal data = Done j →
  ∀ b, vote (in_block b msg) data seal s = Done s' ∧
       ∀ opt, blk_timestamp b < 2 ^ 64 → VoteOption_of (vj_direction j) = Done opt →
         pp_endDate (pr_parameters (proposal_at s (vj_proposal_id j))) <= blk_timestamp b ∨
         opt = OptNone →
         _canVote b s (vj_proposal_id j) (vj_voter j) opt = Done false.
Proof.
  intros H Hj b. split; [done|]. intros opt Hts Ho Hclosed. unfold _canVote, _isProposalOpen.
  unfold toUint64. rewrite (proj2 (Z.ltb_lt _ _) Hts). cbn [mbind evm_bind].
  destruct Hclosed as [Hend| ->].
  - by rewrite (proj2 (Z.ltb_ge _ _) Hend), andb_false_r.
  - by destruct (negb _).
Qed.
End Ballots.

(** ** The concrete plugin: alice votes yes with 100, then no with 40 *)

Section Witnesses.
Import PluginFixture PluginWitness.

Lemma tally_counts_ballots_witness :
  pr_tally (proposal_at PluginFixture.s_yes 0)
    = count_ballots (ballots 0 (pl_log PluginFixture.s_yes)) ∧
  getVoteOption PluginFixture.s_yes 0 Fixture.alice = OptYes ∧
  pr_tally (proposal_at PluginFixture.s_yes 0) = mk_tally 0 100 0.
Proof.
  destruct (tally_counts_ballots PluginFixture.s_yes 0) as [Hv Ht].
  - eapply reachable_steps; [apply PluginWitness.s_created_reachable|].
    econstructor; [|constructor].
    apply (step_vote _ (PluginFixture.msg_at 1000) (abi_encode_voting (PluginFixture.journal 2 100))
      PluginFixture.seal (PluginFixture.journal 2 100));
      [apply PluginFixture.decode_ok; lia|apply PluginFixture.s_yes_ok].
  - split; [apply Ht|split; [rewrite Hv|]; vm_compute; reflexivity].
    assert (∃ a, pl_log PluginFixture.s_yes =
      [VotingSettingsUpdated VoteReplacement 500000 0 3600 0; VoteCast 0 a OptYes 100])
      as [a ->] by (eexists; vm_compute; reflexivity).
    apply one_power_single.
Defined.

Lemma vote_replacement_residue_witness :
  tl_yes (pr_tally (proposal_at PluginFixture.s_no 0)) = 0 + 100 - 40.
Proof.
  apply (vote_replacement_residue (PluginFixture.msg_at 1000)
    (abi_encode_voting (PluginFixture.journal 2 100)) PluginFixture.seal PluginFixture.s_created
    PluginFixture.s_yes (PluginFixture.msg_at 1000) (abi_encode_voting (PluginFixture.journal 3 40))
    PluginFixture.seal PluginFixture.s_no (PluginFixture.journal 2 100)
    (PluginFixture.journal 3 40) OptYes);
    [apply PluginFixture.s_yes_ok|apply PluginFixture.s_no_ok|apply PluginFixture.decode_ok; lia
    |apply PluginFixture.decode_ok; lia|reflexivity|reflexivity|vm_compute; reflexivity
    |reflexivity|discriminate|discriminate].
Defined.

Lemma vote_ignores_window_witness :
  vote (PluginFixture.msg_at 9000) (abi_encode_voting (PluginFixture.journal 2 100))
    PluginFixture.seal PluginFixture.s_created = Done PluginFixture.s_yes ∧
  _canVote (PluginFixture.block_at 9000) PluginFixture.s_created 0 Fixture.alice OptYes = Done false.
Proof.
  destruct (vote_ignores_window (PluginFixture.msg_at 1000)
    (abi_encode_voting (PluginFixture.journal 2 100)) PluginFixture.seal PluginFixture.s_created
    PluginFixture.s_yes (PluginFixture.journal 2 100) PluginFixture.s_yes_ok
    (PluginFixture.decode_ok 2 100 ltac:(lia) ltac:(lia)) (PluginFixture.block_at 9000))
    as [Hv Hc].
  split; [exact Hv|]. apply Hc; [reflexivity|reflexivity|]. left. vm_compute. congruence.
Defined.
End Witnesses.
