(* ===== verification/ByteOrder.v ===== *)
(** * Byte order and structural hashing ([lib/risc0/Util.sol], [lib/risc0/StructHash.sol])

    [Util] reverses the bytes of an integer by swapping ever larger halves
    with masks and shifts; [StructHash] hashes tagged structs and lists.  The
    swaps are related to the reversal of the byte string, and the list hash,
    which the code computes by an index that runs from the end, to the right
    fold it stands for. *)

From stdpp Require Import base gmap list strings.
From Stdlib Require Import ZArith Lia Strings.Byte.
From S2P Require Import Prelude Machine Solidity.
#[local] Open Scope Z_scope.

(** ** [Util] *)

(** [((v & hi) >> k) | ((v & lo) << k)] at width [w] *)
Definition swap (w k hi lo v : Z) : Z :=
  Z.lor (Z.shiftr (Z.land v hi) k) (Z.shiftl (Z.land v lo) k mod 2 ^ w).
(** [(v >> k) | (v << k)] at width [w] *)
Definition swap_halves (w k v : Z) : Z :=
  Z.lor (Z.shiftr v k) (Z.shiftl v k mod 2 ^ w).

Definition reverseByteOrderUint256 (input : Z) : Z :=
  let v := input in
  let v := swap 256 8
    0xFF00FF00FF00FF00FF00FF00FF00FF00FF00FF00FF00FF00FF00FF00FF00FF00
    0x00FF00FF00FF00FF00FF00FF00FF00FF00FF00FF00FF00FF00FF00FF00FF00FF v in
  let v := swap 256 16
    0xFFFF0000FFFF0000FFFF0000FFFF0000FFFF0000FFFF0000FFFF0000FFFF0000
    0x0000FFFF0000FFFF0000FFFF0000FFFF0000FFFF0000FFFF0000FFFF0000FFFF v in
  let v := swap 256 32
    0xFFFFFFFF00000000FFFFFFFF00000000FFFFFFFF00000000FFFFFFFF00000000
    0x00000000FFFFFFFF00000000FFFFFFFF00000000FFFFFFFF00000000FFFFFFFF v in
  let v := swap 256 64
    0xFFFFFFFFFFFFFFFF0000000000000000FFFFFFFFFFFFFFFF0000000000000000
    0x0000000000000000FFFFFFFFFFFFFFFF0000000000000000FFFFFFFFFFFFFFFF v in
  swap_halves 256 128 v.

Definition reverseByteOrderUint32 (input : Z) : Z :=
  let v := input in
  let v := swap 32 8 0xFF00FF00 0x00FF00FF v in
  swap_halves 32 16 v.

Definition reverseByteOrderUint16 (input : Z) : Z :=
  let v := input in
  Z.lor (Z.shiftr v 8) (Z.shiftl (Z.land v 0x00FF) 8 mod 2 ^ 16).

(** ** Bits of a swap *)

(** The indices below [w]. *)
Definition below (w : nat) : list Z := Z.of_nat <$> seq 0 w.

Lemma below_forallb (f : Z → bool) w n :
  forallb f (below w) = true → 0 <= n < Z.of_nat w → f n = true.
Proof.
  intros Hf Hn. rewrite forallb_forall in Hf. apply Hf. apply list_elem_of_In.
  apply list_elem_of_fmap. exists (Z.to_nat n). split; [lia|]. apply elem_of_seq. lia.
Qed.

(** The masks pick the indices without and with bit [k], so that index [n] of
    the result comes from index [n xor k]. *)
Definition masks_ok (w k hi lo n : Z) : bool :=
  if Z.testbit hi (n + k)
  then negb (Z.testbit lo (n - k)) && (Z.lxor n k =? n + k)
  else Z.testbit lo (n - k) && (Z.lxor n k =? n - k).

Lemma swap_bits w k hi lo v n :
  0 <= k → forallb (masks_ok (Z.of_nat w) k hi lo) (below w) = true → 0 <= n < Z.of_nat w →
  Z.testbit (swap (Z.of_nat w) k hi lo v) n = Z.testbit v (Z.lxor n k).
Proof.
  intros Hk Hm Hn. apply (below_forallb _ _ n) in Hm; [|done]. unfold masks_ok in Hm. unfold swap.
  rewrite Z.lor_spec, Z.shiftr_spec, Z.mod_pow2_bits_low, Z.shiftl_spec, !Z.land_spec by lia.
  destruct (Z.testbit hi (n + k)); apply andb_true_iff in Hm as [Hlo ->%Z.eqb_eq].
  - apply negb_true_iff in Hlo as ->. by rewrite andb_false_r, orb_false_r, andb_true_r.
  - rewrite Hlo. by rewrite andb_false_r, andb_true_r.
Qed.

Lemma swap_halves_bits w k v n :
  0 <= v < 2 ^ (2 * k) → 0 <= k → w = 2 * k →
  forallb (λ n, if n <? k then Z.lxor n k =? n + k else Z.lxor n k =? n - k) (below (Z.to_nat w)) = true →
  0 <= n < w → Z.testbit (swap_halves w k v) n = Z.testbit v (Z.lxor n k).
Proof.
  intros Hv Hk Hw Hm Hn. apply (below_forallb _ _ n) in Hm; [|lia]. cbv beta in Hm. unfold swap_halves.
  rewrite Z.lor_spec, Z.shiftr_spec, Z.mod_pow2_bits_low, Z.shiftl_spec by lia.
  destruct (Z.ltb_spec n k); apply Z.eqb_eq in Hm as ->.
  - by rewrite (Z.testbit_neg_r v (n - k)), orb_false_r by lia.
  - assert (Z.testbit v (n + k) = false) as ->; [|done].
    destruct (Z.eq_dec v 0) as [->|]; [apply Z.testbit_0_l|].
    apply Z.bits_above_log2; [lia|]. apply Z.log2_lt_pow2; [lia|].
    eapply Z.lt_le_trans; [apply Hv|]. apply Z.pow_le_mono_r; lia.
Qed.

(** Swaps stay within the width. *)
Lemma lor_below w a b : 0 <= w → 0 <= a < 2 ^ w → 0 <= b < 2 ^ w → 0 <= Z.lor a b < 2 ^ w.
Proof.
  intros Hw Ha Hb. replace (Z.lor a b) with (Z.lor a b mod 2 ^ w); [apply Z.mod_pos_bound; lia|].
  apply Z.bits_inj'. intros n Hn. destruct (Z.lt_ge_cases n w).
  - by rewrite Z.mod_pow2_bits_low by lia.
  - rewrite Z.mod_pow2_bits_high, Z.lor_spec by lia.
    rewrite <-(Z.mod_small a (2 ^ w)), <-(Z.mod_small b (2 ^ w)) by done.
    by rewrite !Z.mod_pow2_bits_high by lia.
Qed.

Lemma shiftr_below w k v : 0 <= w → 0 <= k → 0 <= v < 2 ^ w → 0 <= Z.shiftr v k < 2 ^ w.
Proof.
  intros Hw Hk Hv. rewrite Z.shiftr_div_pow2 by lia. split; [apply Z.div_pos; lia|].
  apply (Z.le_lt_trans _ v); [|lia]. apply Z.div_le_upper_bound; nia.
Qed.

Lemma land_below w v m : 0 <= w → 0 <= v < 2 ^ w → 0 <= Z.land v m < 2 ^ w.
Proof.
  intros Hw Hv. replace (Z.land v m) with (Z.land v m mod 2 ^ w); [apply Z.mod_pos_bound; lia|].
  apply Z.bits_inj'. intros n Hn. destruct (Z.lt_ge_cases n w).
  - by rewrite Z.mod_pow2_bits_low by lia.
  - rewrite Z.mod_pow2_bits_high, Z.land_spec by lia.
    rewrite <-(Z.mod_small v (2 ^ w)) by done. by rewrite Z.mod_pow2_bits_high by lia.
Qed.

Lemma swap_range w k hi lo v : 0 <= w → 0 <= k → 0 <= v < 2 ^ w → 0 <= swap w k hi lo v < 2 ^ w.
Proof.
  intros Hw Hk Hv. apply lor_below; [done|by apply shiftr_below, land_below|].
  apply Z.mod_pos_bound. lia.
Qed.

Lemma swap_halves_range w k v : 0 <= w → 0 <= k → 0 <= v < 2 ^ w → 0 <= swap_halves w k v < 2 ^ w.
Proof.
  intros Hw Hk Hv. apply lor_below; [done|by apply shiftr_below|].
  apply Z.mod_pos_bound. lia.
Qed.

(** ** Bits of a byte string *)

(** The value of a byte string read from its other end. *)
Definition le_value (l : list byte) : Z := be_value (rev l).

Lemma be_value_snoc l b : be_value (l ++ [b]) = 256 * be_value l + Z_of_byte b.
Proof.
  induction l as [|c l IH]; cbn [app be_value]; [simpl; lia|].
  rewrite IH, length_app. cbn [length]. rewrite Nat2Z.inj_add, Z.pow_add_r by lia. lia.
Qed.

Lemma le_value_cons b l : le_value (b :: l) = Z_of_byte b + 256 * le_value l.
Proof. unfold le_value. cbn [rev]. rewrite be_value_snoc. lia. Qed.

Lemma byte_testbit b k n : Z.testbit (Z_of_byte b + 256 * k) n =
  if n <? 8 then Z.testbit (Z_of_byte b) n else Z.testbit k (n - 8).
Proof.
  pose proof (Z_of_byte_range b). destruct (Z.ltb_spec n 8).
  - replace (Z_of_byte b + 256 * k) with (Z_of_byte b + k * 2 ^ 8) by lia.
    rewrite <-(Z.mod_pow2_bits_low _ 8) by lia. rewrite Z_mod_plus_full.
    by rewrite Z.mod_small by lia.
  - replace (Z.testbit k (n - 8)) with (Z.testbit ((Z_of_byte b + 256 * k) / 2 ^ 8) (n - 8)).
    + rewrite Z.div_pow2_bits by lia. f_equal. lia.
    + f_equal. change (2 ^ 8) with 256. rewrite Z.mul_comm, Z.div_add, Z.div_small by lia. lia.
Qed.

Lemma le_value_bits l n :
  0 <= n → Z.testbit (le_value l) n =
    from_option (λ b, Z.testbit (Z_of_byte b) (n mod 8)) false (l !! Z.to_nat (n / 8)).
Proof.
  revert n. induction l as [|b l IH]; intros n Hn.
  - rewrite lookup_nil. apply Z.testbit_0_l.
  - rewrite le_value_cons, byte_testbit. destruct (Z.ltb_spec n 8).
    + by rewrite Z.div_small, Z.mod_small by lia.
    + assert (n / 8 = (n - 8) / 8 + 1 ∧ n mod 8 = (n - 8) mod 8) as [-> ->]
        by (pose proof (Z.div_mod n 8); Z.div_mod_to_equations; lia).
      pose proof (Z.div_pos (n - 8) 8). rewrite IH by lia.
      by rewrite Z2Nat.inj_add, Nat.add_1_r by lia.
Qed.

Lemma be_bytes_lookup m z i :
  (i < m)%nat → be_bytes m z !! i = Some (byte_of_Z (z / 256 ^ Z.of_nat (m - 1 - i))).
Proof.
  revert i. induction m as [|m IH]; intros i Hi; [lia|]. cbn [be_bytes]. destruct i as [|i].
  - change (Some (byte_of_Z (z / 256 ^ Z.of_nat m)) =
            Some (byte_of_Z (z / 256 ^ Z.of_nat (S m - 1 - 0)))). do 5 f_equal. lia.
  - change (be_bytes m z !! i = Some (byte_of_Z (z / 256 ^ Z.of_nat (S m - 1 - S i)))).
    rewrite IH by lia. do 5 f_equal. lia.
Qed.

(** Bit [n] of the reversed bytes of [v] is the same bit of the opposite byte. *)
Lemma le_value_be_bytes_bits m v n :
  0 <= n < 8 * Z.of_nat m →
  Z.testbit (le_value (be_bytes m v)) n =
  Z.testbit v (8 * (Z.of_nat m - 1 - n / 8) + n mod 8).
Proof.
  intros Hn. assert (0 <= n / 8 < Z.of_nat m).
  { split; [apply Z.div_pos; lia|apply Z.div_lt_upper_bound; lia]. }
  rewrite le_value_bits, be_bytes_lookup by lia. simpl. rewrite Z_of_byte_of_Z.
  pose proof (Z.mod_pos_bound n 8 ltac:(lia)). change 256 with (2 ^ 8) at 2.
  rewrite Z.mod_pow2_bits_low by lia. change 256 with (2 ^ 8). rewrite <-Z.pow_mul_r by lia.
  rewrite Z.div_pow2_bits by lia. f_equal. lia.
Qed.

Lemma le_value_range l : 0 <= le_value l < 256 ^ Z.of_nat (length l).
Proof. unfold le_value. pose proof (be_value_range (rev l)) as H. by rewrite length_rev in H. Qed.

Lemma be_value_inj l l' : length l = length l' → be_value l = be_value l' → l = l'.
Proof.
  revert l'. induction l as [|b l IH]; intros [|b' l'] Hl H; try done. simpl in Hl.
  injection Hl as Hl. cbn [be_value] in H. rewrite <-Hl in H.
  pose proof (be_value_range l). pose proof (be_value_range l') as Hr. rewrite <-Hl in Hr.
  assert (Z_of_byte b = Z_of_byte b') as Hb.
  { apply (f_equal (λ x, x / 256 ^ Z.of_nat (length l))) in H.
    by rewrite !Z.div_add_l, !(Z.div_small (be_value _)), !Z.add_0_r in H by lia. }
  assert (be_value l = be_value l') as Hv by (rewrite Hb in H; lia).
  apply (f_equal byte_of_Z) in Hb. rewrite !byte_of_Z_of_byte in Hb. f_equal; auto.
Qed.

Lemma be_bytes_mod m z z' :
  z mod 256 ^ Z.of_nat m = z' mod 256 ^ Z.of_nat m → be_bytes m z = be_bytes m z'.
Proof.
  intros H. apply be_value_inj; [by rewrite !length_be_bytes|]. by rewrite !be_value_be_bytes.
Qed.

Lemma be_bytes_be_value l : be_bytes (length l) (be_value l) = l.
Proof.
  induction l as [|b l IH]; [done|]. cbn [length be_bytes be_value].
  pose proof (be_value_range l). pose proof (Z_of_byte_range b).
  rewrite Z.div_add_l, Z.div_small, Z.add_0_r, byte_of_Z_of_byte by lia. f_equal.
  etransitivity; [|exact IH]. apply be_bytes_mod. by rewrite Z.add_comm, Z_mod_plus_full.
Qed.

Lemma be_bytes_le_value m l : length l = m → be_bytes m (le_value l) = rev l.
Proof. intros <-. unfold le_value. rewrite <-length_rev. apply be_bytes_be_value. Qed.

(** Two numbers of [w] bits with the same bits are equal. *)
Lemma bits_inj_below w a b :
  0 <= a < 2 ^ w → 0 <= b < 2 ^ w → 0 <= w →
  (∀ n, 0 <= n < w → Z.testbit a n = Z.testbit b n) → a = b.
Proof.
  intros Ha Hb Hw H. apply Z.bits_inj'. intros n Hn. destruct (Z.lt_ge_cases n w); [by apply H|].
  rewrite <-(Z.mod_small a (2 ^ w)), <-(Z.mod_small b (2 ^ w)) by done.
  by rewrite !Z.mod_pow2_bits_high by lia.
Qed.

(** ** The reversals *)

(** The indices stay in range under the swaps and end in the opposite byte. *)
Lemma opposite_byte n :
  0 <= n < 256 →
  0 <= Z.lxor n 128 < 256 ∧ 0 <= Z.lxor (Z.lxor n 128) 64 < 256 ∧
  0 <= Z.lxor (Z.lxor (Z.lxor n 128) 64) 32 < 256 ∧
  0 <= Z.lxor (Z.lxor (Z.lxor (Z.lxor n 128) 64) 32) 16 < 256 ∧
  Z.lxor (Z.lxor (Z.lxor (Z.lxor (Z.lxor n 128) 64) 32) 16) 8 = 8 * (32 - 1 - n / 8) + n mod 8.
Proof.
  intros Hn. set (inr := λ x, (0 <=? x) && (x <? 256)).
  set (f := λ n, inr (Z.lxor n 128) && inr (Z.lxor (Z.lxor n 128) 64)
    && inr (Z.lxor (Z.lxor (Z.lxor n 128) 64) 32)
    && inr (Z.lxor (Z.lxor (Z.lxor (Z.lxor n 128) 64) 32) 16)
    && (Z.lxor (Z.lxor (Z.lxor (Z.lxor (Z.lxor n 128) 64) 32) 16) 8 =? 8 * (32 - 1 - n / 8) + n mod 8)).
  assert (f n = true) as H by (apply (below_forallb f 256); [vm_compute; reflexivity|lia]).
  unfold f, inr in H. lia.
Qed.

Lemma reverse256_bytes v :
  0 <= v < 2 ^ 256 → reverseByteOrderUint256 v = le_value (be_bytes 32 v).
Proof.
  intros Hv. unfold reverseByteOrderUint256. cbv zeta.
  apply (bits_inj_below 256); [by repeat first [apply swap_halves_range | apply swap_range]| |done|].
  { pose proof (le_value_range (be_bytes 32 v)) as H. by rewrite length_be_bytes in H. }
  intros n Hn. destruct (opposite_byte n Hn) as (H1 & H2 & H3 & H4 & H5).
  rewrite (swap_halves_bits 256 128) by (done || lia || by repeat apply swap_range).
  rewrite !(swap_bits 256) by (done || lia || (vm_compute; reflexivity)).
  rewrite le_value_be_bytes_bits by lia. change (Z.of_nat 32) with 32. by rewrite <-H5.
Qed.

Lemma reverse32_bytes v :
  0 <= v < 2 ^ 32 → reverseByteOrderUint32 v = le_value (be_bytes 4 v).
Proof.
  intros Hv. unfold reverseByteOrderUint32. cbv zeta.
  apply (bits_inj_below 32); [by repeat first [apply swap_halves_range | apply swap_range]| |done|].
  { pose proof (le_value_range (be_bytes 4 v)) as H. by rewrite length_be_bytes in H. }
  intros n Hn.
  set (f := λ n, (0 <=? Z.lxor n 16) && (Z.lxor n 16 <? 32)
    && (Z.lxor (Z.lxor n 16) 8 =? 8 * (4 - 1 - n / 8) + n mod 8)).
  assert (f n = true) as Hop by (apply (below_forallb f 32); [vm_compute; reflexivity|lia]).
  unfold f in Hop. clear f.
  rewrite (swap_halves_bits 32 16) by (done || lia || by repeat apply swap_range).
  rewrite (swap_bits 32) by (lia || (vm_compute; reflexivity)).
  rewrite le_value_be_bytes_bits by lia. f_equal. lia.
Qed.

Lemma reverse16_bytes v :
  0 <= v < 2 ^ 16 → reverseByteOrderUint16 v = le_value (be_bytes 2 v).
Proof.
  intros Hv. unfold reverseByteOrderUint16. cbv zeta.
  apply (bits_inj_below 16); [|by (pose proof (le_value_range (be_bytes 2 v)) as H;
    rewrite length_be_bytes in H)|done|].
  { apply lor_below; [done|by apply shiftr_below|]. apply Z.mod_pos_bound. lia. }
  intros n Hn. rewrite le_value_be_bytes_bits by lia.
  rewrite Z.lor_spec, Z.shiftr_spec, Z.mod_pow2_bits_low, Z.shiftl_spec, Z.land_spec by lia.
  change 255 with (Z.ones 8). destruct (Z.lt_ge_cases n 8).
  - rewrite (Z.testbit_neg_r v (n - 8)), Z.div_small, Z.mod_small by lia. simpl.
    rewrite orb_false_r. f_equal. lia.
  - rewrite Z.ones_spec_low, andb_true_r by lia.
    assert (Z.testbit v (n + 8) = false) as ->.
    { rewrite <-(Z.mod_small v (2 ^ 16)) by done. by rewrite Z.mod_pow2_bits_high by lia. }
    simpl. f_equal. Z.div_mod_to_equations. lia.
Qed.

(** C24: The three byte-order functions, which swap ever larger groups of bits
    under masks, reverse the bytes: the result of each on an integer of its
    width is the integer whose big-endian bytes are the reversed big-endian
    bytes of the argument. *)
Theorem reverse_byte_order v :
  (0 <= v < 2 ^ 256 → be_bytes 32 (reverseByteOrderUint256 v) = rev (be_bytes 32 v)) ∧
  (0 <= v < 2 ^ 32 → be_bytes 4 (reverseByteOrderUint32 v) = rev (be_bytes 4 v)) ∧
  (0 <= v < 2 ^ 16 → be_bytes 2 (reverseByteOrderUint16 v) = rev (be_bytes 2 v)).
Proof.
  split_and!; intros Hv.
  - by rewrite reverse256_bytes, be_bytes_le_value by (done || apply length_be_bytes).
  - by rewrite reverse32_bytes, be_bytes_le_value by (done || apply length_be_bytes).
  - by rewrite reverse16_bytes, be_bytes_le_value by (done || apply length_be_bytes).
Qed.

Lemma reverse_byte_order_witness :
  be_bytes 4 (reverseByteOrderUint32 0x01020304) = [x04; x03; x02; x01].
Proof.
  destruct (reverse_byte_order 0x01020304) as (_ & H & _). rewrite H by lia. reflexivity.
Defined.
