(* ===== verification/StructHash.v ===== *)
(** * Structural hashes and receipt claims
    ([lib/risc0/StructHash.sol], [lib/risc0/IRiscZeroVerifier.sol])

    [StructHash] hashes a tagged struct as the digest of the tag, the digests
    of its fields, its data and the number of fields in little-endian order,
    and a list by repeated pairs.  The receipt libraries inline that scheme
    with shifted constants. *)

From stdpp Require Import base gmap list strings.
From Stdlib Require Import ZArith Lia Strings.Byte.
From S2P Require Import Prelude Machine Solidity Sha256 ByteOrder.
#[local] Open Scope Z_scope.

(** [enum SystemExitCode] *)
Inductive SystemExitCode : Type := Halted | Paused | SystemSplit.
Definition SystemExitCode_uint (e : SystemExitCode) : Z :=
  match e with Halted => 0 | Paused => 1 | SystemSplit => 2 end.

Record ExitCode : Type := mk_exit_code { ec_system : SystemExitCode; ec_user : Z }.

Record ReceiptClaim : Type := mk_claim {
  rc_preStateDigest : bytes32;
  rc_postStateDigest : bytes32;
  rc_exitCode : ExitCode;
  rc_input : bytes32;
  rc_output : bytes32
}.

Record Output : Type := mk_output { out_journalDigest : bytes32; out_assumptionsDigest : bytes32 }.
Record SystemState : Type := mk_system_state { ss_pc : Z; ss_merkle_root : bytes32 }.

Definition SYSTEM_STATE_ZERO_DIGEST : bytes32 :=
  bytes32_of_uint 0xa3acc27117418996340b84e5a90f3ef4c49d22c79e44aad822ec9c313e1eb8e2.

Definition utf8 (s : string) : list byte := String.list_byte_of_string s.

Section StructHash.
Context {sha : Sha256}.

(** ** [StructHash] *)

Definition taggedStruct (tagDigest : bytes32) (down : list bytes32) (data : list byte) : evm bytes32 :=
  downLen ← toUint16 (Z.of_nat (length down));
  let downLenLE := Z.lor (Z.shiftl downLen 8 mod 2 ^ 16) (Z.shiftr downLen 8) in
  Done (sha256 (fb_bytes tagDigest ++ concat (fb_bytes <$> down) ++ data ++ be_bytes 2 downLenLE)).

Definition taggedListCons (tagDigest head tail : bytes32) : evm bytes32 :=
  taggedStruct tagDigest [head; tail] [].

(** [for (uint256 i = 0; i < list.length; i++)], with fuel for the iterations
    and the revert of an index that is out of range. *)
Fixpoint taggedList_loop (fuel i : nat) (tagDigest : bytes32) (list : list bytes32)
    (curr : bytes32) : evm bytes32 :=
  match fuel with
  | O => Done curr
  | S fuel =>
      if decide (i < length list)%nat then
        match list !! (length list - 1 - i)%nat with
        | Some x =>
            curr ← taggedListCons tagDigest x curr;
            taggedList_loop fuel (S i) tagDigest list curr
        | None => Reverts (RevertPanic 50)
        end
      else Done curr
  end.
Definition taggedList (tagDigest : bytes32) (list : list bytes32) : evm bytes32 :=
  taggedList_loop (S (length list)) 0 tagDigest list ZERO32.

(** ** The claim libraries *)

(** The argument of [sha256] in [OutputLib.digest]. *)
Definition OutputLib_packed (output : Output) : list byte :=
  fb_bytes (sha256 (utf8 "risc0.Output")) ++
  fb_bytes (out_journalDigest output) ++ fb_bytes (out_assumptionsDigest output) ++
  be_bytes 2 (Z.shiftl 2 8 mod 2 ^ 16).
Definition OutputLib_digest (output : Output) : bytes32 := sha256 (OutputLib_packed output).

Definition SystemStateLib_digest (state : SystemState) : bytes32 :=
  sha256 (fb_bytes (sha256 (utf8 "risc0.SystemState")) ++
          fb_bytes (ss_merkle_root state) ++
          be_bytes 4 (reverseByteOrderUint32 (ss_pc state)) ++
          be_bytes 2 (Z.shiftl 1 8 mod 2 ^ 16)).

Definition ReceiptClaimLib_ok (imageId journalDigest : bytes32) : ReceiptClaim :=
  mk_claim imageId SYSTEM_STATE_ZERO_DIGEST (mk_exit_code Halted 0) ZERO32
    (OutputLib_digest (mk_output journalDigest ZERO32)).

(** The argument of [sha256] in [ReceiptClaimLib.digest]. *)
Definition ReceiptClaimLib_packed (claim : ReceiptClaim) : list byte :=
  fb_bytes (sha256 (utf8 "risc0.ReceiptClaim")) ++
  fb_bytes (rc_input claim) ++ fb_bytes (rc_preStateDigest claim) ++
  fb_bytes (rc_postStateDigest claim) ++ fb_bytes (rc_output claim) ++
  be_bytes 4 (Z.shiftl (SystemExitCode_uint (ec_system (rc_exitCode claim))) 24 mod 2 ^ 32) ++
  be_bytes 4 (Z.shiftl (ec_user (rc_exitCode claim)) 24 mod 2 ^ 32) ++
  be_bytes 2 (Z.shiftl 4 8 mod 2 ^ 16).
Definition ReceiptClaimLib_digest (claim : ReceiptClaim) : bytes32 :=
  sha256 (ReceiptClaimLib_packed claim).

(** ** The scheme the libraries stand for *)

(** Little-endian bytes of an integer. *)
Definition le_bytes (n : nat) (z : Z) : list byte := rev (be_bytes n z).

Definition struct_digest (tag : string) (down : list bytes32) (data : list byte) : bytes32 :=
  sha256 (fb_bytes (sha256 (utf8 tag)) ++ concat (fb_bytes <$> down) ++ data ++
          le_bytes 2 (Z.of_nat (length down))).

(** The hash of a list, from its end. *)
Definition list_digest (tag : string) (list : list bytes32) : bytes32 :=
  foldr (λ head tail, struct_digest tag [head; tail] []) ZERO32 list.
End StructHash.

(** ** Little-endian encodings by shifts *)

Lemma shift_le16 n :
  0 <= n < 2 ^ 16 →
  be_bytes 2 (Z.lor (Z.shiftl n 8 mod 2 ^ 16) (Z.shiftr n 8)) = le_bytes 2 n.
Proof.
  intros Hn. unfold le_bytes. rewrite <-(be_bytes_le_value 2) by apply length_be_bytes.
  rewrite <-reverse16_bytes by done. f_equal. unfold reverseByteOrderUint16. rewrite Z.lor_comm.
  f_equal. change 0x00FF with (Z.ones 8). rewrite Z.land_ones, !Z.shiftl_mul_pow2 by lia.
  change (2 ^ 16) with (2 ^ 8 * 2 ^ 8). rewrite !Z.mul_mod_distr_r, Z.mod_mod by lia. done.
Qed.

Lemma shift_le32 u :
  0 <= u < 256 → be_bytes 4 (Z.shiftl u 24 mod 2 ^ 32) = le_bytes 4 u.
Proof.
  intros Hu. set (f := λ u, bool_decide (be_bytes 4 (Z.shiftl u 24 mod 2 ^ 32) = le_bytes 4 u)).
  assert (f u = true) as H by (apply (below_forallb f 256); [vm_compute; reflexivity|lia]).
  unfold f in H. by apply bool_decide_eq_true in H.
Qed.

Section Digests.
Context {sha : Sha256}.

Lemma tagged_struct_spec tag down data :
  Z.of_nat (length down) < 2 ^ 16 →
  taggedStruct (sha256 (utf8 tag)) down data = Done (struct_digest tag down data).
Proof.
  intros Hl. unfold taggedStruct, toUint16. rewrite (proj2 (Z.ltb_lt _ _) Hl). cbn [mbind evm_bind].
  unfold struct_digest. by rewrite shift_le16 by lia.
Qed.

Lemma tagged_list_loop_spec tag list fuel i :
  (length list - i < fuel)%nat → (i <= length list)%nat →
  taggedList_loop fuel i (sha256 (utf8 tag)) list (list_digest tag (drop (length list - i) list))
    = Done (list_digest tag list).
Proof.
  revert i. induction fuel as [|fuel IH]; intros i Hf Hi; [lia|].
  cbn [taggedList_loop]. case_decide as Hlt.
  - destruct (lookup_lt_is_Some_2 list (length list - 1 - i)) as [x Hx]; [lia|]. rewrite Hx.
    unfold taggedListCons. rewrite tagged_struct_spec by (simpl; lia). cbn [mbind evm_bind].
    rewrite <-(IH (S i)) by lia. do 2 f_equal.
    replace (length list - i)%nat with (S (length list - 1 - i))%nat by lia.
    replace (length list - S i)%nat with (length list - 1 - i)%nat by lia.
    by rewrite (drop_S _ _ _ Hx).
  - by replace (length list - i)%nat with 0%nat by lia.
Qed.

(** C25: The hashing code computes the structural hash.  [taggedStruct] never
    reverts for fewer than 2^16 fields and is the digest of tag, fields, data
    and the little-endian field count; the loop of [taggedList] terminates
    without an index error and is the right fold of the pair hash; and the
    digests that the output, system state and claim libraries spell out with
    shifts are that same structural hash of their fields. *)
Theorem struct_hash_correct tag down data list :
  (Z.of_nat (length down) < 2 ^ 16 →
   taggedStruct (sha256 (utf8 tag)) down data = Done (struct_digest tag down data)) ∧
  taggedList (sha256 (utf8 tag)) list = Done (list_digest tag list) ∧
  (∀ j a, OutputLib_digest (mk_output j a) = struct_digest "risc0.Output" [j; a] []) ∧
  (∀ pc root, 0 <= pc < 2 ^ 32 →
   SystemStateLib_digest (mk_system_state pc root)
     = struct_digest "risc0.SystemState" [root] (le_bytes 4 pc)) ∧
  (∀ pre post sys user input output, 0 <= user < 256 →
   ReceiptClaimLib_digest (mk_claim pre post (mk_exit_code sys user) input output)
     = struct_digest "risc0.ReceiptClaim" [input; pre; post; output]
         (le_bytes 4 (SystemExitCode_uint sys) ++ le_bytes 4 user)).
Proof.
  split_and!.
  - apply tagged_struct_spec.
  - unfold taggedList.
    rewrite <-(tagged_list_loop_spec tag list (S (length list)) 0) by lia.
    by rewrite Nat.sub_0_r, drop_all.
  - intros j a. unfold OutputLib_digest, OutputLib_packed, struct_digest. simpl. by rewrite <-!app_assoc.
  - intros pc root Hpc. unfold SystemStateLib_digest, struct_digest, le_bytes.
    cbn [ss_merkle_root ss_pc].
    rewrite reverse32_bytes, be_bytes_le_value by (done || apply length_be_bytes).
    cbn [fmap list_fmap concat app]. by rewrite app_nil_r.
  - intros pre post sys user input output Hu. unfold ReceiptClaimLib_digest, ReceiptClaimLib_packed, struct_digest.
    cbn [rc_exitCode rc_input rc_preStateDigest rc_postStateDigest rc_output ec_system ec_user].
    rewrite !shift_le32 by (done || destruct sys; simpl; lia).
    cbn [fmap list_fmap concat app]. by rewrite app_nil_r, <-!app_assoc.
Qed.

(** [x] and [y] are different inputs of the hash with one digest. *)
Definition collides (x y : list byte) : Prop := x ≠ y ∧ sha256 x = sha256 y.

Lemma sha256_inj x y : sha256 x = sha256 y → x = y ∨ collides x y.
Proof. intros H. destruct (decide (x = y)); [by left|by right]. Qed.

Lemma app_fixed_inj {n} (a b : FixedBytes n) l k :
  fb_bytes a ++ l = fb_bytes b ++ k → a = b ∧ l = k.
Proof.
  intros H. apply app_inj_length in H as [Ha Hl]; [|by rewrite !length_fb_bytes].
  split; [by apply fb_bytes_inj|done].
Qed.

(** C26: The claim digest binds what was run and what it returned: two claims of
    successful runs have the same digest only if their image ids and journal
    digests are the same, or SHA-256 collides on the bytes hashed for these
    two claims, or on the bytes hashed for their two outputs. *)
Theorem claim_binding imageId journalDigest imageId' journalDigest' :
  let claim := ReceiptClaimLib_ok imageId journalDigest in
  let claim' := ReceiptClaimLib_ok imageId' journalDigest' in
  ReceiptClaimLib_digest claim = ReceiptClaimLib_digest claim' →
  (imageId = imageId' ∧ journalDigest = journalDigest') ∨
  collides (ReceiptClaimLib_packed claim) (ReceiptClaimLib_packed claim') ∨
  collides (OutputLib_packed (mk_output journalDigest ZERO32))
    (OutputLib_packed (mk_output journalDigest' ZERO32)).
Proof.
  cbv zeta. intros [H|?]%sha256_inj; [|by right; left].
  unfold ReceiptClaimLib_packed, ReceiptClaimLib_ok in H.
  cbn [rc_exitCode rc_input rc_preStateDigest rc_postStateDigest rc_output] in H.
  apply app_fixed_inj in H as [_ H]. apply app_fixed_inj in H as [_ H].
  apply app_fixed_inj in H as [-> H]. apply app_fixed_inj in H as [_ H].
  apply app_fixed_inj in H as [H _]. apply sha256_inj in H as [H|?]; [|by right; right].
  unfold OutputLib_packed in H. cbn [out_journalDigest out_assumptionsDigest] in H.
  apply app_fixed_inj in H as [_ H]. apply app_fixed_inj in H as [-> _]. by left.
Qed.
End Digests.

(** The constant the code uses for the digest of the zero system state is
    that digest: SHA-256 of the tag digest, a zero root, a zero program
    counter and one little-endian field count. *)
Theorem system_state_zero_digest :
  @SystemStateLib_digest fips_sha256 (mk_system_state 0 ZERO32) = SYSTEM_STATE_ZERO_DIGEST.
Proof. apply fb_bytes_inj. vm_compute. reflexivity. Qed.

Lemma claim_binding_witness :
  let claim := ReceiptClaimLib_ok (sha := fips_sha256) ZERO32 SYSTEM_STATE_ZERO_DIGEST in
  (ZERO32 = ZERO32 ∧ SYSTEM_STATE_ZERO_DIGEST = SYSTEM_STATE_ZERO_DIGEST) ∨
  collides (sha := fips_sha256) (ReceiptClaimLib_packed (sha := fips_sha256) claim)
    (ReceiptClaimLib_packed (sha := fips_sha256) claim) ∨
  collides (sha := fips_sha256)
    (OutputLib_packed (sha := fips_sha256) (mk_output SYSTEM_STATE_ZERO_DIGEST ZERO32))
    (OutputLib_packed (sha := fips_sha256) (mk_output SYSTEM_STATE_ZERO_DIGEST ZERO32)).
Proof.
  intros claim. apply (claim_binding (sha := fips_sha256) ZERO32 SYSTEM_STATE_ZERO_DIGEST ZERO32
    SYSTEM_STATE_ZERO_DIGEST). reflexivity.
Defined.

Lemma struct_hash_correct_witness :
  taggedStruct (sha := fips_sha256) (sha256 (Sha256 := fips_sha256) (utf8 "t")) [ZERO32] [] =
  Done (struct_digest (sha := fips_sha256) "t" [ZERO32] []).
Proof.
  apply (proj1 (struct_hash_correct (sha := fips_sha256) "t" [ZERO32] [] [])). reflexivity.
Defined.
