(* ===== verification/Verifiers.v ===== *)
(** * The verifier contracts
    ([contracts/mocks/RiscZeroMockVerifier.sol], [lib/risc0/groth16/], the router and the
    emergency stop of [lib/risc0/])

    What stands behind [IRiscZeroVerifier.verify]: the mock verifier of
    development mode, the Groth16 verifier over the curve precompiles of the
    EVM ([Bn254]), the router from selectors to verifiers, and the wrapper
    that can be stopped.  The owner check of OpenZeppelin is an argument of
    the calls it guards. *)

From stdpp Require Import base gmap list strings.
From Stdlib Require Import ZArith Lia Strings.Byte.
From S2P Require Import Prelude Machine VoteSignature Seal Solidity Sha256 ByteOrder StructHash.
#[local] Open Scope Z_scope.

(** [struct Receipt] of [IRiscZeroVerifier.sol] *)
Record SolReceipt : Type := mk_sol_receipt { sr_seal : list byte; sr_claimDigest : bytes32 }.

(** [bytes4(seal[:4])] and [seal[4:]] on calldata *)
Definition seal_head (seal : list byte) : evm bytes4 := decode_fixed 4 (take 4 seal).

(** ** [RiscZeroMockVerifier] *)

Section Mock.
Context {sha : Sha256} {keccak : KeccakV256}.

Definition mock_verifyIntegrity (SELECTOR : bytes4) (seal : list byte) (claimDigest : bytes32) :
    evm unit :=
  received ← seal_head seal;
  _ ← revert_if (bool_decide (SELECTOR ≠ received))
        (RevertError "SelectorMismatch" [be_value (fb_bytes received); be_value (fb_bytes SELECTOR)]);
  revert_if (bool_decide (keccak_v256 (drop 4 seal) ≠ keccak_v256 (fb_bytes claimDigest)))
    (RevertError "VerificationFailed" []).

Definition mock_verify (SELECTOR : bytes4) (seal : list byte) (imageId journalDigest : bytes32) :
    evm unit :=
  mock_verifyIntegrity SELECTOR seal
    (ReceiptClaimLib_digest (ReceiptClaimLib_ok imageId journalDigest)).

Definition mockProve_claim (SELECTOR : bytes4) (claimDigest : bytes32) : SolReceipt :=
  mk_sol_receipt (fb_bytes SELECTOR ++ fb_bytes claimDigest) claimDigest.

Definition mockProve (SELECTOR : bytes4) (imageId journalDigest : bytes32) : SolReceipt :=
  mockProve_claim SELECTOR (ReceiptClaimLib_digest (ReceiptClaimLib_ok imageId journalDigest)).
End Mock.

(** ** [Groth16Verifier] *)

(** The precompiles 7, 6 and 8: [None] when the call fails. *)
Class Bn254 : Type := {
  ecMul : Z * Z → Z → option (Z * Z);
  ecAdd : Z * Z → Z * Z → option (Z * Z);
  ecPairing : list Z → option Z
}.

Module Vk.
Definition r : Z := 21888242871839275222246405745257275088548364400416034343698204186575808495617.
Definition q : Z := 21888242871839275222246405745257275088696311157297823662689037894645226208583.
Definition alphax : Z := 20491192805390485299153009773594534940189261866228447918068658471970481763042.
Definition alphay : Z := 9383485363053290200918347156157836566562967994039712273449902621266178545958.
Definition betax1 : Z := 4252822878758300859123897981450591353533073413197771768651442665752259397132.
Definition betax2 : Z := 6375614351688725206403948262868962793625744043794305715222011528459656738731.
Definition betay1 : Z := 21847035105528745403288232691147584728191162732299865338377159692350059136679.
Definition betay2 : Z := 10505242626370262277552901082094356697409835680220590971873171140371331206856.
Definition gammax1 : Z := 11559732032986387107991004021392285783925812861821192530917403151452391805634.
Definition gammax2 : Z := 10857046999023057135944570762232829481370756359578518086990519993285655852781.
Definition gammay1 : Z := 4082367875863433681332203403145435568316851327593401208105741076214120093531.
Definition gammay2 : Z := 8495653923123431417604973247489272438418190587263600148770280649306958101930.
Definition deltax1 : Z := 1668323501672964604911431804142266013250380587483576094566949227275849579036.
Definition deltax2 : Z := 12043754404802191763554326994664886008979042643626290185762540825416902247219.
Definition deltay1 : Z := 7710631539206257456743780535472368339139328733484942210876916214502466455394.
Definition deltay2 : Z := 13740680757317479711909903993315946540841369848973133181051452051592786724563.
Definition IC0 : Z * Z :=
  (8446592859352799428420270221449902464741693648963397251242447530457567083492,
   1064796367193003797175961162477173481551615790032213185848276823815288302804).
Definition IC1 : Z * Z :=
  (3179835575189816632597428042194253779818690147323192973511715175294048485951,
   20895841676865356752879376687052266198216014795822152491318012491767775979074).
Definition IC2 : Z * Z :=
  (5332723250224941161709478398807683311971555792614491788690328996478511465287,
   21199491073419440416471372042641226693637837098357067793586556692319371762571).
Definition IC3 : Z * Z :=
  (12457994489566736295787256452575216703923664299075106359829199968023158780583,
   19706766271952591897761291684837117091856807401404423804318744964752784280790).
Definition IC4 : Z * Z :=
  (19617808913178163826953378459323299110911217259216006187355745713323154132237,
   21663537384585072695701846972542344484111393047775983928357046779215877070466).
Definition IC5 : Z * Z :=
  (6834578911681792552110317589222010969491336870276623105249474534788043166867,
   15060583660288623605191393599883223885678013570733629274538391874953353488393).
End Vk.

(** [struct Seal]: the points of a proof, as [uint256[2] a], [uint256[2][2] b], [uint256[2] c]. *)
Record Groth16Seal : Type := mk_g16_seal { g16_a : Z * Z; g16_b : list Z; g16_c : Z * Z }.

Section Groth16Verifier.
Context {bn254 : Bn254}.

Definition checkField (v : Z) : bool := v <? Vk.r.

Definition g1_mulAccC (pR : Z * Z) (xy : Z * Z) (s : Z) : option (Z * Z) :=
  p ← ecMul xy s;
  ecAdd p pR.

(** The public signals are words of calldata: the sixth one checked lies behind
    the five of the array, where calldata reads as zero. *)
Definition signal (pubSignals : list Z) (i : nat) : Z := nth i pubSignals 0.

(** [vk_x] *)
Definition linear_combination (pubSignals : list Z) : option (Z * Z) :=
  v ← g1_mulAccC Vk.IC0 Vk.IC1 (signal pubSignals 0);
  v ← g1_mulAccC v Vk.IC2 (signal pubSignals 1);
  v ← g1_mulAccC v Vk.IC3 (signal pubSignals 2);
  v ← g1_mulAccC v Vk.IC4 (signal pubSignals 3);
  g1_mulAccC v Vk.IC5 (signal pubSignals 4).

Definition checkPairing (s : Groth16Seal) (vk_x : Z * Z) : bool :=
  let success := ecPairing
    ([fst (g16_a s); ((Vk.q - snd (g16_a s)) mod 2 ^ 256) mod Vk.q] ++ g16_b s ++
     [Vk.alphax; Vk.alphay; Vk.betax1; Vk.betax2; Vk.betay1; Vk.betay2;
      fst vk_x; snd vk_x; Vk.gammax1; Vk.gammax2; Vk.gammay1; Vk.gammay2;
      fst (g16_c s); snd (g16_c s); Vk.deltax1; Vk.deltax2; Vk.deltay1; Vk.deltay2]) in
  match success with Some v => Z.odd v | None => false end.

Definition verifyProof (s : Groth16Seal) (pubSignals : list Z) : bool :=
  if forallb (λ i, checkField (signal pubSignals i)) [0; 1; 2; 3; 4; 5]%nat then
    match linear_combination pubSignals with
    | Some vk_x => checkPairing s vk_x
    | None => false
    end
  else false.
End Groth16Verifier.

(** ** [RiscZeroGroth16Verifier] *)

Section Groth16.
Context {sha : Sha256} {bn254 : Bn254}.

(** [abi.encodePacked] of words *)
Definition packed (zs : list Z) : list byte := concat (be_bytes 32 <$> zs).

Definition verifier_key_digest : evm bytes32 :=
  let ic_digests :=
    (λ p : Z * Z, sha256 (packed [fst p; snd p])) <$> [Vk.IC0; Vk.IC1; Vk.IC2; Vk.IC3; Vk.IC4; Vk.IC5] in
  ic ← taggedList (sha256 (utf8 "risc0_groth16.VerifyingKey.IC")) ic_digests;
  Done (sha256 (
    fb_bytes (sha256 (utf8 "risc0_groth16.VerifyingKey")) ++
    fb_bytes (sha256 (packed [Vk.alphax; Vk.alphay])) ++
    fb_bytes (sha256 (packed [Vk.betax1; Vk.betax2; Vk.betay1; Vk.betay2])) ++
    fb_bytes (sha256 (packed [Vk.gammax1; Vk.gammax2; Vk.gammay1; Vk.gammay2])) ++
    fb_bytes (sha256 (packed [Vk.deltax1; Vk.deltax2; Vk.deltay1; Vk.deltay2])) ++
    fb_bytes ic ++ be_bytes 2 (Z.shiftl 5 8 mod 2 ^ 16))).

(** The halves of a digest, each a [uint128]. *)
Definition splitDigest (digest : bytes32) : Z * Z :=
  let reversed := reverseByteOrderUint256 (uint_of_bytes32 digest) in
  (reversed mod 2 ^ 128, Z.shiftr reversed 128 mod 2 ^ 128).

(** The immutables. *)
Record Groth16Deployment : Type := mk_g16_deployment {
  CONTROL_ROOT_0 : Z;
  CONTROL_ROOT_1 : Z;
  BN254_CONTROL_ID : bytes32;
  SELECTOR : list byte
}.

Definition groth16_constructor (control_root bn254_control_id : bytes32) : evm Groth16Deployment :=
  let '(r0, r1) := splitDigest control_root in
  vk ← verifier_key_digest;
  Done (mk_g16_deployment r0 r1 bn254_control_id
    (take 4 (fb_bytes (sha256 (
       fb_bytes (sha256 (utf8 "risc0.Groth16ReceiptVerifierParameters")) ++
       fb_bytes control_root ++
       be_bytes 32 (reverseByteOrderUint256 (uint_of_bytes32 bn254_control_id)) ++
       fb_bytes vk ++ be_bytes 2 (Z.shiftl 3 8 mod 2 ^ 16)))))).

(** [abi.decode(seal[4:], (Seal))] *)
Definition decode_seal (data : list byte) : evm Groth16Seal :=
  _ ← abi_head data 8;
  let w := λ i, be_value (abi_word data i) in
  Done (mk_g16_seal (w 0%nat, w 1%nat) [w 2%nat; w 3%nat; w 4%nat; w 5%nat] (w 6%nat, w 7%nat)).

Definition public_signals (d : Groth16Deployment) (claimDigest : bytes32) : list Z :=
  let '(claim0, claim1) := splitDigest claimDigest in
  [CONTROL_ROOT_0 d; CONTROL_ROOT_1 d; claim0; claim1; uint_of_bytes32 (BN254_CONTROL_ID d)].

Definition groth16_verifyIntegrity (d : Groth16Deployment) (seal : list byte)
    (claimDigest : bytes32) : evm unit :=
  received ← seal_head seal;
  _ ← revert_if (bool_decide (SELECTOR d ≠ fb_bytes received))
        (RevertError "SelectorMismatch" [be_value (fb_bytes received); be_value (SELECTOR d)]);
  decodedSeal ← decode_seal (drop 4 seal);
  revert_if (negb (verifyProof decodedSeal (public_signals d claimDigest)))
    (RevertError "VerificationFailed" []).

Definition groth16_verify (d : Groth16Deployment) (seal : list byte)
    (imageId journalDigest : bytes32) : evm unit :=
  groth16_verifyIntegrity d seal
    (ReceiptClaimLib_digest (ReceiptClaimLib_ok imageId journalDigest)).
End Groth16.

(** ** [RiscZeroVerifierRouter] *)

Definition UNSET : Address := ADDRESS_ZERO.
Definition TOMBSTONE : Address := mk_fixed (be_bytes 20 1) (length_be_bytes 20 1).

Abbreviation Router := (gmap (FixedBytes 4) Address).

(** [onlyOwner] *)
Definition onlyOwner (is_owner : bool) : evm unit :=
  revert_if (negb is_owner) (RevertError "OwnableUnauthorizedAccount" []).

Definition selector_args (selector : bytes4) : list Z := [be_value (fb_bytes selector)].

Definition addVerifier (is_owner : bool) (selector : bytes4) (verifier : Address) (s : Router) :
    evm Router :=
  _ ← onlyOwner is_owner;
  _ ← revert_if (bool_decide (mapping_get UNSET s selector = TOMBSTONE))
        (RevertError "SelectorRemoved" (selector_args selector));
  _ ← revert_if (bool_decide (mapping_get UNSET s selector ≠ UNSET))
        (RevertError "SelectorInUse" (selector_args selector));
  Done (<[selector := verifier]> s).

Definition removeVerifier (is_owner : bool) (selector : bytes4) (s : Router) : evm Router :=
  _ ← onlyOwner is_owner;
  _ ← revert_if (bool_decide (mapping_get UNSET s selector = UNSET))
        (RevertError "SelectorUnknown" (selector_args selector));
  Done (<[selector := TOMBSTONE]> s).

Definition getVerifier (s : Router) (selector : bytes4) : evm Address :=
  let verifier := mapping_get UNSET s selector in
  _ ← revert_if (bool_decide (verifier = UNSET))
        (RevertError "SelectorUnknown" (selector_args selector));
  _ ← revert_if (bool_decide (verifier = TOMBSTONE))
        (RevertError "SelectorRemoved" (selector_args selector));
  Done verifier.

Definition getVerifier_seal (s : Router) (seal : list byte) : evm Address :=
  selector ← seal_head seal;
  getVerifier s selector.

(** [verify] and [verifyIntegrity] of the contract at an address. *)
Class VerifierContracts : Type := {
  contract_verify : Address → list byte → bytes32 → bytes32 → evm unit;
  contract_verifyIntegrity : Address → SolReceipt → evm unit
}.

Section Router.
Context {contracts : VerifierContracts}.

Definition router_verify (s : Router) (seal : list byte) (imageId journalDigest : bytes32) : evm unit :=
  v ← getVerifier_seal s seal;
  contract_verify v seal imageId journalDigest.

Definition router_verifyIntegrity (s : Router) (receipt : SolReceipt) : evm unit :=
  v ← getVerifier_seal s (sr_seal receipt);
  contract_verifyIntegrity v receipt.

(** ** [RiscZeroVerifierEmergencyStop] *)

(** [Pausable]'s flag and the wrapped verifier. *)
Record Stop : Type := mk_stop { st_paused : bool; st_verifier : Address }.

Definition whenNotPaused (s : Stop) : evm unit := revert_if (st_paused s) (RevertError "EnforcedPause" []).
Definition _pause (s : Stop) : evm Stop :=
  _ ← whenNotPaused s;
  Done (mk_stop true (st_verifier s)).

Definition stop_verify (s : Stop) (seal : list byte) (imageId journalDigest : bytes32) : evm unit :=
  _ ← whenNotPaused s;
  contract_verify (st_verifier s) seal imageId journalDigest.

Definition stop_verifyIntegrity (s : Stop) (receipt : SolReceipt) : evm unit :=
  _ ← whenNotPaused s;
  contract_verifyIntegrity (st_verifier s) receipt.

Definition estop (is_owner : bool) (s : Stop) : evm Stop :=
  _ ← onlyOwner is_owner;
  _pause s.

Definition estop_receipt (receipt : SolReceipt) (s : Stop) : evm Stop :=
  _ ← revert_if (bool_decide (sr_claimDigest receipt ≠ ZERO32)) (RevertError "InvalidProofOfExploit" []);
  _ ← stop_verifyIntegrity s receipt;
  _pause s.
End Router.

(** ** The halves of a digest *)

Lemma le_value_app l k : le_value (l ++ k) = le_value l + 256 ^ Z.of_nat (length l) * le_value k.
Proof.
  induction l as [|b l IH]; [cbn [app length]; change (le_value []) with 0; lia|].
  cbn [app length]. rewrite !le_value_cons, IH, Nat2Z.inj_succ, Z.pow_succ_r by lia. lia.
Qed.

Lemma split_digest_halves d :
  splitDigest d = (le_value (take 16 (fb_bytes d)), le_value (drop 16 (fb_bytes d))).
Proof.
  unfold splitDigest, uint_of_bytes32. pose proof (length_fb_bytes d) as Hl.
  rewrite reverse256_bytes by apply uint_of_bytes32_range.
  pose proof (be_bytes_be_value (fb_bytes d)) as Hd. rewrite Hl in Hd.
  rewrite Hd, Z.shiftr_div_pow2 by lia. clear Hd.
  assert (length (take 16 (fb_bytes d)) = 16%nat) as H16 by (rewrite length_take; lia).
  assert (length (drop 16 (fb_bytes d)) = 16%nat) as H16' by (rewrite length_drop; lia).
  pose proof (le_value_range (take 16 (fb_bytes d))) as Hr. rewrite H16 in Hr.
  pose proof (le_value_range (drop 16 (fb_bytes d))) as Hr'. rewrite H16' in Hr'.
  change (256 ^ Z.of_nat 16) with (2 ^ 128) in *.
  assert (le_value (fb_bytes d) =
    le_value (take 16 (fb_bytes d)) + le_value (drop 16 (fb_bytes d)) * 2 ^ 128) as ->.
  { rewrite <-(take_drop 16 (fb_bytes d)) at 1. rewrite le_value_app, H16. lia. }
  rewrite Z.mod_add, Z.div_add, (Z.div_small (le_value (take _ _))), !Z.mod_small by lia. done.
Qed.

Lemma le_value_inj l k : length l = length k → le_value l = le_value k → l = k.
Proof.
  unfold le_value. intros Hl H. apply be_value_inj in H; [|by rewrite !length_rev].
  by apply (f_equal (@rev byte)) in H; rewrite !rev_involutive in H.
Qed.

(** The public inputs of the proof determine the claim: the halves of a
    digest are its first and last sixteen bytes read in little-endian order,
    both fit the scalar field, so that the field check never rejects a claim,
    and different claim digests give different public signals. *)
Theorem public_signals_bind dep c c' :
  splitDigest c = (le_value (take 16 (fb_bytes c)), le_value (drop 16 (fb_bytes c))) ∧
  checkField (fst (splitDigest c)) = true ∧ checkField (snd (splitDigest c)) = true ∧
  (public_signals dep c = public_signals dep c' → c = c').
Proof.
  split; [apply split_digest_halves|]. unfold public_signals.
  assert (∀ d, checkField (fst (splitDigest d)) = true ∧ checkField (snd (splitDigest d)) = true)
    as Hf.
  { intros d. unfold splitDigest, checkField. cbn [fst snd].
    split; apply Z.ltb_lt; (eapply Z.lt_trans; [apply Z.mod_pos_bound; lia|reflexivity]). }
  destruct (Hf c) as [Hf0 Hf1]. split; [exact Hf0|]. split; [exact Hf1|].
  rewrite !split_digest_halves. intros Heq.
  pose proof (f_equal (λ l, nth 2 l 0) Heq) as H0. pose proof (f_equal (λ l, nth 3 l 0) Heq) as H1.
  cbn [nth] in H0, H1. apply fb_bytes_inj. rewrite <-(take_drop 16 (fb_bytes c)), <-(take_drop 16 (fb_bytes c')).
  apply le_value_inj in H0, H1; [congruence|..]; by rewrite ?length_take, ?length_drop, !length_fb_bytes.
Qed.

(** ** The mock verifier *)

Section MockCorrect.
Context {sha : Sha256} {keccak : KeccakV256}.

Lemma mock_verifyIntegrity_app sel body c :
  mock_verifyIntegrity sel (fb_bytes sel ++ body) c = Done tt ↔
  keccak_v256 body = keccak_v256 (fb_bytes c).
Proof.
  unfold mock_verifyIntegrity, seal_head.
  rewrite take_app_length', drop_app_length' by (by rewrite length_fb_bytes).
  rewrite (proj2 (decode_fixed_Done 4 _ sel) eq_refl). cbn [mbind evm_bind].
  rewrite (bool_decide_eq_false_2 (sel ≠ sel)) by (intros Hn; by apply Hn). cbn [revert_if mbind evm_bind].
  unfold revert_if. case_bool_decide as Hk; split; try done.
Qed.

(** What the publisher sends in development mode is what the mock verifier
    of selector zero accepts: the seal [encode_seal] makes of a fake receipt
    verifies for an image and a journal digest when the receipt's digest is
    the digest of that claim, and only then, up to a collision of Keccak. *)
Theorem fake_receipt_verifies d journal imageId journalDigest :
  let claim := ReceiptClaimLib_digest (ReceiptClaimLib_ok imageId journalDigest) in
  ∃ seal, encode_seal (mk_receipt (Fake d) journal) = Ret (Ok seal) ∧
    (d = claim →
     seal = sr_seal (mockProve (fixed_repeat 4 x00) imageId journalDigest) ∧
     mock_verify (fixed_repeat 4 x00) seal imageId journalDigest = Done tt) ∧
    (mock_verify (fixed_repeat 4 x00) seal imageId journalDigest = Done tt →
     d = claim ∨ ∃ x y, x ≠ y ∧ keccak_v256 x = keccak_v256 y).
Proof.
  intros claim. exists (fb_bytes (fixed_repeat 4 x00) ++ fb_bytes d). split; [done|].
  unfold mock_verify. rewrite mock_verifyIntegrity_app. fold claim. split; [by intros ->|].
  intros Hk. destruct (decide (d = claim)) as [|Hne]; [by left|right].
  exists (fb_bytes d), (fb_bytes claim). split; [|done]. intros H. by apply Hne, fb_bytes_inj.
Qed.
End MockCorrect.

(** ** The router *)

Inductive router_step (s : Router) : Router → Prop :=
| router_add is_owner selector verifier s' :
    addVerifier is_owner selector verifier s = Done s' → router_step s s'
| router_remove is_owner selector s' :
    removeVerifier is_owner selector s = Done s' → router_step s s'.

Abbreviation router_steps := (rtc router_step).

Lemma UNSET_not_TOMBSTONE : UNSET ≠ TOMBSTONE.
Proof. intros H. apply (f_equal fb_bytes) in H. discriminate H. Qed.

(** A selector that was set keeps its verifier or is removed, and a removed one
    stays removed. *)
Lemma router_step_keeps s s' sel :
  router_step s s' → mapping_get UNSET s sel ≠ UNSET →
  mapping_get UNSET s' sel = TOMBSTONE ∨
  mapping_get UNSET s' sel = mapping_get UNSET s sel.
Proof.
  pose proof UNSET_not_TOMBSTONE.
  intros [o sel' v s'' H'|o sel' s'' H'] Hset; unfold addVerifier, removeVerifier in H'; evm_inv;
    subst; rewrite mapping_get_set; destruct (decide (sel' = sel)) as [->|]; auto.
  match goal with Hn : bool_decide (_ ≠ UNSET) = false |- _ =>
    apply bool_decide_eq_false in Hn; by destruct Hn end.
Qed.

Lemma router_steps_keep s s' sel :
  router_steps s s' → mapping_get UNSET s sel ≠ UNSET →
  mapping_get UNSET s' sel = TOMBSTONE ∨
  mapping_get UNSET s' sel = mapping_get UNSET s sel.
Proof.
  induction 1 as [s|s s1 s' Hs _ IH]; intros Hset; [by right|].
  pose proof UNSET_not_TOMBSTONE.
  destruct (router_step_keeps _ _ sel Hs Hset) as [H1|H1].
  - rewrite H1 in IH. destruct IH as [?|?]; [congruence|by left..].
  - rewrite <-H1 in *. auto.
Qed.

Lemma getVerifier_Done s sel v :
  getVerifier s sel = Done v ↔ mapping_get UNSET s sel = v ∧ v ≠ UNSET ∧ v ≠ TOMBSTONE.
Proof.
  unfold getVerifier, revert_if.
  do 2 case_bool_decide; cbn [mbind evm_bind]; naive_solver.
Qed.

(** Each selector maps to at most one implementation across time: whatever
    calls the owner or others make, a seal that was routed to a verifier is
    later routed to the same one or refused, and once it is refused after
    having been routed it is refused for ever. *)
Theorem router_one_implementation s s1 s2 sel v :
  router_steps s s1 → router_steps s1 s2 → getVerifier s sel = Done v →
  (∀ v2, getVerifier s2 sel = Done v2 → v2 = v ∧ getVerifier s1 sel = Done v) ∧
  (is_done (getVerifier s1 sel) = false →
   getVerifier s2 sel = Reverts (RevertError "SelectorRemoved" (selector_args sel))).
Proof.
  intros H1 H2 (Hv & Hu & Ht)%getVerifier_Done. pose proof UNSET_not_TOMBSTONE.
  assert (mapping_get UNSET s sel ≠ UNSET) as Hset by congruence.
  destruct (router_steps_keep _ _ _ H1 Hset) as [Hs1|Hs1].
  - assert (mapping_get UNSET s2 sel = TOMBSTONE) as Hs2.
    { destruct (router_steps_keep _ _ sel H2); congruence. }
    split; [intros v2 Hv2%getVerifier_Done; naive_solver|]. intros _. unfold getVerifier.
    rewrite Hs2, (bool_decide_eq_false_2 (TOMBSTONE = UNSET)) by congruence.
    by rewrite bool_decide_eq_true_2 by done.
  - assert (getVerifier s1 sel = Done v) as Hg1 by (apply getVerifier_Done; naive_solver congruence).
    rewrite Hg1. split; [|done]. intros v2 (Hv2 & _ & Ht2)%getVerifier_Done. split; [|done].
    destruct (router_steps_keep _ _ sel H2); congruence.
Qed.

(** ** The emergency stop *)

Section StopCorrect.
Context {contracts : VerifierContracts}.

Inductive stop_step (s : Stop) : Stop → Prop :=
| stop_owner is_owner s' : estop is_owner s = Done s' → stop_step s s'
| stop_exploit receipt s' : estop_receipt receipt s = Done s' → stop_step s s'.

Lemma stop_step_running s s' :
  stop_step s s' → st_paused s = false ∧ s' = mk_stop true (st_verifier s).
Proof.
  intros [o s'' H|r s'' H]; unfold estop, estop_receipt, _pause, whenNotPaused in H; by evm_inv.
Qed.

(** The emergency stop is final.  Either kind of stop succeeds only on a
    running contract, the second only for a receipt of the zero claim that the
    wrapped verifier accepts; after it every verification reverts, and so does
    every later attempt to change the state. *)
Theorem estop_final s s' :
  stop_step s s' →
  st_paused s = false ∧
  (∀ seal imageId journalDigest,
     stop_verify s seal imageId journalDigest
       = contract_verify (st_verifier s) seal imageId journalDigest) ∧
  (∀ s'', rtc stop_step s' s'' →
     s'' = s' ∧
     (∀ seal imageId journalDigest, stop_verify s'' seal imageId journalDigest
        = Reverts (RevertError "EnforcedPause" [])) ∧
     ∀ receipt, stop_verifyIntegrity s'' receipt = Reverts (RevertError "EnforcedPause" [])).
Proof.
  intros [Hp ->]%stop_step_running. split; [done|]. split.
  - intros. unfold stop_verify, whenNotPaused. by rewrite Hp.
  - intros s'' Hs. apply rtc_inv in Hs as [<-|(t & Ht & _)]; [done|].
    apply stop_step_running in Ht as [Ht _]. done.
Qed.
End StopCorrect.

(** ** The deployed verifier *)

(** [ControlID.CONTROL_ROOT] and [ControlID.BN254_CONTROL_ID] *)
Definition CONTROL_ROOT : bytes32 :=
  bytes32_of_uint 0x8b6dcf11d463ac455361b41fb3ed053febb817491bdea00fdb340e45013b852e.
Definition CONTROL_ID : bytes32 :=
  bytes32_of_uint 0x05a022e1db38457fb510bc347b30eb8f8cf3eda95587653d0eac19e1f10d164e.

(** With the constants of the repository the selector is [0x50bd1769], the one
    of the 1.1 release of the zkVM. *)
Example groth16_selector_value :
  (d ← @groth16_constructor fips_sha256 CONTROL_ROOT CONTROL_ID; Done (be_value (SELECTOR d)))
  = Done 0x50bd1769.
Proof. vm_compute. reflexivity. Qed.

(** ** Concrete runs *)

Module VerifierFixture.
Definition sel : bytes4 := fixed_repeat 4 x01.
Definition verifier : Address := fixed_repeat 20 x55.
Definition contracts : VerifierContracts := {|
  contract_verify _ _ _ _ := Done tt;
  contract_verifyIntegrity _ _ := Done tt
|}.
Definition router0 : Router := ∅.
Definition router1 : Router := <[sel := verifier]> router0.
Definition router2 : Router := <[sel := TOMBSTONE]> router1.
Definition running : Stop := mk_stop false verifier.
Definition stopped : Stop := mk_stop true verifier.
End VerifierFixture.

Lemma router_one_implementation_witness :
  getVerifier VerifierFixture.router1 VerifierFixture.sel = Done VerifierFixture.verifier ∧
  getVerifier VerifierFixture.router2 VerifierFixture.sel =
    Reverts (RevertError "SelectorRemoved" (selector_args VerifierFixture.sel)).
Proof.
  assert (router_step VerifierFixture.router1 VerifierFixture.router2) as Hs
    by (apply (router_remove _ true VerifierFixture.sel); reflexivity).
  split; [reflexivity|].
  apply (router_one_implementation VerifierFixture.router1 VerifierFixture.router2
    VerifierFixture.router2 VerifierFixture.sel VerifierFixture.verifier);
    [apply rtc_once; exact Hs|apply rtc_refl|reflexivity|reflexivity].
Defined.

Lemma estop_final_witness :
  @stop_verify VerifierFixture.contracts VerifierFixture.stopped [] ZERO32 ZERO32 =
  Reverts (RevertError "EnforcedPause" []).
Proof.
  destruct (@estop_final VerifierFixture.contracts VerifierFixture.running VerifierFixture.stopped)
    as (_ & _ & H).
  - apply (stop_exploit _ (mk_sol_receipt [] ZERO32)). reflexivity.
  - destruct (H VerifierFixture.stopped (rtc_refl _ _)) as (_ & Hv & _). apply Hv.
Defined.
