(* ===== verification/Token.v ===== *)
(** * The token ([contracts/ERC20.sol])

    The ERC-20 token the repository votes with: balances, allowances and the
    supply, with checked arithmetic.  Anyone may mint and burn. *)

From stdpp Require Import base gmap list strings.
From Stdlib Require Import ZArith Lia Strings.Byte.
From S2P Require Import Prelude Machine Ethereum Fixtures GuestVoting GuestExecution GuestContext.
From S2P Require Import GuestIO VotingGuest ExecutionGuest Solidity.
#[local] Open Scope Z_scope.

Inductive TokenEvent : Type :=
| Transfer (from to : Address) (amount : Z)
| Approval (owner spender : Address) (amount : Z).

Record ERC20 : Type := mk_erc20 {
  tk_totalSupply : Z;
  tk_balanceOf : gmap Address Z;
  tk_allowance : gmap (Address * Address) Z;
  tk_log : list TokenEvent
}.

Definition token_empty : ERC20 := mk_erc20 0 ∅ ∅ [].

Definition balance_of (s : ERC20) (a : Address) : Z := mapping_get 0 (tk_balanceOf s) a.
Definition allowance_of (s : ERC20) (owner spender : Address) : Z :=
  mapping_get 0 (tk_allowance s) (owner, spender).

Definition set_balance (a : Address) (z : Z) (s : ERC20) : ERC20 :=
  mk_erc20 (tk_totalSupply s) (<[a := z]> (tk_balanceOf s)) (tk_allowance s) (tk_log s).
Definition set_supply (z : Z) (s : ERC20) : ERC20 :=
  mk_erc20 z (tk_balanceOf s) (tk_allowance s) (tk_log s).
Definition set_allowance (owner spender : Address) (z : Z) (s : ERC20) : ERC20 :=
  mk_erc20 (tk_totalSupply s) (tk_balanceOf s) (<[(owner, spender) := z]> (tk_allowance s)) (tk_log s).
Definition emit_token (e : TokenEvent) (s : ERC20) : ERC20 :=
  mk_erc20 (tk_totalSupply s) (tk_balanceOf s) (tk_allowance s) (tk_log s ++ [e]).

Definition transfer (sender recipient : Address) (amount : Z) (s : ERC20) : evm ERC20 :=
  b ← checked_sub (balance_of s sender) amount;
  let s := set_balance sender b s in
  b ← checked_add 256 (balance_of s recipient) amount;
  let s := set_balance recipient b s in
  Done (emit_token (Transfer sender recipient amount) s).

Definition approve (sender spender : Address) (amount : Z) (s : ERC20) : evm ERC20 :=
  Done (emit_token (Approval sender spender amount) (set_allowance sender spender amount s)).

Definition transferFrom (msg_sender sender recipient : Address) (amount : Z) (s : ERC20) : evm ERC20 :=
  a ← checked_sub (allowance_of s sender msg_sender) amount;
  let s := set_allowance sender msg_sender a s in
  transfer sender recipient amount s.

Definition mint (to : Address) (amount : Z) (s : ERC20) : evm ERC20 :=
  b ← checked_add 256 (balance_of s to) amount;
  let s := set_balance to b s in
  t ← checked_add 256 (tk_totalSupply s) amount;
  let s := set_supply t s in
  Done (emit_token (Transfer ADDRESS_ZERO to amount) s).

Definition burn (from : Address) (amount : Z) (s : ERC20) : evm ERC20 :=
  b ← checked_sub (balance_of s from) amount;
  let s := set_balance from b s in
  t ← checked_sub (tk_totalSupply s) amount;
  let s := set_supply t s in
  Done (emit_token (Transfer from ADDRESS_ZERO amount) s).

Inductive token_step (s : ERC20) : ERC20 → Prop :=
| token_transfer sender recipient amount s' :
    0 <= amount < 2 ^ 256 → transfer sender recipient amount s = Done s' → token_step s s'
| token_approve sender spender amount s' :
    0 <= amount < 2 ^ 256 → approve sender spender amount s = Done s' → token_step s s'
| token_transferFrom msg_sender sender recipient amount s' :
    0 <= amount < 2 ^ 256 → transferFrom msg_sender sender recipient amount s = Done s' →
    token_step s s'
| token_mint to amount s' :
    0 <= amount < 2 ^ 256 → mint to amount s = Done s' → token_step s s'
| token_burn from amount s' :
    0 <= amount < 2 ^ 256 → burn from amount s = Done s' → token_step s s'.

Definition token_reachable (s : ERC20) : Prop := rtc token_step token_empty s.

(** ** The supply is the sum of the balances *)

Definition token_inv (s : ERC20) : Prop :=
  map_Forall (λ _ b, 0 <= b) (tk_balanceOf s) ∧
  tk_totalSupply s = map_sum id (tk_balanceOf s) ∧ tk_totalSupply s < 2 ^ 256.

Lemma sum_set_balance s a z :
  map_sum id (tk_balanceOf (set_balance a z s)) = map_sum id (tk_balanceOf s) - balance_of s a + z.
Proof.
  simpl. rewrite map_sum_insert. unfold balance_of, mapping_get.
  by destruct (tk_balanceOf s !! a).
Qed.

Lemma balance_of_set s a z b : balance_of (set_balance a z s) b = if decide (a = b) then z else balance_of s b.
Proof. apply mapping_get_set. Qed.

Lemma token_inv_balance s a : token_inv s → 0 <= balance_of s a <= tk_totalSupply s.
Proof.
  intros (Hb & Hsum & _). rewrite Hsum. unfold balance_of, mapping_get.
  pose proof (map_sum_nonneg id _ Hb).
  destruct (tk_balanceOf s !! a) as [b|] eqn:Ha; simpl; [|lia].
  split; [by apply Hb in Ha|]. by apply (map_sum_lookup id _ a b).
Qed.

(** Under the invariant a transfer is only refused for want of balance: the
    recipient's balance does not overflow. *)
Lemma transfer_Done sender recipient amount s :
  token_inv s → 0 <= amount → amount <= balance_of s sender →
  ∃ s', transfer sender recipient amount s = Done s'.
Proof.
  intros Hinv Ha Hb. pose proof (token_inv_balance s sender Hinv).
  pose proof (token_inv_balance s recipient Hinv). destruct Hinv as (Hps & Hsum & Hlt).
  assert (sender = recipient ∨ balance_of s recipient + amount <= tk_totalSupply s) as Hr.
  { destruct (decide (sender = recipient)) as [|Hne]; [by left|right]. rewrite Hsum.
    enough (balance_of s recipient <= map_sum id (tk_balanceOf s) - balance_of s sender) by lia.
    pose proof (sum_set_balance s sender 0) as Hs0.
    assert (0 <= balance_of (set_balance sender 0 s) recipient
            <= map_sum id (tk_balanceOf (set_balance sender 0 s))) as Hle.
    { apply (token_inv_balance (set_supply (map_sum id (tk_balanceOf (set_balance sender 0 s)))
        (set_balance sender 0 s))). split_and!; [|done|cbn [tk_totalSupply set_supply]; lia].
      apply map_Forall_insert_2; [lia|done]. }
    rewrite balance_of_set, decide_False in Hle by done. lia. }
  unfold transfer, checked_sub. rewrite (proj2 (Z.leb_le _ _)) by lia. cbn [mbind evm_bind].
  unfold checked_add. rewrite balance_of_set.
  assert ((if decide (sender = recipient) then balance_of s sender - amount
           else balance_of s recipient) + amount < 2 ^ 256)
    by (case_decide; [lia|destruct Hr; [done|lia]]).
  rewrite (proj2 (Z.ltb_lt _ _)) by done. cbn [mbind evm_bind]. eauto.
Qed.

Lemma transfer_inv sender recipient amount s s' :
  0 <= amount → transfer sender recipient amount s = Done s' → token_inv s → token_inv s'.
Proof.
  intros Ha H Hinv. pose proof (token_inv_balance s sender Hinv).
  pose proof (token_inv_balance s recipient Hinv). destruct Hinv as (Hps & Hsum & Hlt).
  unfold transfer in H. evm_inv. subst s'. rewrite balance_of_set.
  split_and!.
  - simpl. repeat apply map_Forall_insert_2; [case_decide; lia|lia|done].
  - simpl tk_totalSupply. change (tk_balanceOf (emit_token _ ?s)) with (tk_balanceOf s).
    rewrite !sum_set_balance, balance_of_set. case_decide; lia.
  - done.
Qed.

Lemma token_step_inv s s' : token_step s s' → token_inv s → token_inv s'.
Proof.
  intros H Hinv. destruct H as [sender recipient amount s' Ha H|sender spender amount s' Ha H
    |ms sender recipient amount s' Ha H|to amount s' Ha H|from amount s' Ha H].
  - by eapply transfer_inv; [apply Ha|..].
  - unfold approve in H. evm_inv. by subst.
  - unfold transferFrom in H. evm_inv. by eapply transfer_inv; [apply Ha|done|].
  - pose proof (token_inv_balance s to Hinv). destruct Hinv as (Hps & Hsum & Hlt).
    unfold mint in H. evm_inv. subst s'. simpl tk_totalSupply in *. split_and!; simpl.
    + apply map_Forall_insert_2; [lia|done].
    + pose proof (sum_set_balance s to (balance_of s to + amount)) as Hs. simpl in Hs. lia.
    + done.
  - pose proof (token_inv_balance s from Hinv). destruct Hinv as (Hps & Hsum & Hlt).
    unfold burn in H. evm_inv. subst s'. simpl tk_totalSupply in *. split_and!; simpl.
    + apply map_Forall_insert_2; [lia|done].
    + pose proof (sum_set_balance s from (balance_of s from - amount)) as Hs. simpl in Hs. lia.
    + lia.
Qed.

Lemma token_reachable_inv s : token_reachable s → token_inv s.
Proof.
  intros H. assert (token_inv token_empty) as H0.
  { split_and!; [apply map_Forall_empty|symmetry; apply map_sum_empty|simpl; lia]. }
  revert H0. induction H; eauto using token_step_inv.
Qed.

(** C31: In every state the token can reach, the total supply is the sum of all
    balances and fits 256 bits, so that no balance exceeds it; a transfer of
    an amount succeeds exactly when the sender has it, and then moves it
    without changing the supply. *)
Theorem token_conservation s sender recipient amount :
  token_reachable s → 0 <= amount < 2 ^ 256 →
  tk_totalSupply s = map_sum id (tk_balanceOf s) ∧ tk_totalSupply s < 2 ^ 256 ∧
  0 <= balance_of s recipient <= tk_totalSupply s ∧
  (is_done (transfer sender recipient amount s) = true ↔ amount <= balance_of s sender) ∧
  ∀ s', transfer sender recipient amount s = Done s' →
    tk_totalSupply s' = tk_totalSupply s ∧
    (sender ≠ recipient → balance_of s' sender = balance_of s sender - amount ∧
                          balance_of s' recipient = balance_of s recipient + amount).
Proof.
  intros Hr Ha. apply token_reachable_inv in Hr as Hinv. pose proof Hinv as (_ & Hsum & Hlt).
  split_and!; try done; try apply token_inv_balance; try done.
  - split.
    + intros Hd. destruct (transfer _ _ _ _) as [s'|] eqn:H; [|done]. unfold transfer in H.
      evm_inv. done.
    + intros Hb. destruct (transfer_Done sender recipient amount s Hinv) as [s' ->]; [lia|lia|done].
  - intros s' H. unfold transfer in H. evm_inv. subst s'. split; [done|]. intros Hne.
    change (balance_of (emit_token _ ?s)) with (balance_of s).
    rewrite !balance_of_set. by repeat case_decide; subst.
Qed.

Lemma token_conservation_witness :
  ∃ s, token_reachable s ∧ tk_totalSupply s = 100 ∧
    is_done (transfer Fixture.alice Fixture.bob 30 s) = true.
Proof.
  set (s := mk_erc20 100 {[Fixture.alice := 100]} ∅ [Transfer ADDRESS_ZERO Fixture.alice 100]).
  assert (token_reachable s) as Hs.
  { eapply rtc_l; [|apply rtc_refl]. apply (token_mint _ Fixture.alice 100); [lia|reflexivity]. }
  exists s. split; [exact Hs|].
  destruct (token_conservation s Fixture.alice Fixture.bob 30 Hs) as (_ & _ & _ & Ht & _); [lia|].
  split; [reflexivity|]. apply Ht. vm_compute. congruence.
Defined.

(** ** The token behind the strategies *)

(** What the token answers to the calls of the strategies: it has
    [balanceOf], and neither [getTotalSupply] nor the functions of a vote
    token; a call of a function it does not have reverts. *)
Definition token_answers (s : ERC20) (c : Call) : option (CallReturn c) :=
  match c with
  | CallERC20 (balanceOfCall a) => Some (balance_of s a)
  | _ => None
  end.

Section TokenStrategies.
Context {alloy : AlloyText} {steel : Steel} {json : SerdeConfig}.

(** C37: No execution can be proved for a proposal whose configuration names
    the repository's own token: the program asks it for [getTotalSupply],
    which the contract, whose getter is [totalSupply], does not have, or for
    the past supply of a vote token, and panics. *)
Theorem repo_token_never_executes i env text cfg asset token :
  into_env (ei_input i) = Ret env →
  genv_view env (ei_config_contract i) (CallConfig {| cc_proposal_id := ei_proposal_id i |})
    = Some text →
  config_from_str text = Some cfg → asset ∈ cfg_assets cfg →
  (∀ c, genv_view env (asset_contract asset) c = token_answers token c) →
  is_ret (execution_statement i) = false.
Proof.
  intros Henv Htext Hcfg Hin Hview. destruct (execution_statement i) as [j|] eqn:Hj; [|done].
  apply execution_statement_Ret in Hj as (env' & cfg' & ss & (Henv' & (t & Ht & Hc) & _ & Hss & _) & _).
  rewrite Henv in Henv'. injection Henv' as <-. rewrite Htext in Ht. injection Ht as <-.
  rewrite Hcfg in Hc. injection Hc as <-. apply list_elem_of_lookup in Hin as [k Hk].
  destruct (Forall2_lookup_l _ _ _ _ _ Hss Hk) as (s & _ & Hs).
  destruct Hs as [s _ Hs|s _ Hs]; rewrite Hview in Hs; discriminate Hs.
Qed.
End TokenStrategies.

Module TokenFixture.
Definition view : EvmView := λ addr c,
  if bool_decide (addr = Fixture.plugin)
  then match c with CallConfig _ => Some Fixture.config_text | _ => None end
  else token_answers token_empty c.
Definition env : GuestEvmEnv := {|
  genv_view := view; genv_number := 7; genv_commitment := Fixture.commitment
|}.
Definition steel : Steel := {|
  EvmInput := unit; into_env _ := Ret env; sepolia_chain_id := 11155111
|}.
Definition input : @ExecutionInput steel := {|
  ei_input := tt : @EvmInput steel; ei_dao := Fixture.dao; ei_proposal_id := 4;
  ei_tally := mk_array3 100 0 0; ei_config_contract := Fixture.plugin
|}.
End TokenFixture.

Lemma repo_token_never_executes_witness :
  is_ret (@execution_statement Fixture.alloy TokenFixture.steel VotingFixture.json
            TokenFixture.input) = false.
Proof.
  apply (@repo_token_never_executes Fixture.alloy TokenFixture.steel VotingFixture.json
    TokenFixture.input TokenFixture.env Fixture.config_text Fixture.config Fixture.asset token_empty);
    [reflexivity|reflexivity|reflexivity|by apply list_elem_of_singleton|reflexivity].
Defined.
