(* ===== verification/PluginSetup.v ===== *)
(** * Installing and removing the plugin ([contracts/RiscVotingProtocolPluginSetup.sol])

    The setup contract deploys and initializes a plugin and lists the
    permissions the DAO grants or revokes.  The permission manager of Aragon
    OSx, which applies such lists, is an interface. *)

From stdpp Require Import base gmap list strings.
From Stdlib Require Import ZArith Lia Strings.Byte.
From S2P Require Import Prelude Machine Ethereum VoteSignature Fixtures Solidity Steel Sha256.
From S2P Require Import Plugin PluginFixture PluginCorrect.
#[local] Open Scope Z_scope.

(** ** [PermissionLib] *)

Inductive Operation : Type := Grant | Revoke | GrantWithCondition.
Record MultiTargetPermission : Type := mk_permission {
  mp_operation : Operation;
  mp_where : Address;
  mp_who : Address;
  mp_condition : Address;
  mp_permissionId : bytes32
}.
Definition NO_CONDITION : Address := ADDRESS_ZERO.

(** ** The DAO's permissions

    The permission manager of Aragon OSx applies the prepared lists; [granted]
    is an entry of its table: where, who, which. *)

Class PermissionManager : Type := {
  Permissions : Type;
  granted : Permissions → Address → Address → bytes32 → bool;
  applyMultiTargetPermissions : list MultiTargetPermission → Permissions → evm Permissions
}.

(** What one item makes of an entry. *)
Definition entry_after (location who : Address) (permissionId : bytes32) (entry : bool)
    (p : MultiTargetPermission) : bool :=
  if bool_decide (mp_where p = location ∧ mp_who p = who ∧ mp_permissionId p = permissionId)
  then match mp_operation p with Revoke => false | _ => true end
  else entry.

(** Items are applied in their order, each to its own entry. *)
Class PermissionManagerOk (manager : PermissionManager) : Prop :=
  apply_entries items s s' location who permissionId :
    applyMultiTargetPermissions items s = Done s' →
    granted s' location who permissionId =
      foldl (entry_after location who permissionId) (granted s location who permissionId) items.

(** ** [abi.decode(_data, (MajorityVotingBase.VotingSettings))] *)

Definition word_at (data : list byte) (pos : Z) : Z := be_value (take 32 (drop (Z.to_nat pos) data)).
Definition uint_at (w : Z) (data : list byte) (pos : Z) : evm Z :=
  if word_at data pos <? 2 ^ w then Done (word_at data pos) else Reverts RevertEmpty.
Definition bytes32_at (data : list byte) (pos : Z) : evm bytes32 :=
  decode_fixed 32 (take 32 (drop (Z.to_nat pos) data)).
Definition address_at (data : list byte) (pos : Z) : evm Address :=
  let w := take 32 (drop (Z.to_nat pos) data) in
  if bool_decide (take 12 w = replicate 12 x00) then decode_fixed 20 (drop 12 w)
  else Reverts RevertEmpty.
Definition VotingMode_of (z : Z) : evm VotingMode :=
  if z =? 0 then Done Standard else if z =? 1 then Done EarlyExecution
  else if z =? 2 then Done VoteReplacement else Reverts RevertEmpty.
(** A dynamic string whose length is at [pos]. *)
Definition string_at (data : list byte) (pos : Z) : evm string :=
  let size := Z.of_nat (length data) in
  _ ← revert_if (size <=? pos + 31) RevertEmpty;
  let len := word_at data pos in
  _ ← revert_if (2 ^ 64 - 1 <? len) (RevertPanic 65);
  _ ← revert_if (size <? pos + 32 + len) RevertEmpty;
  Done (String.string_of_list_byte (take (Z.to_nat len) (drop (Z.to_nat (pos + 32)) data))).

Definition decode_settings (data : list byte) : evm VotingSettings :=
  _ ← abi_head data 1;
  let base := word_at data 0 in
  _ ← revert_if (2 ^ 64 - 1 <? base) RevertEmpty;
  _ ← revert_if (Z.of_nat (length data) <? base + 288) RevertEmpty;
  votingMode ← VotingMode_of (word_at data base);
  supportThreshold ← uint_at 32 data (base + 32);
  minParticipation ← uint_at 32 data (base + 64);
  minDuration ← uint_at 64 data (base + 96);
  minProposerVotingPower ← uint_at 256 data (base + 128);
  let offset := word_at data (base + 160) in
  _ ← revert_if (2 ^ 64 - 1 <? offset) RevertEmpty;
  votingProtocolConfig ← string_at data (base + offset);
  verifier ← address_at data (base + 192);
  votingProtocolImageId ← bytes32_at data (base + 224);
  executionProtocolImageId ← bytes32_at data (base + 256);
  Done (mk_settings votingMode supportThreshold minParticipation minDuration minProposerVotingPower
          votingProtocolConfig verifier votingProtocolImageId executionProtocolImageId).

(** ** The setup contract *)

Section Setup.
Context {osx : Osx} {keccak : KeccakV256}.

(** [PluginUUPSUpgradeable.UPGRADE_PLUGIN_PERMISSION_ID] of the framework. *)
Variable UPGRADE_PLUGIN_PERMISSION_ID : bytes32.

Definition EXECUTE_PERMISSION_ID : bytes32 :=
  keccak_v256 (String.list_byte_of_string "EXECUTE_PERMISSION").

(** The account of line 123. *)
Definition CREATOR : Address := mk_fixed
  (be_bytes 20 0x8bF1e340055c7dE62F11229A149d3A1918de3d74) (length_be_bytes 20 _).

(** [proxy] is the address of the proxy deployed and [o] its fresh storage. *)
Definition prepareInstallation (_dao : Address) (_data : list byte) (proxy : Address) (o : OsxState) :
    evm (Plugin * (list Address * list MultiTargetPermission)) :=
  votingSettings ← decode_settings _data;
  let helpers := [] in
  plugin ← initialize _dao votingSettings (plugin_fresh o);
  let permissions := [
    mk_permission Grant proxy _dao NO_CONDITION UPDATE_VOTING_SETTINGS_PERMISSION_ID;
    mk_permission Grant _dao proxy NO_CONDITION EXECUTE_PERMISSION_ID;
    mk_permission Grant proxy CREATOR NO_CONDITION CREATE_PROPOSAL_PERMISSION_ID] in
  Done (plugin, (helpers, permissions)).

Definition prepareUpdate (_dao : Address) (_fromBuild : Z) (plugin : Address) :
    list byte * (list Address * list MultiTargetPermission) :=
  ([], ([], if _fromBuild <? 3
            then [mk_permission Revoke plugin _dao NO_CONDITION UPGRADE_PLUGIN_PERMISSION_ID]
            else [])).

Definition prepareUninstallation (_dao plugin : Address) (currentHelpers : list Address) :
    evm (list MultiTargetPermission) :=
  let helperLength := Z.of_nat (length currentHelpers) in
  _ ← revert_if (negb (helperLength =? 1)) (RevertError "WrongHelpersArrayLength" [helperLength]);
  Done [mk_permission Revoke plugin _dao NO_CONDITION UPDATE_VOTING_SETTINGS_PERMISSION_ID;
        mk_permission Revoke _dao plugin NO_CONDITION EXECUTE_PERMISSION_ID].

End Setup.

(** ** Removal *)

Section Removal.
Context {osx : Osx} {keccak : KeccakV256}.
Context {manager : PermissionManager} {manager_ok : PermissionManagerOk manager}.

(** C33: What the setup contract prepares cannot be undone.  After a successful
    installation the helpers it returned make the uninstallation revert,
    because that expects one helper and the installation lists none; and were
    it called with any one helper, the permission to create proposals, which
    the installation grants to an account fixed in the code, would remain. *)
Theorem installation_not_removable _dao _data proxy o plugin helpers permissions s s1 :
  prepareInstallation _dao _data proxy o = Done (plugin, (helpers, permissions)) →
  _dao ≠ CREATOR → _dao ≠ proxy → applyMultiTargetPermissions permissions s = Done s1 →
  prepareUninstallation _dao proxy helpers = Reverts (RevertError "WrongHelpersArrayLength" [0]) ∧
  ∀ helper revoked s2,
    prepareUninstallation _dao proxy [helper] = Done revoked →
    applyMultiTargetPermissions revoked s1 = Done s2 →
    granted s2 proxy CREATOR CREATE_PROPOSAL_PERMISSION_ID = true ∧
    granted s2 proxy _dao UPDATE_VOTING_SETTINGS_PERMISSION_ID = false ∧
    granted s2 _dao proxy EXECUTE_PERMISSION_ID = false.
Proof.
  intros H Hne Hnp Hs1. unfold prepareInstallation in H. evm_inv. simplify_eq. split; [done|].
  intros helper revoked s2 [= <-] Hs2.
  rewrite !(apply_entries _ _ _ _ _ _ Hs2), (apply_entries _ _ _ _ _ _ Hs1).
  unfold entry_after. cbn [foldl mp_operation mp_where mp_who mp_permissionId].
  split_and!; repeat case_bool_decide; naive_solver.
Qed.
End Removal.

(** ** A concrete installation *)

Module SetupFixture.
Import PluginFixture.
Definition word (z : Z) : list byte := be_bytes 32 z.
Definition data : list byte := concat [
  word 32; word 2; word 500000; word 0; word 3600; word 0; word 288;
  replicate 12 x00 ++ fb_bytes verifier; replicate 32 x01; replicate 32 x02;
  word 6; String.list_byte_of_string "config" ++ replicate 26 x00].

Example decode_data : decode_settings data = Done settings.
Proof.
  assert (∃ v i e, decode_settings data =
      Done (mk_settings VoteReplacement 500000 0 3600 0 Fixture.config_text v i e) ∧
    fb_bytes v = fb_bytes verifier ∧ fb_bytes i = replicate 32 x01 ∧ fb_bytes e = replicate 32 x02)
    as (v & i & e & -> & Hv & Hi & He) by (eexists _, _, _; vm_compute; by split_and!).
  unfold settings. f_equal. f_equal; by apply fb_bytes_inj.
Qed.

(** The table of permissions as a set. *)
Definition apply_item (s : gset (Address * Address * bytes32)) (p : MultiTargetPermission) :
    gset (Address * Address * bytes32) :=
  let k := (mp_where p, mp_who p, mp_permissionId p) in
  match mp_operation p with
  | Revoke => s ∖ {[k]}
  | _ => {[k]} ∪ s
  end.
Definition manager : PermissionManager := {|
  Permissions := gset (Address * Address * bytes32);
  granted s location who permissionId := bool_decide ((location, who, permissionId) ∈ s);
  applyMultiTargetPermissions items s := Done (foldl apply_item s items)
|}.
Lemma manager_ok : PermissionManagerOk manager.
Proof.
  intros items s s' location who permissionId [= <-]. revert s.
  induction items as [|p items IH]; intros s; [done|]. cbn [foldl]. rewrite IH. f_equal.
  cbn [granted manager]. unfold apply_item, entry_after.
  destruct (decide (mp_where p = location ∧ mp_who p = who ∧ mp_permissionId p = permissionId))
    as [Hk|Hk]; [rewrite (bool_decide_eq_true_2 _ Hk)|rewrite (bool_decide_eq_false_2 _ Hk)].
  - destruct Hk as (<- & <- & <-). destruct (mp_operation p);
      [apply bool_decide_eq_true_2|apply bool_decide_eq_false_2|apply bool_decide_eq_true_2].
    + by apply elem_of_union_l, elem_of_singleton.
    + intros [_ Hn]%elem_of_difference. by apply Hn, elem_of_singleton.
    + by apply elem_of_union_l, elem_of_singleton.
  - assert ((location, who, permissionId) ∉ ({[(mp_where p, mp_who p, mp_permissionId p)]}
      : gset (Address * Address * bytes32))) as Hn.
    { intros [= -> -> ->]%elem_of_singleton. by destruct Hk. }
    apply bool_decide_ext. destruct (mp_operation p);
      rewrite ?elem_of_union, ?elem_of_difference; tauto.
Qed.
End SetupFixture.

Section Witnesses.
Import PluginFixture SetupFixture.

Definition fresh : @OsxState osx := (false, 0).

Lemma installation_not_removable_witness :
  prepareUninstallation Fixture.dao Fixture.plugin [] =
    Reverts (RevertError "WrongHelpersArrayLength" [0]) ∧
  ∃ s, @granted manager s Fixture.plugin CREATOR CREATE_PROPOSAL_PERMISSION_ID = true.
Proof.
  destruct (prepareInstallation Fixture.dao data Fixture.plugin fresh)
    as [[plugin [helpers permissions]]|r] eqn:H.
  - assert (helpers = []) as ->.
    { unfold prepareInstallation in H. rewrite decode_data in H. injection H as _ <- _. reflexivity. }
    assert (Fixture.dao ≠ CREATOR) as Hc by (intros Heq; discriminate (f_equal fb_bytes Heq)).
    assert (Fixture.dao ≠ Fixture.plugin) as Hp by (intros Heq; discriminate (f_equal fb_bytes Heq)).
    destruct (installation_not_removable (manager := manager) (manager_ok := manager_ok)
      Fixture.dao data Fixture.plugin fresh plugin [] permissions ∅ _ H Hc Hp eq_refl)
      as [Hu Hleft].
    split; [exact Hu|]. eexists. eapply (Hleft Fixture.alice); reflexivity.
  - unfold prepareInstallation in H. rewrite decode_data in H. discriminate H.
Defined.
End Witnesses.
