(* ===== verification/Deploy.v ===== *)
(** * The deployment ([script/DeployCounter.s.sol])

    The script reads its environment, publishes the setup contract, and has
    the DAO factory of Aragon OSx create a DAO with the plugin installed.  The
    cheat codes of Foundry ([Vm]) and the factories ([Factories]) are
    interfaces; what the script passes on is read by the setup contract of
    [PluginSetup]. *)

From stdpp Require Import base gmap list strings.
From Stdlib Require Import ZArith Lia Strings.Byte.
From S2P Require Import Prelude Machine Ethereum VoteSignature Fixtures Abi Json ConfigJson.
From S2P Require Import Solidity Steel Sha256 JournalDecode Plugin PluginFixture PluginCorrect.
From S2P Require Import PluginSetup.
#[local] Open Scope Z_scope.

(** ** [abi.encode(votingSettings)] *)

Definition mode_index (m : VotingMode) : Z :=
  match m with Standard => 0 | EarlyExecution => 1 | VoteReplacement => 2 end.

(** The offset of the struct, its head with the offset of the text, and the
    length of the text. *)
Definition settings_words (st : VotingSettings) : list (list byte) :=
  [abi_uint 32; abi_uint (mode_index (vs_votingMode st)); abi_uint (vs_supportThreshold st);
   abi_uint (vs_minParticipation st); abi_uint (vs_minDuration st);
   abi_uint (vs_minProposerVotingPower st); abi_uint 288; abi_address (vs_verifier st);
   fb_bytes (vs_votingProtocolImageId st); fb_bytes (vs_executionProtocolImageId st);
   abi_uint (Z.of_nat (length (String.list_byte_of_string (vs_votingProtocolConfig st))))].
Definition encode_settings (st : VotingSettings) : list byte :=
  let text := String.list_byte_of_string (vs_votingProtocolConfig st) in
  concat (settings_words st) ++ text ++ replicate ((32 - length text mod 32) mod 32) x00.

(** ** The interfaces *)

Class Vm : Type := {
  vm_envAddress : string → evm Address;
  vm_envUint : string → evm Z;
  vm_readFile : string → evm string;
  vm_toString : Z → string
}.

Record DAOSettings : Type := mk_dao_settings {
  ds_trustedForwarder : Address;
  ds_daoURI : string;
  ds_subdomain : string;
  ds_metadata : list byte
}.
Record PluginSettings : Type := mk_plugin_settings {
  ps_tag : Z * Z;               (* release and build *)
  ps_repo : Address;
  ps_data : list byte
}.
Record Log : Type := mk_log { log_topics : list bytes32 }.

Class Factories : Type := {
  createPluginRepoWithFirstVersion :
    Address → string → Address → Address → list byte → list byte → evm Address;
  (* the DAO and the logs recorded while it was created *)
  createDao : Address → DAOSettings → list PluginSettings → evm (Address * list Log)
}.

(** ** The script *)

Record Deploy : Type := mk_deploy {
  d_pluginRepoFactory : Address;
  d_daoFactory : Address;
  d_nameWithEntropy : string;
  d_pluginAddress : list Address;
  d_votingProtocolConfig : string;
  d_token : Address
}.

Section Script.
Context {vm : Vm} {factories : Factories} {keccak : KeccakV256}.
(** The generated library [ImageID]. *)
Variables VOTING_PROTOCOL_ID EXECUTION_PROTOCOL_ID : bytes32.

Definition setUp (timestamp : Z) (d : Deploy) : evm Deploy :=
  pluginRepoFactory ← vm_envAddress "PLUGIN_REPO_FACTORY";
  daoFactory ← vm_envAddress "DAO_FACTORY";
  let nameWithEntropy := ("risc-voting-protocol-" +:+ vm_toString timestamp)%string in
  votingProtocolConfig ← vm_readFile "script/RiscVotingProtocolConfig.txt";
  token ← vm_envAddress "TOKEN";
  Done (mk_deploy pluginRepoFactory daoFactory nameWithEntropy (d_pluginAddress d)
          votingProtocolConfig token).

Definition deployPluginRepo (d : Deploy) (sender pluginSetup : Address) : evm Address :=
  createPluginRepoWithFirstVersion (d_pluginRepoFactory d) (d_nameWithEntropy d) pluginSetup sender
    (String.list_byte_of_string "0x00") (String.list_byte_of_string "0x00").

Definition getDAOSettings (d : Deploy) : DAOSettings :=
  mk_dao_settings ADDRESS_ZERO "" (d_nameWithEntropy d) [].

Definition VERIFIER : Address := mk_fixed
  (be_bytes 20 0x925d8331ddc0a1F0d96E68CF073DFE1d92b69187) (length_be_bytes 20 _).

(** [0.1 days] is 8640 seconds. *)
Definition votingSettings (d : Deploy) : VotingSettings :=
  mk_settings Standard 20 10 8640 1 (d_votingProtocolConfig d) VERIFIER
    VOTING_PROTOCOL_ID EXECUTION_PROTOCOL_ID.
Definition getPluginSettings (d : Deploy) (pluginRepo : Address) : list PluginSettings :=
  [mk_plugin_settings (1, 1) pluginRepo (encode_settings (votingSettings d))].

(** [topics[i]], which panics out of range. *)
Definition topic (l : Log) (i : nat) : evm bytes32 :=
  match log_topics l !! i with Some t => Done t | None => Reverts (RevertPanic 50) end.
Definition INSTALLATION_APPLIED : bytes32 :=
  keccak_v256 (String.list_byte_of_string "InstallationApplied(address,address,bytes32,bytes32)").
(** [address(uint160(uint256(t)))]: the low twenty bytes. *)
Definition address_of_topic (t : bytes32) : Address := mk_fixed
  (be_bytes 20 (be_value (fb_bytes t) mod 2 ^ 160)) (length_be_bytes 20 _).

(** The loop over the log entries. *)
Fixpoint push_plugins (logEntries : list Log) (pluginAddress : list Address) : evm (list Address) :=
  match logEntries with
  | [] => Done pluginAddress
  | l :: logEntries =>
      t0 ← topic l 0;
      if bool_decide (t0 = INSTALLATION_APPLIED) then
        t2 ← topic l 2; push_plugins logEntries (pluginAddress ++ [address_of_topic t2])
      else push_plugins logEntries pluginAddress
  end.

(** [pluginSetup] is the address of the setup contract the script creates. *)
Definition run (sender pluginSetup : Address) (d : Deploy) : evm (Address * Deploy) :=
  _ ← vm_envUint "DEPLOYMENT_WALLET_PRIVATE_KEY";
  pluginRepo ← deployPluginRepo d sender pluginSetup;
  let daoSettings := getDAOSettings d in
  let pluginSettings := getPluginSettings d pluginRepo in
  created ← createDao (d_daoFactory d) daoSettings pluginSettings;
  let '(createdDAO, logEntries) := created in
  pluginAddress ← push_plugins logEntries (d_pluginAddress d);
  Done (createdDAO, mk_deploy (d_pluginRepoFactory d) (d_daoFactory d) (d_nameWithEntropy d)
                      pluginAddress (d_votingProtocolConfig d) (d_token d)).
End Script.

(** ** The settings are read back *)

Section Words.
Context (ws : list (list byte)) (rest : list byte) (Hws : Forall (λ w, length w = 32%nat) ws).

Lemma word_at_concat i pos z :
  pos = 32 * Z.of_nat i → ws !! i = Some (abi_uint z) → 0 <= z < 2 ^ 256 →
  word_at (concat ws ++ rest) pos = z.
Proof.
  intros -> Hi Hz. unfold word_at. replace (Z.to_nat (32 * Z.of_nat i)) with (32 * i)%nat by lia.
  fold (abi_word (concat ws ++ rest) i). rewrite (abi_word_concat _ _ _ _ Hws Hi).
  by apply be_value_abi_uint.
Qed.

Lemma uint_at_concat w i pos z :
  pos = 32 * Z.of_nat i → ws !! i = Some (abi_uint z) → 0 <= z < 2 ^ w → w <= 256 →
  uint_at w (concat ws ++ rest) pos = Done z.
Proof.
  intros Hpos Hi Hz Hw. pose proof (Z.pow_le_mono_r 2 w 256). unfold uint_at.
  rewrite (word_at_concat i pos z Hpos Hi) by lia. by rewrite (proj2 (Z.ltb_lt _ _)) by lia.
Qed.

Lemma bytes32_at_concat i pos (b : bytes32) :
  pos = 32 * Z.of_nat i → ws !! i = Some (fb_bytes b) →
  bytes32_at (concat ws ++ rest) pos = Done b.
Proof.
  intros -> Hi. unfold bytes32_at. replace (Z.to_nat (32 * Z.of_nat i)) with (32 * i)%nat by lia.
  exact (abi_decode_bytes32_concat _ rest Hws i b Hi).
Qed.

Lemma address_at_concat i pos (a : Address) :
  pos = 32 * Z.of_nat i → ws !! i = Some (abi_address a) →
  address_at (concat ws ++ rest) pos = Done a.
Proof.
  intros -> Hi. unfold address_at. replace (Z.to_nat (32 * Z.of_nat i)) with (32 * i)%nat by lia.
  by apply (abi_decode_addr_concat _ rest Hws i _ a Hi).
Qed.
End Words.

Lemma settings_words_32 st : Forall (λ w, length w = 32%nat) (settings_words st).
Proof.
  repeat constructor; auto using length_abi_uint, length_abi_address, length_fb_bytes.
Qed.

Definition text_length (st : VotingSettings) : Z :=
  Z.of_nat (length (String.list_byte_of_string (vs_votingProtocolConfig st))).

Lemma string_at_settings st :
  text_length st < 2 ^ 64 → string_at (encode_settings st) 320 = Done (vs_votingProtocolConfig st).
Proof.
  intros Hl. unfold string_at, encode_settings. pose proof (settings_words_32 st) as Hws.
  set (text := String.list_byte_of_string (vs_votingProtocolConfig st)) in *.
  set (pad := replicate _ x00).
  assert (length (concat (settings_words st)) = 352%nat) as H352
    by (by rewrite (length_concat_words _ Hws)).
  assert (0 <= text_length st) as H0 by (unfold text_length; lia).
  rewrite (word_at_concat _ (text ++ pad) Hws 10 320 (text_length st)); [|done|done|].
  2:{ split; [done|]. transitivity (2 ^ 64); [done|reflexivity]. }
  unfold revert_if. rewrite !length_app, H352.
  rewrite (proj2 (Z.leb_gt _ _)) by lia. cbn [mbind evm_bind].
  rewrite (proj2 (Z.ltb_ge (2 ^ 64 - 1) (text_length st))) by lia. cbn [mbind evm_bind].
  unfold text_length in *. fold text in Hl, H0 |- *.
  rewrite (proj2 (Z.ltb_ge _ _)) by lia. cbn [mbind evm_bind]. f_equal.
  change (Z.to_nat (320 + 32)) with 352%nat.
  rewrite drop_app_length' by done. rewrite Nat2Z.id, take_app_length' by done.
  apply String.string_of_list_byte_of_string.
Qed.

Lemma VotingMode_of_index m : VotingMode_of (mode_index m) = Done m.
Proof. by destruct m. Qed.

Lemma decode_encode_settings st :
  settings_typed st → text_length st < 2 ^ 64 → decode_settings (encode_settings st) = Done st.
Proof.
  intros (Ht & Hp & Hd & Hv) Hl. pose proof (string_at_settings st Hl) as Hstr.
  unfold decode_settings. pose proof (settings_words_32 st) as Hws.
  unfold encode_settings in *. set (rest := _ ++ replicate _ x00) in *.
  rewrite abi_head_concat by (done || (simpl; lia)). cbn [mbind evm_bind].
  rewrite (word_at_concat _ rest Hws 0 0 32) by (done || lia).
  change (revert_if (2 ^ 64 - 1 <? 32) RevertEmpty) with (Done tt). cbn [mbind evm_bind].
  assert ((Z.of_nat (length (concat (settings_words st) ++ rest)) <? 32 + 288) = false) as ->.
  { rewrite length_app, (length_concat_words _ Hws). simpl. apply Z.ltb_ge. lia. }
  unfold revert_if at 1. cbn [mbind evm_bind].
  rewrite (word_at_concat _ rest Hws 1 32 (mode_index (vs_votingMode st)))
    by (done || (destruct (vs_votingMode st); simpl; lia)).
  rewrite VotingMode_of_index. cbn [mbind evm_bind].
  read_word (uint_at_concat _ rest Hws 32 2 (32 + 32) (vs_supportThreshold st)).
  read_word (uint_at_concat _ rest Hws 32 3 (32 + 64) (vs_minParticipation st)).
  read_word (uint_at_concat _ rest Hws 64 4 (32 + 96) (vs_minDuration st)).
  read_word (uint_at_concat _ rest Hws 256 5 (32 + 128) (vs_minProposerVotingPower st)).
  rewrite (word_at_concat _ rest Hws 6 (32 + 160) 288) by (done || lia).
  change (revert_if (2 ^ 64 - 1 <? 288) RevertEmpty) with (Done tt). cbn [mbind evm_bind].
  change (32 + 288) with 320. rewrite Hstr. cbn [mbind evm_bind].
  read_word (address_at_concat _ rest Hws 7 (32 + 192) (vs_verifier st)).
  read_word (bytes32_at_concat _ rest Hws 8 (32 + 224) (vs_votingProtocolImageId st)).
  read_word (bytes32_at_concat _ rest Hws 9 (32 + 256) (vs_executionProtocolImageId st)).
  by destruct st.
Qed.

(** ** The plugin the script installs *)

Section Deployment.
Context {vm : Vm} {factories : Factories} {keccak : KeccakV256} {osx : Osx} {osx_ok : OsxOk osx}.
Context {verifiers : Verifiers} {verifiers_ok : VerifiersOk verifiers} {sha : Sha256}.
Context {json : SerdeJson} {text : AddressText} {json_ok : SerdeJsonOk json}
  {text_ok : AddressTextOk text}.
Variables VOTING_PROTOCOL_ID EXECUTION_PROTOCOL_ID : bytes32.

Definition applied (l : Log) : Prop := log_topics l !! 0%nat = Some INSTALLATION_APPLIED.
#[export] Instance applied_dec l : Decision (applied l).
Proof. unfold applied. apply _. Defined.

(** The plugins of the installation events, in order; a log without the
    topics asked for panics. *)
Lemma push_plugins_Done logs acc ps :
  push_plugins logs acc = Done ps ↔
  Forall (λ l, log_topics l ≠ []) logs ∧
  ∃ ts, Forall2 (λ l t, log_topics l !! 2%nat = Some t) (filter applied logs) ts ∧
    ps = acc ++ (address_of_topic <$> ts).
Proof.
  revert acc. induction logs as [|l logs IH]; intros acc; cbn [push_plugins].
  { split; [intros [= <-]|].
    - split; [done|]. exists []. split; [constructor|by rewrite app_nil_r].
    - intros (_ & ts & Hts & ->). inversion Hts; subst. by rewrite app_nil_r. }
  rewrite filter_cons. unfold topic.
  destruct (log_topics l !! 0%nat) as [t0|] eqn:H0; cycle 1.
  { cbn [mbind evm_bind]. split; [done|]. intros [[Hl _]%Forall_cons _].
    by destruct (log_topics l). }
  assert (log_topics l ≠ []) as Hne by (by destruct (log_topics l)).
  cbn [mbind evm_bind]. case_bool_decide as Ht.
  - rewrite decide_True by (unfold applied; congruence).
    destruct (log_topics l !! 2%nat) as [t2|] eqn:H2; cbn [mbind evm_bind].
    + rewrite IH, Forall_cons. split; intros (Hall & ts & Hts & ->).
      * split; [done|]. exists (t2 :: ts). split; [by constructor|]. by rewrite <-app_assoc.
      * split; [apply Hall|].
        inversion Hts as [|? t' ? ts' Ht' Hts']; subst. exists ts'. split; [done|].
        rewrite H2 in Ht'. injection Ht' as <-. by rewrite <-app_assoc.
    + split; [done|]. intros (_ & ts & Hts & _). inversion Hts; congruence.
  - rewrite decide_False by (unfold applied; congruence).
    rewrite IH, Forall_cons. naive_solver.
Qed.

(** Calls other than updates of the settings keep them; the initializer runs
    once. *)
Lemma step_settings s o s' :
  step s o s' → o ≠ OpInitialize → o ≠ OpUpdate → pl_votingSettings s' = pl_votingSettings s.
Proof.
  intros H Hi Hu. destruct H as [dao st s' Hst H|msg st s' Hst H|msg metadata acts afm start end_ id s'
    Hm Hs He H|msg data seal j s' Hj H|msg data seal id s' H]; [done|done|..].
  - by apply create_Done in H as (start' & end' & _ & _ & _ & _ & ->).
  - by apply vote_Done in H as (j' & opt & t1 & t2 & _ & _ & _ & _ & _ & _ & ->).
  - by apply execute_begin_Done in H as (j & _ & _ & _ & _ & _ & ->).
Qed.

Lemma steps_settings s os s' :
  steps s os s' → OpInitialize ∉ os → OpUpdate ∉ os → pl_votingSettings s' = pl_votingSettings s.
Proof.
  induction 1 as [|s o s' os s'' Ho Hs IH]; [done|].
  rewrite !not_elem_of_cons. intros [Hi Hi'] [Hu Hu'].
  rewrite IH by done. by eapply step_settings.
Qed.

(** A proposal created with settings. *)
Definition created_with (st : VotingSettings) (p : Proposal) : Prop :=
  pp_verifier (pr_parameters p) = vs_verifier st ∧
  pp_votingProtocolImageId (pr_parameters p) = vs_votingProtocolImageId st ∧
  pp_executionProtocolImageId (pr_parameters p) = vs_executionProtocolImageId st ∧
  pp_votingProtocolConfig (pr_parameters p) = vs_votingProtocolConfig st.

(** C11: What the deployment script installs.  With the configuration file of
    the repository, what the script hands to the DAO factory makes the setup
    contract install a plugin, with exactly the settings of the script, which
    are within the plugin's bounds.  Take any calls of the installed plugin
    that do not change its settings (no [updateVotingSettings], no second
    [initialize]), then the creation of a proposal, then any calls at all: the
    proposal carries the script's verifier and image ids and a configuration
    text that guest and host decode to the shipped configuration. *)
Theorem deployment_installs timestamp d0 d repo dao proxy o o' :
  vm_readFile "script/RiscVotingProtocolConfig.txt" = Done RiscVotingProtocolConfig_txt →
  setUp timestamp d0 = Done d → osx_initialize dao o = Done o' →
  ∃ data, getPluginSettings VOTING_PROTOCOL_ID EXECUTION_PROTOCOL_ID d repo =
      [mk_plugin_settings (1, 1) repo data] ∧
  ∃ plugin permissions,
    prepareInstallation dao data proxy o = Done (plugin, ([], permissions)) ∧
    reachable plugin ∧
    pl_votingSettings plugin = votingSettings VOTING_PROTOCOL_ID EXECUTION_PROTOCOL_ID d ∧
    ∀ os s id s1 os' s2,
      steps plugin os s → OpInitialize ∉ os → OpUpdate ∉ os →
      step s (OpCreate id) s1 → steps s1 os' s2 →
      let par := pr_parameters (proposal_at s2 id) in
      pp_verifier par = VERIFIER ∧ pp_votingProtocolImageId par = VOTING_PROTOCOL_ID ∧
      pp_executionProtocolImageId par = EXECUTION_PROTOCOL_ID ∧
      config_of_text (votingProtocolConfig s2 id) =
        Some (mk_config "1" [shipped_asset] "MajorityVoting") ∧
      host_config_of_text (votingProtocolConfig s2 id) =
        config_of_text (votingProtocolConfig s2 id).
Proof.
  intros Hfile Hset Ho. eexists. split; [reflexivity|].
  unfold setUp in Hset. evm_inv. rewrite Hfile in *. simplify_eq.
  set (st := votingSettings _ _ _).
  assert (settings_typed st) as Hst by (unfold settings_typed; simpl; lia).
  assert (decode_settings (encode_settings st) = Done st) as Hdec
    by (apply decode_encode_settings; [done|vm_compute; reflexivity]).
  assert (∃ plugin, initialize dao st (plugin_fresh o) = Done plugin) as [plugin Hinit].
  { unfold initialize. simpl. rewrite Ho. eexists. by apply update_settings_Done. }
  exists plugin. eexists. unfold prepareInstallation. rewrite Hdec. cbn [mbind evm_bind].
  rewrite Hinit. split; [reflexivity|].
  assert (pl_votingSettings plugin = st) as Hpl.
  { unfold initialize in Hinit. evm_inv. by apply update_settings_Done in Hinit as [_ ->]. }
  assert (reachable plugin) as Hr by (by exists o, dao, st, plugin, []; split_and!; [..|constructor]).
  split; [done|]. split; [done|]. intros os s id s1 os' s2 Hos Hi Hu Hcreate Hos'.
  rewrite <-(steps_settings _ _ _ Hos Hi Hu) in Hpl.
  pose proof (reachable_plugin_wf _ (reachable_steps _ _ _ Hr Hos)) as Hwf.
  pose proof (step_wf _ _ _ Hcreate Hwf) as Hwf1.
  inversion Hcreate as [| |msg metadata acts afm start end_ id' s1' _ _ _ Hc| |]; subst.
  apply create_Done in Hc as (start' & end' & _ & _ & _ & _ & Hs1).
  assert (∃ p, pl_proposals s1 !! id = Some p ∧ created_with st p) as (p & Hp & Hcw).
  { rewrite Hs1. cbn [pl_proposals]. rewrite lookup_insert_eq. eexists. split; [done|].
    unfold created_with, created. cbn. by rewrite Hpl. }
  destruct (steps_keep _ _ _ _ _ Hwf1 Hos' Hp) as (p2 & Hp2 & Hpar & _).
  cbv zeta. unfold votingProtocolConfig. rewrite (proposal_at_Some _ _ _ Hp2), Hpar.
  destruct Hcw as (-> & -> & -> & ->).
  split_and!; [done..|apply shipped_decoded|apply host_config_text].
Qed.
End Deployment.

(** The script ends exactly when its key is set and the factories succeed,
    and reports the plugins of the installation events after those it had. *)
Theorem script_reports_plugins {vm : Vm} {factories : Factories} {keccak : KeccakV256}
    voting execution sender setup d dao d' :
  run voting execution sender setup d = Done (dao, d') ↔
  ∃ key repo logs ts, vm_envUint "DEPLOYMENT_WALLET_PRIVATE_KEY" = Done key ∧
    deployPluginRepo d sender setup = Done repo ∧
    createDao (d_daoFactory d) (getDAOSettings d) (getPluginSettings voting execution d repo) =
      Done (dao, logs) ∧
    Forall (λ l, log_topics l ≠ []) logs ∧
    Forall2 (λ l t, log_topics l !! 2%nat = Some t) (filter applied logs) ts ∧
    d' = mk_deploy (d_pluginRepoFactory d) (d_daoFactory d) (d_nameWithEntropy d)
           (d_pluginAddress d ++ (address_of_topic <$> ts)) (d_votingProtocolConfig d) (d_token d).
Proof.
  unfold run. split.
  - intros H. evm_inv. destruct_and?.
    match goal with c : Address * list Log |- _ => destruct c as [dao0 logs] end. evm_inv.
    simplify_eq. match goal with H : push_plugins _ _ = Done _ |- _ =>
      apply push_plugins_Done in H as (Hall & ts & Hts & ->) end. eauto 12.
  - intros (key & repo & logs & ts & -> & -> & Hdao & Hall & Hts & ->). cbn [mbind evm_bind].
    rewrite Hdao. cbn [mbind evm_bind].
    rewrite (proj2 (push_plugins_Done logs (d_pluginAddress d) _)) by eauto. done.
Qed.

(** ** A concrete deployment *)

Module DeployFixture.
#[export] Existing Instances PluginFixture.osx PluginFixture.keccak PluginFixture.sha
  PluginFixture.verifiers PluginWitness.osx_ok PluginWitness.verifiers_ok.
#[export] Existing Instances JsonFixture.json JsonFixture.json_ok ConfigFixture.text
  ConfigFixture.address_text_ok.
Definition vm : Vm := {|
  vm_envAddress name :=
    if bool_decide (name = "TOKEN") then Done Fixture.token else Done Fixture.dao;
  vm_envUint _ := Done 1;
  vm_readFile path :=
    if bool_decide (path = "script/RiscVotingProtocolConfig.txt")
    then Done RiscVotingProtocolConfig_txt else Reverts RevertEmpty;
  vm_toString _ := "1000"
|}.
#[export] Existing Instance vm.
Definition d0 : Deploy := mk_deploy ADDRESS_ZERO ADDRESS_ZERO "" [] "" ADDRESS_ZERO.
Definition d : Deploy :=
  mk_deploy Fixture.dao Fixture.dao "risc-voting-protocol-1000" [] RiscVotingProtocolConfig_txt
    Fixture.token.

(** An installation among other events, and a log without topics. *)
Definition logs : list Log :=
  [mk_log [ZERO32]; mk_log [INSTALLATION_APPLIED; ZERO32; Fixture.pad32 Fixture.plugin; ZERO32]].
Example plugins_found :
  map fb_bytes (PluginFixture.get [] (push_plugins logs [])) =
  [fb_bytes Fixture.plugin].
Proof. vm_compute. reflexivity. Qed.
Example no_topics : push_plugins (mk_log [] :: logs) [] = Reverts (RevertPanic 50).
Proof. reflexivity. Qed.
End DeployFixture.

Section Witnesses.
Import DeployFixture.

Lemma deployment_installs_witness :
  ∃ plugin permissions,
    prepareInstallation Fixture.dao (encode_settings (votingSettings ZERO32 ZERO32 d))
      Fixture.plugin ((false, 0) : @OsxState PluginFixture.osx) = Done (plugin, ([], permissions)) ∧
    reachable plugin ∧ vs_minDuration (pl_votingSettings plugin) = 8640.
Proof.
  destruct (deployment_installs ZERO32 ZERO32 1000 d0 d Fixture.dao Fixture.dao Fixture.plugin
    ((false, 0) : @OsxState PluginFixture.osx) ((true, 0) : @OsxState PluginFixture.osx))
    as (data & [= <-] & plugin & permissions & Hp & Hr & Hs & _);
    [reflexivity|reflexivity|reflexivity|].
  exists plugin, permissions. split; [exact Hp|]. split; [exact Hr|]. rewrite Hs. reflexivity.
Defined.
End Witnesses.
