(* ===== verification/Interfaces.v ===== *)
(** * The interfaces between the programs and the contracts

    The Rust programs call contracts by the [sol!] declarations they contain,
    each crate its own copy; the contracts answer by the functions they
    declare.  What is called is the selector of a signature, so that the two
    sides meet only when the signatures agree.  This file has the declarations
    of both sides. *)

From stdpp Require Import base gmap list strings pretty.
From Stdlib Require Import ZArith Lia Strings.Byte.
From S2P Require Import Prelude Machine Ethereum VoteSignature Keccak GuestExecution VotingGuest.
From S2P Require Import ExecutionGuest Abi AbiSpec Solidity Plugin PluginSetup Deploy.
#[local] Open Scope Z_scope.

(** [uint] is [uint256]. *)
Abbreviation SUint256 := (SUint 256).

(** ** The guest programs and their strategies *)

Definition guest_IERC20 : list SolFn := [
  mk_fn "balanceOf" [SAddress] [SUint256];
  mk_fn "getTotalSupply" [] [SUint256]].
Definition guest_IERC20Votes : list SolFn := [
  mk_fn "getPastVotes" [SAddress; SUint256] [SUint256];
  mk_fn "getPastTotalSupply" [SUint256] [SUint256]].
Definition guest_DelegateRegistry : list SolFn := [
  mk_fn "getDelegation" [SString; SAddress] [SArray (STuple [SFixed 32; SUint256]); SUint256]].
Definition voting_ConfigContract : list SolFn := [
  mk_fn "votingProtocolConfig" [SUint256] [SString]].
Definition execution_ConfigContract : list SolFn := [
  mk_fn "votingProtocolConfig" [SUint256] [SString]].

(** ** The host programs and their strategies *)

Definition host_IERC20 : list SolFn := [
  mk_fn "balanceOf" [SAddress] [SUint256];
  mk_fn "getTotalSupply" [] [SUint256]].
Definition host_IERC20Votes : list SolFn := [
  mk_fn "getPastVotes" [SAddress; SUint256] [SUint256];
  mk_fn "getPastTotalSupply" [SUint256] [SUint256]].
Definition host_DelegateRegistry : list SolFn := [
  mk_fn "getDelegation" [SString; SAddress] [SArray (STuple [SFixed 32; SUint256]); SUint256]].
Definition publisher_IERC20 : list SolFn := [mk_fn "balanceOf" [SAddress] [SUint256]].
Definition publisher_ConfigContract : list SolFn := [
  mk_fn "votingProtocolConfig" [SUint256] [SString]].
Definition publisher_VotingJournal : SolTy :=
  STuple [commitment_ty; SAddress; SUint256; SAddress; SUint256; SUint 8].
Definition execution_publisher_ConfigContract : list SolFn := [
  mk_fn "votingProtocolConfig" [SUint256] [SString]].
Definition execution_publisher_VotingJournal : SolTy :=
  STuple [commitment_ty; SAddress; SUint256; SAddress; SUint256; SUint 8].

(** ** The plugin *)

Definition VotingSettings_ty : SolTy :=
  STuple [SUint 8; SUint 32; SUint 32; SUint 64; SUint256; SString; SAddress; SFixed 32; SFixed 32].
Definition plugin_VotingJournal : SolTy :=
  STuple [commitment_ty; SAddress; SUint256; SAddress; SUint256; SUint 8].
Definition plugin_ExecutionJournal : SolTy :=
  STuple [commitment_ty; SAddress; SUint256; SAddress; SUint256; SUint 8].
(** [IDAO.Action] of the framework, as [createProposal] takes it. *)
Definition Action_ty : SolTy := STuple [SAddress; SUint256; SBytes].

Definition vote_fn : SolFn := mk_fn "vote" [SBytes; SBytes] [].
Definition execute_fn : SolFn := mk_fn "execute" [SBytes; SBytes] [].
Definition config_fn : SolFn := mk_fn "votingProtocolConfig" [SUint256] [SString].

(** [IMajorityVoting.sol]; an enum is a [uint8]. *)
Definition IMajorityVoting : list SolFn := [
  mk_fn "supportThreshold" [] [SUint 32];
  mk_fn "minParticipation" [] [SUint 32];
  mk_fn "canVote" [SUint256; SAddress; SUint 8] [SBool];
  mk_fn "canExecute" [SUint256] [SBool];
  execute_fn;
  mk_fn "getVoteOption" [SUint256; SAddress] [SUint 8];
  vote_fn].

Definition createProposal_fn : SolFn :=
  mk_fn "createProposal" [SBytes; SArray Action_ty; SUint256; SUint 64; SUint 64] [SUint256].
Definition updateVotingSettings_fn : SolFn := mk_fn "updateVotingSettings" [VotingSettings_ty] [].
Definition minDuration_fn : SolFn := mk_fn "minDuration" [] [SUint 64].
Definition minProposerVotingPower_fn : SolFn := mk_fn "minProposerVotingPower" [] [SUint256].
Definition votingMode_fn : SolFn := mk_fn "votingMode" [] [SUint 8].
Definition Parameters_ty : SolTy :=
  STuple [SUint 8; SUint 32; SUint 64; SUint 64; SUint 64; SFixed 32; SString; SAddress; SFixed 32;
          SFixed 32].
Definition getProposal_fn : SolFn :=
  mk_fn "getProposal" [SUint256] [SBool; SBool; Parameters_ty;
    STuple [SUint256; SUint256; SUint256]; SArray Action_ty; SUint256].

(** The functions that [MajorityVotingBase.sol] and
    [RiscVotingProtocolPlugin.sol] declare. *)
Definition plugin_functions : list SolFn := IMajorityVoting ++ [
  mk_fn "initialize" [SAddress; VotingSettings_ty] [];
  createProposal_fn; updateVotingSettings_fn; minDuration_fn; minProposerVotingPower_fn;
  votingMode_fn; getProposal_fn; config_fn;
  mk_fn "votingProtocolConfig" [] [SString];
  mk_fn "verifier" [] [SAddress];
  mk_fn "votingProtocolImageId" [] [SFixed 32];
  mk_fn "executionProtocolImageId" [] [SFixed 32];
  mk_fn "supportsInterface" [SFixed 4] [SBool];
  mk_fn "counter" [] [SUint256];
  mk_fn "UPDATE_VOTING_SETTINGS_PERMISSION_ID" [] [SFixed 32];
  mk_fn "CREATE_PROPOSAL_PERMISSION_ID" [] [SFixed 32]].

(** ** The token *)

Definition ERC20_functions : list SolFn := [
  mk_fn "totalSupply" [] [SUint256];
  mk_fn "balanceOf" [SAddress] [SUint256];
  mk_fn "allowance" [SAddress; SAddress] [SUint256];
  mk_fn "name" [] [SString];
  mk_fn "symbol" [] [SString];
  mk_fn "decimals" [] [SUint 8];
  mk_fn "transfer" [SAddress; SUint256] [SBool];
  mk_fn "approve" [SAddress; SUint256] [SBool];
  mk_fn "transferFrom" [SAddress; SAddress; SUint256] [SBool];
  mk_fn "mint" [SAddress; SUint256] [];
  mk_fn "burn" [SAddress; SUint256] []].

(** ** Interface identifiers *)

Section Interfaces.
Context {keccak : KeccakV256}.

Definition xor_selectors (fs : list SolFn) : Z :=
  foldr (λ f acc, Z.lxor (be_value (selector f)) acc) 0 fs.

Definition MAJORITY_VOTING_BASE_INTERFACE_ID : Z :=
  xor_selectors [minDuration_fn; minProposerVotingPower_fn; votingMode_fn; getProposal_fn;
                 updateVotingSettings_fn; createProposal_fn].
(** [type(IMajorityVoting).interfaceId] *)
Definition IMajorityVoting_interfaceId : Z := xor_selectors IMajorityVoting.

(** [super] is what the inherited contracts answer. *)
Definition supportsInterface (super : Z → bool) (_interfaceId : Z) : bool :=
  (_interfaceId =? MAJORITY_VOTING_BASE_INTERFACE_ID)
  || (_interfaceId =? IMajorityVoting_interfaceId) || super _interfaceId.
End Interfaces.

(** ** Both sides *)

(** A function of the list has the signature and the results of [f]. *)
Definition answers (fs : list SolFn) (f : SolFn) : Prop :=
  ∃ g, g ∈ fs ∧ signature g = signature f ∧ fn_outputs g = fn_outputs f.

(** The journals are what the contract decodes, for votes; for executions they
    are not. *)
Theorem journals_in_sync :
  publisher_VotingJournal = voting_Journal ∧ plugin_VotingJournal = voting_Journal ∧
  execution_publisher_VotingJournal ≠ execution_Journal ∧
  plugin_ExecutionJournal ≠ execution_Journal.
Proof. split_and!; done. Qed.

(** What host and guest ask of a contract is the same, the plugin answers the
    configuration with the type they expect, and it has the functions that the
    publishers call; the repository's token has no [getTotalSupply]. *)
Theorem calls_in_sync :
  host_IERC20 = guest_IERC20 ∧ host_IERC20Votes = guest_IERC20Votes ∧
  host_DelegateRegistry = guest_DelegateRegistry ∧
  Forall (answers plugin_functions) (voting_ConfigContract ++ execution_ConfigContract ++
    publisher_ConfigContract ++ execution_publisher_ConfigContract ++ IMajorityVoting) ∧
  Forall (answers ERC20_functions) publisher_IERC20 ∧
  ¬ answers ERC20_functions (mk_fn "getTotalSupply" [] [SUint256]).
Proof.
  split_and!; try done.
  - repeat constructor; eexists; (split; [|split; reflexivity]);
      unfold plugin_functions, IMajorityVoting; cbn; set_solver.
  - repeat constructor. eexists. split; [|split; reflexivity]. unfold ERC20_functions. set_solver.
  - intros (g & Hg & Hs & _). unfold ERC20_functions in Hg.
    repeat (apply elem_of_cons in Hg as [->|Hg]; [vm_compute in Hs; discriminate|]).
    by apply not_elem_of_nil in Hg.
Qed.

(** No two functions of the plugin share a selector, and the identifiers of
    [supportsInterface] are the two it means. *)
Example plugin_selectors_distinct :
  bool_decide (NoDup (selector (keccak:=fips_keccak) <$> plugin_functions)) = true.
Proof. vm_compute. reflexivity. Qed.
Example interface_ids_distinct :
  bool_decide (NoDup [MAJORITY_VOTING_BASE_INTERFACE_ID (keccak:=fips_keccak);
    IMajorityVoting_interfaceId (keccak:=fips_keccak); 0x01ffc9a7; 0xffffffff]) = true.
Proof. vm_compute. reflexivity. Qed.
Example supply_not_a_selector :
  existsb (λ f, bool_decide (selector (keccak:=fips_keccak) f =
    selector (keccak:=fips_keccak) (mk_fn "getTotalSupply" [] [SUint256]))) ERC20_functions = false.
Proof. vm_compute. reflexivity. Qed.
