(* ===== verification/Governance.v ===== *)
(** * From the guest program to the plugin

    What an accepted call of the plugin says about the chain, through the
    proof it was given: the verifier vouches that the voting program committed
    a journal with the digest of the one submitted. *)

From stdpp Require Import base gmap list strings.
From Stdlib Require Import ZArith Lia Strings.Byte.
From S2P Require Import Prelude Machine Ethereum VoteSignature Fixtures GuestVoting GuestExecution.
From S2P Require Import GuestIO VotingGuest Abi HostFixture Solidity Steel Sha256 JournalDecode Plugin.
From S2P Require Import PluginFixture PluginCorrect Ballots.
#[local] Open Scope Z_scope.

(** Two byte strings with one digest. *)
Definition sha_collision {sha : Sha256} (data : list byte) : Prop :=
  ∃ other, other ≠ data ∧ sha256 other = sha256 data.

(** Values a guest reads fit their types, and its commitments are words. *)
Class GuestTyped {steel : Steel} (serde : ZkvmSerde) : Prop := {
  de_typed t l (x : SerRep t) rest : de t l = Some (x, rest) → SerWf t x;
  into_env_typed input env : into_env input = Ret env → u256_wf (com_id (genv_commitment env))
}.

(** [alloy] encodes the journal as the Solidity ABI prescribes. *)
Class VotingAbiOk (abi : VotingJournalAbi) : Prop :=
  voting_abi_standard j : voting_journal_abi_encode j = abi_encode_voting j.

Section Accepted.
Context {alloy : AlloyText} {keccak : KeccakV256} {k256 : K256} {steel : Steel}
  {serde : ZkvmSerde} {hex : HexCrate} {json : SerdeConfig} {abi : VotingJournalAbi}.
Context {osx : Osx} {verifiers : Verifiers} {sha : Sha256}.
Context {typed : GuestTyped serde} {abi_ok : VotingAbiOk abi}.

(** The soundness of RISC Zero for the voting program: a seal verifies against
    an image and a digest only when the image's program committed a journal
    with that digest. *)
Class VerifierSound (verifier : Address) (imageId : bytes32) : Prop :=
  verify_sound seal digest :
    verify_at verifier seal imageId digest = Done tt →
    ∃ stdin journal, run_guest voting_main stdin = Ret journal ∧ sha256 journal = digest.

Lemma env_read_typed t io x io' : env_read t io = (Ret x, io') → SerWf t x.
Proof.
  unfold env_read. destruct (de t _) as [[y rest]|] eqn:Hd; [|done].
  intros [= <- _]. by eapply de_typed.
Qed.

Lemma read_voting_input_typed io i io' :
  read_voting_input io = (Ret i, io') →
  u256_wf (vi_proposal_id i) ∧ u8_wf (vi_direction i) ∧ u256_wf (vi_balance i).
Proof.
  unfold read_voting_input. intros Hr.
  repeat match type of Hr with
  | (env_read ?t ≫= _) _ = _ =>
      let H := fresh "Hread" in
      apply bind_stateful_inv in Hr as (? & ? & H & Hr); apply (env_read_typed t) in H
  end.
  unfold mret, stateful_ret in Hr. injection Hr as <- _. done.
Qed.

(** What the voting program commits is the ABI encoding of a well-typed
    journal of a vote it accepted. *)
Lemma guest_journal_read stdin jb :
  run_guest voting_main stdin = Ret jb →
  ∃ i j io, read_voting_input {| io_stdin := stdin; io_journal := [] |} = (Ret i, io) ∧
    voting_statement i = Ret j ∧ voting_journal_wf j ∧ jb = abi_encode_voting j.
Proof.
  intros (i & j & io & Hr & Hj & ->)%voting_main_run. exists i, j, io. split; [done|].
  apply read_voting_input_typed in Hr as Ht. apply read_voting_input_journal in Hr.
  split_and!; [done| |by rewrite Hr, voting_abi_standard].
  apply voting_statement_Ret in Hj as (_ & env & cfg & ss & (He & _) & ->).
  apply into_env_typed in He. destruct Ht as (?&?&?). by split_and!.
Qed.

Lemma guest_journal stdin jb :
  run_guest voting_main stdin = Ret jb →
  ∃ i j, voting_statement i = Ret j ∧ voting_journal_wf j ∧ jb = abi_encode_voting j.
Proof. intros (i & j & io & _ & H)%guest_journal_read. by exists i, j. Qed.

(** The program committed a journal with the digest of this one. *)
Definition journal_proved (data : list byte) : Prop :=
  ∃ stdin journal, run_guest voting_main stdin = Ret journal ∧ sha256 journal = sha256 data.

(** A proved journal is the one submitted, or one it collides with. *)
Lemma verified_journal data j :
  journal_proved data → decode_journal data = Done j →
  sha_collision data ∨ ∃ i, voting_statement i = Ret j.
Proof.
  intros (stdin & jb & Hrun & Hsha) Hj.
  destruct (decide (jb = data)) as [->|Hne]; [right|left; by exists jb].
  apply guest_journal in Hrun as (i & j' & Hi & Hwf & ->). exists i.
  pose proof (decode_encode_journal j' [] Hwf) as Hd. rewrite app_nil_r in Hd. congruence.
Qed.

(** What an accepted vote says, if its verifier accepts only a proved journal. *)
Lemma vote_sound msg data seal s s' j :
  vote msg data seal s = Done s' → decode_journal data = Done j →
  let par := pr_parameters (proposal_at s (vj_proposal_id j)) in
  (verify_at (pp_verifier par) seal (pp_votingProtocolImageId par) (sha256 data) = Done tt →
   journal_proved data) →
  sha_collision data ∨
  ∃ i env cfg sharess, vote_backed i env cfg sharess ∧
    vi_config_contract i = msg_this msg ∧ vi_proposal_id i = vj_proposal_id j ∧
    vi_voter i = vj_voter j ∧ vi_balance i = vj_balance j ∧ vi_direction i = vj_direction j ∧
    com_digest (genv_commitment env) = pp_snapshotBlockHash par ∧
    com_id (genv_commitment env) mod 2 ^ 240 = pp_snapshotBlock par.
Proof.
  intros H Hj par Hsound.
  apply vote_Done in H as (j' & opt & t1 & t2 & Hj' & Hc & Hp & _).
  rewrite Hj in Hj'. injection Hj' as <-. apply check_proof_Done in Hp as (Hd & Hid & Hv).
  destruct (verified_journal _ _ (Hsound Hv) Hj) as [?|[i Hi]]; [by left|right].
  apply voting_statement_Ret in Hi as (_ & env & cfg & ss & Hb & ->).
  exists i, env, cfg, ss. by split_and!.
Qed.

(** C2: A vote the plugin counts is one the voting program accepted: unless its
    journal collides with another one under SHA-256, the program ran on an
    input for the snapshot block of the proposal, read the proposal's
    configuration from this plugin, checked the claimed delegations, and the
    balance counted is the sum of the shares, positive, in one of the three
    directions. *)
Theorem accepted_vote_backed msg data seal s s' j :
  vote msg data seal s = Done s' → decode_journal data = Done j →
  let par := pr_parameters (proposal_at s (vj_proposal_id j)) in
  VerifierSound (pp_verifier par) (pp_votingProtocolImageId par) →
  sha_collision data ∨
  ∃ i env cfg sharess, vote_backed i env cfg sharess ∧
    vi_config_contract i = msg_this msg ∧ vi_proposal_id i = vj_proposal_id j ∧
    vi_voter i = vj_voter j ∧ vi_balance i = vj_balance j ∧ vi_direction i = vj_direction j ∧
    com_digest (genv_commitment env) = pp_snapshotBlockHash par ∧
    com_id (genv_commitment env) mod 2 ^ 240 = pp_snapshotBlock par.
Proof.
  intros H Hj par Hsound. eapply vote_sound; [exact H|exact Hj|]. apply Hsound.
Qed.

(** The option a direction of the guest stands for. *)
Lemma VoteOption_of_direction d :
  1 <= d <= 3 → ∃ opt, VoteOption_of d = Done opt ∧ opt ≠ OptNone.
Proof.
  intros Hd. assert (d = 1 ∨ d = 2 ∨ d = 3) as [->|[->| ->]] by lia; by eexists.
Qed.

Lemma increase_tally_small opt power t :
  (∀ o, tally_of o t + power < 2 ^ 256) → ∃ t', increase_tally opt power t = Done t'.
Proof.
  intros Ht. specialize (Ht opt). destruct opt; simpl in *; [by eexists|..];
    unfold checked_add; rewrite (proj2 (Z.ltb_lt _ _)) by done; by eexists.
Qed.

(** A well-typed journal with a direction of the guest is counted. *)
Lemma journal_counts msg j seal s :
  voting_journal_wf j → 1 <= vj_direction j <= 3 →
  let p := proposal_at s (vj_proposal_id j) in
  let par := pr_parameters p in
  vj_config_contract j = msg_this msg →
  com_digest (vj_commitment j) = pp_snapshotBlockHash par →
  com_id (vj_commitment j) mod 2 ^ 240 = pp_snapshotBlock par →
  verify_at (pp_verifier par) seal (pp_votingProtocolImageId par)
    (sha256 (abi_encode_voting j)) = Done tt →
  getVoteOption s (vj_proposal_id j) (vj_voter j) = OptNone →
  (∀ o, tally_of o (pr_tally p) + vj_balance j < 2 ^ 256) →
  ∃ s' opt, vote msg (abi_encode_voting j) seal s = Done s' ∧
    VoteOption_of (vj_direction j) = Done opt ∧
    opt ≠ OptNone ∧ getVoteOption s' (vj_proposal_id j) (vj_voter j) = opt ∧
    (∀ o, o ≠ OptNone → tally_of o (pr_tally (proposal_at s' (vj_proposal_id j))) =
       tally_of o (pr_tally p) + weigh o (opt, vj_balance j)) ∧
    pl_log s' = pl_log s ++ [VoteCast (vj_proposal_id j) (vj_voter j) opt (vj_balance j)].
Proof.
  intros Hwf Hdir. cbv zeta. intros Hthis Hdig Hnum Hver Hno Htally.
  pose proof (decode_encode_journal j [] Hwf) as Hdec. rewrite app_nil_r in Hdec.
  destruct (VoteOption_of_direction (vj_direction j) Hdir) as (opt & Hopt & Hne).
  destruct (increase_tally_small opt (vj_balance j) _ Htally) as [t' Ht'].
  assert (∃ s', vote msg (abi_encode_voting j) seal s = Done s' ∧
    pl_log s' = pl_log s ++ [VoteCast (vj_proposal_id j) (vj_voter j) opt (vj_balance j)])
    as (s' & Hv & Hlog).
  { eexists. split; [|shelve]. apply vote_Done. unfold getVoteOption in Hno.
    exists j, opt, (pr_tally (proposal_at s (vj_proposal_id j))), t'.
    cbv zeta. rewrite Hno.
    split_and!; try done. by apply check_proof_Done. Unshelve. done. }
  exists s', opt. destruct (vote_tally _ _ _ _ _ Hv) as (j' & opt' & Hj' & Ho' & Hg & Ht).
  assert (j' = j ∧ opt' = opt) as [-> ->] by (split; congruence).
  split_and!; try done. intros o Ho. rewrite (Ht o Ho), Hno. unfold weigh at 1. simpl.
  rewrite bool_decide_eq_false_2 by done. lia.
Qed.
(** C5: What the voting program commits, the plugin counts.  For a proposal
    whose snapshot is the block of the program's input, a journal it committed
    for this plugin, with a seal that the proposal's verifier accepts, is
    accepted from a voter who has not voted, as long as the tally does not
    overflow: the vote is recorded, its option gains exactly the balance, the
    other options keep theirs, and the event is logged. *)
Theorem committed_vote_counts msg stdin jb seal s :
  run_guest voting_main stdin = Ret jb →
  ∃ i j, voting_statement i = Ret j ∧ decode_journal jb = Done j ∧
    let p := proposal_at s (vj_proposal_id j) in
    let par := pr_parameters p in
    (vj_config_contract j = msg_this msg →
     com_digest (vj_commitment j) = pp_snapshotBlockHash par →
     com_id (vj_commitment j) mod 2 ^ 240 = pp_snapshotBlock par →
     verify_at (pp_verifier par) seal (pp_votingProtocolImageId par) (sha256 jb) = Done tt →
     getVoteOption s (vj_proposal_id j) (vj_voter j) = OptNone →
     (∀ o, tally_of o (pr_tally p) + vj_balance j < 2 ^ 256) →
     ∃ s' opt, vote msg jb seal s = Done s' ∧ VoteOption_of (vj_direction j) = Done opt ∧
       opt ≠ OptNone ∧ getVoteOption s' (vj_proposal_id j) (vj_voter j) = opt ∧
       (∀ o, o ≠ OptNone → tally_of o (pr_tally (proposal_at s' (vj_proposal_id j))) =
          tally_of o (pr_tally p) + weigh o (opt, vj_balance j)) ∧
       pl_log s' = pl_log s ++ [VoteCast (vj_proposal_id j) (vj_voter j) opt (vj_balance j)]).
Proof.
  intros (i & j & Hst & Hwf & ->)%guest_journal. exists i, j. split; [done|].
  split; [rewrite <-(app_nil_r (abi_encode_voting j)); by apply decode_encode_journal|].
  intros p par. apply journal_counts; [done|].
  by apply voting_statement_Ret in Hst as (_ & ? & ? & ? & (_ & _ & _ & Hdir & _) & ->).
Qed.
End Accepted.

(** ** Proposals and their snapshots *)

Section History.
Context {alloy : AlloyText} {keccak : KeccakV256} {k256 : K256} {steel : Steel}
  {serde : ZkvmSerde} {hex : HexCrate} {json : SerdeConfig} {abi : VotingJournalAbi}.
Context {osx : Osx} {verifiers : Verifiers} {sha : Sha256}.
Context {typed : GuestTyped serde} {abi_ok : VotingAbiOk abi}.
Context {osx_ok : OsxOk osx} {verifiers_ok : VerifiersOk verifiers}.

Lemma step_count s o s' : step s o s' → osx_count (pl_osx s) <= osx_count (pl_osx s').
Proof.
  intros H. destruct H as [dao st s' Hst H|msg st s' Hst H|msg metadata acts afm start end_ id s'
    Hm Hs He H|msg data seal j s' Hj H|msg data seal id s' H].
  - unfold initialize in H. evm_inv. apply update_settings_Done in H as [_ ->]. simpl.
    match goal with Hi : osx_initialize _ _ = Done _ |- _ => apply osx_initialize_count in Hi end. lia.
  - unfold updateVotingSettings in H. evm_inv. apply update_settings_Done in H as [_ ->]. simpl. lia.
  - apply create_Done in H as (start' & end' & _ & _ & _ & _ & ->). simpl.
    destruct (osx_create_count (msg_sender msg) metadata start' end' acts afm (pl_osx s)). lia.
  - apply vote_Done in H as (j' & opt & t1 & t2 & _ & _ & _ & _ & _ & _ & ->). simpl. lia.
  - apply execute_begin_Done in H as (j & _ & _ & _ & _ & _ & ->). simpl. lia.
Qed.

Lemma steps_count s os s' : steps s os s' → osx_count (pl_osx s) <= osx_count (pl_osx s').
Proof. induction 1 as [|s o s' os s'' Ho _ IH]; [lia|]. apply step_count in Ho. lia. Qed.

(** Before a proposal is created its configuration is the empty string. *)
Lemma config_before_creation s id :
  plugin_wf s → osx_count (pl_osx s) <= id → votingProtocolConfig s id = "".
Proof.
  intros (_ & _ & Hps) Hid. unfold votingProtocolConfig, proposal_at, mapping_get.
  destruct (pl_proposals s !! id) as [p|] eqn:Hp; [|done]. apply Hps in Hp. lia.
Qed.

(** The plugin at address [this] in the blocks of the chain, by block hash.
    Steel shows a guest the state of the block it commits to. *)
Variable this : Address.
Variable state_at : bytes32 → option Plugin.
Definition steel_shows_plugin : Prop := ∀ input env s id text,
  into_env input = Ret env → state_at (com_digest (genv_commitment env)) = Some s →
  genv_view env this (CallConfig {| cc_proposal_id := id |}) = Some text →
  text = votingProtocolConfig s id.

(** C3: No vote can be proved for any proposal.  The guest reads the
    proposal's configuration in the snapshot block, which is the block before
    the one that created the proposal; there the plugin answers with the empty
    string, which is not a configuration, so that every run for that block
    panics.  A vote the plugin accepts for a proposal, at any later time, has
    a journal that collides with another one under SHA-256. *)
Theorem no_vote_provable s0 os s1 msg metadata acts afm start end_ id s2 os' s3
    msg' data seal s4 j :
  steel_shows_plugin → config_from_str "" = None →
  reachable s0 → steps s0 os s1 →
  msg_typed msg → 0 <= start < 2 ^ 64 → 0 <= end_ < 2 ^ 64 →
  createProposal msg metadata acts afm start end_ s1 = Done (id, s2) →
  let par := pr_parameters (proposal_at s2 id) in
  state_at (pp_snapshotBlockHash par) = Some s0 →
  VerifierSound (pp_verifier par) (pp_votingProtocolImageId par) →
  steps s2 os' s3 →
  msg_this msg' = this → vote msg' data seal s3 = Done s4 →
  decode_journal data = Done j → vj_proposal_id j = id →
  sha_collision data.
Proof.
  intros Hsteel Hjson Hr0 Hs1 Hm Hs He Hcreate par Hat Hsound Hs3 Hthis Hvote Hj Hid.
  apply reachable_plugin_wf in Hr0. pose proof (steps_wf _ _ _ Hs1 Hr0) as Hwf1.
  destruct (create_wf _ _ _ _ _ _ _ _ _ Hm Hs He Hcreate Hwf1) as (Hcount & _ & Hwf2).
  apply create_Done in Hcreate as (start' & end' & _ & _ & _ & _ & Heq).
  assert (∃ p, pl_proposals s2 !! id = Some p) as [p Hp]
    by (rewrite Heq; eexists; apply lookup_insert_eq).
  destruct (steps_keep _ _ _ _ _ Hwf2 Hs3 Hp) as (p3 & Hp3 & Hpar & _).
  apply vote_Done in Hvote as (j' & opt & t1 & t2 & Hj' & Hc & Hproof & _).
  rewrite Hj in Hj'. injection Hj' as <-. rewrite Hid in Hproof.
  apply check_proof_Done in Hproof as (Hd & _ & Hv).
  unfold par in *. rewrite (proposal_at_Some _ _ _ Hp) in *.
  rewrite (proposal_at_Some _ _ _ Hp3), Hpar in *.
  destruct (verified_journal _ _ (Hsound _ _ Hv) Hj) as [?|[i Hi]]; [done|].
  apply voting_statement_Ret in Hi as (_ & env & cfg & ss & (He' & (text & Ht & Hcfg) & _) & ->).
  simpl in *. rewrite Hc, Hthis in Ht. rewrite <-Hd in Hat.
  rewrite (Hsteel _ _ _ _ _ He' Hat Ht), Hid, config_before_creation in Hcfg;
    [congruence|done|]. rewrite Hcount. by apply steps_count in Hs1.
Qed.
End History.

(** ** A concrete deployment *)

Module GovernanceFixture.
#[export] Existing Instances Fixture.alloy example_keccak example_k256 VotingFixture.steel
  HostFixture.serde VotingFixture.hex VotingFixture.json HostFixture.vabi.
#[export] Existing Instances PluginFixture.osx PluginFixture.sha PluginWitness.osx_ok.

(** Carol's vote of 35 for proposal 4. *)
Definition honest : VotingJournal :=
  mk_voting_journal Fixture.commitment Fixture.plugin 4 Fixture.carol 35 2.
Definition honest_stdin : list Z :=
  let i := VotingFixture.input_signed (VotingFixture.signature x01) 2 35 in
  ser SerEvmInput (vi_input i) ++ ser SerString (vi_signature i) ++ ser SerAddress (vi_voter i) ++
  ser SerAddress (vi_dao i) ++ ser SerU256 (vi_proposal_id i) ++ ser SerU8 (vi_direction i) ++
  ser SerU256 (vi_balance i) ++ ser SerAddress (vi_config_contract i) ++
  ser SerString (vi_additional_delegation_data i).

(** A verifier for that one digest. *)
Definition verifiers : Verifiers := {|
  verify_at a seal _ digest :=
    if bool_decide (a = PluginFixture.verifier)
       && bool_decide (digest = sha256 (abi_encode_voting honest)) then Done tt
    else Reverts RevertEmpty
|}.
#[export] Existing Instance verifiers.

Lemma verifiers_ok : VerifiersOk verifiers.
Proof. by intros seal imageId digest. Qed.
#[export] Existing Instance verifiers_ok.

Lemma guest_typed : GuestTyped HostFixture.serde.
Proof.
  split.
  - intros t [|n l] x rest; [done|]. simpl. destruct (n =? _); [|done].
    destruct t; simpl; try done; intros H; repeat case_match; simplify_eq.
    + unfold u256_wf. lia.
    + unfold u8_wf. lia.
    + unfold array3_wf, u256_wf. simpl in *. lia.
  - intros input env. simpl. case_match; [|done]. intros [= <-]. split; vm_compute; congruence.
Qed.
#[export] Existing Instance guest_typed.

Lemma abi_ok : VotingAbiOk HostFixture.vabi.
Proof. done. Qed.
#[export] Existing Instance abi_ok.

Lemma honest_run : ∃ jb, run_guest voting_main honest_stdin = Ret jb ∧ length jb = 256%nat.
Proof. eexists. split; vm_compute; reflexivity. Qed.

Lemma sound verifier imageId : VerifierSound verifier imageId.
Proof.
  intros seal digest. simpl. intros Hv. do 2 case_bool_decide; try done. subst digest.
  destruct honest_run as (jb & Hjb & Hl). exists honest_stdin, jb. split; [done|].
  unfold PluginFixture.sha. simpl. by rewrite Hl.
Qed.

Definition get {A} (zero : A) (m : evm A) : A := PluginFixture.get zero m.

(** A proposal 4 with the block of the chain as its snapshot. *)
Definition s_open : Plugin := put_proposal 4
  (mk_proposal false (mk_parameters Standard 0 0 5000 7 (com_digest Fixture.commitment) ""
     PluginFixture.verifier ZERO32 ZERO32) (mk_tally 0 0 0) ∅ [] 0) PluginFixture.s_init.
Definition s_voted : Plugin :=
  get s_open (vote (PluginFixture.msg_at 1000) (abi_encode_voting honest) [] s_open).

(** A proposal created in a block whose parent has another hash, and a journal
    for that hash with the digest of the honest one. *)
Definition msg : Msg := mk_msg Fixture.plugin Fixture.alice
  (mk_block 8 1000 (λ _, fixed_repeat 32 x99) (λ _, None)) (λ _, true).
Definition forged : VotingJournal :=
  mk_voting_journal (mk_commitment 7 (fixed_repeat 32 x99) ZERO32) Fixture.plugin 0 Fixture.dave 9 2.
Definition state_at (h : bytes32) : option Plugin :=
  if bool_decide (h = fixed_repeat 32 x99) then Some PluginFixture.s_init else None.
Definition s_new : Plugin :=
  snd (get (0, s_open) (createProposal msg [] [] 0 0 0 PluginFixture.s_init)).
Definition s_forged : Plugin := get s_open (vote msg (abi_encode_voting forged) [] s_new).

Lemma decode_encoded j : voting_journal_wf j → decode_journal (abi_encode_voting j) = Done j.
Proof.
  intros Hj. rewrite <-(app_nil_r (abi_encode_voting _)). by apply decode_encode_journal.
Qed.
End GovernanceFixture.

Section Witnesses.
Import GovernanceFixture.

Lemma accepted_vote_backed_witness :
  sha_collision (abi_encode_voting honest) ∨
  ∃ i env cfg sharess, vote_backed i env cfg sharess ∧ vi_balance i = 35.
Proof.
  destruct (accepted_vote_backed (PluginFixture.msg_at 1000) (abi_encode_voting honest) []
    s_open s_voted honest) as [H|(i & env & cfg & ss & Hb & _ & _ & _ & Hbal & _)].
  - vm_compute. reflexivity.
  - apply decode_encoded. split_and!; vm_compute; split; congruence.
  - apply sound.
  - left. exact H.
  - right. exists i, env, cfg, ss. split; [exact Hb|exact Hbal].
Defined.

Lemma committed_vote_counts_witness :
  ∃ s' jb, run_guest voting_main honest_stdin = Ret jb ∧
    vote (PluginFixture.msg_at 1000) jb [] s_open = Done s' ∧
    tl_yes (pr_tally (proposal_at s' 4)) = 35.
Proof.
  destruct (run_guest voting_main honest_stdin) as [jb|] eqn:Hrun;
    [|vm_compute in Hrun; discriminate Hrun].
  destruct (committed_vote_counts (PluginFixture.msg_at 1000) honest_stdin jb [] s_open Hrun)
    as (i & j & _ & Hj & Hcount).
  assert (jb = abi_encode_voting honest) as ->
    by (vm_compute in Hrun; injection Hrun as <-; vm_compute; reflexivity).
  rewrite (decode_encoded honest) in Hj by (split_and!; vm_compute; split; congruence).
  injection Hj as <-.
  destruct Hcount as (s' & opt & Hv & Ho & _ & _ & Ht & _);
    [reflexivity|reflexivity|reflexivity|vm_compute; reflexivity|vm_compute; reflexivity
    |intros []; vm_compute; reflexivity|].
  exists s', (abi_encode_voting honest). split; [reflexivity|]. split; [exact Hv|].
  injection Ho as <-. apply (Ht OptYes). discriminate.
Defined.

Lemma no_vote_provable_witness : sha_collision (abi_encode_voting forged).
Proof.
  apply (no_vote_provable Fixture.plugin state_at PluginFixture.s_init [] PluginFixture.s_init
    msg [] [] 0 0 0 0 s_new [] s_new msg (abi_encode_voting forged) [] s_forged forged).
  - intros input env s id text. simpl. case_match; [|done]. intros [= <-]. done.
  - reflexivity.
  - apply PluginWitness.s_init_reachable.
  - constructor.
  - unfold msg_typed. simpl. lia.
  - lia.
  - lia.
  - vm_compute. reflexivity.
  - vm_compute. reflexivity.
  - apply sound.
  - constructor.
  - reflexivity.
  - vm_compute. reflexivity.
  - apply decode_encoded. split_and!; vm_compute; split; congruence.
  - reflexivity.
Defined.
End Witnesses.
