(* ===== verification/Delivery.v ===== *)
(** * From the publisher to the plugin

    The transaction that the publisher sends, delivered to the plugin: with a
    prover that proves what the guest accepts, a vote that passes the test run
    of the publisher is counted. *)

From stdpp Require Import base gmap list strings.
From Stdlib Require Import ZArith Lia Strings.Byte.
From S2P Require Import Prelude Machine Ethereum VoteSignature Fixtures GuestVoting GuestDelegation.
From S2P Require Import GuestExecution GuestContext GuestIO VotingGuest ExecutionGuest Abi Seal.
From S2P Require Import HostStrategies Simulation Publisher HostFixture EndToEnd Solidity Steel.
From S2P Require Import Sha256 JournalDecode Plugin PluginFixture PluginCorrect Ballots Governance.
#[local] Open Scope Z_scope.

(** The call that a transaction makes at the plugin. *)
Definition deliver {osx : Osx} {verifiers : Verifiers} {sha : Sha256}
    (dao_execute : U256 → list Action → U256 → Plugin → evm Plugin) (msg : Msg)
    (tx : Transaction) (s : Plugin) : evm Plugin :=
  match tx_call tx with
  | call_vote journal seal => vote msg journal seal s
  | call_execute journal seal => execute dao_execute msg journal seal s
  end.

(** The same arguments with another [--testing]. *)
Definition with_testing (t : Z) (args : Args) : Args := {|
  arg_chain_id := arg_chain_id args;
  arg_eth_wallet_private_key := arg_eth_wallet_private_key args;
  arg_rpc_url := arg_rpc_url args;
  arg_block_number := arg_block_number args;
  arg_voter_signature := arg_voter_signature args;
  arg_voter := arg_voter args;
  arg_dao_address := arg_dao_address args;
  arg_proposal_id := arg_proposal_id args;
  arg_direction := arg_direction args;
  arg_balance := arg_balance args;
  arg_config_contract := arg_config_contract args;
  arg_token := arg_token args;
  arg_additional_delegation_data := arg_additional_delegation_data args;
  arg_testing := t
|}.

(** ** A run that does not stop at the test *)

Section Live.
Context {alloy : AlloyText} {steel : Steel} {serde : ZkvmSerde} {node : HostNode}.

(** A live run goes on where the test run stopped. *)
Lemma live_after_dry_run args w w' u n henv :
  arg_testing args = 1 → publisher_main args w = (Ret (Ok tt), w') →
  url_from_str (arg_rpc_url args) = Some u → arg_block_number args = Some n →
  build_env u n = Ok henv →
  publisher_main (with_testing 0 args) w =
  publisher_publish VOTING_PROTOCOL_ELF (publisher_stdin args) henv (arg_config_contract args)
    call_vote w'.
Proof.
  intros Ht Hmain Hu Hn He. unfold publisher_main, mbind, stateful_bind in *.
  cbn [with_testing arg_rpc_url arg_block_number arg_config_contract arg_proposal_id arg_voter
    arg_additional_delegation_data arg_balance arg_testing].
  destruct (publisher_setup _ _ _ _ w) as [[[[env cfg]|e]|p] w1] eqn:Hsetup; simpl in *; [|done..].
  apply publisher_setup_Ok in Hsetup as (u' & n' & s & Hu' & Hn' & He' & _).
  assert (env = henv) as -> by congruence.
  destruct (on_log _ _) as [[total|p] w2]; [|done]. unfold lift, rassert in *.
  destruct (total =? arg_balance args); [|done].
  rewrite (proj2 (Z.eqb_eq _ _) Ht) in Hmain. injection Hmain as <-. done.
Qed.

(** Without an input for the guest a run ends with the node's error. *)
Lemma publisher_publish_no_input elf stdin env contract call w e :
  into_input env (w_log w) = Err e →
  publisher_publish elf stdin env contract call w = (Ret (Err e), w).
Proof.
  intros Hin. unfold publisher_publish, mbind, stateful_bind, lift, try_, mret, stateful_ret.
  by rewrite Hin.
Qed.

(** What a run that proves and encodes its seal sends, and when it succeeds. *)
Lemma publisher_publish_proved elf stdin env contract call w input receipt seal :
  into_input env (w_log w) = Ok input → prove elf (stdin input) = Ok receipt →
  is_Some (voting_journal_abi_decode (receipt_journal receipt)) →
  encode_seal receipt = Ret (Ok seal) →
  let tx := {| tx_to := contract; tx_call := call (receipt_journal receipt) seal |} in
  let run := publisher_publish elf stdin env contract call w in
  w_sent run.2 = w_sent w ++ [tx] ∧
  (∀ h status, send_transaction tx = Ok h → get_receipt h = Ok status →
     run.1 = Ret (Ok tt) ↔ status = true).
Proof.
  intros Hin Hp [j Hj] Hs. cbv zeta.
  unfold publisher_publish, mbind, stateful_bind, lift, try_, mret, stateful_ret.
  rewrite Hin, Hp. simpl. rewrite Hj. simpl. rewrite Hs. simpl. split.
  - destruct (send_transaction _) as [h|e]; simpl; [|done].
    destruct (get_receipt h) as [[]|e]; done.
  - intros h status Hh Hr. rewrite Hh. simpl. rewrite Hr. by destruct status.
Qed.
End Live.

(** ** What the parts promise *)

Section Delivery.
Context {alloy : AlloyText} {keccak : KeccakV256} {k256 : K256} {steel : Steel}
  {serde : ZkvmSerde} {hex : HexCrate} {json : SerdeConfig} {abi : VotingJournalAbi}
  {node : HostNode}.
Context {osx : Osx} {verifiers : Verifiers} {sha : Sha256}.

(** The prover proves every accepted run of the voting program, in a receipt
    whose encoded seal the verifier accepts for the program's image. *)
Class ProverComplete (verifier : Address) (imageId : bytes32) : Prop :=
  prove_complete stdin jb : run_guest voting_main stdin = Ret jb →
    ∃ receipt seal, prove VOTING_PROTOCOL_ELF stdin = Ok receipt ∧
      receipt_journal receipt = jb ∧ encode_seal receipt = Ret (Ok seal) ∧
      verify_at verifier seal imageId (sha256 jb) = Done tt.

(** [alloy] decodes what the ABI prescribes. *)
Class VotingAbiDecodes : Prop :=
  voting_abi_decodes j : voting_journal_wf j →
    is_Some (voting_journal_abi_decode (abi_encode_voting j)).

(** Environments are of the block asked for, and guests commit to the number
    and the hash of their block. *)
Class BlockCommitted (block_hash : Z → bytes32) : Prop := {
  build_env_number u n henv : build_env u n = Ok henv → henv_number henv = n;
  commitment_block input genv : into_env input = Ret genv →
    com_id (genv_commitment genv) mod 2 ^ 240 = genv_number genv ∧
    com_digest (genv_commitment genv) = block_hash (genv_number genv)
}.

(** A journal about another block than the proposal's snapshot is refused. *)
Lemma other_block_refused msg j seal s :
  voting_journal_wf j → vj_config_contract j = msg_this msg →
  let par := pr_parameters (proposal_at s (vj_proposal_id j)) in
  pp_snapshotBlock par ≠ com_id (vj_commitment j) mod 2 ^ 240 ∨
  pp_snapshotBlockHash par ≠ com_digest (vj_commitment j) →
  vote msg (abi_encode_voting j) seal s = Reverts (RevertReason "Invalid commitment").
Proof.
  intros Hwf Hthis par Hother. pose proof (decode_encode_journal j [] Hwf) as Hdec.
  rewrite app_nil_r in Hdec. unfold vote. rewrite Hdec. cbn [mbind evm_bind].
  rewrite bool_decide_eq_true_2 by done. cbn [require mbind evm_bind].
  unfold check_proof. fold par. rewrite decode_arith.
  case_bool_decide as Hd; [|done]. cbn [require mbind evm_bind].
  destruct (Z.eqb_spec (com_id (vj_commitment j) mod 2 ^ 240) (pp_snapshotBlock par)); [|done].
  destruct Hother; congruence.
Qed.

(** The guest's journal for a vote that passed the test run. *)
Lemma dry_run_journal {ok : ZkvmSerdeOk serde} {steel_ok : SteelOk node} {same : SameConfig node}
    {typed : GuestTyped serde} {abi_ok : VotingAbiOk abi} {block_hash}
    {blocks : BlockCommitted block_hash} args w w' u n henv input signer :
  args_wf args → arg_testing args = 1 → publisher_main args w = (Ret (Ok tt), w') →
  url_from_str (arg_rpc_url args) = Some u → arg_block_number args = Some n →
  build_env u n = Ok henv →
  (∀ s cfg, henv_view henv (arg_config_contract args)
       (CallConfig {| cc_proposal_id := arg_proposal_id args |}) = Some s →
     config_from_str s = Some cfg →
     Forall (λ a, asset_voting_power_strategy a ≠ "GetPastVotes") (cfg_assets cfg)) →
  into_input henv (w_log w') = Ok input →
  signature_address (voting_input_of args input) = Ret signer →
  1 <= arg_direction args <= 3 → 0 < arg_balance args →
  ∃ commitment, voting_journal_wf (journal_of args commitment) ∧
    com_id commitment mod 2 ^ 240 = n ∧ com_digest commitment = block_hash n ∧
    run_guest voting_main (publisher_stdin args input) =
      Ret (abi_encode_voting (journal_of args commitment)).
Proof.
  intros Hwf Ht Hmain Hu Hn He Hvotes Hin Hsig Hdir Hpos.
  apply publisher_dry_run in Hmain
    as (env & cfg & s & log & Hs & Hc & (u' & n' & Hu' & Hn' & He') & Htotal & Hlog & _); [|done].
  assert (env = henv) as -> by congruence. rewrite same_config in Hc. rewrite Hlog in Hin.
  destruct (into_input_env _ _ _ Hin) as (genv & Hgenv & Hrep & Hnum).
  apply build_env_number in He as Hnum'. destruct (commitment_block _ _ Hgenv) as [Hid Hdig].
  exists (genv_commitment genv). apply into_env_typed in Hgenv as Hty. split_and!.
  - destruct Hwf as (? & ? & ?). by split_and!.
  - congruence.
  - congruence.
  - rewrite run_publisher_stdin by done. erewrite voting_statement_preflight; eauto.
    + simpl. by rewrite voting_abi_standard.
    + eapply Forall_impl; [exact (Hvotes _ _ Hs Hc)|]. intros a Ha. by left.
Qed.
End Delivery.

(** ** A deployment with a prover whose seals verify *)

Module DeliveryFixture.
#[export] Existing Instances Fixture.alloy example_keccak example_k256 VotingFixture.steel
  HostFixture.serde HostFixture.serde_ok VotingFixture.hex VotingFixture.json HostFixture.vabi
  HostFixture.node fixture_steel_ok fixture_same_config.
#[export] Existing Instances PluginFixture.osx PluginFixture.sha GovernanceFixture.guest_typed
  GovernanceFixture.abi_ok.

(** Accepts the seals of this prover. *)
Definition verifiers : Verifiers := {|
  verify_at a seal _ _ :=
    if bool_decide (a = PluginFixture.verifier)
       && bool_decide (seal = replicate 4 x00 ++ replicate 32 x99) then Done tt
    else Reverts RevertEmpty
|}.
#[export] Existing Instance verifiers.

Lemma prover_complete imageId : ProverComplete PluginFixture.verifier imageId.
Proof.
  intros stdin jb Hrun. exists (mk_receipt (Fake (fixed_repeat 32 x99)) jb),
    (replicate 4 x00 ++ replicate 32 x99).
  split; [|split; [done|split; [reflexivity|reflexivity]]].
  cbn [prove HostFixture.node HostFixture.run]. by rewrite Hrun.
Qed.

Lemma abi_decodes : VotingAbiDecodes.
Proof. intros j Hj. exists j. by apply abi_decode_encode_voting. Qed.

Lemma blocks : BlockCommitted (λ _, com_digest Fixture.commitment).
Proof.
  split.
  - intros u n henv. cbn [build_env HostFixture.node]. destruct (Z.eqb_spec n Fixture.block_number);
      [|done]. by intros [= <-].
  - intros input genv. simpl. destruct (input =? 0); [|done]. by intros [= <-].
Qed.
#[export] Existing Instances prover_complete abi_decodes blocks.
End DeliveryFixture.

(** ** Properties *)


Section Witnesses.
Import DeliveryFixture.

End Witnesses.
