(* ===== verification/Calldata.v ===== *)
(** * Calls of the plugin as bytes

    What a program calls is a sequence of bytes: the selector of a function
    and the ABI encoding of its arguments.  The contract's entry point picks
    the function with that selector and decodes the arguments, with the checks
    that Solidity compiles in.  The publishers' transactions and the guests'
    view calls reach the functions that [Plugin] models. *)

From stdpp Require Import base gmap list strings pretty.
From Stdlib Require Import ZArith Lia Strings.Byte.
From S2P Require Import Prelude Machine Ethereum VoteSignature Keccak Fixtures GuestExecution.
From S2P Require Import VotingGuest ExecutionGuest Abi AbiSpec Seal HostStrategies Publisher Solidity.
From S2P Require Import Steel Sha256 JournalDecode Plugin PluginFixture PluginCorrect PluginSetup.
From S2P Require Import Deploy Interfaces Governance Delivery.
#[local] Open Scope Z_scope.

(** ** Decoding arguments *)

(** A [bytes calldata] argument whose offset is the [i]-th word. *)
Definition calldata_bytes (args : list byte) (i : nat) : evm (list byte) :=
  let size := Z.of_nat (length args) in
  let offset := word_at args (32 * Z.of_nat i) in
  _ ← revert_if (2 ^ 64 - 1 <? offset) RevertEmpty;
  _ ← revert_if (size <=? offset + 31) RevertEmpty;
  let len := word_at args offset in
  _ ← revert_if (2 ^ 64 - 1 <? len) RevertEmpty;
  _ ← revert_if (size <? offset + 32 + len) RevertEmpty;
  Done (take (Z.to_nat len) (drop (Z.to_nat (offset + 32)) args)).

Definition two_bytes (args : list byte) : evm (list byte * list byte) :=
  _ ← abi_head args 2;
  a ← calldata_bytes args 0;
  b ← calldata_bytes args 1;
  Done (a, b).

(** The string that a call returned. *)
Definition returned_string (output : list byte) : evm string :=
  _ ← abi_head output 1;
  let offset := word_at output 0 in
  _ ← revert_if (2 ^ 64 - 1 <? offset) RevertEmpty;
  string_at output offset.

(** ** The entry point *)

Section Entry.
Context {osx : Osx} {keccak : KeccakV256} {verifiers : Verifiers} {sha : Sha256}.
Context (dao_execute : Z → list Action → Z → Plugin → evm Plugin).
(** The other functions of the contract, given their arguments. *)
Context (other : SolFn → list byte → Msg → Plugin → evm (Plugin * list byte)).

(** The function that the first four bytes select. *)
Definition selected (data : list byte) : option SolFn :=
  if decide (length data < 4)%nat then None
  else find (λ f, bool_decide (selector f = take 4 data)) plugin_functions.

(** A call: the new state and the output.  There is no fallback. *)
Definition call_plugin (msg : Msg) (data : list byte) (s : Plugin) : evm (Plugin * list byte) :=
  let args := drop 4 data in
  match selected data with
  | None => Reverts RevertEmpty
  | Some f =>
      if String.eqb (signature f) (signature vote_fn) then
        ab ← two_bytes args; s' ← vote msg ab.1 ab.2 s; Done (s', [])
      else if String.eqb (signature f) (signature execute_fn) then
        ab ← two_bytes args; s' ← execute dao_execute msg ab.1 ab.2 s; Done (s', [])
      else if String.eqb (signature f) (signature config_fn) then
        _ ← abi_head args 1;
        Done (s, abi_encode SString (AString (votingProtocolConfig s (word_at args 0))))
      else other f args msg s
  end.

(** The calldata of a transaction of the publishers. *)
Definition tx_calldata (call : PluginCall) : list byte :=
  match call with
  | call_vote journal seal => calldata vote_fn [ABytes journal; ABytes seal]
  | call_execute journal seal => calldata execute_fn [ABytes journal; ABytes seal]
  end.
End Entry.

(** ** Words in the middle *)

Lemma word_at_mid pre z post pos :
  pos = Z.of_nat (length pre) → u256_wf z → word_at (pre ++ abi_uint z ++ post) pos = z.
Proof.
  intros -> Hz. unfold word_at. rewrite Nat2Z.id, drop_app_length.
  rewrite take_app_length' by (by rewrite length_abi_uint). by apply be_value_abi_uint.
Qed.

(** An encoded byte string is read back where its offset points. *)
Lemma calldata_bytes_mid args i pre l post :
  args = pre ++ enc_bytes l ++ post →
  word_at args (32 * Z.of_nat i) = Z.of_nat (length pre) →
  Z.of_nat (length args) < 2 ^ 64 →
  calldata_bytes args i = Done l.
Proof.
  intros Hargs Hoff Hsize. unfold calldata_bytes. rewrite Hoff.
  assert (length args = length pre + (32 + (length l + length (padding l)) + length post))%nat as Hl.
  { rewrite Hargs. unfold enc_bytes. by rewrite !length_app, length_abi_uint. }
  assert (word_at args (Z.of_nat (length pre)) = Z.of_nat (length l)) as Hlen.
  { rewrite Hargs. unfold enc_bytes. rewrite <-!app_assoc. apply word_at_mid; [done|].
    unfold u256_wf, U256_MOD. lia. }
  cbv zeta. rewrite Hlen. unfold revert_if.
  rewrite (proj2 (Z.ltb_ge _ _)) by lia. rewrite (proj2 (Z.leb_gt _ _)) by lia.
  cbn [mbind evm_bind]. do 2 rewrite (proj2 (Z.ltb_ge _ _)) by lia. cbn [mbind evm_bind].
  rewrite Nat2Z.id, Hargs. unfold enc_bytes.
  replace (Z.to_nat (Z.of_nat (length pre) + 32)) with (length (pre ++ abi_uint (Z.of_nat (length l))))
    by (rewrite length_app, length_abi_uint; lia).
  rewrite <-!app_assoc. rewrite (app_assoc pre), drop_app_length, take_app_length. done.
Qed.

Lemma two_bytes_params a b :
  abi_encode_params [SBytes; SBytes] [ABytes a; ABytes b] =
  (abi_uint 64 ++ abi_uint (64 + Z.of_nat (length (enc_bytes a)))) ++ enc_bytes a ++ enc_bytes b.
Proof.
  unfold abi_encode_params. rewrite enc_tuple. cbn [zip_with dynamic enc].
  unfold enc_parts, head_size, tails. cbn [heads fmap list_fmap fst snd concat].
  change (zsum [32; 32]) with 64. by rewrite !app_nil_r.
Qed.

Lemma length_enc_bytes l : (length (enc_bytes l) ≤ 64 + length l)%nat.
Proof.
  unfold enc_bytes, padding. rewrite !length_app, length_abi_uint, length_replicate.
  pose proof (Nat.mod_upper_bound (32 - length l mod 32) 32 ltac:(lia)). lia.
Qed.

Lemma two_bytes_encoded a b :
  Z.of_nat (length a + length b) < 2 ^ 63 →
  two_bytes (abi_encode_params [SBytes; SBytes] [ABytes a; ABytes b]) = Done (a, b).
Proof.
  intros Hab. pose proof (length_enc_bytes a) as Ha. pose proof (length_enc_bytes b) as Hb.
  set (args := abi_encode_params _ _). pose proof (two_bytes_params a b) as Hargs. fold args in Hargs.
  assert (length args = 64 + (length (enc_bytes a) + length (enc_bytes b)))%nat as Hsize.
  { rewrite Hargs. by rewrite !length_app, !length_abi_uint. }
  clearbody args. unfold two_bytes, abi_head. rewrite decide_True by lia. cbn [mbind evm_bind].
  rewrite (calldata_bytes_mid args 0 (abi_uint 64 ++ abi_uint (64 + Z.of_nat (length (enc_bytes a)))) a
    (enc_bytes b)); [|done| |lia].
  2: { rewrite Hargs, <-!app_assoc, length_app, !length_abi_uint.
       by apply (word_at_mid [] 64). }
  cbn [mbind evm_bind].
  rewrite (calldata_bytes_mid args 1 ((abi_uint 64 ++ abi_uint (64 + Z.of_nat (length (enc_bytes a))))
    ++ enc_bytes a) b []); [done| | |lia].
  - by rewrite Hargs, app_nil_r, <-!app_assoc.
  - rewrite Hargs, !length_app, !length_abi_uint, <-!app_assoc.
    rewrite (word_at_mid (abi_uint 64)); [lia|by rewrite length_abi_uint|].
    unfold u256_wf, U256_MOD. lia.
Qed.

(** So is an encoded string. *)
Lemma string_at_mid data pos pre t post :
  data = pre ++ enc_bytes (String.list_byte_of_string t) ++ post →
  pos = Z.of_nat (length pre) → Z.of_nat (length data) < 2 ^ 64 →
  string_at data pos = Done t.
Proof.
  intros Hdata -> Hsize. set (l := String.list_byte_of_string t) in *.
  assert (length data = length pre + (32 + (length l + length (padding l)) + length post))%nat as Hl.
  { rewrite Hdata. unfold enc_bytes. by rewrite !length_app, length_abi_uint. }
  assert (word_at data (Z.of_nat (length pre)) = Z.of_nat (length l)) as Hlen.
  { rewrite Hdata. unfold enc_bytes. rewrite <-!app_assoc. apply word_at_mid; [done|].
    unfold u256_wf, U256_MOD. lia. }
  unfold string_at. cbv zeta. rewrite Hlen. unfold revert_if.
  rewrite (proj2 (Z.leb_gt _ _)) by lia. cbn [mbind evm_bind].
  do 2 rewrite (proj2 (Z.ltb_ge _ _)) by lia. cbn [mbind evm_bind]. rewrite Nat2Z.id, Hdata.
  unfold enc_bytes. replace (Z.to_nat (Z.of_nat (length pre) + 32))
    with (length (pre ++ abi_uint (Z.of_nat (length l)))) by (rewrite length_app, length_abi_uint; lia).
  rewrite <-!app_assoc, (app_assoc pre), drop_app_length, take_app_length. unfold l.
  by rewrite String.string_of_list_byte_of_string.
Qed.

(** The text of a configuration comes back from the call. *)
Lemma returned_string_encoded t :
  Z.of_nat (length (String.list_byte_of_string t)) < 2 ^ 63 →
  returned_string (abi_encode SString (AString t)) = Done t.
Proof.
  intros Ht. set (l := String.list_byte_of_string t) in *. pose proof (length_enc_bytes l) as Hl.
  assert (abi_encode SString (AString t) = abi_uint 32 ++ enc_bytes l) as ->.
  { unfold abi_encode. rewrite enc_tuple. cbn [zip_with dynamic enc]. fold l.
    unfold enc_parts, head_size, tails. cbn [heads fmap list_fmap fst snd concat].
    change (zsum [32]) with 32. by rewrite !app_nil_r. }
  unfold returned_string, abi_head. rewrite decide_True
    by (rewrite length_app, length_abi_uint; lia). cbn [mbind evm_bind]. cbv zeta.
  assert (word_at (abi_uint 32 ++ enc_bytes l) 0 = 32) as -> by (by apply (word_at_mid [] 32)).
  change (revert_if (2 ^ 64 - 1 <? 32) RevertEmpty) with (Done tt). cbn [mbind evm_bind].
  apply (string_at_mid _ _ (abi_uint 32) t []); [by rewrite app_nil_r|by rewrite length_abi_uint|].
  rewrite length_app, length_abi_uint. lia.
Qed.

(** ** Properties *)

Section Dispatch.
Context {osx : Osx} {keccak : KeccakV256} {verifiers : Verifiers} {sha : Sha256}.
Context (dao_execute : Z → list Action → Z → Plugin → evm Plugin).
Context (other : SolFn → list byte → Msg → Plugin → evm (Plugin * list byte)).

(** The calldata of a function of the plugin selects it. *)
Lemma selected_calldata f vs :
  NoDup (selector <$> plugin_functions) → f ∈ plugin_functions →
  selected (calldata f vs) = Some f ∧
  drop 4 (calldata f vs) = abi_encode_params (fn_inputs f) vs.
Proof.
  intros Hn Hf. pose proof (length_fn_selector f) as Hl. unfold selected, calldata.
  rewrite decide_False by (rewrite length_app, Hl; lia).
  rewrite (take_app_length' _ _ 4) by done. rewrite drop_app_length' by done.
  split; [|done]. by apply find_NoDup.
Qed.

(** C18: a transaction of the publishers, as the bytes that they send, makes the
    plugin run the call that they mean with the journal and the seal that they
    pass; and the bytes with which the guest and the host ask for the
    configuration of a proposal are answered with its text, which they read
    back. *)
Theorem calldata_delivers msg tx s f id :
  NoDup (selector <$> plugin_functions) →
  match tx_call tx with
  | call_vote journal seal | call_execute journal seal =>
      Z.of_nat (length journal + length seal) < 2 ^ 63
  end →
  f ∈ voting_ConfigContract ++ execution_ConfigContract ++ publisher_ConfigContract ++
      execution_publisher_ConfigContract →
  u256_wf id →
  Z.of_nat (length (String.list_byte_of_string (votingProtocolConfig s id))) < 2 ^ 63 →
  call_plugin dao_execute other msg (tx_calldata (tx_call tx)) s =
    (s' ← deliver dao_execute msg tx s; Done (s', [])) ∧
  ∃ output, call_plugin dao_execute other msg (calldata f [AUint id]) s = Done (s, output) ∧
    returned_string output = Done (votingProtocolConfig s id).
Proof.
  intros Hn Htx Hf Hid Htext. split.
  - unfold call_plugin, deliver. destruct (tx_call tx) as [journal seal|journal seal]; cbn [tx_calldata].
    + destruct (selected_calldata vote_fn [ABytes journal; ABytes seal] Hn) as [-> ->];
        [unfold plugin_functions, IMajorityVoting; set_solver|].
      cbn [fn_inputs vote_fn]. by rewrite two_bytes_encoded.
    + destruct (selected_calldata execute_fn [ABytes journal; ABytes seal] Hn) as [-> ->];
        [unfold plugin_functions, IMajorityVoting; set_solver|].
      cbn [fn_inputs execute_fn]. by rewrite two_bytes_encoded.
  - assert (f = config_fn) as -> by (unfold voting_ConfigContract, execution_ConfigContract,
      publisher_ConfigContract, execution_publisher_ConfigContract in Hf; set_solver).
    exists (abi_encode SString (AString (votingProtocolConfig s id))).
    split; [|by apply returned_string_encoded]. unfold call_plugin.
    destruct (selected_calldata config_fn [AUint id] Hn) as [-> ->];
      [unfold plugin_functions; set_solver|].
    assert (abi_encode_params (fn_inputs config_fn) [AUint id] = abi_uint id) as ->.
    { unfold abi_encode_params. rewrite enc_tuple, enc_parts_static by repeat constructor.
      apply app_nil_r. }
    unfold abi_head. rewrite decide_True by (rewrite length_abi_uint; lia). cbn [mbind evm_bind].
    rewrite <-(app_nil_r (abi_uint id)), (word_at_mid [] id []) by done. reflexivity.
Qed.
End Dispatch.

Section Witnesses.
Import GovernanceFixture.
#[local] Existing Instance fips_keccak.

(** The honest vote of [Governance] as bytes. *)
Lemma calldata_delivers_witness :
  let tx := mk_tx Fixture.plugin (call_vote (abi_encode_voting honest) []) in
  ∃ s', call_plugin (keccak:=fips_keccak) (λ _ _ _ s, Done s) (λ _ _ _ _, Reverts RevertEmpty)
      (PluginFixture.msg_at 1000) (tx_calldata (keccak:=fips_keccak) (tx_call tx)) s_open
      = Done (s', []) ∧ tl_yes (pr_tally (proposal_at s' 4)) = 35.
Proof.
  intros tx.
  destruct (calldata_delivers (keccak:=fips_keccak) (λ _ _ _ s, Done s)
    (λ _ _ _ _, Reverts RevertEmpty) (PluginFixture.msg_at 1000) tx s_open config_fn 4) as [-> _].
  - apply (bool_decide_unpack _), Is_true_true_2, plugin_selectors_distinct.
  - vm_compute. reflexivity.
  - unfold voting_ConfigContract. left.
  - split; [discriminate|reflexivity].
  - vm_compute. reflexivity.
  - exists s_voted. split; [|vm_compute; reflexivity].
    assert (deliver (λ _ _ _ s, Done s) (PluginFixture.msg_at 1000) tx s_open = Done s_voted) as ->
      by (vm_compute; reflexivity). reflexivity.
Defined.
End Witnesses.
