(* ===== verification/Integration.v ===== *)
(** * The integration test ([tests/tests/integration_tests.rs])

    The test declares its own copy of the plugin's settings, encodes it, has
    the DAO factory install the plugin with it, finds the plugin in the logs,
    and creates a proposal.  The setup contract of [PluginSetup] reads the
    settings with the contract's declaration, which has three more fields. *)

From stdpp Require Import base gmap list strings pretty.
From Stdlib Require Import ZArith Lia Strings.Byte.
From S2P Require Import Prelude Machine Ethereum VoteSignature Fixtures Abi AbiSpec Json ConfigJson.
From S2P Require Import Solidity Steel Sha256 JournalDecode Plugin PluginFixture PluginCorrect.
From S2P Require Import ByteOrder PluginSetup Deploy Calldata.
#[local] Open Scope Z_scope.

(** ** What the test encodes *)

(** [struct VotingSettings] of the test: no verifier and no image ids. *)
Definition test_VotingSettings : SolTy :=
  STuple [SUint 8; SUint 32; SUint 32; SUint 64; SUint 256; SString].
Definition test_PluginSettingsData : list SolTy := [test_VotingSettings; SAddress; SAddress].

Definition voting_protocol_config : string :=
  file_text "{`votingProtocolVersion`:`1`,`assets`:[{`contract`:`0x185Bb1cca668C474214e934028A3e4BB7A5E6525`,`chainId`:11155111,`votingPowerStrategy`:`BalanceOf`,`delegation`:{`contract`:`0x32Bb2dB7826cf342743fe80832Fe4DF725879C2D`,`strategy`:`SplitDelegation`}}],`executionStrategy`:`MajorityVoting`}".
Definition test_token : Address := mk_fixed
  (be_bytes 20 0x185Bb1cca668C474214e934028A3e4BB7A5E6525) (length_be_bytes 20 _).

Definition test_voting_settings (config : string) : SolVal :=
  ATuple [AUint 0; AUint 20; AUint 10; AUint 3600; AUint 0; AString config].
Definition plugin_settings_data (config : string) (verifier : Address) : list byte :=
  abi_encode_params test_PluginSettingsData
    [test_voting_settings config; AAddress test_token; AAddress verifier].
Definition encoded_plugin_settings_data (verifier : Address) : list byte :=
  plugin_settings_data voting_protocol_config verifier.

(** ** The plugin in the logs *)

Section Logs.
Context {keccak : KeccakV256}.

(** Lines 222 to 236: [topic0] is unwrapped and [topics()[2]] indexed; the
    last installation wins. *)
Fixpoint installed_plugin (logs : list Log) (plugin_address : Address) : outcome Address :=
  match logs with
  | [] => Ret plugin_address
  | log :: logs =>
      first_log ← unwrap (head (log_topics log));
      if bool_decide (INSTALLATION_APPLIED = first_log) then
        t2 ← index (log_topics log) 2;
        tail ← slice 12 32 (fb_bytes t2);
        a ← unwrap (fixed_try_from tail);
        installed_plugin logs a
      else installed_plugin logs plugin_address
  end.
End Logs.

(** ** The bytes *)

Lemma be_bytes_app m n z :
  0 <= z → be_bytes (m + n) z = be_bytes m (z / 256 ^ Z.of_nat n) ++ be_bytes n z.
Proof.
  intros Hz. induction m as [|m IH]; [done|]. cbn [Nat.add be_bytes app]. f_equal; [|done].
  rewrite Z.div_div by lia. rewrite <-Z.pow_add_r by lia. do 2 f_equal. f_equal. lia.
Qed.

(** A small number, read as an address. *)
Definition address_of_uint (z : Z) : Address := mk_fixed (be_bytes 20 z) (length_be_bytes 20 z).
Lemma abi_uint_address z : 0 <= z < 2 ^ 160 → abi_uint z = abi_address (address_of_uint z).
Proof.
  intros Hz. unfold abi_uint. rewrite (be_bytes_app 12 20) by lia.
  rewrite (Z.div_small z) by (exact Hz). reflexivity.
Qed.

(** Two words of text. *)
Lemma text_words (text : list byte) (t0 t1 : bytes32) :
  take 32 text = fb_bytes t0 → take 32 (drop 32 text) = fb_bytes t1 →
  text = fb_bytes t0 ++ fb_bytes t1 ++ drop 64 text.
Proof.
  intros <- <-. rewrite <-(take_drop 32 text) at 1. f_equal.
  rewrite <-(take_drop 32 (drop 32 text)) at 1. by rewrite drop_drop.
Qed.

Section Misread.
Context (config : string) (verifier : Address) (t0 t1 : bytes32).
Local Abbreviation text := (String.list_byte_of_string config).

(** The encoding as words, with the head of the text in the last two. *)
Definition test_words : list (list byte) :=
  [abi_uint 96; abi_address test_token; abi_address verifier; abi_uint 0; abi_uint 20; abi_uint 10;
   abi_uint 3600; abi_uint 0; abi_uint 192; abi_uint (Z.of_nat (length text));
   fb_bytes t0; fb_bytes t1].

Lemma test_words_32 : Forall (λ w, length w = 32%nat) test_words.
Proof. repeat constructor; auto using length_abi_uint, length_abi_address, length_fb_bytes. Qed.

Lemma settings_data_enc :
  plugin_settings_data config verifier =
  concat (take 9 test_words) ++ enc_bytes text.
Proof.
  unfold plugin_settings_data, abi_encode_params, test_PluginSettingsData.
  rewrite enc_tuple. cbn [zip_with]. change (dynamic test_VotingSettings) with true.
  change (dynamic SAddress) with false. unfold test_VotingSettings, test_voting_settings.
  rewrite enc_tuple. cbn [zip_with dynamic enc].
  unfold enc_parts, head_size, tails. cbn [heads fmap list_fmap fst snd concat].
  rewrite !length_abi_uint, !length_abi_address.
  change (zsum [Z.of_nat 32; Z.of_nat 32; Z.of_nat 32; Z.of_nat 32; Z.of_nat 32; 32]) with 192.
  change (zsum [32; Z.of_nat 32; Z.of_nat 32]) with 96.
  cbn [take test_words concat]. by rewrite !app_nil_r, <-!app_assoc.
Qed.

Lemma settings_data_words :
  take 32 text = fb_bytes t0 → take 32 (drop 32 text) = fb_bytes t1 →
  plugin_settings_data config verifier = concat test_words ++ drop 64 text ++ padding text.
Proof.
  intros H0 H1. rewrite settings_data_enc. unfold enc_bytes.
  rewrite (text_words _ _ _ H0 H1) at 2. cbn [take test_words concat].
  by rewrite !app_nil_r, <-!app_assoc.
Qed.

(** What the setup contract reads. *)
Definition misread : VotingSettings :=
  mk_settings Standard 20 10 3600 0 config (address_of_uint (Z.of_nat (length text))) t0 t1.

Lemma decode_test_settings :
  take 32 text = fb_bytes t0 → take 32 (drop 32 text) = fb_bytes t1 →
  Z.of_nat (length text) < 2 ^ 63 →
  decode_settings (plugin_settings_data config verifier) = Done misread.
Proof.
  intros H0 H1 Hl.
  assert (string_at (plugin_settings_data config verifier) (96 + 192) = Done config) as Hstr.
  { rewrite settings_data_enc. apply (string_at_mid _ _ (concat (take 9 test_words)) config []).
    - by rewrite app_nil_r.
    - by rewrite (length_concat_words (take 9 test_words)) by (apply Forall_take, test_words_32).
    - rewrite length_app, (length_concat_words (take 9 test_words)) by (apply Forall_take, test_words_32).
      pose proof (length_enc_bytes text). change (length (take 9 test_words)) with 9%nat. lia. }
  unfold decode_settings. rewrite (settings_data_words H0 H1) in *.
  pose proof test_words_32 as Hws. set (rest := drop 64 text ++ padding text) in *.
  rewrite abi_head_concat by (done || (simpl; lia)). cbn [mbind evm_bind].
  rewrite (word_at_concat _ rest Hws 0 0 96) by (done || lia).
  change (revert_if (2 ^ 64 - 1 <? 96) RevertEmpty) with (Done tt). cbn [mbind evm_bind].
  assert ((Z.of_nat (length (concat test_words ++ rest)) <? 96 + 288) = false) as ->.
  { rewrite length_app, (length_concat_words _ Hws). simpl. apply Z.ltb_ge. lia. }
  unfold revert_if at 1. cbn [mbind evm_bind].
  rewrite (word_at_concat _ rest Hws 3 96 0) by (done || lia).
  change (VotingMode_of 0) with (Done Standard). cbn [mbind evm_bind].
  read_word (uint_at_concat _ rest Hws 32 4 (96 + 32) 20).
  read_word (uint_at_concat _ rest Hws 32 5 (96 + 64) 10).
  read_word (uint_at_concat _ rest Hws 64 6 (96 + 96) 3600).
  read_word (uint_at_concat _ rest Hws 256 7 (96 + 128) 0).
  rewrite (word_at_concat _ rest Hws 8 (96 + 160) 192) by (done || lia).
  change (revert_if (2 ^ 64 - 1 <? 192) RevertEmpty) with (Done tt). cbn [mbind evm_bind].
  rewrite Hstr. cbn [mbind evm_bind].
  rewrite (address_at_concat _ rest Hws 9 (96 + 192) (address_of_uint (Z.of_nat (length text)))).
  2: done. 2: { cbn [test_words lookup list_lookup]. f_equal. apply abi_uint_address. lia. }
  cbn [mbind evm_bind].
  read_word (bytes32_at_concat _ rest Hws 10 (96 + 224) t0).
  read_word (bytes32_at_concat _ rest Hws 11 (96 + 256) t1). done.
Qed.
End Misread.

(** The test and the deployment script look for the plugin in the same way;
    the script keeps every installation, the test the last. *)
Lemma address_of_topic_slice (t : bytes32) : fb_bytes (address_of_topic t) = drop 12 (fb_bytes t).
Proof.
  set (v := be_value (fb_bytes t)).
  assert (fb_bytes t = be_bytes (12 + 20) v) as ->.
  { change (12 + 20)%nat with 32%nat. pose proof (be_bytes_be_value (fb_bytes t)) as Hb.
    by rewrite length_fb_bytes in Hb. }
  rewrite be_bytes_app by apply be_value_range. rewrite drop_app_length' by (by rewrite length_be_bytes).
  apply be_bytes_mod. apply Z.mod_mod. done.
Qed.

Lemma installed_plugin_last {keccak : KeccakV256} logs acc found a :
  push_plugins logs acc = Done found →
  installed_plugin logs (default a (last acc)) = Ret (default a (last found)).
Proof.
  revert acc. induction logs as [|[topics] logs IH]; intros acc Hp; simpl in *; [by simplify_eq|].
  unfold topic in Hp. simpl in Hp. destruct topics as [|t topics]; [done|]. simpl in *.
  rewrite (bool_decide_ext (INSTALLATION_APPLIED = t) (t = INSTALLATION_APPLIED)) by done.
  case_bool_decide; [|by apply IH].
  destruct topics as [|t1 [|t2 topics]]; [done..|]. simpl in *.
  rewrite (proj2 (slice_Ret 12 32 (fb_bytes t2) (drop 12 (fb_bytes t2)))).
  2:{ rewrite length_fb_bytes. split; [lia|]. apply take_ge. rewrite length_drop, length_fb_bytes. lia. }
  simpl. destruct (fixed_try_from_length (n:=20) (drop 12 (fb_bytes t2))) as (x & -> & Hx).
  { by rewrite length_drop, length_fb_bytes. }
  simpl. apply IH in Hp. rewrite last_snoc in Hp. simpl in Hp. rewrite <-Hp. f_equal.
  apply fb_bytes_inj. by rewrite Hx, address_of_topic_slice.
Qed.

(** ** Properties *)

Definition config_bytes : list byte := String.list_byte_of_string voting_protocol_config.

Section Installed.
Context {osx : Osx} {keccak : KeccakV256}.
Context {manager : PermissionManager} {manager_ok : PermissionManagerOk manager}.

(** C32: The integration test installs a plugin with wrong settings, and
    on which it may not create its proposal.  Whatever verifier the test
    deployed, the settings it encodes are accepted and read with every later
    field displaced: the verifier becomes the account whose number is the
    length of the configuration text, and the image ids its first 64 bytes;
    and nobody but the DAO and an account fixed in the setup contract, which
    the test does not use, may create proposals. *)
Theorem integration_settings_misread dao verifier proxy o o' :
  osx_initialize dao o = Done o' →
  ∃ plugin permissions,
    prepareInstallation dao (encoded_plugin_settings_data verifier) proxy o =
      Done (plugin, ([], permissions)) ∧
    vs_votingProtocolConfig (pl_votingSettings plugin) = voting_protocol_config ∧
    vs_verifier (pl_votingSettings plugin) = address_of_uint (Z.of_nat (length config_bytes)) ∧
    fb_bytes (vs_votingProtocolImageId (pl_votingSettings plugin)) = take 32 config_bytes ∧
    fb_bytes (vs_executionProtocolImageId (pl_votingSettings plugin)) = take 32 (drop 32 config_bytes) ∧
    ∀ s s' msg metadata acts afm start end_,
      (∀ who p, granted s proxy who p = false) →
      applyMultiTargetPermissions permissions s = Done s' →
      (∀ p, msg_has_permission msg p = granted s' proxy (msg_sender msg) p) →
      msg_sender msg ≠ dao → msg_sender msg ≠ CREATOR →
      createProposal msg metadata acts afm start end_ plugin =
        Reverts (RevertError "DaoUnauthorized" []).
Proof.
  intros Ho.
  destruct (fixed_try_from_length (n:=32) (take 32 config_bytes)) as (t0 & _ & H0); [done|].
  destruct (fixed_try_from_length (n:=32) (take 32 (drop 32 config_bytes))) as (t1 & _ & H1); [done|].
  unfold config_bytes in *. set (st := misread voting_protocol_config t0 t1).
  assert (∃ plugin, initialize dao st (plugin_fresh o) = Done plugin) as [plugin Hinit].
  { unfold initialize. simpl. rewrite Ho. eexists. by apply update_settings_Done. }
  exists plugin. eexists. unfold prepareInstallation, encoded_plugin_settings_data.
  rewrite (decode_test_settings _ verifier t0 t1) by done. fold st. cbn [mbind evm_bind].
  rewrite Hinit. split; [reflexivity|].
  assert (pl_votingSettings plugin = st) as ->.
  { unfold initialize in Hinit. evm_inv. by apply update_settings_Done in Hinit as [_ ->]. }
  split_and!; [done..|].
  intros s s' msg metadata acts afm start end_ Hnone Happly Hperm Hdao Hcreator.
  unfold createProposal, auth. rewrite Hperm, (apply_entries _ _ _ _ _ _ Happly), Hnone.
  unfold entry_after. cbn [foldl mp_operation mp_where mp_who mp_permissionId].
  rewrite !bool_decide_eq_false_2 by naive_solver. done.
Qed.
End Installed.

Section Witness.
Import DeployFixture.

Lemma integration_settings_misread_witness :
  ∃ plugin permissions,
    prepareInstallation Fixture.dao (encoded_plugin_settings_data Fixture.erin) Fixture.plugin
      ((false, 0) : @OsxState PluginFixture.osx) = Done (plugin, ([], permissions)) ∧
    vs_verifier (pl_votingSettings plugin) = address_of_uint 288.
Proof.
  destruct (integration_settings_misread (manager := SetupFixture.manager)
    (manager_ok := SetupFixture.manager_ok) Fixture.dao Fixture.erin Fixture.plugin
    ((false, 0) : @OsxState PluginFixture.osx) ((true, 0) : @OsxState PluginFixture.osx))
    as (plugin & permissions & Hp & _ & Hv & _); [reflexivity|].
  exists plugin, permissions. split; [exact Hp|]. rewrite Hv. reflexivity.
Defined.
End Witness.
