(* ===== verification/VerifierStack.v ===== *)
(** * Verifiers that call each other, behind the plugin

    The contracts of [Verifiers] at addresses of a chain: a router forwards to
    the verifier of a selector, which may be an emergency stop in front of a
    Groth16 verifier.  A proof is checked by calls from one to the next, down
    to the EVM's limit of nested calls.  Removing a selector and stopping a
    verifier then reach the plugin, and so does the soundness of the proof
    system. *)

From stdpp Require Import base gmap list strings.
From Stdlib Require Import ZArith Lia Strings.Byte.
From S2P Require Import Prelude Machine Ethereum VoteSignature Fixtures GuestExecution GuestIO.
From S2P Require Import VotingGuest Abi HostFixture Solidity Steel Sha256 JournalDecode Plugin.
From S2P Require Import PluginFixture PluginCorrect Ballots StructHash Verifiers Governance.
#[local] Open Scope Z_scope.

(** ** Contracts at addresses *)

Inductive Contract : Type :=
| CGroth16 (d : Groth16Deployment)
| CMock (SELECTOR : bytes4)
| CRouter (s : Router)
| CStop (s : Stop).

Abbreviation Contracts := (gmap Address Contract).

(** The nesting of calls the EVM allows. *)
Definition CALL_DEPTH : nat := 1024.

Section Calls.
Context {sha : Sha256} {keccak : KeccakV256} {bn254 : Bn254}.

(** One call, given what the calls it makes answer.  An address without code
    fails the check that Solidity makes before a call. *)
Definition call_contract (inner : VerifierContracts) (w : Contracts) : VerifierContracts := {|
  contract_verify a seal imageId journalDigest :=
    match w !! a with
    | Some (CGroth16 d) => groth16_verify d seal imageId journalDigest
    | Some (CMock sel) => mock_verify sel seal imageId journalDigest
    | Some (CRouter s) => router_verify s seal imageId journalDigest
    | Some (CStop s) => stop_verify s seal imageId journalDigest
    | None => Reverts RevertEmpty
    end;
  contract_verifyIntegrity a receipt :=
    match w !! a with
    | Some (CGroth16 d) => groth16_verifyIntegrity d (sr_seal receipt) (sr_claimDigest receipt)
    | Some (CMock sel) => mock_verifyIntegrity sel (sr_seal receipt) (sr_claimDigest receipt)
    | Some (CRouter s) => router_verifyIntegrity s receipt
    | Some (CStop s) => stop_verifyIntegrity s receipt
    | None => Reverts RevertEmpty
    end
|}.

Fixpoint calls (depth : nat) (w : Contracts) : VerifierContracts :=
  match depth with
  | O => {| contract_verify _ _ _ _ := Reverts RevertEmpty;
            contract_verifyIntegrity _ _ := Reverts RevertEmpty |}
  | S depth => call_contract (calls depth w) w
  end.

(** What the plugin's call of a verifier answers. *)
Definition chain_verifiers (w : Contracts) : Verifiers :=
  {| verify_at := @contract_verify (calls CALL_DEPTH w) |}.

(** ** What happens to the contracts *)

Inductive contracts_step (w : Contracts) : Contracts → Prop :=
| step_deploy a c :
    w !! a = None →
    match c with
    | CGroth16 d => ∃ root id, groth16_constructor root id = Done d
    | CMock _ => True
    | CRouter s => s = ∅
    | CStop s => st_paused s = false
    end → contracts_step w (<[a := c]> w)
| step_route a s s' :
    w !! a = Some (CRouter s) → router_step s s' → contracts_step w (<[a := CRouter s']> w)
| step_stop a s s' :
    w !! a = Some (CStop s) → @stop_step (calls CALL_DEPTH w) s s' →
    contracts_step w (<[a := CStop s']> w).

(** A router that has removed a selector, or routes it to a stopped verifier. *)
Definition revoked (w : Contracts) (router : Address) (sel : bytes4) : Prop :=
  ∃ s, w !! router = Some (CRouter s) ∧
    (mapping_get UNSET s sel = TOMBSTONE ∨
     ∃ v stop, mapping_get UNSET s sel = v ∧ v ≠ UNSET ∧ w !! v = Some (CStop stop) ∧
       st_paused stop = true).
End Calls.

(** ** Revoked seals *)

Section Revoked.
Context {sha : Sha256} {keccak : KeccakV256} {bn254 : Bn254}.

Lemma revoked_step w w' router sel :
  contracts_step w w' → revoked w router sel → revoked w' router sel.
Proof.
  pose proof UNSET_not_TOMBSTONE as Hut.
  intros Hstep (r & Hr & Hrev).
  destruct Hstep as [a c Ha _|a s s' Ha Hs|a s s' Ha [Hrun ->]%stop_step_running].
  - exists r. split; [by rewrite lookup_insert_ne by congruence|].
    destruct Hrev as [?|(v & stop & ?&?& Hv &?)]; [by left|right; exists v, stop].
    by rewrite lookup_insert_ne by congruence.
  - destruct (decide (a = router)) as [->|Hne].
    + assert (s = r) as -> by congruence. exists s'. rewrite lookup_insert_eq. split; [done|].
      destruct Hrev as [Ht|(v & stop & Hv & Hu & Hstop & Hp)].
      * left. destruct (router_step_keeps _ _ sel Hs); congruence.
      * destruct (router_step_keeps _ _ sel Hs) as [?|He]; [congruence|by left|right].
        exists v, stop. rewrite lookup_insert_ne by congruence. by rewrite He.
    + exists r. rewrite lookup_insert_ne by done. split; [done|].
      destruct Hrev as [?|(v & stop & ?&?& Hv &?)]; [by left|right; exists v, stop].
      by rewrite lookup_insert_ne by congruence.
  - exists r. split; [by rewrite lookup_insert_ne by congruence|].
    destruct Hrev as [?|(v & stop & ?&?& Hv & Hp)]; [by left|right; exists v, stop].
    by rewrite lookup_insert_ne by congruence.
Qed.

Lemma revoked_steps w w' router sel :
  rtc contracts_step w w' → revoked w router sel → revoked w' router sel.
Proof. induction 1; eauto using revoked_step. Qed.

Lemma stopped_verify w n a stop seal imageId digest :
  w !! a = Some (CStop stop) → st_paused stop = true →
  contract_verify (VerifierContracts:=calls n w) a seal imageId digest ≠ Done tt.
Proof.
  intros Ha Hp. destruct n as [|n]; [done|]. simpl. rewrite Ha.
  unfold stop_verify, whenNotPaused. by rewrite Hp.
Qed.

Lemma revoked_verify w n router sel seal imageId digest :
  revoked w router sel → seal_head seal = Done sel →
  contract_verify (VerifierContracts:=calls n w) router seal imageId digest ≠ Done tt.
Proof.
  intros (s & Hs & Hrev) Hsel. destruct n as [|n]; [done|]. simpl. rewrite Hs.
  unfold router_verify, getVerifier_seal. rewrite Hsel. simpl.
  destruct (getVerifier s sel) as [v|] eqn:Hv; [|done]. simpl.
  apply getVerifier_Done in Hv as (Hv & _ & Ht).
  destruct Hrev as [?|(v' & stop & Hv' & _ & Hstop & Hp)]; [congruence|].
  eapply stopped_verify; [|exact Hp]. congruence.
Qed.

(** ** Where a proof is checked *)

(** The contract that a call of [verify] with the selector is passed on to. *)
Inductive forwards (w : Contracts) (sel : bytes4) (a : Address) : Address → Prop :=
| forward_router s v :
    w !! a = Some (CRouter s) → getVerifier s sel = Done v → forwards w sel a v
| forward_stop s :
    w !! a = Some (CStop s) → st_paused s = false → forwards w sel a (st_verifier s).

(** An accepted proof was accepted by a contract at the end of the calls. *)
Lemma calls_leaf w n a seal sel imageId digest :
  seal_head seal = Done sel →
  contract_verify (VerifierContracts:=calls n w) a seal imageId digest = Done tt →
  ∃ b c, rtc (forwards w sel) a b ∧ w !! b = Some c ∧
    match c with
    | CGroth16 d => groth16_verify d seal imageId digest = Done tt
    | CMock s => mock_verify s seal imageId digest = Done tt
    | CRouter _ | CStop _ => False
    end.
Proof.
  intros Hsel. revert a. induction n as [|n IH]; intros a H; [done|]. simpl in H.
  destruct (w !! a) as [[d|s|s|s]|] eqn:Ha; [by exists a, (CGroth16 d)|by exists a, (CMock s)|..|done].
  - unfold router_verify, getVerifier_seal in H. rewrite Hsel in H. simpl in H.
    destruct (getVerifier s sel) as [v|] eqn:Hv; [|done]. simpl in H.
    apply IH in H as (b & c & Hb & Hc). exists b, c. split; [|done].
    eapply rtc_l; [by eapply forward_router|done].
  - unfold stop_verify, whenNotPaused, revert_if in H.
    destruct (st_paused s) eqn:Hp; [done|]. simpl in H.
    apply IH in H as (b & c & Hb & Hc). exists b, c. split; [|done].
    eapply rtc_l; [by eapply forward_stop|done].
Qed.

(** A seal too short for a selector is refused by every contract but a chain
    of stops, and at its end. *)
Lemma no_selector_refused w n a seal imageId digest e :
  seal_head seal = Reverts e →
  contract_verify (VerifierContracts:=calls n w) a seal imageId digest ≠ Done tt.
Proof.
  intros Hsel. revert a. induction n as [|n IH]; intros a; [done|]. simpl.
  destruct (w !! a) as [[d|s|s|s]|]; [..|done].
  - unfold groth16_verify, groth16_verifyIntegrity. by rewrite Hsel.
  - unfold mock_verify, mock_verifyIntegrity. by rewrite Hsel.
  - unfold router_verify, getVerifier_seal. by rewrite Hsel.
  - unfold stop_verify, whenNotPaused, revert_if. destruct (st_paused s); [done|]. apply IH.
Qed.

(** A seal whose first bytes select a running Groth16 verifier behind an
    emergency stop is checked by that verifier. *)
Theorem routed_seal_checked w router r sel stop s d seal imageId digest :
  w !! router = Some (CRouter r) → getVerifier r sel = Done stop →
  w !! stop = Some (CStop s) → st_paused s = false →
  w !! st_verifier s = Some (CGroth16 d) → seal_head seal = Done sel →
  verify_at (Verifiers:=chain_verifiers w) router seal imageId digest =
  groth16_verify d seal imageId digest.
Proof.
  intros Hr Hsel Hstop Hp Hd Hs. cbn [verify_at chain_verifiers]. unfold CALL_DEPTH.
  change (calls 1024 w) with (call_contract (call_contract (call_contract (calls 1021 w) w) w) w).
  cbn [contract_verify call_contract]. rewrite Hr. unfold router_verify, getVerifier_seal.
  rewrite Hs. cbn [mbind evm_bind]. rewrite Hsel. cbn [mbind evm_bind contract_verify call_contract].
  rewrite Hstop. unfold stop_verify, whenNotPaused. rewrite Hp.
  cbn [revert_if mbind evm_bind contract_verify call_contract]. by rewrite Hd.
Qed.
End Revoked.

(** ** Properties *)

Section Properties.
Context {alloy : AlloyText} {keccak : KeccakV256} {k256 : K256} {steel : Steel}
  {serde : ZkvmSerde} {hex : HexCrate} {json : SerdeConfig} {abi : VotingJournalAbi}.
Context {osx : Osx} {sha : Sha256} {bn254 : Bn254}.

(** C28: Revoking a kind of proof is final for the plugin.  Once the router of a
    proposal has removed a selector, or routes it to a verifier that was
    stopped, then whatever is deployed, added, removed or stopped afterwards,
    no vote for the proposal and no execution of it is accepted with a seal of
    that selector. *)
Theorem revoked_seal_refused w w' sel msg data seal s j :
  let _ := chain_verifiers w' in
  let router := pp_verifier (pr_parameters (proposal_at s (vj_proposal_id j))) in
  revoked w router sel → rtc contracts_step w w' →
  decode_journal data = Done j → seal_head seal = Done sel →
  (∀ s', vote msg data seal s ≠ Done s') ∧ ∀ r, execute_begin msg data seal s ≠ Done r.
Proof.
  intros vs router Hrev Hsteps Hj Hsel. apply (revoked_steps _ _ _ _ Hsteps) in Hrev. split.
  - intros s' H. apply vote_Done in H as (j' & opt & t1 & t2 & Hj' & _ & Hp & _).
    assert (j' = j) as -> by congruence. apply check_proof_Done in Hp as (_ & _ & Hv).
    by eapply revoked_verify in Hv.
  - intros [id s'] (j' & Hj' & _ & -> & _ & Hp & _)%execute_begin_Done.
    assert (j' = j) as -> by congruence. apply check_proof_Done in Hp as (_ & _ & Hv).
    by eapply revoked_verify in Hv.
Qed.

(** The soundness of the proof system for one seal: the Groth16 verifier with
    the constants of [ControlID] accepts it only for a journal that the voting
    program committed. *)
Definition groth16_sound (imageId : bytes32) (data seal : list byte) : Prop :=
  ∀ d, groth16_constructor CONTROL_ROOT CONTROL_ID = Done d →
    groth16_verify d seal imageId (sha256 data) = Done tt → journal_proved data.

Context {typed : GuestTyped serde} {abi_ok : VotingAbiOk abi}.

(** C27: The plugin's guarantee holds behind any arrangement of routers and
    emergency stops.  If every chain of calls that starts at the proposal's
    verifier ends at a Groth16 verifier deployed with the constants of
    [ControlID], and that verifier is sound for the seal, then an accepted vote
    is backed in the snapshot block of the proposal, unless its journal
    collides with another one under SHA-256. *)
Theorem routed_vote_backed w msg data seal s s' j :
  let _ := chain_verifiers w in
  vote msg data seal s = Done s' → decode_journal data = Done j →
  let par := pr_parameters (proposal_at s (vj_proposal_id j)) in
  (∀ sel b c, rtc (forwards w sel) (pp_verifier par) b → w !! b = Some c →
     match c with
     | CGroth16 d => groth16_constructor CONTROL_ROOT CONTROL_ID = Done d
     | CMock _ => False
     | CRouter _ | CStop _ => True
     end) →
  groth16_sound (pp_votingProtocolImageId par) data seal →
  sha_collision data ∨
  ∃ i env cfg sharess, vote_backed i env cfg sharess ∧
    vi_config_contract i = msg_this msg ∧ vi_proposal_id i = vj_proposal_id j ∧
    vi_voter i = vj_voter j ∧ vi_balance i = vj_balance j ∧ vi_direction i = vj_direction j ∧
    com_digest (genv_commitment env) = pp_snapshotBlockHash par ∧
    com_id (genv_commitment env) mod 2 ^ 240 = pp_snapshotBlock par.
Proof.
  intros vs Hv Hj par Hleaves Hsound. eapply vote_sound; [exact Hv|exact Hj|].
  intros Hver. destruct (seal_head seal) as [sel|] eqn:Hsel; cycle 1.
  { by eapply no_selector_refused in Hver. }
  destruct (calls_leaf _ _ _ _ _ _ _ Hsel Hver) as (b & c & Hb & Hc & Hacc).
  specialize (Hleaves sel b c Hb Hc). destruct c as [d| | |]; try done. by eapply Hsound.
Qed.
End Properties.

(** ** A router, an emergency stop and a Groth16 verifier *)

Module StackFixture.
#[export] Existing Instances Fixture.alloy example_keccak example_k256 VotingFixture.steel
  HostFixture.serde VotingFixture.hex VotingFixture.json HostFixture.vabi.
#[export] Existing Instances PluginFixture.osx PluginFixture.sha.

(** Precompiles for which every pairing holds. *)
Definition bn254 : Bn254 := {|
  ecMul p _ := Some p; ecAdd p _ := Some p; ecPairing _ := Some 1
|}.
#[export] Existing Instance bn254.

Definition router : Address := PluginFixture.verifier.
Definition stop : Address := fixed_repeat 20 x61.
Definition groth16 : Address := fixed_repeat 20 x62.
Definition seal : list byte := replicate 4 x00 ++ replicate 256 x00.
Definition sel : bytes4 := PluginFixture.get (fixed_repeat 4 x01) (seal_head seal).
Definition d : Groth16Deployment :=
  PluginFixture.get (mk_g16_deployment 0 0 ZERO32 []) (groth16_constructor CONTROL_ROOT CONTROL_ID).
Definition chain (r : Router) (paused : bool) : Contracts :=
  <[router := CRouter r]> (<[stop := CStop (mk_stop paused groth16)]> {[groth16 := CGroth16 d]}).
Definition data : list byte := abi_encode_voting GovernanceFixture.honest.

Lemma chain_route r r' paused : <[router := CRouter r']> (chain r paused) = chain r' paused.
Proof. unfold chain. by rewrite insert_insert_eq. Qed.

Lemma stop_set : stop ≠ UNSET.
Proof. intros H. apply (f_equal fb_bytes) in H. discriminate H. Qed.

Lemma sel_removed : removeVerifier true sel {[sel := stop]} = Done {[sel := TOMBSTONE]}.
Proof.
  unfold removeVerifier, mapping_get. rewrite lookup_singleton_eq.
  rewrite (bool_decide_eq_false_2 (default UNSET (Some stop) = UNSET)) by apply stop_set.
  cbn. by rewrite insert_singleton_eq.
Qed.

Lemma d_deployed : groth16_constructor CONTROL_ROOT CONTROL_ID = Done d.
Proof. vm_compute. reflexivity. Qed.

Lemma data_proved : journal_proved data.
Proof.
  destruct GovernanceFixture.honest_run as (jb & Hjb & Hl).
  exists GovernanceFixture.honest_stdin, jb. split; [done|].
  cbn [sha256 PluginFixture.sha]. rewrite Hl. vm_compute. reflexivity.
Qed.

(** The vote passes with the chain running, and not once it is stopped. *)
Definition cast (w : Contracts) : bool :=
  is_done (@vote PluginFixture.osx (chain_verifiers w) PluginFixture.sha
    (PluginFixture.msg_at 1000) data seal GovernanceFixture.s_open).
Example stop_shows :
  cast <$> [chain {[sel := stop]} false; chain {[sel := stop]} true; chain ∅ false] =
  [true; false; false].
Proof. vm_compute. reflexivity. Qed.
End StackFixture.

(** ** The properties on the example *)

Import StackFixture.

Lemma revoked_seal_refused_witness : cast (chain {[sel := TOMBSTONE]} true) = false.
Proof.
  unfold cast. destruct (vote _ _ _ _) as [s'|] eqn:Hv; [exfalso|reflexivity].
  revert s' Hv. apply (revoked_seal_refused (chain {[sel := stop]} true)
    (chain {[sel := TOMBSTONE]} true) sel (PluginFixture.msg_at 1000) data seal
    GovernanceFixture.s_open GovernanceFixture.honest).
  - exists {[sel := stop]}. split; [reflexivity|]. right. exists stop, (mk_stop true groth16).
    split; [reflexivity|]. split; [exact stop_set|split; reflexivity].
  - apply rtc_once. rewrite <-(chain_route {[sel := stop]} {[sel := TOMBSTONE]}).
    apply (step_route _ router {[sel := stop]});
    [reflexivity|].
    apply (router_remove _ true sel). exact sel_removed.
  - apply GovernanceFixture.decode_encoded. split_and!; vm_compute; split; congruence.
  - vm_compute. reflexivity.
Defined.

Lemma routed_vote_backed_witness :
  sha_collision data ∨
  ∃ i env cfg sharess, vote_backed i env cfg sharess ∧ vi_balance i = 35.
Proof.
  destruct (@routed_vote_backed _ _ _ _ _ _ _ _ _ _ _ GovernanceFixture.guest_typed
    GovernanceFixture.abi_ok (chain {[sel := stop]} false) (PluginFixture.msg_at 1000) data seal
    GovernanceFixture.s_open GovernanceFixture.s_voted GovernanceFixture.honest)
    as [H|(i & env & cfg & ss & Hb & _ & _ & _ & Hbal & _)].
  - vm_compute. reflexivity.
  - apply GovernanceFixture.decode_encoded. split_and!; vm_compute; split; congruence.
  - intros sel' b c _. unfold chain. rewrite !lookup_insert_Some, lookup_singleton_Some.
    intros [[_ <-]|[_ [[_ <-]|[_ [_ <-]]]]]; [exact I|exact I|exact d_deployed].
  - intros d' _ _. exact data_proved.
  - left. exact H.
  - right. exists i, env, cfg, ss. split; [exact Hb|exact Hbal].
Defined.
