(* ===== verification/Census.v ===== *)
(** * How much can be counted

    The shares that all voters together claim from the accounts of a block,
    against the voting power these accounts hold.  A voter claims properly who
    names no account twice and, of the accounts that delegated to nobody, only
    their own; then no account is counted for more than twice its power. *)

From stdpp Require Import base gmap list strings.
From Stdlib Require Import ZArith Lia Strings.Byte.
From S2P Require Import Prelude Machine Ethereum VoteSignature Fixtures GuestVoting.
From S2P Require Import GuestDelegation GuestExecution GuestContext GuestIO VotingGuest.
#[local] Open Scope Z_scope.

(** ** Blocks *)

(** [env] shows a part of the block [block]: what it answers, the block does. *)
Definition shows (env block : GuestEvmEnv) : Prop :=
  genv_number env = genv_number block ∧
  ∀ addr c r, genv_view env addr c = Some r → genv_view block addr c = Some r.

Section Claims.
Context {alloy : AlloyText}.
Implicit Types (env block : GuestEvmEnv) (asset : Asset) (voter account : Address).

(** The power of an account, and the share of it that a voter can claim; zero
    where there is none. *)
Definition account_power block asset account : Z :=
  match process_voting_strategy (context_default block) (asset_voting_power_strategy asset)
          account asset with
  | Ret p => p
  | Panics _ => 0
  end.

Definition claim_share block asset voter account : Z :=
  match potential_delegate_delegation block voter asset account with
  | Ret (Some d) => account_power block asset account / ratio d
  | _ => 0
  end.

(** The voting power of all [holders] in all [assets]. *)
Definition census block (assets : list Asset) (holders : list Address) : Z :=
  zsum ((λ asset, zsum (account_power block asset <$> holders)) <$> assets).

(** ** What a guest sees, the block has *)

Lemma shows_registry env block asset pd r :
  shows env block → registry_of (genv_view env) asset pd = Some r →
  registry_of (genv_view block) asset pd = Some r.
Proof. intros [_ Hv] Hr. exact (Hv _ (CallRegistry _) _ Hr). Qed.

Lemma shows_delegates env block voter asset pd d :
  shows env block → delegates_to (genv_view env) voter asset pd d →
  delegates_to (genv_view block) voter asset pd d.
Proof.
  intros Hs [r Hr Hnil|r e Hr He Hnz].
  - eapply delegates_none; [by eapply shows_registry|done].
  - eapply delegates_split; [by eapply shows_registry|done..].
Qed.

Lemma shows_power env block asset account p :
  shows env block → power_at env asset account p → account_power block asset account = p.
Proof.
  intros [Hn Hv] Hp. unfold account_power.
  rewrite (proj2 (default_voting_power block asset account p)); [done|].
  destruct Hp as [p Hs Hc|p Hs Hc]; [by eapply power_balance_of, Hv|].
  eapply power_get_past_votes; [done|]. rewrite <-Hn. by apply Hv.
Qed.

Lemma account_power_nonneg block asset account :
  view_wf (genv_view block) → 0 <= account_power block asset account.
Proof.
  intros Hwf. unfold account_power.
  destruct (process_voting_strategy _ _ _ _) as [p|] eqn:Hp; [|done].
  apply default_voting_power in Hp as [p' _ Hc|p' _ Hc]; [eapply view_wf_u256_erc20 in Hc|
    eapply view_wf_u256_votes in Hc]; try done; unfold u256_wf in Hc; lia.
Qed.

Lemma delegates_to_delegate v voter asset pd d :
  delegates_to v voter asset pd d → delegate d = pd.
Proof. by intros []. Qed.

(** The shares of a backed vote are the claims on the accounts it names. *)
Lemma backs_claims env block voter additional asset addrs shares :
  shows env block → backs env voter additional asset shares →
  bytes_from_str additional = Some (concat (fb_bytes <$> addrs)) →
  shares = claim_share block asset voter <$> addrs ∧
  Forall (λ pd, ∃ d, delegates_to (genv_view block) voter asset pd d) addrs.
Proof.
  intros Hs (_ & addrs' & ds & Hd & Hds & Hsh) Hdata. rewrite Hdata in Hd.
  injection Hd as Hd. apply addresses_inj in Hd as <-. clear Hdata.
  revert shares Hsh. induction Hds as [|pd d addrs ds Hd Hds IH]; intros shares Hsh;
    inversion Hsh as [|? sh ? shares' (p & Hp & Hnz & ->) Hsh']; subst; [done|].
  destruct (IH _ Hsh') as [-> Hall]. pose proof (shows_delegates _ _ _ _ _ _ Hs Hd) as Hb.
  split; [|by constructor; eauto]. csimpl. f_equal. unfold claim_share.
  rewrite (proj2 (potential_delegate_Some _ _ _ _ _) Hb).
  rewrite <-(delegates_to_delegate _ _ _ _ _ Hd). by rewrite (shows_power _ _ _ _ _ Hs Hp).
Qed.

(** ** One account *)

Lemma claim_shares block asset account voters ds :
  Forall2 (λ v d, delegates_to (genv_view block) v asset account d) voters ds →
  (λ v, claim_share block asset v account) <$> voters =
  map (λ d, account_power block asset account / ratio d) ds.
Proof.
  induction 1 as [|v d voters ds Hd Hds IH]; [done|]. csimpl. rewrite IH. f_equal.
  unfold claim_share. by rewrite (proj2 (potential_delegate_Some _ _ _ _ _) Hd).
Qed.

(** Nobody but the account itself claims it when it delegated to nobody. *)
Definition own_only block asset account (voters : list Address) : Prop :=
  ∀ r v, registry_of (genv_view block) asset account = Some r → gdr_delegations r = [] →
    v ∈ voters → v = account.

Lemma own_claim block asset account r d v :
  registry_of (genv_view block) asset account = Some r → gdr_delegations r = [] →
  delegates_to (genv_view block) v asset account d → ratio d = 1.
Proof.
  intros Hr Hnil [r' Hr' _|r' e Hr' (pre & post & He & _) _]; [done|].
  rewrite Hr in Hr'. injection Hr' as <-. rewrite Hnil in He. by destruct pre.
Qed.

Lemma account_claims block asset account voters :
  view_wf (genv_view block) →
  (∀ r, registry_of (genv_view block) asset account = Some r → registry_ok r) →
  NoDup voters → Forall (λ v, ∃ d, delegates_to (genv_view block) v asset account d) voters →
  own_only block asset account voters →
  zsum ((λ v, claim_share block asset v account) <$> voters)
    <= 2 * account_power block asset account.
Proof.
  intros Hwf Hok Hnd (ds & Hds)%Forall_exists_Forall2_l Hown.
  pose proof (account_power_nonneg block asset account Hwf) as Hp.
  destruct voters as [|v voters]; [simpl; lia|].
  rewrite (claim_shares _ _ _ _ _ Hds).
  destruct (registry_of (genv_view block) asset account) as [r|] eqn:Hr; cycle 1.
  { inversion Hds as [|? d ? ds' [r Hr' _|r e Hr' _ _]]; subst; congruence. }
  destruct (decide (gdr_delegations r = [])) as [Hnil|Hne];
    [|by eapply shares_twice; eauto].
  destruct voters as [|v' voters].
  - inversion Hds as [|? d ? ds' Hd Hds']; subst. inversion Hds'; subst. simpl.
    rewrite (own_claim _ _ _ _ _ _ Hr Hnil Hd), Z.div_1_r. lia.
  - rewrite (Hown r v Hr Hnil ltac:(left)), (Hown r v' Hr Hnil ltac:(right; left)) in Hnd.
    apply NoDup_cons in Hnd as [[] _]. left.
Qed.

(** ** All voters *)

(** A voter with the accounts they name: each once, and of the accounts that
    delegated to nobody only their own. *)
Definition claims_properly block asset (b : Address * list Address) : Prop :=
  NoDup b.2 ∧ ∀ pd r, pd ∈ b.2 → registry_of (genv_view block) asset pd = Some r →
    gdr_delegations r = [] → pd = b.1.

Definition claims_granted block asset (b : Address * list Address) : Prop :=
  Forall (λ pd, ∃ d, delegates_to (genv_view block) b.1 asset pd d) b.2.

Lemma asset_claims block asset holders bs :
  view_wf (genv_view block) →
  (∀ pd r, pd ∈ holders → registry_of (genv_view block) asset pd = Some r → registry_ok r) →
  NoDup holders → NoDup bs.*1 → Forall (λ b, b.2 ⊆ holders) bs →
  Forall (claims_properly block asset) bs → Forall (claims_granted block asset) bs →
  zsum ((λ b, zsum (claim_share block asset b.1 <$> b.2)) <$> bs)
    <= 2 * zsum (account_power block asset <$> holders).
Proof.
  intros Hwf Hok Hnh Hnb Hsub Hprop Hgrant. rewrite Forall_forall in Hsub, Hprop, Hgrant.
  transitivity (zsum ((λ b, zsum ((λ pd, if decide (pd ∈ b.2) then
    claim_share block asset b.1 pd else 0) <$> holders)) <$> bs)).
  { apply zsum_le. intros b Hb. apply Z.eq_le_incl, zsum_subset; [by apply Hprop|done|].
    by apply Hsub. }
  rewrite zsum_swap, <-zsum_mul. apply zsum_le. intros pd Hpd.
  rewrite (zsum_filter (λ b, pd ∈ b.2) (λ b, claim_share block asset b.1 pd)).
  change (λ b, claim_share block asset b.1 pd) with
    ((λ v, claim_share block asset v pd) ∘ (fst : Address * list Address → Address)).
  rewrite list_fmap_compose.
  apply account_claims; try done; [intros r; by apply Hok| | |].
  - eapply sublist_NoDup; [done|]. apply fmap_sublist, sublist_filter.
  - apply Forall_fmap, Forall_forall. intros b [Hb Hin]%list_elem_of_filter.
    specialize (Hgrant b Hin). unfold claims_granted in Hgrant. rewrite Forall_forall in Hgrant.
    by apply Hgrant.
  - intros r v Hr Hnil ([v' l] & -> & [Hb Hin]%list_elem_of_filter)%list_elem_of_fmap.
    symmetry. by eapply (proj2 (Hprop _ Hin)).
Qed.

Lemma all_claims block assets holders bs :
  view_wf (genv_view block) →
  (∀ asset pd r, asset ∈ assets → pd ∈ holders →
     registry_of (genv_view block) asset pd = Some r → registry_ok r) →
  NoDup holders → NoDup bs.*1 → Forall (λ b, b.2 ⊆ holders) bs →
  Forall (λ asset, Forall (claims_properly block asset) bs) assets →
  Forall (λ asset, Forall (claims_granted block asset) bs) assets →
  zsum ((λ b, zsum ((λ asset, zsum (claim_share block asset b.1 <$> b.2)) <$> assets)) <$> bs)
    <= 2 * census block assets holders.
Proof.
  intros Hwf Hok Hnh Hnb Hsub Hprop Hgrant. rewrite Forall_forall in Hprop, Hgrant.
  rewrite zsum_swap. unfold census. rewrite <-zsum_mul. apply zsum_le. intros asset Ha.
  apply asset_claims; eauto.
Qed.
End Claims.

(** ** Votes the guest accepts *)

Section Votes.
Context {alloy : AlloyText} {keccak : KeccakV256} {k256 : K256} {steel : Steel}
  {serde : ZkvmSerde} {hex : HexCrate} {json : SerdeConfig} {abi : VotingJournalAbi}.
Implicit Types (env block : GuestEvmEnv).

(** The accounts an input names are among [holders] and claimed properly. *)
Definition honest_input block (assets : list Asset) (holders : list Address) (i : VotingInput) :
    Prop :=
  ∃ addrs, bytes_from_str (vi_additional_delegation_data i) = Some (concat (fb_bytes <$> addrs)) ∧
    addrs ⊆ holders ∧ Forall (λ asset, claims_properly block asset (vi_voter i, addrs)) assets.

Lemma Z_div_nonneg a b : 0 <= a → 0 <= b → 0 <= a / b.
Proof.
  intros Ha Hb. destruct (decide (b = 0)) as [->|]; [by rewrite Z.div_0_r|]. apply Z.div_pos; lia.
Qed.

Lemma claim_share_nonneg block asset voter account :
  view_wf (genv_view block) → 0 <= claim_share block asset voter account.
Proof.
  intros Hwf. unfold claim_share.
  destruct (potential_delegate_delegation _ _ _ _) as [[d|]|] eqn:Hd; try done.
  apply Z_div_nonneg; [by apply account_power_nonneg|].
  apply potential_delegate_Some in Hd as [r _ _|r e Hr He%first_entry_elem _]; [done|].
  apply Z_div_nonneg; [by apply Z.mod_pos_bound|].
  pose proof (view_wf_registry _ _ _ _ Hwf Hr) as Hall. rewrite Forall_forall in Hall.
  apply (Hall e He).
Qed.

Lemma backed_balance block env cfg ss i addrs :
  view_wf (genv_view block) → vote_backed i env cfg ss → shows env block →
  bytes_from_str (vi_additional_delegation_data i) = Some (concat (fb_bytes <$> addrs)) →
  vi_balance i <= zsum ((λ asset, zsum (claim_share block asset (vi_voter i) <$> addrs))
    <$> cfg_assets cfg) ∧
  Forall (λ asset, claims_granted block asset (vi_voter i, addrs)) (cfg_assets cfg).
Proof.
  intros Hwf (_ & _ & Hss & _ & _ & ->) Hshow Hdata.
  assert (zsum (concat ss) = zsum ((λ asset, zsum (claim_share block asset (vi_voter i) <$> addrs))
    <$> cfg_assets cfg) ∧
    Forall (λ asset, claims_granted block asset (vi_voter i, addrs)) (cfg_assets cfg)) as [-> ?].
  { induction Hss as [|asset sh assets ss Hb Hss [IH Hall]]; [done|].
    destruct (backs_claims _ _ _ _ _ _ _ Hshow Hb Hdata) as [-> Hg].
    csimpl. rewrite zsum_app, IH. split; [done|]. by constructor. }
  split; [|done]. apply Z.mod_le; [|done]. apply zsum_nonneg, Forall_fmap, Forall_true.
  intros asset. apply zsum_nonneg, Forall_fmap, Forall_true. intros pd.
  by apply claim_share_nonneg.
Qed.

(** Honest votes of distinct voters in one block together count at most twice
    the power of the accounts they can name. *)
Lemma votes_bounded block cfg holders vs :
  view_wf (genv_view block) →
  (∀ asset pd r, asset ∈ cfg_assets cfg → pd ∈ holders →
     registry_of (genv_view block) asset pd = Some r → registry_ok r) →
  NoDup holders → NoDup (vi_voter <$> vs) →
  Forall (λ i, honest_input block (cfg_assets cfg) holders i ∧
    ∃ env ss, vote_backed i env cfg ss ∧ shows env block) vs →
  zsum (vi_balance <$> vs) <= 2 * census block (cfg_assets cfg) holders.
Proof.
  intros Hwf Hok Hnh Hnv Hall.
  assert (∃ bs : list (Address * list Address), bs.*1 = vi_voter <$> vs ∧
    Forall (λ b, b.2 ⊆ holders ∧ Forall (λ asset, claims_properly block asset b ∧
      claims_granted block asset b) (cfg_assets cfg)) bs ∧
    zsum (vi_balance <$> vs) <= zsum ((λ b, zsum ((λ asset,
      zsum (claim_share block asset b.1 <$> b.2)) <$> cfg_assets cfg)) <$> bs))
    as (bs & Hbs & Hb & Hle).
  { clear Hnv. induction Hall as [|i vs ((addrs & Hd & Hsub & Hp) & env & ss & Hi & Hshow) Hall IH];
      [by exists []|].
    destruct IH as (bs & Hbs & Hb & Hle).
    destruct (backed_balance _ _ _ _ _ _ Hwf Hi Hshow Hd) as [Hbal Hg].
    exists ((vi_voter i, addrs) :: bs). csimpl. rewrite Hbs. split_and!; [done| |lia].
    constructor; [|done]. split; [done|]. by apply Forall_and. }
  etransitivity; [exact Hle|]. apply all_claims; [done..|by rewrite Hbs| | |];
    [|apply Forall_forall; intros asset Ha; apply Forall_forall; intros b Hin..];
    rewrite Forall_forall in Hb.
  - apply Forall_forall. intros b Hin. by apply Hb.
  - destruct (Hb b Hin) as [_ Hc]. rewrite Forall_forall in Hc. by apply Hc.
  - destruct (Hb b Hin) as [_ Hc]. rewrite Forall_forall in Hc. by apply Hc.
Qed.
End Votes.
