(* ===== verification/TallyBound.v ===== *)
(** * The tally of a proposal against the census of its snapshot

    Over a whole run of the plugin: when every proof was made for an input
    that claims properly, the votes counted for a proposal are at most twice
    the voting power at its snapshot block. *)

From stdpp Require Import base gmap list strings.
From Stdlib Require Import ZArith Lia Strings.Byte.
From S2P Require Import Prelude Machine Ethereum VoteSignature Fixtures GuestVoting GuestDelegation.
From S2P Require Import GuestExecution GuestContext GuestIO VotingGuest Abi HostFixture Solidity.
From S2P Require Import Steel Sha256 JournalDecode Plugin PluginFixture PluginCorrect Ballots.
From S2P Require Import Publisher EndToEnd Governance Census.
#[local] Open Scope Z_scope.

(** ** Runs *)

Section Runs.
Context {osx : Osx} {keccak : KeccakV256} {verifiers : Verifiers} {sha : Sha256}.
Context {osx_ok : OsxOk osx} {verifiers_ok : VerifiersOk verifiers}.

(** The calls of a plugin at address [this], with the journals of its votes. *)
Inductive run (this : Address) (s : Plugin) : list (list byte) → Plugin → Prop :=
| run_start : run this s [] s
| run_vote ds s' msg data seal s'' :
    run this s ds s' → msg_this msg = this → vote msg data seal s' = Done s'' →
    run this s (ds ++ [data]) s''
| run_other ds s' o s'' :
    run this s ds s' → step s' o s'' → (∀ id voter, o ≠ OpVote id voter) → run this s ds s''.

(** A counted vote was submitted, for this plugin, with a proof that the
    proposal's verifier accepted for its snapshot. *)
Definition submitted (this : Address) (ds : list (list byte)) (s : Plugin) (id : Z)
    (voter : Address) (opt : VoteOption) (power : Z) : Prop :=
  ∃ data seal j p, data ∈ ds ∧ decode_journal data = Done j ∧ pl_proposals s !! id = Some p ∧
    vj_proposal_id j = id ∧ vj_voter j = voter ∧ vj_balance j = power ∧
    VoteOption_of (vj_direction j) = Done opt ∧ vj_config_contract j = this ∧
    check_proof pp_votingProtocolImageId p (vj_commitment j) data seal = Done tt.

Lemma vote_is_step msg data seal s s' :
  vote msg data seal s = Done s' → ∃ id voter, step s (OpVote id voter) s'.
Proof.
  intros H. pose proof H as (j & opt & t1 & t2 & Hj & _)%vote_Done. do 2 eexists.
  by eapply step_vote.
Qed.

Lemma run_steps this s ds s' : run this s ds s' → ∃ os, steps s os s'.
Proof.
  induction 1 as [|ds s' msg data seal s'' _ [os Hos] _ Hv|ds s' o s'' _ [os Hos] Hstep _].
  - exists []. constructor.
  - apply vote_is_step in Hv as (id & voter & Hv). exists (os ++ [OpVote id voter]).
    eapply steps_app; [done|]. econstructor; [done|constructor].
  - exists (os ++ [o]). eapply steps_app; [done|]. econstructor; [done|constructor].
Qed.

(** Only votes log votes. *)
Lemma step_log s o s' id voter opt power :
  step s o s' → (∀ id voter, o ≠ OpVote id voter) →
  VoteCast id voter opt power ∈ pl_log s' → VoteCast id voter opt power ∈ pl_log s.
Proof.
  intros H Ho. destruct H as [dao st s' Hst H|msg st s' Hst H|msg metadata acts afm start end_ id' s'
    Hm Hs He H|msg data seal j s' Hj H|msg data seal id' s' H].
  - unfold initialize in H. evm_inv. apply update_settings_Done in H as [_ ->]. simpl.
    intros [?|?%list_elem_of_singleton]%elem_of_app; done.
  - unfold updateVotingSettings in H. evm_inv. apply update_settings_Done in H as [_ ->]. simpl.
    intros [?|?%list_elem_of_singleton]%elem_of_app; done.
  - by apply create_Done in H as (start' & end' & _ & _ & _ & _ & ->).
  - by destruct (Ho (vj_proposal_id j) (vj_voter j)).
  - by apply execute_begin_Done in H as (j & _ & _ & _ & _ & _ & ->).
Qed.

Lemma initialize_log dao st o s id voter opt power :
  initialize dao st (plugin_fresh o) = Done s → VoteCast id voter opt power ∉ pl_log s.
Proof.
  unfold initialize. intros H. evm_inv. apply update_settings_Done in H as [_ ->]. simpl.
  by intros ?%list_elem_of_singleton.
Qed.

(** A step keeps the proof checks of existing proposals. *)
Lemma submitted_step this ds s o s' id voter opt power :
  plugin_wf s → step s o s' → submitted this ds s id voter opt power →
  submitted this ds s' id voter opt power.
Proof.
  intros Hwf Hs (data & seal & j & p & Hin & Hj & Hp & Hid & Hv & Hb & Ho & Hc & Hproof).
  destruct (step_keeps _ _ _ _ _ Hwf Hs Hp) as (p' & Hp' & (Hpar & _) & _).
  exists data, seal, j, p'. split_and!; try done.
  rewrite check_proof_Done in *. by rewrite Hpar.
Qed.

Lemma submitted_more this ds data s id voter opt power :
  submitted this ds s id voter opt power → submitted this (ds ++ [data]) s id voter opt power.
Proof.
  intros (d & seal & j & p & Hin & H). exists d, seal, j, p. split; [|done].
  apply elem_of_app. by left.
Qed.

Lemma run_submitted this s ds s' :
  plugin_wf s → (∀ id voter opt power, VoteCast id voter opt power ∉ pl_log s) →
  run this s ds s' →
  ∀ id voter opt power, VoteCast id voter opt power ∈ pl_log s' →
    submitted this ds s' id voter opt power.
Proof.
  intros Hwf Hnone Hrun.
  induction Hrun as [|ds s' msg data seal s'' Hrun IH Hthis Hv|ds s' o s'' Hrun IH Hstep Ho];
    intros id voter opt power Hin; [by destruct (Hnone id voter opt power)| |];
    destruct (run_steps _ _ _ _ Hrun) as [os Hos]; pose proof (steps_wf _ _ _ Hos Hwf) as Hwf'.
  - destruct (vote_is_step _ _ _ _ _ Hv) as (id0 & v0 & Hstep).
    apply vote_Done in Hv as (j & o & t1 & t2 & Hj & Hc & Hp & _ & Hopt & _ & Hs).
    pose proof Hin as Hin'. rewrite Hs in Hin'. unfold emit in Hin'. simpl in Hin'.
    apply elem_of_app in Hin' as [Hin'|Hin'%list_elem_of_singleton];
      [by eapply submitted_step, submitted_more, IH|].
    injection Hin' as -> -> -> ->. eapply submitted_step; [done..|].
    exists data, seal, j, (proposal_at s' (vj_proposal_id j)). subst this.
    split_and!; try done; [apply elem_of_app; right; by apply list_elem_of_singleton|].
    by eapply check_proof_exists.
  - eapply submitted_step; [done..|]. eapply IH, step_log; done.
Qed.
End Runs.

(** ** The bound *)

Section Bound.
Context {alloy : AlloyText} {keccak : KeccakV256} {k256 : K256} {steel : Steel}
  {serde : ZkvmSerde} {hex : HexCrate} {json : SerdeConfig} {abi : VotingJournalAbi}.
Context {osx : Osx} {verifiers : Verifiers} {sha : Sha256}.
Context {typed : GuestTyped serde} {abi_ok : VotingAbiOk abi}.
Context {osx_ok : OsxOk osx} {verifiers_ok : VerifiersOk verifiers}.

(** The verifier accepts only proofs of the voting program on inputs with
    property [P]: [VerifierSound], and the provers keep to [P]. *)
Class ProofsOf (P : VotingInput → Prop) (verifier : Address) (imageId : bytes32) : Prop :=
  proofs_of seal digest :
    verify_at verifier seal imageId digest = Done tt →
    ∃ stdin i io journal,
      read_voting_input {| io_stdin := stdin; io_journal := [] |} = (Ret i, io) ∧ P i ∧
      run_guest voting_main stdin = Ret journal ∧ sha256 journal = digest.

(** Every environment that commits to the block hash [h] shows [block]. *)
Definition block_with_hash (h : bytes32) (block : GuestEvmEnv) : Prop :=
  ∀ input env, into_env input = Ret env → com_digest (genv_commitment env) = h → shows env block.

Variables (this : Address) (block : GuestEvmEnv) (cfg : RiscVotingProtocolConfig)
  (holders : list Address).

(** The input behind a ballot. *)
Definition ballot_input (voter : Address) (power : Z) (i : VotingInput) : Prop :=
  vi_voter i = voter ∧ vi_balance i = power ∧ honest_input block (cfg_assets cfg) holders i ∧
  ∃ env ss, vote_backed i env cfg ss ∧ shows env block.

(** [cfg] is the configuration of the proposal that the plugin answers in the
    block, if it answers one. *)
Definition config_at (id : Z) : Prop :=
  ∀ text c, genv_view block this (CallConfig {| cc_proposal_id := id |}) = Some text →
    config_from_str text = Some c → c = cfg.

Lemma submitted_input ds s id voter opt power p :
  pl_proposals s !! id = Some p →
  block_with_hash (pp_snapshotBlockHash (pr_parameters p)) block → config_at id →
  ProofsOf (honest_input block (cfg_assets cfg) holders) (pp_verifier (pr_parameters p))
    (pp_votingProtocolImageId (pr_parameters p)) →
  submitted this ds s id voter opt power →
  (∃ data, data ∈ ds ∧ sha_collision data) ∨ ∃ i, ballot_input voter power i.
Proof.
  intros Hp Hblock Hcfg Hproofs (data & seal & j & p' & Hin & Hj & Hp' & <- & <- & <- & _ &
    Hthis & (Hdig & _ & Hver)%check_proof_Done).
  rewrite Hp in Hp'. injection Hp' as <-.
  apply Hproofs in Hver as (stdin & i & io & jb & Hread & Hhonest & Hrun & Hsha).
  destruct (decide (jb = data)) as [->|Hne]; [right|left; exists data; split; [done|by exists jb]].
  apply guest_journal_read in Hrun as (i' & j' & io' & Hread' & Hst & Hwf & ->).
  rewrite Hread in Hread'. injection Hread' as <- <-.
  assert (j' = j) as ->.
  { pose proof (decode_encode_journal j' [] Hwf) as Hd. rewrite app_nil_r in Hd. congruence. }
  apply voting_statement_Ret in Hst as (_ & env & cfg' & ss & Hb & ->). simpl in *.
  exists i. split_and!; try done. exists env, ss.
  pose proof Hb as (Henv & (text' & Ht' & Hc') & _).
  pose proof (Hblock _ _ Henv Hdig) as Hshow.
  rewrite Hthis in Ht'. apply Hshow in Ht'. by rewrite (Hcfg _ _ Ht' Hc') in Hb.
Qed.

(** The sum of the tally is at most the sum of the ballots. *)
Lemma tally_total m :
  map_Forall (λ _ b, 0 <= b.2) m →
  let t := count_ballots m in tl_abstain t + tl_yes t + tl_no t <= map_sum snd m.
Proof.
  cbn zeta. unfold count_ballots. cbn [tl_abstain tl_yes tl_no].
  induction m as [|k [opt power] m Hk IH] using map_ind; [by rewrite !map_sum_empty|].
  intros [Hp Hm]%map_Forall_insert; [|done]. specialize (IH Hm). simpl in Hp.
  rewrite !map_sum_fresh by done. unfold weigh at 1 3 5. simpl.
  destruct opt; repeat case_bool_decide; try done; lia.
Qed.

(** No account that may be named has ratios whose sum wraps. *)
Definition no_wrapping : Prop :=
  ∀ asset pd r, asset ∈ cfg_assets cfg → pd ∈ holders →
    registry_of (genv_view block) asset pd = Some r → ratio_sum r < U256_MOD.

Lemma ballots_bounded ds s id p :
  view_wf (genv_view block) → no_wrapping →
  NoDup holders →
  pl_proposals s !! id = Some p →
  block_with_hash (pp_snapshotBlockHash (pr_parameters p)) block → config_at id →
  ProofsOf (honest_input block (cfg_assets cfg) holders) (pp_verifier (pr_parameters p))
    (pp_votingProtocolImageId (pr_parameters p)) →
  (∀ voter opt power, VoteCast id voter opt power ∈ pl_log s →
     submitted this ds s id voter opt power) →
  (∃ data, data ∈ ds ∧ sha_collision data) ∨
  map_sum snd (ballots id (pl_log s)) <= 2 * census block (cfg_assets cfg) holders.
Proof.
  intros Hwf Hok Hnh Hp Hblock Hcfg Hproofs Hsub.
  destruct (Exists_or_Forall (λ _, ∃ data, data ∈ ds ∧ sha_collision data)
    (λ kv, ∃ i, ballot_input kv.1 kv.2.2 i) (map_to_list (ballots id (pl_log s))))
    as [(kv & _ & ?)|Hall]; [|by left|right].
  { intros [voter [opt power]] Hin%elem_of_map_to_list. simpl.
    eapply submitted_input; [done..|]. eapply Hsub. by apply ballots_in_log. }
  apply Forall_exists_Forall2_l in Hall as [vs Hvs].
  rewrite map_sum_to_list. pose proof (NoDup_fst_map_to_list (ballots id (pl_log s))) as Hnd.
  assert (vi_voter <$> vs = (map_to_list (ballots id (pl_log s))).*1 ∧
    vi_balance <$> vs = (λ kv, kv.2.2) <$> map_to_list (ballots id (pl_log s)) ∧
    Forall (λ i, honest_input block (cfg_assets cfg) holders i ∧
      ∃ env ss, vote_backed i env cfg ss ∧ shows env block) vs) as (Hv & Hb & Hall).
  { clear Hnd. induction Hvs as [|[k [o w]] i l vs (Hv & Hb & Hi) Hvs (IHv & IHb & IH)]; [done|].
    csimpl. rewrite Hv, Hb, IHv, IHb. split_and!; [done..|by constructor]. }
  change (λ kv : Address * (VoteOption * Z), snd kv.2) with
    (λ kv : Address * (VoteOption * Z), kv.2.2).
  rewrite <-Hb. apply votes_bounded; try done; [|by rewrite Hv].
  intros asset pd r Ha Hpd Hr. eapply view_wf_registry_ok; eauto.
Qed.

(** C4: No more can be counted than twice what is there.  Take any run of the
    plugin from its initialization, and a proposal in it whose verifier
    accepts only proofs of the voting program for honest inputs: ones that
    name no account twice and, of the accounts that delegated to nobody, only
    the voter's own.  Let every environment that commits to the proposal's
    snapshot hash show one block, whose answers fit their ABI types, and let
    the accounts they name come from a list in which every account's ratios
    in the registry sum to less than 2^256, which the code does not check
    (see [split_delegation_wraps]).  Unless a submitted
    journal collides with another byte string under SHA-256, or a voter voted
    with two powers, the votes for, against and abstaining together are at
    most twice the voting power that the listed accounts hold at the snapshot
    block, over all assets of the configuration that the plugin answers for
    the proposal at that block, if it answers one. *)
Theorem tally_bounded o dao st s0 ds s id p :
  settings_typed st → initialize dao st (plugin_fresh o) = Done s0 → run this s0 ds s →
  pl_proposals s !! id = Some p → one_power id (pl_log s) →
  block_with_hash (pp_snapshotBlockHash (pr_parameters p)) block → view_wf (genv_view block) →
  no_wrapping → config_at id → NoDup holders →
  ProofsOf (honest_input block (cfg_assets cfg) holders) (pp_verifier (pr_parameters p))
    (pp_votingProtocolImageId (pr_parameters p)) →
  (∃ data, data ∈ ds ∧ sha_collision data) ∨
  tl_abstain (pr_tally p) + tl_yes (pr_tally p) + tl_no (pr_tally p)
    <= 2 * census block (cfg_assets cfg) holders.
Proof.
  intros Hst Hi Hrun Hp Hone Hblock Hwf Hok Hcfg Hnh Hproofs.
  destruct (run_steps _ _ _ _ Hrun) as [os Hos].
  assert (reachable s0) as Hr0 by (exists o, dao, st, s0, []; by split_and!; [..|constructor]).
  pose proof (reachable_steps _ _ _ Hr0 Hos) as Hr.
  assert (∀ voter opt power, VoteCast id voter opt power ∈ pl_log s →
    submitted this ds s id voter opt power) as Hsub.
  { intros voter opt power. apply (run_submitted this s0 ds s); [by apply reachable_plugin_wf| |done].
    intros ????. by eapply initialize_log. }
  destruct (ballots_bounded ds s id p) as [?|Hle]; try done; [by left|right].
  destruct (reachable_ballots s Hr id) as [_ Ht]. rewrite (proposal_at_Some _ _ _ Hp) in Ht.
  rewrite (Ht Hone). etransitivity; [apply tally_total|exact Hle].
  intros voter [opt power] Hb%ballots_in_log. apply Hsub in Hb as (data & seal & j & ? & _ & Hj & Hb).
  apply decode_journal_range in Hj. destruct Hb as (_ & _ & _ & <- & _). simpl. lia.
Qed.
End Bound.

(** ** A concrete run: carol votes for proposal 0 of the example plugin *)

Module TallyFixture.
#[export] Existing Instances Fixture.alloy example_keccak example_k256 VotingFixture.steel
  HostFixture.serde HostFixture.serde_ok VotingFixture.hex VotingFixture.json HostFixture.vabi.
#[export] Existing Instances PluginFixture.osx PluginWitness.osx_ok.

(** Carol names [addrs] and claims [balance]; the input and the words are the
    publisher's. *)
Definition args (addrs : list Address) (balance : Z) : Args :=
  mk_args 11155111 "key" "http://localhost:8545" (Some 7) (VotingFixture.signature x01)
    Fixture.carol Fixture.dao 0 2 balance Fixture.plugin Fixture.token
    (to_hex_string (concat (fb_bytes <$> addrs))) 0.
Definition input (addrs : list Address) (balance : Z) : VotingInput :=
  voting_input_of (args addrs balance) (0 : @EvmInput VotingFixture.steel).
Definition stdin (addrs : list Address) (balance : Z) : list Z :=
  publisher_stdin (args addrs balance) (0 : @EvmInput VotingFixture.steel).
Definition journal (balance : Z) : VotingJournal :=
  mk_voting_journal Fixture.commitment Fixture.plugin 0 Fixture.carol balance 2.

(** A hash under which the journal of [balance] votes has no collision, and a
    verifier for its digest. *)
Definition sha_of (balance : Z) : Sha256 := {|
  sha256 l := bytes32_of_uint
    (if bool_decide (l = abi_encode_voting (journal balance)) then 1 else 0)
|}.
Definition verifiers_of (balance : Z) : Verifiers := {|
  verify_at a seal _ digest :=
    if bool_decide (a = PluginFixture.verifier) && bool_decide (digest = bytes32_of_uint 1)
    then Done tt else Reverts RevertEmpty
|}.
#[export] Existing Instances GovernanceFixture.guest_typed GovernanceFixture.abi_ok.

Lemma verifiers_of_ok balance : VerifiersOk (verifiers_of balance).
Proof. by intros seal imageId digest. Qed.

Lemma no_collision balance :
  ¬ @sha_collision (sha_of balance) (abi_encode_voting (journal balance)).
Proof.
  intros (other & Hne & Hsha). unfold sha256, sha_of in Hsha.
  rewrite (bool_decide_eq_false_2 (other = _)), bool_decide_eq_true_2 in Hsha by done.
  apply (f_equal fb_bytes) in Hsha. vm_compute in Hsha. done.
Qed.

Definition holders : list Address :=
  [Fixture.alice; Fixture.bob; Fixture.carol; Fixture.dave; Fixture.erin].

Lemma registries_ok : no_wrapping Fixture.genv Fixture.config holders.
Proof.
  intros asset pd r _ _. unfold registry_of, ratio_sum. simpl. case_bool_decide; [|done].
  intros [= <-]. simpl. unfold Fixture.entries. by repeat case_bool_decide.
Qed.

Lemma honest : honest_input Fixture.genv (cfg_assets Fixture.config) holders
  (input [Fixture.carol; Fixture.bob] 35).
Proof.
  exists [Fixture.carol; Fixture.bob]. split; [vm_compute; reflexivity|]. split.
  - unfold holders. set_solver.
  - repeat constructor; cbn [fst snd].
    + intros Hin%list_elem_of_singleton%(f_equal fb_bytes). discriminate.
    + by intros ?%not_elem_of_nil.
    + intros pd r [->|[->|[]%not_elem_of_nil]%elem_of_cons]%elem_of_cons; [done|].
      unfold registry_of. simpl. intros [= <-]. done.
Qed.

Definition commits (addrs : list Address) (balance : Z) : bool :=
  match voting_statement (input addrs balance) with
  | Ret j => bool_decide (voting_journal_abi_encode j = abi_encode_voting (journal balance))
  | Panics _ => false
  end.
Lemma committed addrs balance :
  commits addrs balance = true →
  ∃ j, voting_statement (input addrs balance) = Ret j ∧
    voting_journal_abi_encode j = abi_encode_voting (journal balance).
Proof.
  unfold commits. destruct (voting_statement _) as [j|]; [|done].
  intros Hb%bool_decide_eq_true. by exists j.
Qed.

(** The guest's run behind an accepted digest. *)
Lemma run_behind addrs balance verifier seal imageId digest :
  args_wf (args addrs balance) → commits addrs balance = true →
  @verify_at (verifiers_of balance) verifier seal imageId digest = Done tt →
  ∃ io journal, read_voting_input {| io_stdin := stdin addrs balance; io_journal := [] |} =
      (Ret (input addrs balance), io) ∧
    run_guest voting_main (stdin addrs balance) = Ret journal ∧
    @sha256 (sha_of balance) journal = digest.
Proof.
  intros Hwf (j & Hj & Hjb)%committed. simpl. intros Hv. do 2 case_bool_decide; try done.
  subst digest. pose proof (run_publisher_stdin _ (0 : @EvmInput VotingFixture.steel) Hwf) as Hrun.
  unfold input in Hj. rewrite Hj in Hrun. cbn [mbind outcome_bind] in Hrun.
  do 2 eexists. split; [by apply read_publisher_stdin|]. split; [exact Hrun|].
  by rewrite Hjb, bool_decide_eq_true_2.
Qed.

Definition s_created : Plugin :=
  snd (PluginFixture.get (0, PluginFixture.s_zero)
    (createProposal (PluginFixture.msg_at 1000) [] PluginFixture.actions 0 0 0 PluginFixture.s_init)).
Definition s_voted (balance : Z) : Plugin :=
  PluginFixture.get s_created (@vote PluginFixture.osx (verifiers_of balance) (sha_of balance)
    (PluginFixture.msg_at 1000) (abi_encode_voting (journal balance)) [] s_created).

Lemma s_created_run {verifiers : Verifiers} {sha : Sha256} :
  run Fixture.plugin PluginFixture.s_init [] s_created.
Proof.
  apply (run_other _ _ [] PluginFixture.s_init (OpCreate 0)); [constructor| |done].
  apply (step_create _ (PluginFixture.msg_at 1000)
    [] PluginFixture.actions 0 0 0 0); [|lia|lia|vm_compute; reflexivity].
  unfold msg_typed. simpl. lia.
Qed.
End TallyFixture.

(** Carol's own votes and her half of bob's. *)
Module HonestRun.
Export TallyFixture.
Definition sha : Sha256 := sha_of 35.
Definition verifiers : Verifiers := verifiers_of 35.
#[export] Existing Instances sha verifiers.
Definition verifiers_ok : VerifiersOk verifiers := verifiers_of_ok 35.
#[export] Existing Instance verifiers_ok.

Lemma proofs verifier imageId :
  ProofsOf (honest_input Fixture.genv (cfg_assets Fixture.config) holders) verifier imageId.
Proof.
  intros seal digest Hv.
  destruct (run_behind [Fixture.carol; Fixture.bob] 35 verifier seal imageId digest)
    as (io & jb & Hread & Hrun & Hsha); [split_and!; by split|vm_compute; reflexivity|done|].
  do 4 eexists. split; [exact Hread|]. split; [exact honest|].
  split; [exact Hrun|exact Hsha].
Qed.

Lemma s_voted_run :
  run Fixture.plugin PluginFixture.s_init [abi_encode_voting (journal 35)] (s_voted 35).
Proof.
  apply (run_vote _ _ [] s_created (PluginFixture.msg_at 1000) _ []);
    [apply s_created_run|done|vm_compute; reflexivity].
Qed.
End HonestRun.

(** Bob's half, twenty times. *)
Module InflatedRun.
Export TallyFixture.
Definition sha : Sha256 := sha_of 500.
Definition verifiers : Verifiers := verifiers_of 500.
#[export] Existing Instances sha verifiers.

Lemma inflated_sound verifier imageId : VerifierSound verifier imageId.
Proof.
  intros seal digest Hv.
  destruct (run_behind (replicate 20 Fixture.bob) 500 verifier seal imageId digest)
    as (io & jb & _ & Hrun & Hsha); [split_and!; by split|vm_compute; reflexivity|done|].
  exists (stdin (replicate 20 Fixture.bob) 500), jb. split; [exact Hrun|exact Hsha].
Qed.
End InflatedRun.

Section Inflated.
Import InflatedRun.

(** Honest inputs are needed for that bound.  On the example chain, where all
    accounts together hold 220 votes, the voting program commits 500 votes for
    data that names bob twenty times; with a sound verifier, no collision and
    that single vote, the example plugin counts them. *)
Theorem tally_exceeds_census :
  ∃ s p, run_guest voting_main (stdin (replicate 20 Fixture.bob) 500) =
      Ret (abi_encode_voting (journal 500)) ∧
    run Fixture.plugin PluginFixture.s_init [abi_encode_voting (journal 500)] s ∧
    pl_proposals s !! 0 = Some p ∧ one_power 0 (pl_log s) ∧
    VerifierSound (pp_verifier (pr_parameters p)) (pp_votingProtocolImageId (pr_parameters p)) ∧
    ¬ sha_collision (abi_encode_voting (journal 500)) ∧
    tl_yes (pr_tally p) = 500 ∧
    census Fixture.genv (cfg_assets Fixture.config) holders = 220.
Proof.
  exists (s_voted 500), (proposal_at (s_voted 500) 0). split_and!.
  - vm_compute. reflexivity.
  - apply (run_vote _ _ [] s_created (PluginFixture.msg_at 1000) _ []);
      [apply s_created_run|done|vm_compute; reflexivity].
  - vm_compute. reflexivity.
  - assert (∃ a, pl_log (s_voted 500) =
      [VotingSettingsUpdated VoteReplacement 500000 0 3600 0; VoteCast 0 a OptYes 500])
      as [a ->] by (eexists; vm_compute; reflexivity).
    apply one_power_single.
  - apply inflated_sound.
  - apply no_collision.
  - vm_compute. reflexivity.
  - vm_compute. reflexivity.
Qed.
End Inflated.

Section Witnesses.
Import HonestRun.

Lemma tally_bounded_witness :
  ∃ p, pl_proposals (s_voted 35) !! 0 = Some p ∧ tl_yes (pr_tally p) = 35 ∧
    tl_abstain (pr_tally p) + tl_yes (pr_tally p) + tl_no (pr_tally p)
      <= 2 * census Fixture.genv (cfg_assets Fixture.config) holders.
Proof.
  destruct (pl_proposals (s_voted 35) !! 0) as [p|] eqn:Hp; [|vm_compute in Hp; discriminate Hp].
  exists p. split; [reflexivity|]. split; [vm_compute in Hp; injection Hp as <-; reflexivity|].
  destruct (tally_bounded Fixture.plugin Fixture.genv Fixture.config holders
    ((false, 0) : @OsxState PluginFixture.osx) Fixture.dao
    PluginFixture.settings PluginFixture.s_init [abi_encode_voting (journal 35)] (s_voted 35) 0 p)
    as [(data & Hin & Hc)|Hle]; [..|exact Hle].
  - unfold settings_typed. simpl. lia.
  - reflexivity.
  - apply s_voted_run.
  - exact Hp.
  - assert (∃ a, pl_log (s_voted 35) =
      [VotingSettingsUpdated VoteReplacement 500000 0 3600 0; VoteCast 0 a OptYes 35])
      as [a ->] by (eexists; vm_compute; reflexivity).
    apply one_power_single.
  - intros inp env. simpl. case_match; [|done]. intros [= <-] _. by split.
  - apply Fixture.view_wf_holds.
  - apply registries_ok.
  - intros text c [= <-] [= <-]. reflexivity.
  - apply (bool_decide_unpack _). vm_compute. exact I.
  - apply proofs.
  - apply list_elem_of_singleton in Hin as ->. by destruct (no_collision 35).
Defined.
End Witnesses.
